(* ===== verification/_CoqProject ===== *)
-Q . S2P
Prelude.v
Words.v
CString.v
Catalog.v
Stateful.v
Logic.v
Total.v
Pipe.v
Setup.v
SetupReader.v
Structure.v
StructureProps.v
Port.v
Query.v
QueryProps.v
QueryTheorems.v
Options.v
OptionsProps.v
OptionsTheorems.v
Gucs.v
Backend.v
Surroundings.v
Copy.v
CopyProps.v
Create.v
CreateProps.v
Hook.v
HookProps.v
HookTheorems.v
Os.v
Channel.v
ChannelLogic.v
ChannelProps.v
ChannelTheorems.v
Reports.v
Lifecycle.v
Exec.v
Chdb.v
HelperProc.v
HelperProps.v
HelperTheorems.v
Fair.v
Duplex.v
DuplexProps.v
DuplexTheorems.v
Wire.v
Sink.v
Send.v
SendProps.v
Source.v
ChannelWire.v
Insert.v
Receive.v
ReceiveProps.v
ReceiveLogic.v
ReceiveTheorems.v
ReceivePlain.v
Select.v
Reader.v
NativeSamples.v
ChdbQuery.v
EndToEnd.v
Assembly.v
