(* ===== verification/Prelude.v ===== *)
(** * A verification of pg_chdb

    pg_chdb lets Postgres read and write data through chDB, an embedded
    ClickHouse. It has two modules and a helper program:

    - the [chdb] extension (src/chdb.c) whose function [chdb_query] runs a query
      and returns its rows;
    - the [chdb_hook] module (src/hook/) that takes over COPY to and from a URL
      and CREATE TABLE from a URL;
    - [chdb_helper] (src/helper/chdb_helper.c), a process per statement that
      loads chDB. The backend (src/helper.c) forks it, sends it a setup payload
      over a pipe and then exchanges Native blocks with it (src/native.c).

    ** How the development is laid out

    Shared ground:
    - this file: outcomes of C code ([res]: a value, a raised error, undefined
      behaviour), Postgres error reports, list and string lemmas, tactics;
    - Words: machine-width integers and their object representation, in either
      byte order;
    - CString: strchr, strstr and prefixes on byte strings without NUL;
    - Catalog: the Postgres structures the code reads and builds, and the values
      of their rows;
    - Stateful: programs over a state that may raise or be undefined; Logic and
      Total: program logics over them, for what holds of a result and, with a
      guard for every event of a trace, of every call on the way, and the same
      with undefined behaviour excluded;
    - Fair: processes that take turns, and the rule by which they end;
    - Pipe: file descriptors read in arbitrary pieces with interruptions;
    - Port: the Postgres string comparisons, with a class of their laws;
    - Backend: the hook's calls whose effects matter, as events of a trace;
      Surroundings: a concrete server for the examples.

    Components, each with its definitions first:
    - Setup and SetupReader: the setup payload ([build_setup] of src/helper.c
      against [read_setup], [take1], [take2], [take_str] and the decoding part
      of [main] of src/helper/chdb_helper.c);
    - Structure and StructureProps: structure clauses ([structure_for_attnums],
      [structure_as_string], [format_lacks_time64] of src/hook/copy.c and
      [structure_on_one_line] of src/hook/hook.c);
    - Query, QueryProps and QueryTheorems: [make_ch_query] of src/hook/copy.c and
      the URL parsers it uses;
    - Options, OptionsProps and OptionsTheorems: [scheme_for] and
      [contextualize_options] of src/hook/hook.c;
    - Gucs: the settings of src/gucs.h and the casts that use them;
    - Copy and CopyProps: [chdb_copy] and [chdb_describe] of src/hook/copy.c;
    - Create and CreateProps: src/hook/create.c;
    - Hook, HookProps and HookTheorems: the privilege checks,
      [open_copy_relation] and [chDBProcessUtilityHook] of src/hook/hook.c;
    - Channel, ChannelProps and ChannelTheorems: the backend's side of the
      helper process, src/helper.c, over Os, the kernel as that file sees it
      (what each read, write, fork and wait answers is part of the state, and
      calls with an effect outside the process are logged), with ChannelLogic,
      a program logic for it; Reports: what a failed helper's report says;
      Lifecycle: starting a helper, and that nothing outlives it; Exec: the
      descriptors of the helper's program, [exec_helper];
    - HelperProc, HelperProps and HelperTheorems: the helper program,
      src/helper/chdb_helper.c, over Chdb, what it sees of libchdb: the objects
      it creates and destroys, and what libchdb answers;
    - Duplex, DuplexProps and DuplexTheorems: the loops of src/helper.c and a
      helper, one system call a step, over pipes and sockets that hold only so
      much;
    - Sink, Send and SendProps: COPY TO, from a scan to Native blocks
      ([nativeSink], [writer_for], [send_block] and [chdb_copy_send] of
      src/native.c), over Wire, the class of what a sink needs of a channel;
    - Source: Native blocks from what the helper sends ([nativeSource],
      [source_next]), over a class of what it needs of a channel; ChannelWire
      shows that the helper's channel is an instance of both classes;
    - Insert, Receive, ReceiveProps, ReceiveLogic, ReceiveTheorems and
      ReceivePlain: COPY FROM, from a row reader to the executor ([nativeInsert]
      and its operations, [defaults_for], [chdb_copy_receive] of src/native.c);
      the calls into the executor are a trace;
    - Select: [chdb_native_describe] and [chdb_select_receive] of src/native.c;
      Reader: how a row reader follows from a source of blocks; NativeSamples:
      concrete readers for the examples;
    - ChdbQuery: [chdb_query] of src/chdb.c;
    - EndToEnd: backend, channel, helper program and libchdb put together;
      Assembly: [chdb_copy] and [chdb_describe] over all of them.

    A definition has the name of its C function; [err_...] definitions are the
    error reports; the numbers and strings of the code are written out. C
    strings are byte lists. Integers are [Z] with the casts of the code written
    as [u8], [u16], [u32]. A StringInfo is the byte list it holds.

    ** What the theorems show

    - Safety of the hook: rows only move with the permissions, the row-level
      security and the read-only checks behind them ([moves_permitted]); a
      helper only starts for a URL whose scheme is known, with the role a file
      needs ([helpers_cleared]); a read-only tree stays as it is
      ([read_only_tree_kept]); a COPY is the hook's or goes on untouched, a
      CREATE TABLE from a URL goes on rewritten, and all else goes on untouched
      ([delegation]).
    - Meaning of the statements: [created_statement], [create_from_url_spec] and
      [create_from_url_refusals], [url_columns_spec], [contextualize_options_spec]
      and [contextualize_options_accepts], [scheme_for_spec],
      [chdb_copy_protocol].
    - The query sent to chDB: it is the print of an abstract query
      ([make_ch_query_refines]), its text does not depend on any value the user
      gives ([query_text_independent]), the parameter arrays suffice
      ([make_ch_query_bounds]), file paths are absolute
      ([file_query_absolute]), and URLs decompose as documented
      ([azure_url_parts], [abfs_url_parts], [gcs_url_forms]).
    - Structures: [structure_as_string] terminates on every text and is a
      substitution on the structures of a grammar, which leaves out quoted names
      with double quotes and parameters that spell the type
      ([structure_as_string_subst]); it is used as [copy_structure_types] says;
      the structure CREATE TABLE escapes is the one chDB reads, as far as chDB's
      unescaping keeps the laws of [unescapes] ([escape_roundtrip]).
    - The payload: a round trip for every payload and every way the pipe cuts
      it ([setup_roundtrip]), refusal of every proper prefix
      ([setup_truncation]).
    - The helper process, for any pieces, failures and interrupts of the system
      calls: what is received and sent arrives whole and in order, and only
      counts when the helper exits with status 0 ([recv_stream_spec],
      [write_spec], [finish_spec]); a start hands over the whole payload
      ([start_spec]); every descriptor is closed and every process waited for,
      once, on every path ([no_leak]); the helper's program finds its channels
      on the right descriptors ([exec_table]); a report says how the helper
      ended and what it said ([helper_report_spec], [helper_text_spec]).
    - The helper program: it runs exactly the command it was sent, with the
      session's limits, and loses none of libchdb's objects ([main_spec],
      [session_settings_spec]); its exit status is what the backend takes it
      for ([exit_status_spec]).
    - Both at once: they never wait for each other for ever, whatever the pipes
      hold, and everything is across when they end ([transfer_ends]); a COPY
      that succeeds is, from one end to the other, a load of exactly the rows
      scanned, or gives every row libchdb produced the one fate its relation
      has for it, which in a plain table is to be stored; and a DESCRIBE gives
      the names and types libchdb answers ([copy_to_end_to_end],
      [copy_from_end_to_end], [describe_end_to_end]).
    - Rows on their way out: the sink is a queue of bytes ([sink_refines]), and
      every row is sent once and in order, in blocks cut where the limit is
      reached ([chdb_copy_send_spec]).
    - Rows on their way in: the source gives the blocks of the whole output
      whatever pieces it comes in, and keeps to its error ([source_refines]); no
      row is stored unless it was completed, routed and checked
      ([copy_receive_admits]); in a COPY that succeeds every row of the stream
      has one [fate], and the trace is exactly what these fates make of it
      ([copy_receive_complete], [receive_invariant]); a plain table whose
      defaults do not look at what happened before gets what a loop without a
      buffer would store ([copy_receive_plain], under [Immutable], which a
      volatile default breaks); triggers never look past a buffer
      ([triggers_never_buffered]), bad streams raise ([copy_receive_refusals],
      [chdb_native_describe_spec]).
    - [chdb_query] sends one SELECT and returns the rows of the blocks it gets
      ([chdb_query_spec], [chdb_query_refusals]).
    - Where the code does less than it says: the two ends of the pipe disagree
      on the largest payload ([setup_limit_mismatch]); the memory limit keeps 16
      bits of a setting with 31 ([memory_limit_truncated]); chdb_query takes the
      end of what it can read for the end of the rows, whatever the output, where
      COPY FROM and DESCRIBE fail ([chdb_query_truncates]); in a COPY that never
      fills its buffer no default sees a row of it, so a volatile one misses
      them ([defaults_behind_buffer]).

    ** Fuel

    [structure_as_string] takes fuel; its length plus one is enough
    ([structure_as_string_subst] proves that it returns). [read_setup_loop]
    recurses on the pieces the pipe delivers. The loops of Channel and
    HelperProc take the number of bytes and answers still to come, and
    [take_blocks] one more than the length of the helper's output: running out
    would count as undefined behaviour, which the theorems on them exclude. The
    runs of Duplex have no fuel: [transfer_ends] finds the number of steps.

    ** What is a parameter, and what is not modelled

    Code outside src/ is a parameter: Postgres ([Server], [Executor], [Port], the
    readers of option arguments), pg-clickhouse-c and clickhouse-c
    ([PgClickhouse], [Encoder], [BlockDecoder], [RowReader], [BlockReader]) and
    libchdb (its answers, in Chdb). Each may answer anything, also depending on
    everything that happened before, and may fail; what the code relies on are
    the classes of laws beside them. Whether pg-clickhouse-c's reader fetches its
    first block when it is made or when its columns are asked for is left open
    ([reader_init_fetches]): the code looks at its error after either. The
    permission structures are those of Postgres 16 and later.

    Not modelled: memory contexts and freeing, which have no counterpart; signal
    dispositions and the parent-death signal of the helper; what waiting for a
    descriptor lets through besides a timeout, and the end of the process when
    the postmaster dies; module start-up (_PG_init) and the version function,
    which are glue; the vendored libraries. *)

From stdpp Require Export prelude strings pretty list.
From Stdlib Require Export ZArith Lia.
From Stdlib Require Import Strings.Byte.

(** ** Bytes and C strings

    A byte string is a list of bytes. A C string is the list of the bytes
    before its terminating NUL, so [strlen] is the length of the list and a
    pointer into a string is the number of bytes in front of it. *)

Abbreviation byte := Byte.byte.
Abbreviation bytes := (list Byte.byte).

(** A literal of the C source. *)
Definition b8 (s : string) : bytes := String.list_byte_of_string s.
Arguments b8 s%_string : simpl never.

#[export] Instance byte_eq_decision : EqDecision byte := Byte.byte_eq_dec.

(** [strlen], and every other size, as an integer. *)
Abbreviation zlen l := (Z.of_nat (length l)).

(** printf's [%d], [%u] and [%zu]. *)
Definition fmt_d (z : Z) : bytes := b8 (pretty z).

Definition DQUOTE : byte := x22.
Definition BACKSLASH : byte := x5c.
Definition NEWLINE : byte := x0a.
Definition RETURN : byte := x0d.

(** The text of a literal between double quotes. *)
Definition quoted (s : bytes) : bytes := DQUOTE :: s ++ [DQUOTE].

(** ** Fallible code

    [res E A] is the outcome of C code: a value, a failure [E] that leaves the
    function for good, or undefined behaviour. In the backend a failure is an
    [ereport(ERROR)], which unwinds to the transaction. In the helper it is
    [fail()], which writes a line and exits. *)

Inductive res (E A : Type) : Type :=
| Ok (a : A)
| Raise (e : E)
| UB.
Arguments Ok {E A} _.
Arguments Raise {E A} _.
Arguments UB {E A}.

#[export] Instance res_ret {E} : MRet (res E) := fun A a => Ok a.
#[export] Instance res_bind {E} : MBind (res E) := fun A B f m =>
  match m with
  | Ok a => f a
  | Raise e => Raise e
  | UB => UB
  end.
#[export] Instance res_fmap {E} : FMap (res E) := fun A B f m =>
  match m with
  | Ok a => Ok (f a)
  | Raise e => Raise e
  | UB => UB
  end.

(** A lookup the C code makes without a check of its own. *)
Definition or_ub {E A} (o : option A) : res E A :=
  match o with Some a => Ok a | None => UB end.

(** [if (cond) raise]. *)
Definition raise_if {E} (cond : bool) (e : E) : res E unit :=
  if cond then Raise e else Ok tt.

Definition is_Ok {E A} (r : res E A) : Prop := exists a, r = Ok a.

#[export] Instance is_Ok_dec {E A} (r : res E A) : Decision (is_Ok r).
Proof.
  refine (match r with Ok a => left (ex_intro _ a eq_refl) | _ => right _ end);
    intros [? ?]; discriminate.
Defined.

#[export] Instance res_eq_decision {E A} `{EqDecision E, EqDecision A} :
  EqDecision (res E A).
Proof. solve_decision. Defined.

Section res_lemmas.
Context {E A B : Type}.
Implicit Types (m : res E A) (f : A -> res E B).

Lemma bind_Ok m f b : (m ≫= f) = Ok b <-> exists a, m = Ok a /\ f a = Ok b.
Proof. destruct m; cbn; split; 
    [eauto|by intros (? & [= <-] & ?)|done|by intros (? & ? & ?)|done|by intros (? & ? & ?)]. Qed.

Lemma bind_UB m f :
  (m ≫= f) = UB <-> m = UB \/ exists a, m = Ok a /\ f a = UB.
Proof. destruct m; cbn; split; 
    [eauto|by intros [?|(? & [= <-] & ?)]|done|by intros [?|(? & ? & ?)]|auto|done]. Qed.

Lemma bind_Raise m f e :
  (m ≫= f) = Raise e <-> m = Raise e \/ exists a, m = Ok a /\ f a = Raise e.
Proof.
  destruct m; cbn; split;
    [eauto|by intros [?|(? & [= <-] & ?)]|intros [= ->]; auto
    |by intros [[= ->]|(? & ? & ?)]|done|by intros [?|(? & ? & ?)]].
Qed.

Lemma raise_if_Ok c (e : E) u : raise_if c e = Ok u <-> c = false.
Proof. destruct c, u; cbn; split; congruence. Qed.

Lemma raise_if_Raise c (e e' : E) : raise_if c e = Raise e' <-> c = true /\ e = e'.
Proof. destruct c; cbn; split; [intros [= ->]|intros [_ ->]|done|by intros [? ?]]; done. Qed.

Lemma raise_if_not_UB c (e : E) : raise_if c e <> UB.
Proof. destruct c; done. Qed.

Lemma or_ub_Ok (o : option A) a : @or_ub E A o = Ok a <-> o = Some a.
Proof. destruct o; cbn; split; congruence. Qed.
End res_lemmas.

(** ** Errors the backend reports *)

Inductive errcode : Type :=
| ERRCODE_INVALID_PARAMETER_VALUE
| ERRCODE_EXTERNAL_ROUTINE_EXCEPTION
| ERRCODE_BAD_COPY_FILE_FORMAT
| ERRCODE_PROGRAM_LIMIT_EXCEEDED
| ERRCODE_INSUFFICIENT_PRIVILEGE
| ERRCODE_FEATURE_NOT_SUPPORTED
| ERRCODE_WRONG_OBJECT_TYPE
| ERRCODE_FDW_INVALID_STRING_FORMAT
| ERRCODE_SYNTAX_ERROR
| ERRCODE_DUPLICATE_TABLE
| ERRCODE_INVALID_NAME
| ERRCODE_INTERNAL_ERROR   (** what [elog(ERROR)] reports *)
| ERRCODE_FROM_ERRNO.      (** [errcode_for_socket_access], [errcode_for_file_access] *)

#[export] Instance errcode_eq_decision : EqDecision errcode.
Proof. solve_decision. Defined.

Record error : Type := Error {
  sqlstate : errcode;
  errmsg : bytes;
  errdetail : option bytes;
  errhint : option bytes;
  errcontext : option bytes;
}.

#[export] Instance error_eq_decision : EqDecision error.
Proof. solve_decision. Defined.

(** [ereport(ERROR, errcode(c), errmsg(m))]. *)
Definition ereport (c : errcode) (m : bytes) : error := Error c m None None None.
Definition with_detail (d : bytes) (e : error) : error :=
  Error (sqlstate e) (errmsg e) (Some d) (errhint e) (errcontext e).
Definition with_hint (h : bytes) (e : error) : error :=
  Error (sqlstate e) (errmsg e) (errdetail e) (Some h) (errcontext e).
Definition with_context (c : bytes) (e : error) : error :=
  Error (sqlstate e) (errmsg e) (errdetail e) (errhint e) (Some c).
(** [elog(ERROR, m)]. *)
Definition elog_error (m : bytes) : error := ereport ERRCODE_INTERNAL_ERROR m.

(** ** Shared list lemmas *)

Section lists.
Context {A : Type}.
Implicit Types l k : list A.

(** Elements with a separator between them. *)
Fixpoint join (sep : list A) (ls : list (list A)) : list A :=
  match ls with
  | [] => []
  | [l] => l
  | l :: ls => l ++ sep ++ join sep ls
  end.

Lemma join_snoc sep ls l :
  ls <> [] -> join sep (ls ++ [l]) = join sep ls ++ sep ++ l.
Proof.
  induction ls as [|x [|y ls] IH]; intros Hne; [done|reflexivity|].
  change (x ++ sep ++ join sep ((y :: ls) ++ [l])
          = (x ++ sep ++ join sep (y :: ls)) ++ sep ++ l).
  rewrite IH by done. by rewrite <-!app_assoc.
Qed.

Lemma drop_take_app n l : drop n l ++ [] = drop n l.
Proof. apply app_nil_r. Qed.

Lemma lookup_split l i x :
  l !! i = Some x -> l = take i l ++ x :: drop (S i) l.
Proof. intros H. symmetry. by apply take_drop_middle. Qed.

Lemma prefix_app_inv (l1 l2 k1 k2 : list A) :
  l1 ++ k1 = l2 ++ k2 -> length l1 = length l2 -> l1 = l2 /\ k1 = k2.
Proof. intros. by apply app_inj_1. Qed.
End lists.

Lemma bind_snoc {A B} (f : A -> list B) l x : (l ++ [x]) ≫= f = (l ≫= f) ++ f x.
Proof. by rewrite bind_app, bind_singleton. Qed.

Lemma filter_all {A} (P : A -> Prop) `{!forall x, Decision (P x)} l :
  Forall P l -> filter P l = l.
Proof. induction 1; [done|]. rewrite filter_cons, decide_True by done. by f_equal. Qed.

(** ** Automation *)

Create HintDb chdb.
Create Rewrite HintDb chdb_len.
#[export] Hint Rewrite @length_app @length_take @length_drop @length_rev
  @length_cons @length_nil : chdb_len.

(** Destructs the binds of a computation known to have succeeded. *)
Ltac inv_ok :=
  repeat match goal with
  | H : mbind _ _ = Ok _ |- _ => apply bind_Ok in H as (? & ? & H)
  | H : raise_if _ _ = Ok _ |- _ => apply raise_if_Ok in H
  | H : or_ub _ = Ok _ |- _ => apply or_ub_Ok in H
  | H : Ok _ = Ok _ |- _ => injection H as H; subst
  | H : mret _ = Ok _ |- _ => injection H as H; subst
  | H : Raise _ = Ok _ |- _ => discriminate H
  | H : UB = Ok _ |- _ => discriminate H
  | x : unit |- _ => destruct x
  end.

(** Destructs the scrutinee of a match in the goal. *)
Ltac split_match :=
  match goal with
  | |- context [match ?e with _ => _ end] => destruct e eqn:?
  end.

(** Arithmetic on the lengths of lists. *)
Ltac len := autorewrite with chdb_len in *; cbn [length] in *; lia.

(** A closed goal, by evaluating it. *)
Ltac concrete :=
  first
    [ reflexivity
    | solve [apply (bool_decide_unpack _); vm_compute; exact I]
    | lazymatch goal with
      | |- forall _, _ => intros; concrete
      | |- _ /\ _ => split; concrete
      | |- (_ < _)%nat => vm_compute; lia
      | |- (_ <= _)%nat => vm_compute; lia
      | |- (_ <= _)%Z => vm_compute; discriminate
      | |- _ <> _ => vm_compute; discriminate
      | |- Forall ?P ?l =>
          let l' := eval vm_compute in l in
          change (Forall P l');
          lazymatch l' with
          | [] => apply Forall_nil_2
          | _ => apply Forall_cons_2; concrete
          end
      | _ => progress hnf; concrete
      end ].
