(* ===== verification/Words.v ===== *)
(** * Words: fixed-width unsigned integers and their object representation

    The casts the C code writes ([(uint16_t)x], [(uint32_t)x]) are [wrap], and
    the bytes [memcpy] and [appendBinaryStringInfo] move for an integer object
    are [native_bytes], in the machine's own byte order: the development is
    generic in it, a section variable [little]. *)

From stdpp Require Import prelude.
From Stdlib Require Import Strings.Byte.
From S2P Require Import Prelude.
Local Open Scope Z_scope.

(** ** Casts *)

(** Conversion to a [w]-bit unsigned type. *)
Definition wrap (w z : Z) : Z := z mod 2 ^ w.
Definition u8 (z : Z) : Z := wrap 8 z.
Definition u16 (z : Z) : Z := wrap 16 z.
Definition u32 (z : Z) : Z := wrap 32 z.
Definition u64 (z : Z) : Z := wrap 64 z.

(** A value of a [w]-bit unsigned type. *)
Definition fits (w z : Z) : Prop := 0 <= z < 2 ^ w.

#[export] Instance fits_dec w z : Decision (fits w z).
Proof. unfold fits. apply _. Defined.

Lemma wrap_fits w z : 0 <= w -> fits w (wrap w z).
Proof. intros. apply Z.mod_pos_bound. lia. Qed.

Lemma wrap_id w z : fits w z -> wrap w z = z.
Proof. apply Z.mod_small. Qed.

(** ** Object representation *)

Definition byte_of_Z (z : Z) : byte := default x00 (Byte.of_N (Z.to_N (z mod 256))).
Definition Z_of_byte (b : byte) : Z := Z.of_N (Byte.to_N b).

Lemma Z_of_byte_range b : 0 <= Z_of_byte b < 256.
Proof. unfold Z_of_byte. pose proof (Byte.to_N_bounded b). lia. Qed.

Lemma Z_of_byte_of_Z z : Z_of_byte (byte_of_Z z) = z mod 256.
Proof.
  unfold byte_of_Z, Z_of_byte.
  pose proof (Z.mod_pos_bound z 256 ltac:(lia)) as Hb.
  destruct (Byte.of_N (Z.to_N (z mod 256))) as [b|] eqn:Hof.
  - apply Byte.to_of_N in Hof. cbn. rewrite Hof. lia.
  - apply Byte.of_N_None_iff in Hof. lia.
Qed.

(** Least significant byte first. *)
Fixpoint le_bytes (n : nat) (z : Z) : bytes :=
  match n with
  | O => []
  | S n => byte_of_Z z :: le_bytes n (z / 256)
  end.

Fixpoint le_value (bs : bytes) : Z :=
  match bs with
  | [] => 0
  | b :: bs => Z_of_byte b + 256 * le_value bs
  end.

Lemma length_le_bytes n z : length (le_bytes n z) = n.
Proof. revert z; induction n; intros; cbn; auto. Qed.

Lemma le_value_bytes n z : le_value (le_bytes n z) = z mod 2 ^ (8 * Z.of_nat n).
Proof.
  revert z; induction n as [|n IH]; intros z; cbn [le_bytes le_value].
  - by rewrite Z.mod_1_r.
  - rewrite IH, Z_of_byte_of_Z.
    replace (2 ^ (8 * Z.of_nat (S n))) with (256 * 2 ^ (8 * Z.of_nat n)).
    + rewrite Z.rem_mul_r; lia.
    + replace (8 * Z.of_nat (S n)) with (8 + 8 * Z.of_nat n) by lia.
      rewrite Z.pow_add_r by lia. done.
Qed.

Lemma le_value_range bs : 0 <= le_value bs < 2 ^ (8 * Z.of_nat (length bs)).
Proof.
  induction bs as [|b bs IH]; cbn [le_value length]; [lia|].
  pose proof (Z_of_byte_range b).
  replace (8 * Z.of_nat (S (length bs))) with (8 + 8 * Z.of_nat (length bs)) by lia.
  rewrite Z.pow_add_r by lia. change (2 ^ 8) with 256. lia.
Qed.

Section native.
Context (little : bool).

Definition native_bytes (n : nat) (z : Z) : bytes :=
  if little then le_bytes n z else rev (le_bytes n z).

Definition native_value (bs : bytes) : Z :=
  if little then le_value bs else le_value (rev bs).

Lemma length_native_bytes n z : length (native_bytes n z) = n.
Proof.
  unfold native_bytes. destruct little; rewrite ?length_rev; apply length_le_bytes.
Qed.

Lemma native_value_bytes n z :
  native_value (native_bytes n z) = z mod 2 ^ (8 * Z.of_nat n).
Proof.
  unfold native_value, native_bytes. destruct little; rewrite ?rev_involutive;
    apply le_value_bytes.
Qed.

Lemma native_value_fits n bs :
  length bs = n -> fits (8 * Z.of_nat n) (native_value bs).
Proof.
  intros <-. unfold fits, native_value. destruct little; [apply le_value_range|].
  rewrite <-(length_rev bs). apply le_value_range.
Qed.
End native.

#[export] Hint Rewrite @length_native_bytes @length_le_bytes : chdb_len.
#[export] Hint Resolve wrap_fits : chdb.
