(* ===== verification/CString.v ===== *)
(** * CString: the string functions the C code calls

    [strchr], [strstr] and [strncmp] of the C library, on strings without
    their terminating NUL. A returned pointer is an offset into the string, so
    [p + n] is [drop (i + n) s] and [pnstrdup(s, p - s)] is [take i s]. *)

From stdpp Require Import prelude.
From Stdlib Require Import Strings.Byte.
From S2P Require Import Prelude.

(** [strchr(s, c)] for a [c] other than NUL. *)
Fixpoint strchr (s : bytes) (c : byte) : option nat :=
  match s with
  | [] => None
  | x :: s => if decide (x = c) then Some O else S <$> strchr s c
  end.

(** A C string in a buffer: the bytes before the first NUL. *)
Fixpoint cstr (b : bytes) : bytes :=
  match b with
  | [] => []
  | c :: b => if decide (c = x00) then [] else c :: cstr b
  end.

(** [strncmp(s, p, strlen(p)) == 0]. *)
Fixpoint has_prefix (p s : bytes) : bool :=
  match p, s with
  | [], _ => true
  | x :: p, y :: s => if decide (x = y) then has_prefix p s else false
  | _ :: _, [] => false
  end.

(** [strstr(s, p)]. *)
Fixpoint strstr (s p : bytes) : option nat :=
  if has_prefix p s then Some O
  else
    match s with
    | [] => None
    | _ :: s => S <$> strstr s p
    end.

Section lemmas.
Implicit Types s p r : bytes.

Lemma cstr_id b : x00 ∉ b -> cstr b = b.
Proof.
  induction b as [|c b IH]; [done|]. cbn. intros Hn. rewrite decide_False by set_solver.
  f_equal. apply IH. set_solver.
Qed.

Lemma has_prefix_spec p s : has_prefix p s = true <-> exists r, s = p ++ r.
Proof.
  revert s; induction p as [|x p IH]; intros s; cbn; [by split; eauto|].
  destruct s as [|y s]; [by split; [|intros [??]]|].
  destruct (decide (x = y)) as [->|Hne].
  - rewrite IH. split; intros [r Hr]; exists r; by simplify_eq.
  - by split; [|intros [??]; simplify_eq].
Qed.

Lemma has_prefix_app p r : has_prefix p (p ++ r) = true.
Proof. apply has_prefix_spec; eauto. Qed.

Lemma strchr_Some s c i :
  strchr s c = Some i <-> s !! i = Some c /\ c ∉ take i s.
Proof.
  revert i; induction s as [|x s IH]; intros i; cbn; [by split; [|intros [? _]]|].
  destruct (decide (x = c)) as [->|Hne].
  - split; [intros [= <-]; split; [done|apply not_elem_of_nil]|].
    intros [Hi Hn]. destruct i as [|i]; [done|]. cbn in Hn. set_solver.
  - rewrite fmap_Some. split.
    + intros (j & Hj & ->). apply IH in Hj as [Hj Hn]. split; [done|]. cbn. set_solver.
    + intros [Hi Hn]. destruct i as [|i]; cbn in *; [by simplify_eq|].
      exists i. split; [|done]. apply IH. set_solver.
Qed.

Lemma strchr_None s c : strchr s c = None <-> c ∉ s.
Proof.
  induction s as [|x s IH]; cbn; [by split; [intros _; apply not_elem_of_nil|]|].
  destruct (decide (x = c)) as [->|Hne]; [set_solver|].
  rewrite fmap_None, IH. set_solver.
Qed.

(** The first occurrence splits the string. *)
Lemma strchr_app s r c : c ∉ s -> strchr (s ++ c :: r) c = Some (length s).
Proof.
  induction s as [|x s IH]; cbn; intros Hn; [by rewrite decide_True|].
  rewrite decide_False, IH by set_solver. done.
Qed.

Lemma strchr_app_None s r c : c ∉ s -> c ∉ r -> strchr (s ++ r) c = None.
Proof. intros. apply strchr_None. set_solver. Qed.

Lemma strchr_split s c i :
  strchr s c = Some i -> s = take i s ++ c :: drop (S i) s /\ c ∉ take i s.
Proof. intros [Hl Hn]%strchr_Some. split; [by apply lookup_split|done]. Qed.

Lemma strstr_split s p i :
  strstr s p = Some i -> s = take i s ++ p ++ drop (i + length p) s.
Proof.
  revert i; induction s as [|x s IH]; intros i; cbn [strstr];
    (destruct (has_prefix p _) eqn:Hp;
     [intros [= <-]; apply has_prefix_spec in Hp as [r Hr]; rewrite Hr; cbn;
      by rewrite drop_app_length|]); [done|].
  intros (j & Hj & ->)%fmap_Some. cbn. f_equal. by apply IH.
Qed.

(** A needle that cannot begin inside [s] is found right after it. *)
Lemma strstr_app s c p r :
  c ∉ s -> strstr (s ++ c :: p ++ r) (c :: p) = Some (length s).
Proof.
  intros Hn. induction s as [|x s IH].
  - cbn [app length strstr]. change (c :: p ++ r) with ((c :: p) ++ r).
    by rewrite has_prefix_app.
  - cbn [app strstr has_prefix]. rewrite decide_False by set_solver.
    rewrite IH by set_solver. done.
Qed.

Lemma strstr_singleton s c : strstr s [c] = strchr s c.
Proof.
  induction s as [|x s IH]; cbn [strstr strchr has_prefix]; [done|].
  rewrite IH. repeat case_decide; congruence || done.
Qed.

Lemma take_strchr_le s c i : strchr s c = Some i -> (i < length s)%nat.
Proof. intros [Hl _]%strchr_Some. by eapply lookup_lt_Some. Qed.
End lemmas.
