(* ===== verification/Catalog.v ===== *)
(** * Catalog: the Postgres objects the code reads

    Relations, range tables and statements, with the fields the extension looks
    at. They are data Postgres hands over; nothing here computes. *)

From stdpp Require Import prelude gmap.
From S2P Require Import Prelude.

(** ** Relations *)

Record attribute : Type := Attribute {
  attname : bytes;
  atttypid : Z;
  atttypmod : Z;
  attnotnull : bool;
  attisdropped : bool;
  attgenerated : bool;
}.

(** The relkinds the code tells apart. *)
Inductive relkind : Type :=
| RELKIND_RELATION
| RELKIND_PARTITIONED_TABLE
| RELKIND_OTHER (c : byte).

#[export] Instance relkind_eq_decision : EqDecision relkind.
Proof. solve_decision. Defined.

Record Relation : Type := RelationData {
  rel_id : Z;
  rel_name : bytes;
  rel_kind : relkind;
  rel_desc : list attribute;
}.

(** A value of a tuple, and whether it is null. *)
Definition Datum : Type := Z.
Abbreviation cell := (Datum * bool)%type.

(** ** The range table a COPY runs under: one entry, with what it was checked for *)

Inductive acl : Type :=
| ACL_INSERT
| ACL_SELECT.

#[export] Instance acl_eq_decision : EqDecision acl.
Proof. solve_decision. Defined.

Record RangeTable : Type := RangeTableEntry {
  rt_rel : Z;
  requiredPerms : acl;
  insertedCols : gset Z;
  selectedCols : gset Z;
}.

(** ** Statements *)

Record RangeVar : Type := MkRangeVar {
  rv_schema : option bytes;
  rv_name : bytes;
}.

(** An option of a statement; its argument is Postgres's to read. *)
Inductive defvalue : Type :=
| VNone
| VInteger (z : Z)
| VString (s : bytes)
| VOther (tag : Z).

Record DefElem : Type := MkDefElem {
  defname : bytes;
  defarg : defvalue;
}.

Record CopyStmt : Type := MkCopyStmt {
  cp_relation : option RangeVar;  (** NULL for a COPY of a query *)
  cp_attlist : list bytes;
  cp_is_from : bool;
  cp_is_program : bool;
  cp_filename : option bytes;
  cp_options : list DefElem;
  cp_where : bool;                (** whether there is a WHERE clause *)
}.

Record ColumnDef : Type := MkColumnDef {
  cd_name : bytes;
  cd_typid : Z;
  cd_typmod : Z;
  cd_bounds : list Z;
  cd_is_not_null : bool;
}.

Record CreateStmt : Type := MkCreateStmt {
  ct_relation : RangeVar;
  ct_tableElts : list ColumnDef;
  ct_inhRelations : list RangeVar;
  ct_partbound : bool;            (** whether there is a partition bound *)
  ct_ofTypename : bool;           (** whether there is an OF type *)
  ct_options : list DefElem;
  ct_if_not_exists : bool;
}.

Definition set_options (v : list DefElem) (c : CreateStmt) : CreateStmt :=
  MkCreateStmt (ct_relation c) (ct_tableElts c) (ct_inhRelations c) (ct_partbound c)
    (ct_ofTypename c) v (ct_if_not_exists c).
Definition set_tableElts (v : list ColumnDef) (c : CreateStmt) : CreateStmt :=
  MkCreateStmt (ct_relation c) v (ct_inhRelations c) (ct_partbound c)
    (ct_ofTypename c) (ct_options c) (ct_if_not_exists c).

(** A utility statement. *)
Inductive utility : Type :=
| UCopy (c : CopyStmt)
| UCreate (c : CreateStmt)
| UOther (tag : Z).
