(* ===== verification/Stateful.v ===== *)
(** * Stateful: code that fails and keeps state, and a logic for it

    A computation takes a state to an outcome and the state it leaves, failed
    runs included: what is cleaned up after an error sees the state as it was
    then. src/helper.c runs over such a state (Os, Channel), and so does the
    helper program (Chdb, HelperProc). *)

From stdpp Require Import prelude.
From S2P Require Import Prelude.

Definition stateful (S E A : Type) : Type := S -> res E A * S.

#[export] Instance stateful_ret {S E} : MRet (stateful S E) := fun A a s => (Ok a, s).
#[export] Instance stateful_bind {S E} : MBind (stateful S E) := fun A B f m s =>
  match m s with
  | (Ok a, s) => f a s
  | (Raise e, s) => (Raise e, s)
  | (UB, s) => (UB, s)
  end.

Definition liftS {S E A} (r : res E A) : stateful S E A := fun s => (r, s).
Definition getsS {S E A} (f : S -> A) : stateful S E A := fun s => (Ok (f s), s).
Definition modifyS {S E} (f : S -> S) : stateful S E unit := fun s => (Ok tt, f s).

(** ** [wpS m Q R s]

    Run on [s], [m] has no undefined behaviour (so none of its loops runs out
    of fuel), a result satisfies [Q], and an error [R], both of the state it
    leaves. *)

Definition wpS {S E A} (m : stateful S E A) (Q : A -> S -> Prop) (R : E -> S -> Prop) (s : S)
    : Prop :=
  match m s with
  | (Ok a, s') => Q a s'
  | (Raise e, s') => R e s'
  | (UB, _) => False
  end.

Section rules.
Context {S E A B : Type}.
Implicit Types (m : stateful S E A) (Q : A -> S -> Prop) (R : E -> S -> Prop).

Lemma wpS_mono m (Q Q' : A -> S -> Prop) (R R' : E -> S -> Prop) s :
  wpS m Q R s -> (forall a s', Q a s' -> Q' a s') -> (forall e s', R e s' -> R' e s') ->
  wpS m Q' R' s.
Proof. unfold wpS. destruct (m s) as [[]]; auto. Qed.

Lemma wpS_ret (a : A) Q R s : Q a s -> wpS (mret a) Q R s.
Proof. done. Qed.

Lemma wpS_lift (r : res E A) Q R s :
  match r with Ok a => Q a s | Raise e => R e s | UB => False end -> wpS (liftS r) Q R s.
Proof. done. Qed.

Lemma wpS_gets (f : S -> A) Q R s : Q (f s) s -> wpS (getsS f) Q R s.
Proof. done. Qed.

Lemma wpS_modify (f : S -> S) (Q : unit -> S -> Prop) R s :
  Q tt (f s) -> wpS (modifyS f) Q R s.
Proof. done. Qed.

Lemma wpS_bind (m : stateful S E B) (f : B -> stateful S E A) Q R s :
  wpS m (fun b s' => wpS (f b) Q R s') R s -> wpS (m ≫= f) Q R s.
Proof. unfold wpS, mbind, stateful_bind. by destruct (m s) as [[]]. Qed.

Lemma wpS_assoc {C} (m : stateful S E B) (f : B -> stateful S E C) (g : C -> stateful S E A) Q R s :
  wpS (m ≫= fun a => f a ≫= g) Q R s -> wpS ((m ≫= f) ≫= g) Q R s.
Proof. unfold wpS, mbind, stateful_bind. by destruct (m s) as [[]]. Qed.

(** Fuel that depends on the state. *)
Lemma wpS_fuel (f : S -> nat) (m : nat -> stateful S E A) Q R s :
  wpS (m (f s)) Q R s -> wpS (fun s => m (f s) s) Q R s.
Proof. done. Qed.

(** A run that is known. *)
Lemma wpS_run m Q R s r s' :
  m s = (r, s') -> match r with Ok a => Q a s' | Raise e => R e s' | UB => False end ->
  wpS m Q R s.
Proof. unfold wpS. by intros ->. Qed.

Lemma wpS_Ok m Q R s a s' : m s = (Ok a, s') -> wpS m Q R s -> Q a s'.
Proof. unfold wpS. by intros ->. Qed.

Lemma wpS_Raise m Q R s e s' : m s = (Raise e, s') -> wpS m Q R s -> R e s'.
Proof. unfold wpS. by intros ->. Qed.

Lemma wpS_not_UB m Q R s : wpS m Q R s -> (m s).1 <> UB.
Proof. unfold wpS. by destruct (m s) as [[]]. Qed.
End rules.

(** One step into a program. *)
Ltac s_step :=
  lazymatch goal with
  | |- wpS (mbind _ _) _ _ _ => apply wpS_bind
  | |- wpS (mret _) _ _ _ => apply wpS_ret
  | |- wpS (liftS _) _ _ _ => apply wpS_lift
  | |- wpS (getsS _) _ _ _ => apply wpS_gets; cbn beta iota
  | |- wpS (modifyS _) _ _ _ => apply wpS_modify; cbn beta iota
  end.
