(* ===== verification/Logic.v ===== *)
(** * Logic: runs, and a logic over what they do

    Code that runs between calls to its surroundings: a run is a computation
    whose state is the trace of the calls it made. A call is recorded, then
    answered by the surroundings, which may look at everything before it. A call
    that raises ends the run, so every event but the last one succeeded.

    A guard says which event may follow which trace; [wp] says that every event
    a run adds passes the guard, whatever the run's outcome, and that a result
    satisfies the postcondition. The rules go down the structure of a program. *)

From stdpp Require Import prelude.
From S2P Require Import Prelude Stateful.

(** ** The monad: an outcome and the events so far *)

Abbreviation runs Ev := (stateful (list Ev) error).

Section runs.
Context {Ev : Type}.

Definition lift {A} (r : res error A) : runs Ev A := fun tr => (r, tr).
Definition raise {A} (e : error) : runs Ev A := lift (Raise e).
(** A call: recorded, then answered. *)
Definition call {A} (ev : Ev) (answer : list Ev -> res error A) : runs Ev A :=
  fun tr => (answer tr, tr ++ [ev]).
Definition emit (ev : Ev) : runs Ev unit := call ev (fun _ => Ok tt).
End runs.

(** ** Runs only add events *)

(** [m] adds events that all satisfy [P], given the trace it starts from. *)
Class Grows {Ev A} (m : runs Ev A) : Prop :=
  grows tr : exists evs, (m tr).2 = tr ++ evs.

Section grows.
Context {Ev A B : Type}.

#[export] Instance grows_ret (a : A) : Grows (Ev := Ev) (mret a).
Proof. intros tr. exists []. by rewrite app_nil_r. Qed.

#[export] Instance grows_lift (r : res error A) : Grows (Ev := Ev) (lift r).
Proof. intros tr. exists []. by rewrite app_nil_r. Qed.

#[export] Instance grows_call ev (f : list Ev -> res error A) : Grows (call ev f).
Proof. intros tr. by exists [ev]. Qed.

#[export] Instance grows_bind (m : runs Ev A) (f : A -> runs Ev B) :
  Grows m -> (forall a, Grows (f a)) -> Grows (m ≫= f).
Proof.
  intros Hm Hf tr. unfold mbind, stateful_bind. destruct (Hm tr) as [e1 H1].
  destruct (m tr) as [[a|e|] tr']; cbn in *; subst; [|by exists e1..].
  destruct (Hf a (tr ++ e1)) as [e2 H2]. exists (e1 ++ e2). by rewrite H2, app_assoc.
Qed.
End grows.

(** A successful run of a bind, in two parts. *)
Lemma run_bind_Ok {Ev A B} (m : runs Ev A) (f : A -> runs Ev B) tr b tr' :
  (m ≫= f) tr = (Ok b, tr') <->
  exists a tr1, m tr = (Ok a, tr1) /\ f a tr1 = (Ok b, tr').
Proof.
  unfold mbind, stateful_bind. destruct (m tr) as [[a|e|] tr1].
  - split; [by eauto|]. by intros (? & ? & [= <- <-] & ?).
  - by split; [|intros (? & ? & ? & ?)].
  - by split; [|intros (? & ? & ? & ?)].
Qed.

(** A run by its result. *)
Lemma run_Ok {S E A} (m : stateful S E A) s a : (m s).1 = Ok a -> m s = (Ok a, (m s).2).
Proof. destruct (m s). by intros [= ->]. Qed.

(** ** The logic *)

(** Every event [evs] adds after [tr] passes. *)
Definition guarded {Ev} (G : list Ev -> Ev -> Prop) (tr evs : list Ev) : Prop :=
  forall pre e post, evs = pre ++ e :: post -> G (tr ++ pre) e.

Definition wp {Ev A} (G : list Ev -> Ev -> Prop) (m : runs Ev A) (Q : A -> list Ev -> Prop)
    (tr : list Ev) : Prop :=
  (exists evs, (m tr).2 = tr ++ evs /\ guarded G tr evs) /\
  (forall a, (m tr).1 = Ok a -> Q a (m tr).2).

Section rules.
Context {Ev : Type} (G : list Ev -> Ev -> Prop).

Lemma guarded_nil tr : guarded G tr [].
Proof. intros [] ? ?; discriminate. Qed.

Lemma guarded_one tr e : G tr e -> guarded G tr [e].
Proof.
  intros He [|x pre] e' post Heq.
  - injection Heq as -> _. by rewrite app_nil_r.
  - by destruct pre.
Qed.

Lemma guarded_app tr e1 e2 :
  guarded G tr e1 -> guarded G (tr ++ e1) e2 -> guarded G tr (e1 ++ e2).
Proof.
  intros H1 H2 pre e post Heq.
  apply app_eq_app in Heq as [l [[-> Hr]|[-> Hr]]].
  - destruct l as [|x l].
    + cbn in Hr. rewrite app_nil_r in H2. specialize (H2 [] e post).
      rewrite app_nil_r in H2. by apply H2.
    + injection Hr as -> Hr. by eapply H1.
  - rewrite app_assoc. by apply (H2 _ _ post).
Qed.

Lemma wp_mono {A} (m : runs Ev A) (Q Q' : A -> list Ev -> Prop) tr :
  wp G m Q tr -> (forall a tr', Q a tr' -> Q' a tr') -> wp G m Q' tr.
Proof. intros [H1 H2] HQ. split; [done|]. naive_solver. Qed.

Lemma wp_ret {A} (a : A) Q tr : Q a tr -> wp G (mret a) Q tr.
Proof.
  intros HQ. split.
  - exists []. rewrite app_nil_r. auto using guarded_nil.
  - by intros ? [= <-].
Qed.

Lemma wp_lift {A} (r : res error A) (Q : A -> list Ev -> Prop) tr :
  (forall a, r = Ok a -> Q a tr) -> wp G (lift r) Q tr.
Proof.
  intros HQ. split; [|done]. exists []. rewrite app_nil_r. auto using guarded_nil.
Qed.

Lemma wp_call {A} ev (f : list Ev -> res error A) Q tr :
  G tr ev -> (forall a, f tr = Ok a -> Q a (tr ++ [ev])) -> wp G (call ev f) Q tr.
Proof. intros HG HQ. split; [|done]. exists [ev]. auto using guarded_one. Qed.

Lemma wp_emit ev Q tr : G tr ev -> Q tt (tr ++ [ev]) -> wp G (emit ev) Q tr.
Proof. intros HG HQ. apply wp_call; [done|]. by intros []. Qed.

Lemma wp_bind {A B} (m : runs Ev A) (f : A -> runs Ev B) Q tr :
  wp G m (fun a tr => wp G (f a) Q tr) tr -> wp G (m ≫= f) Q tr.
Proof.
  intros [(e1 & He1 & G1) H]. unfold wp, mbind, stateful_bind.
  destruct (m tr) as [[a|err|] tr1] eqn:Hm; cbn in *; subst.
  - destruct (H a eq_refl) as [(e2 & He2 & G2) HQ]. split; [|done].
    exists (e1 ++ e2). rewrite He2, app_assoc. eauto using guarded_app.
  - split; [|done]. by exists e1.
  - split; [|done]. by exists e1.
Qed.

Lemma wp_if (b : bool) {A} (m m' : runs Ev A) Q tr :
  (b = true -> wp G m Q tr) -> (b = false -> wp G m' Q tr) ->
  wp G (if b then m else m') Q tr.
Proof. destruct b; auto. Qed.

(** A run whose [wp] holds for some postcondition only adds guarded events. *)
Lemma wp_guarded {A} (m : runs Ev A) Q tr :
  wp G m Q tr -> exists evs, (m tr).2 = tr ++ evs /\ guarded G tr evs.
Proof. by intros []. Qed.
End rules.

(** [ev] was answered, with an answer that satisfies [ok]. *)
Definition passed {Ev} (tr : list Ev) (ev : Ev) (ok : list Ev -> Prop) : Prop :=
  exists pre post, tr = pre ++ ev :: post /\ ok pre.

Lemma passed_app {Ev} (tr l : list Ev) ev ok : passed tr ev ok -> passed (tr ++ l) ev ok.
Proof. intros (p & q & -> & ?). exists p, (q ++ l). by rewrite <- app_assoc. Qed.

Lemma passed_last {Ev} (tr : list Ev) ev (ok : list Ev -> Prop) : ok tr -> passed (tr ++ [ev]) ev ok.
Proof. intros. by exists tr, []. Qed.

#[export] Hint Resolve passed_app passed_last : chdb.

(** One step into a program. *)
Ltac wp_step :=
  match goal with
  | |- wp _ (mbind _ _) _ _ => apply wp_bind
  | |- wp _ (mret _) _ _ => apply wp_ret
  | |- wp _ (lift _) _ _ => apply wp_lift; intros
  | |- wp _ (emit _) _ _ => apply wp_emit
  | |- wp _ (call _ _) _ _ => apply wp_call; [|intros]
  | |- wp _ (raise _) _ _ => apply wp_lift; intros; discriminate
  | |- wp _ (let '(_, _) := ?p in _) _ _ => destruct p
  | |- wp _ (if decide ?P then _ else _) _ _ => destruct (decide P)
  | |- wp _ (if ?b then _ else _) _ _ => destruct b eqn:?
  | |- wp _ (match ?x with _ => _ end) _ _ => destruct x eqn:?
  end.
