(* ===== verification/Total.v ===== *)
(** * Total: a total logic for runs

    [Logic.wp] leaves undefined behaviour open. [twp] excludes it: from a trace
    whose events all pass the guard, a run has an outcome, every event it adds
    passes the guard, whether it succeeds or raises, and a result satisfies the
    postcondition. *)

From stdpp Require Import prelude.
From S2P Require Import Prelude Stateful Logic.

(** Every event of the trace passed the guard when it came. *)
Definition valid {Ev} (G : list Ev -> Ev -> Prop) (tr : list Ev) : Prop := guarded G [] tr.

Definition twp {Ev A} (G : list Ev -> Ev -> Prop) (m : runs Ev A) (Q : A -> list Ev -> Prop)
    (tr : list Ev) : Prop :=
  valid G tr ->
  wpS m (fun a tr' => valid G tr' /\ Q a tr') (fun _ tr' => valid G tr') tr.

Section rules.
Context {Ev : Type} (G : list Ev -> Ev -> Prop).

Lemma valid_nil : valid G [].
Proof. apply guarded_nil. Qed.

Lemma valid_snoc tr e : valid G tr -> G tr e -> valid G (tr ++ [e]).
Proof. intros Hv He. apply guarded_app; [done|]. by apply guarded_one. Qed.

Lemma valid_at tr1 e tr2 : valid G (tr1 ++ e :: tr2) -> G tr1 e.
Proof. intros Hv. by apply (Hv tr1 e tr2). Qed.

Lemma twp_mono {A} (m : runs Ev A) (Q Q' : A -> list Ev -> Prop) tr :
  twp G m Q tr -> (forall a tr', valid G tr' -> Q a tr' -> Q' a tr') -> twp G m Q' tr.
Proof.
  intros Hm HQ Hv. eapply wpS_mono; [by apply Hm| |done]. intros a tr' [? ?]. auto.
Qed.

Lemma twp_ret {A} (a : A) Q tr : Q a tr -> twp G (mret a) Q tr.
Proof. intros HQ Hv. by apply wpS_ret. Qed.

Lemma twp_lift {A} (r : res error A) (Q : A -> list Ev -> Prop) tr :
  r <> UB -> (forall a, r = Ok a -> Q a tr) -> twp G (lift r) Q tr.
Proof. intros Hr HQ Hv. apply wpS_lift. destruct r; auto. Qed.

Lemma twp_gets {A} (f : list Ev -> A) Q tr : Q (f tr) tr -> twp G (getsS f) Q tr.
Proof. intros HQ Hv. by apply wpS_gets. Qed.

Lemma twp_call {A} ev (f : list Ev -> res error A) Q tr :
  G tr ev -> f tr <> UB -> (forall a, f tr = Ok a -> Q a (tr ++ [ev])) -> twp G (call ev f) Q tr.
Proof.
  intros HG Hf HQ Hv. unfold wpS, call. pose proof (valid_snoc _ _ Hv HG).
  destruct (f tr); auto.
Qed.

Lemma twp_emit ev Q tr : G tr ev -> Q tt (tr ++ [ev]) -> twp G (emit ev) Q tr.
Proof. intros HG HQ. apply twp_call; [done..|]. by intros []. Qed.

Lemma twp_bind {A B} (m : runs Ev A) (f : A -> runs Ev B) Q tr :
  twp G m (fun a tr => twp G (f a) Q tr) tr -> twp G (m ≫= f) Q tr.
Proof.
  intros Hm Hv. apply wpS_bind. eapply wpS_mono; [by apply Hm| |done].
  intros a tr' [Hv' Hf]. by apply Hf.
Qed.

Lemma twp_assume {A} (m : runs Ev A) Q tr : (valid G tr -> twp G m Q tr) -> twp G m Q tr.
Proof. intros Hm Hv. by apply Hm. Qed.
End rules.

(** One step into a program. *)
Ltac t_step :=
  lazymatch goal with
  | |- twp _ (mbind _ _) _ _ => apply twp_bind
  | |- twp _ (mret _) _ _ => apply twp_ret
  | |- twp _ (lift _) _ _ => apply twp_lift
  | |- twp _ (getsS _) _ _ => apply twp_gets; cbn beta iota
  | |- twp _ (emit _) _ _ => apply twp_emit
  | |- twp _ (call _ _) _ _ => apply twp_call
  | |- twp _ (raise _) _ _ => apply twp_lift; [done|by intros ? ?]
  end.
