(* ===== verification/Pipe.v ===== *)
(** * Pipe: what a read on a pipe or socket gives

    The kernel's side of [read(2)]: a stream of bytes delivered in whatever
    pieces they come, with failed calls ([EINTR], [EAGAIN], anything else)
    at arbitrary points, and end of file once the list is exhausted, that is
    once every writer has closed its end. src/helper.c and
    src/helper/chdb_helper.c read every one of their channels this way. *)

From stdpp Require Import prelude.
From S2P Require Import Prelude.
Local Open Scope Z_scope.

(** The errno values the code tells apart. *)
Inductive errno : Type :=
| EINTR
| EAGAIN
| EWOULDBLOCK
| EPIPE
| EOTHER (n : Z).

#[export] Instance errno_eq_decision : EqDecision errno.
Proof. solve_decision. Defined.

Inductive item : Type :=
| Data (b : bytes)
| Err (e : errno).

Abbreviation pipe := (list item).

(** What [read] returns: a positive count with the bytes, zero, or -1. *)
Inductive sysread : Type :=
| RBytes (b : bytes)
| REof
| RError (e : errno).

(** [read(fd, buf, n)]. A request for no bytes reads none. *)
Fixpoint read_fd (p : pipe) (n : Z) : sysread * pipe :=
  if n <=? 0 then (REof, p)
  else
    match p with
    | [] => (REof, [])
    | Data [] :: p => read_fd p n
    | Data b :: p =>
        if zlen b <=? n then (RBytes b, p)
        else (RBytes (take (Z.to_nat n) b), Data (drop (Z.to_nat n) b) :: p)
    | Err e :: p => (RError e, p)
    end.

(** The bytes still to come, the failures still to come, and a measure. *)
Definition item_bytes (i : item) : bytes := match i with Data b => b | Err _ => [] end.
Definition content (p : pipe) : bytes := p ≫= item_bytes.
Definition item_errors (i : item) : list errno := match i with Data _ => [] | Err e => [e] end.
Definition errors (p : pipe) : list errno := p ≫= item_errors.
Definition pipe_size (p : pipe) : nat := (length p + length (content p))%nat.

(** No call fails, apart from interrupted ones. *)
Definition clean (p : pipe) : Prop := Forall (eq EINTR) (errors p).

Lemma content_cons i p : content (i :: p) = item_bytes i ++ content p.
Proof. done. Qed.
Lemma errors_cons i p : errors (i :: p) = item_errors i ++ errors p.
Proof. done. Qed.

(** Every outcome of [read_fd]. *)
Inductive read_spec (p : pipe) (n : Z) : sysread * pipe -> Prop :=
| read_spec_eof :
    content p = [] -> errors p = [] -> read_spec p n (REof, [])
| read_spec_bytes b p' :
    b <> [] -> zlen b <= n -> content p = b ++ content p' -> errors p' = errors p ->
    (pipe_size p' < pipe_size p)%nat -> read_spec p n (RBytes b, p')
| read_spec_error e p' :
    content p = content p' -> errors p = e :: errors p' ->
    (pipe_size p' < pipe_size p)%nat -> read_spec p n (RError e, p').

Lemma read_spec_skip p n r : read_spec p n r -> read_spec (Data [] :: p) n r.
Proof.
  inversion_clear 1; constructor; rewrite ?content_cons, ?errors_cons;
    unfold pipe_size in *; rewrite ?content_cons; cbn [item_bytes item_errors app length];
    first [done|lia].
Qed.

Lemma read_fd_spec p n : 0 < n -> read_spec p n (read_fd p n).
Proof.
  intros Hn. induction p as [|[b|e] p IH]; cbn [read_fd];
    (destruct (Z.leb_spec n 0); [lia|]).
  - by constructor.
  - destruct b as [|x b]; [by apply read_spec_skip|]. set (xb := x :: b).
    destruct (Z.leb_spec (zlen xb) n); constructor;
      rewrite ?content_cons, ?errors_cons; unfold pipe_size; rewrite ?content_cons; try done.
    + unfold xb; len.
    + unfold xb. destruct (Z.to_nat n) eqn:?; [lia|done].
    + rewrite length_take. lia.
    + cbn. by rewrite app_assoc, take_drop.
    + cbn [item_bytes]. rewrite !length_app, length_drop. cbn [length]. lia.
  - constructor; rewrite ?errors_cons; unfold pipe_size; rewrite ?content_cons; cbn; done || lia.
Qed.

(** ** Writing *)

(** How one write to a descriptor goes: it takes up to so many bytes, at least
    one, or fails. With nothing said, it takes all. *)
Inductive wstep : Type :=
| Takes (n : positive)
| Fails (e : errno).

(** [write(fd, b, len)], for at least one byte: how many it took, or why none. *)
Definition write_fd (l : list wstep) (b : bytes) : (errno + nat) * list wstep :=
  match l with
  | Fails e :: l => (inl e, l)
  | Takes n :: l => (inr (Pos.to_nat n `min` length b)%nat, l)
  | [] => (inr (length b), [])
  end.

Inductive write_spec (l : list wstep) (b : bytes) : (errno + nat) * list wstep -> Prop :=
| write_spec_takes n l' :
    (0 < n <= length b)%nat -> (length l' <= length l)%nat -> l' ⊆ l ->
    write_spec l b (inr n, l')
| write_spec_fails e l' :
    (length l' < length l)%nat -> l' ⊆ l -> Fails e ∈ l -> write_spec l b (inl e, l').

Lemma write_fd_spec l b : (0 < length b)%nat -> write_spec l b (write_fd l b).
Proof.
  intros Hb. destruct l as [|[n|e] l]; cbn.
  - constructor; [lia|done|done].
  - constructor; [lia|cbn; lia|set_solver].
  - constructor; [cbn; lia|set_solver|set_solver].
Qed.
