(* ===== verification/Setup.v ===== *)
(** * Setup: the payload the backend hands the helper

    The format src/setup.h describes, its writer in src/helper.c
    ([append_string], [build_setup]) and its reader in
    src/helper/chdb_helper.c ([read_setup], the [cursor] functions and the
    part of [main] that decodes). The reader takes the payload off a pipe, in
    whatever pieces the kernel delivers, with interrupted calls in between. *)

From stdpp Require Import prelude.
From Stdlib Require Import Strings.Byte.
From S2P Require Import Prelude Words.
Local Open Scope Z_scope.

(** ** src/setup.h *)

Definition CHDB_CMD_SELECT : Z := 83.   (** 'S' *)
Definition CHDB_CMD_INSERT : Z := 73.   (** 'I' *)
Definition CHDB_CMD_DESCRIBE : Z := 68. (** 'D' *)
Definition CHDB_SETUP_MAX : Z := 16 * 1024 * 1024.
Definition CHDB_HELPER_LOST_BACKEND : Z := 2.

Record chdbHelperContext : Type := HelperContext {
  hc_cmd : Z;         (** uint8_t *)
  hc_max_memory : Z;  (** uint16_t, MB *)
  hc_max_threads : Z; (** uint16_t *)
  hc_max_parsers : Z; (** uint16_t *)
}.

(** The fields hold values of their types. *)
Definition context_fits (c : chdbHelperContext) : Prop :=
  fits 8 (hc_cmd c) /\ fits 16 (hc_max_memory c) /\
  fits 16 (hc_max_threads c) /\ fits 16 (hc_max_parsers c).

(** What [main] decodes. *)
Record payload : Type := Payload {
  pl_context : chdbHelperContext;
  pl_timezone : bytes;
  pl_query : bytes;
  pl_params : list (bytes * bytes);
}.

(** The lengths the fixed-width counts of the format can carry: a [char*] of
    the backend is a palloc'd chunk, below 1 GB, and an array of parameters has
    at most CHDB_MAX_TABLEFUNC_ARGS entries. *)
Definition string_fits (s : bytes) : Prop := zlen s < 2 ^ 32.
Definition params_fit (ps : list (bytes * bytes)) : Prop :=
  zlen ps < 2 ^ 16 /\ Forall (fun p => string_fits p.1 /\ string_fits p.2) ps.

Section setup.
Context (little : bool).

(** ** The writer, src/helper.c *)

(** [appendBinaryStringInfo(buf, str, len)] copies [len] bytes from [str]. *)
Definition append_string (buf str : bytes) : bytes :=
  let len := u32 (zlen str) in
  buf ++ native_bytes little 4 len ++ take (Z.to_nat len) str.

(** The loop over the parameters. *)
Definition append_params (buf : bytes) (params : list (bytes * bytes)) : bytes :=
  fold_left (fun buf p => append_string (append_string buf p.1) p.2) params buf.

Definition build_setup (buf : bytes) (ctx : chdbHelperContext)
    (session_timezone query : bytes) (params : list (bytes * bytes))
    : res error bytes :=
  let buf := buf ++ native_bytes little 1 (hc_cmd ctx) in
  let buf := buf ++ native_bytes little 2 (hc_max_memory ctx) in
  let buf := buf ++ native_bytes little 2 (hc_max_threads ctx) in
  let buf := buf ++ native_bytes little 2 (hc_max_parsers ctx) in
  let buf := append_string buf session_timezone in
  let buf := append_string buf query in
  let count := u16 (zlen params) in
  let buf := buf ++ native_bytes little 2 count in
  let buf := append_params buf params in
  if CHDB_SETUP_MAX <? zlen buf then
    Raise (ereport ERRCODE_PROGRAM_LIMIT_EXCEEDED
             (b8 "chdb: query is too large to send to chDB"))
  else Ok buf.

(** ** The reader, src/helper/chdb_helper.c *)

Definition truncated : bytes := b8 "chdb: setup payload is truncated".

(** A [cursor] is the bytes from [at] to [end]. *)
Definition take1 (c : bytes) : res bytes (Z * bytes) :=
  match c with
  | [] => Raise truncated
  | b :: c => Ok (Z_of_byte b, c)
  end.

Definition take2 (c : bytes) : res bytes (Z * bytes) :=
  if zlen c <? 2 then Raise truncated
  else Ok (native_value little (take 2 c), drop 2 c).

Definition take_str (c : bytes) : res bytes (bytes * bytes) :=
  if zlen c <? 4 then Raise truncated
  else
    let len := native_value little (take 4 c) in
    let c := drop 4 c in
    if zlen c <? len then Raise truncated
    else Ok (take (Z.to_nat len) c, drop (Z.to_nat len) c).

(** The loop of [main] over the [npar] parameters. *)
Fixpoint take_params (npar : nat) (c : bytes) : res bytes (list (bytes * bytes) * bytes) :=
  match npar with
  | O => Ok ([], c)
  | S npar =>
      '(name, c) ← take_str c;
      '(value, c) ← take_str c;
      '(ps, c) ← take_params npar c;
      Ok ((name, value) :: ps, c)
  end.

(** The decoding half of [main]. *)
Definition decode_setup (setup : bytes) : res bytes payload :=
  '(cmd, c) ← take1 setup;
  '(max_mem, c) ← take2 c;
  '(max_threads, c) ← take2 c;
  '(max_parsers, c) ← take2 c;
  '(timezone, c) ← take_str c;
  '(query, c) ← take_str c;
  '(npar, c) ← take2 c;
  '(params, _) ← take_params (Z.to_nat npar) c;
  Ok (Payload (HelperContext cmd max_mem max_threads max_parsers)
        timezone query params).
End setup.

(** ** Encoding and decoding agree *)

Section codec.
Context (little : bool).

(** A string and a parameter as they appear on the wire. *)
Definition wire_string (s : bytes) : bytes :=
  native_bytes little 4 (u32 (zlen s)) ++ take (Z.to_nat (u32 (zlen s))) s.
Definition wire_params (ps : list (bytes * bytes)) : bytes :=
  concat (map (fun p => wire_string p.1 ++ wire_string p.2) ps).
Definition wire (ctx : chdbHelperContext) (tz query : bytes)
    (ps : list (bytes * bytes)) : bytes :=
  native_bytes little 1 (hc_cmd ctx) ++ native_bytes little 2 (hc_max_memory ctx)
  ++ native_bytes little 2 (hc_max_threads ctx)
  ++ native_bytes little 2 (hc_max_parsers ctx)
  ++ wire_string tz ++ wire_string query
  ++ native_bytes little 2 (u16 (zlen ps)) ++ wire_params ps.

Lemma append_params_wire buf ps :
  append_params little buf ps = buf ++ wire_params ps.
Proof.
  revert buf; induction ps as [|p ps IH]; intros buf; [by rewrite app_nil_r|].
  etrans; [apply IH|]. unfold append_string, wire_params, wire_string. cbn.
  by rewrite <-!app_assoc.
Qed.

Lemma build_setup_wire ctx tz query ps :
  build_setup little [] ctx tz query ps =
  (if CHDB_SETUP_MAX <? zlen (wire ctx tz query ps)
   then Raise (ereport ERRCODE_PROGRAM_LIMIT_EXCEEDED
                 (b8 "chdb: query is too large to send to chDB"))
   else Ok (wire ctx tz query ps)).
Proof.
  unfold build_setup, append_string. rewrite append_params_wire.
  unfold wire, wire_string. cbn [app]. by rewrite <-!app_assoc.
Qed.

Lemma take2_native z rest :
  take2 little (native_bytes little 2 z ++ rest) = Ok (u16 z, rest).
Proof.
  unfold take2. destruct (Z.ltb_spec (zlen (native_bytes little 2 z ++ rest)) 2); [len|].
  rewrite take_app_length', drop_app_length' by (by rewrite length_native_bytes).
  by rewrite native_value_bytes.
Qed.

Lemma take1_native z rest :
  take1 (native_bytes little 1 z ++ rest) = Ok (u8 z, rest).
Proof.
  assert (native_bytes little 1 z = [byte_of_Z z]) as ->.
  { by destruct little. }
  cbn. by rewrite Z_of_byte_of_Z.
Qed.

Lemma take_str_wire s rest :
  string_fits s -> take_str little (wire_string s ++ rest) = Ok (s, rest).
Proof.
  intros Hs. unfold take_str, wire_string.
  assert (u32 (zlen s) = zlen s) as -> by (apply wrap_id; unfold fits, string_fits in *; lia).
  rewrite Nat2Z.id, take_ge, <-app_assoc by lia.
  destruct (Z.ltb_spec (zlen (native_bytes little 4 (zlen s) ++ s ++ rest)) 4); [len|].
  rewrite take_app_length', drop_app_length' by (by rewrite length_native_bytes).
  rewrite native_value_bytes.
  assert (zlen s mod 2 ^ (8 * Z.of_nat 4) = zlen s) as ->
    by (apply Z.mod_small; unfold string_fits in Hs; lia).
  destruct (Z.ltb_spec (zlen (s ++ rest)) (zlen s)); [len|].
  by rewrite Nat2Z.id, take_app_length, drop_app_length.
Qed.

Lemma take_params_wire ps rest :
  Forall (fun p => string_fits p.1 /\ string_fits p.2) ps ->
  take_params little (length ps) (wire_params ps ++ rest) = Ok (ps, rest).
Proof.
  induction 1 as [|[n v] ps [Hn Hv] _ IH]; [done|].
  cbn [length take_params wire_params map concat fst snd] in *.
  rewrite <-!app_assoc, take_str_wire by done. cbn.
  rewrite take_str_wire by done. cbn.
  fold (wire_params ps). by rewrite IH.
Qed.

End codec.

(** A decoding step that reads a prefix of its input and leaves the rest, and
    that fails only for want of input. *)
Class Streaming {A} (P : bytes -> res bytes (A * bytes)) : Prop := {
  streaming_app c v r x : P c = Ok (v, r) -> P (c ++ x) = Ok (v, r ++ x);
  streaming_error c e : P c = Raise e -> e = truncated;
  streaming_defined c : P c <> UB;
}.

Section streaming.
Context (little : bool).

#[export] Instance streaming_ret {A} (v : A) : Streaming (fun c => Ok (v, c)).
Proof. split; intros; simplify_eq; done. Qed.

#[export] Instance streaming_bind {A B} (P : bytes -> res bytes (A * bytes))
    (Q : A -> bytes -> res bytes (B * bytes)) :
  Streaming P -> (forall a, Streaming (Q a)) ->
  Streaming (fun c => '(a, c) ← P c; Q a c).
Proof.
  intros HP HQ; split.
  - intros c v r x ([a c'] & Hp & Hq)%bind_Ok.
    rewrite (streaming_app _ _ _ x Hp). cbn. by apply streaming_app.
  - intros c e [He|([a c'] & _ & He)]%bind_Raise;
      exact (streaming_error _ _ He).
  - intros c [He|([a c'] & _ & He)]%bind_UB; exact (streaming_defined _ He).
Qed.

#[export] Instance streaming_take1 : Streaming take1.
Proof.
  split; [intros [|b c] v r x|intros [|b c] e|intros [|b c]]; cbn; intros; by simplify_eq.
Qed.

#[export] Instance streaming_take2 : Streaming (take2 little).
Proof.
  split; unfold take2.
  - intros c v r x. destruct (Z.ltb_spec (zlen c) 2); [done|]. intros [= <- <-].
    destruct (Z.ltb_spec (zlen (c ++ x)) 2); [len|].
    by rewrite take_app_le, drop_app_le by lia.
  - intros c e. case_match; [|done]. by intros [= <-].
  - intros c. by case_match.
Qed.

#[export] Instance streaming_take_str : Streaming (take_str little).
Proof.
  split; unfold take_str.
  - intros c v r x. destruct (Z.ltb_spec (zlen c) 4); [done|].
    destruct (Z.ltb_spec (zlen (drop 4 c)) (native_value little (take 4 c)))
      as [|Hlen]; [done|]. intros [= <- <-].
    destruct (Z.ltb_spec (zlen (c ++ x)) 4); [len|].
    rewrite (take_app_le c), (drop_app_le c) by lia.
    destruct (Z.ltb_spec (zlen (drop 4 c ++ x)) (native_value little (take 4 c))); [len|].
    rewrite take_app_le, drop_app_le by lia. done.
  - intros c e. repeat case_match; try done; by intros [= <-].
  - intros c. by repeat case_match.
Qed.

#[export] Instance streaming_take_params n : Streaming (take_params little n).
Proof. induction n as [|n IH]; cbn; apply _. Qed.

(** [decode_setup], keeping what follows the payload. *)
Definition decode_rest (setup : bytes) : res bytes (payload * bytes) :=
  '(cmd, c) ← take1 setup;
  '(max_mem, c) ← take2 little c;
  '(max_threads, c) ← take2 little c;
  '(max_parsers, c) ← take2 little c;
  '(timezone, c) ← take_str little c;
  '(query, c) ← take_str little c;
  '(npar, c) ← take2 little c;
  '(params, c) ← take_params little (Z.to_nat npar) c;
  Ok (Payload (HelperContext cmd max_mem max_threads max_parsers)
        timezone query params, c).

#[export] Instance streaming_decode_rest : Streaming decode_rest.
Proof. unfold decode_rest. apply _. Qed.

Lemma decode_setup_rest c : decode_setup little c = fst <$> decode_rest c.
Proof.
  unfold decode_setup, decode_rest.
  repeat (match goal with
          | |- mbind _ ?m = _ => destruct m as [[? ?]| |]; cbn; [|done|done]
          end).
  done.
Qed.
Lemma decode_rest_wire ctx tz query ps rest :
  context_fits ctx -> string_fits tz -> string_fits query -> params_fit ps ->
  decode_rest (wire little ctx tz query ps ++ rest)
  = Ok (Payload ctx tz query ps, rest).
Proof.
  intros (Hc & Hm & Ht & Hp) Htz Hq [Hn Hps].
  unfold decode_rest, wire. rewrite <-!app_assoc, (take1_native little). cbn.
  rewrite !(take2_native little). cbn. rewrite (take2_native little). cbn. rewrite (take2_native little). cbn.
  rewrite take_str_wire by done. cbn. rewrite take_str_wire by done. cbn.
  rewrite (take2_native little). cbn.
  assert (u16 (u16 (zlen ps)) = zlen ps) as ->.
  { unfold u16. rewrite !wrap_id; auto using wrap_fits with lia; unfold fits; lia. }
  rewrite Nat2Z.id, take_params_wire by done. cbn.
  unfold u8, u16. rewrite !wrap_id by done. by destruct ctx.
Qed.

Lemma decode_wire ctx tz query ps rest :
  context_fits ctx -> string_fits tz -> string_fits query -> params_fit ps ->
  decode_setup little (wire little ctx tz query ps ++ rest)
  = Ok (Payload ctx tz query ps).
Proof. intros. by rewrite decode_setup_rest, decode_rest_wire. Qed.
End streaming.
