(* ===== verification/SetupReader.v ===== *)
(** * SetupReader: the helper collects its payload

    [read_setup] of src/helper/chdb_helper.c over the pipe model: the doubling
    buffer, the size limit, interrupted reads and allocation failures. *)

From stdpp Require Import prelude.
From Stdlib Require Import Strings.Byte.
From S2P Require Import Prelude Words Pipe Setup.
Local Open Scope Z_scope.

Definition setup_too_large : bytes := b8 "chdb: setup payload is too large".
Definition setup_unreadable : bytes := b8 "chdb: could not read the setup payload".
Definition out_of_memory : bytes := b8 "chdb: out of memory".

Section read_setup.
(** Whether an allocation of so many bytes succeeds. *)
Context (alloc : Z -> bool).

(** [not_null(malloc(n))] and [not_null(realloc(buf, n))]. *)
Definition not_null (n : Z) : res bytes unit :=
  if alloc n then Ok tt else Raise out_of_memory.

(** The step that makes room: a full buffer doubles, up to the limit. *)
Definition grow (cap got : Z) : res bytes Z :=
  if got =? cap then
    let cap := cap * 2 in
    if CHDB_SETUP_MAX <? cap then Raise setup_too_large
    else not_null cap ;; Ok cap
  else Ok cap.

(** The loop. [None] is a loop still running when the fuel is spent. *)
Fixpoint read_setup_loop (fuel : nat) (cap : Z) (buf : bytes) (p : pipe)
    : option (res bytes (bytes * pipe)) :=
  match fuel with
  | O => None
  | S fuel =>
      match grow cap (zlen buf) with
      | Raise e => Some (Raise e)
      | UB => Some UB
      | Ok cap =>
          match read_fd p (cap - zlen buf) with
          | (RBytes b, p) => read_setup_loop fuel cap (buf ++ b) p
          | (REof, p) => Some (Ok (buf, p))
          | (RError EINTR, p) => read_setup_loop fuel cap buf p
          | (RError _, p) => Some (Raise setup_unreadable)
          end
      end
  end.

Definition read_setup (fuel : nat) (p : pipe) : option (res bytes (bytes * pipe)) :=
  let cap := 64 * 1024 in
  match not_null cap with
  | Ok _ => read_setup_loop fuel cap [] p
  | Raise e => Some (Raise e)
  | UB => Some UB
  end.

(** The buffer's capacity: 64 KB doubled some number of times. *)
Definition capacity (cap : Z) : Prop :=
  exists k, 0 <= k <= 8 /\ cap = 64 * 1024 * 2 ^ k.

Lemma capacity_double cap :
  capacity cap -> (cap = CHDB_SETUP_MAX) \/ (cap < CHDB_SETUP_MAX /\ capacity (cap * 2)).
Proof.
  intros (k & Hk & ->). destruct (decide (k = 8)) as [->|]; [by left|right].
  assert (2 ^ k <= 2 ^ 7) by (apply Z.pow_le_mono_r; lia).
  split; [unfold CHDB_SETUP_MAX; lia|].
  exists (k + 1). rewrite Z.pow_add_r by lia. lia.
Qed.

Lemma capacity_bound cap : capacity cap -> 0 < cap <= CHDB_SETUP_MAX.
Proof.
  intros (k & Hk & ->). assert (2 ^ k <= 2 ^ 8) by (apply Z.pow_le_mono_r; lia).
  pose proof (Z.pow_pos_nonneg 2 k). unfold CHDB_SETUP_MAX. lia.
Qed.

(** The outcome a payload has to have. *)
Definition collected (buf : bytes) : res bytes (bytes * pipe) :=
  if CHDB_SETUP_MAX <=? zlen buf then Raise setup_too_large else Ok (buf, []).

(** What [grow] does with an allocator that never fails. *)
Lemma grow_spec cap got :
  (forall n, n <= CHDB_SETUP_MAX -> alloc n = true) -> capacity cap -> got <= cap ->
  (grow cap got = Raise setup_too_large /\ got = CHDB_SETUP_MAX)
  \/ (exists cap', grow cap got = Ok cap' /\ capacity cap' /\ got < cap').
Proof.
  intros Ha Hcap Hgot. pose proof (capacity_bound _ Hcap). unfold grow, not_null.
  destruct (Z.eqb_spec got cap) as [->|]; [|right; exists cap; auto with lia].
  destruct (capacity_double _ Hcap) as [->|[? Hd]]; [by left|].
  pose proof (capacity_bound _ Hd).
  destruct (Z.ltb_spec CHDB_SETUP_MAX (cap * 2)); [lia|].
  rewrite Ha by lia. right. exists (cap * 2). cbn. auto with lia.
Qed.

Lemma read_setup_loop_spec fuel cap buf p :
  (forall n, n <= CHDB_SETUP_MAX -> alloc n = true) ->
  (pipe_size p < fuel)%nat -> clean p -> capacity cap -> zlen buf <= cap ->
  read_setup_loop fuel cap buf p = Some (collected (buf ++ content p)).
Proof.
  intros Ha. revert cap buf p. induction fuel as [|fuel IH]; intros cap buf p Hf Hc Hcap Hb;
    [lia|]. cbn [read_setup_loop]. unfold collected, clean in *.
  destruct (grow_spec cap (zlen buf) Ha Hcap Hb) as [[-> Hmax]|(cap' & -> & Hcap' & Hroom)].
  { destruct (Z.leb_spec CHDB_SETUP_MAX (zlen (buf ++ content p))); [done|len]. }
  pose proof (capacity_bound _ Hcap').
  destruct (read_fd_spec p (cap' - zlen buf)) as [Hp _|b p' _ Hl Hp He|e p' Hp He].
  - lia.
  - rewrite Hp, app_nil_r. destruct (Z.leb_spec CHDB_SETUP_MAX (zlen buf)); [lia|done].
  - rewrite Hp, app_assoc. apply IH; [lia|by rewrite He|done|len].
  - rewrite He in Hc. apply Forall_cons in Hc as [<- Hc]. rewrite Hp. apply IH; auto with lia.
Qed.
End read_setup.

(** ** Properties *)

Section properties.
Context (little : bool) (alloc : Z -> bool).
Context (Halloc : forall n, n <= CHDB_SETUP_MAX -> alloc n = true).

Lemma read_setup_spec fuel p :
  (pipe_size p < fuel)%nat -> clean p ->
  read_setup alloc fuel p = Some (collected (content p)).
Proof using Halloc.
  intros Hf Hc. unfold read_setup, not_null.
  rewrite Halloc by (unfold CHDB_SETUP_MAX; lia).
  rewrite read_setup_loop_spec; auto; [|cbn; lia].
  exists 0. lia.
Qed.

(** C3. The helper recovers exactly what the backend sent: a payload
    [build_setup] accepted and that is below the limit is collected whole
    by [read_setup], whatever pieces and interruptions the pipe delivers it
    with, in a number of reads bounded by the pipe's own size, and [main]
    decodes from it the command, the settings, the time zone, the query and
    every parameter, in either byte order. *)
Theorem setup_roundtrip ctx tz query ps buf p fuel :
  build_setup little [] ctx tz query ps = Ok buf ->
  context_fits ctx -> string_fits tz -> string_fits query -> params_fit ps ->
  zlen buf < CHDB_SETUP_MAX ->
  content p = buf -> clean p -> (pipe_size p < fuel)%nat ->
  read_setup alloc fuel p = Some (Ok (buf, [])) /\
  decode_setup little buf = Ok (Payload ctx tz query ps).
Proof using Halloc.
  rewrite build_setup_wire. intros Hb Hctx Htz Hq Hps Hlt Hp Hc Hf.
  case_match; [done|]. injection Hb as Hb. split.
  - rewrite read_setup_spec by done. unfold collected. rewrite Hp.
    destruct (Z.leb_spec CHDB_SETUP_MAX (zlen buf)); [lia|done].
  - rewrite <-Hb, <-(app_nil_r (wire _ _ _ _ _)). by apply decode_wire.
Qed.

(** C33. A payload cut short at any byte, as when the backend dies while
    writing it, is refused as truncated: the helper never runs a query it
    received in part and never reads past the end of its buffer. *)
Theorem setup_truncation ctx tz query ps buf n :
  build_setup little [] ctx tz query ps = Ok buf ->
  context_fits ctx -> string_fits tz -> string_fits query -> params_fit ps ->
  (n < length buf)%nat ->
  decode_setup little (take n buf) = Raise truncated.
Proof.
  rewrite build_setup_wire. intros Hb Hctx Htz Hq Hps Hn.
  case_match; [done|]. injection Hb as Hb.
  pose proof (decode_rest_wire little ctx tz query ps [] Hctx Htz Hq Hps) as Hfull.
  rewrite app_nil_r, Hb in Hfull. rewrite decode_setup_rest.
  destruct (decode_rest little (take n buf)) as [[v r]|e|] eqn:Hd; cbn.
  - apply (streaming_app _ _ _ (drop n buf)) in Hd.
    rewrite take_drop, Hfull in Hd. injection Hd as _ Hd.
    symmetry in Hd. apply app_eq_nil in Hd as [_ Hd].
    assert (length (drop n buf) = 0%nat) by (by rewrite Hd). len.
  - by rewrite (streaming_error _ _ Hd).
  - by destruct (streaming_defined _ Hd).
Qed.

(** C34. The two sides disagree about the limit by one byte: a payload of
    exactly CHDB_SETUP_MAX bytes passes the backend's check, and the helper
    refuses it as too large, because it doubles a full buffer before it
    finds the end of the stream. *)
Theorem setup_limit_mismatch ctx tz query ps p fuel :
  zlen (wire little ctx tz query ps) = CHDB_SETUP_MAX ->
  content p = wire little ctx tz query ps -> clean p -> (pipe_size p < fuel)%nat ->
  build_setup little [] ctx tz query ps = Ok (wire little ctx tz query ps) /\
  read_setup alloc fuel p = Some (Raise setup_too_large).
Proof using Halloc.
  intros Hmax Hp Hc Hf. split.
  - rewrite build_setup_wire, Hmax. by rewrite Z.ltb_irrefl.
  - rewrite read_setup_spec, Hp by done. unfold collected. rewrite Hmax.
    by rewrite Z.leb_refl.
Qed.
End properties.

(** ** Witnesses *)

Definition example_context : chdbHelperContext :=
  HelperContext CHDB_CMD_SELECT 4096 0 2.
Definition example_params : list (bytes * bytes) :=
  [(b8 "path", b8 "/tmp/a.csv"); (b8 "format", b8 "auto")].
Definition example_setup : bytes :=
  wire true example_context (b8 "UTC") (b8 "SELECT 1") example_params.
(** The payload in three pieces, the second after an interrupted read. *)
Definition example_pipe : pipe :=
  [Data (take 5 example_setup); Err EINTR; Data (drop 5 example_setup)].

Lemma example_context_fits : context_fits example_context.
Proof. by vm_compute. Qed.

Lemma setup_roundtrip_witness :
  read_setup (fun _ => true) 100 example_pipe = Some (Ok (example_setup, [])) /\
  decode_setup true example_setup
  = Ok (Payload example_context (b8 "UTC") (b8 "SELECT 1") example_params).
Proof.
  apply (setup_roundtrip true (fun _ => true)); concrete.
Defined.

Lemma setup_truncation_witness :
  decode_setup true (take 20 example_setup) = Raise truncated.
Proof.
  apply (setup_truncation true example_context (b8 "UTC") (b8 "SELECT 1") example_params);
    concrete.
Defined.

(** A query that fills the payload to the limit. *)
Definition limit_query : bytes := replicate (Z.to_nat (CHDB_SETUP_MAX - 17)) x20.

Lemma limit_query_wire :
  zlen (wire true example_context [] limit_query []) = CHDB_SETUP_MAX.
Proof.
  assert (zlen limit_query = CHDB_SETUP_MAX - 17) as Hl.
  { unfold limit_query. rewrite length_replicate, Z2Nat.id; [done|]. unfold CHDB_SETUP_MAX. lia. }
  unfold wire, wire_string, wire_params.
  assert (u32 (zlen limit_query) = zlen limit_query) as ->
    by (rewrite Hl; reflexivity).
  rewrite Nat2Z.id, (take_ge limit_query) by lia. autorewrite with chdb_len. cbn [concat map length take].
  cbn [length]. lia.
Qed.

Lemma setup_limit_mismatch_witness :
  build_setup true [] example_context [] limit_query []
  = Ok (wire true example_context [] limit_query []) /\
  read_setup (fun _ => true) (S (pipe_size [Data (wire true example_context [] limit_query [])]))
    [Data (wire true example_context [] limit_query [])] = Some (Raise setup_too_large).
Proof.
  apply (setup_limit_mismatch true (fun _ => true)); [done|apply limit_query_wire| |constructor|lia].
  unfold content. cbn [mbind list_bind item_bytes]. apply app_nil_r.
Defined.
