(* ===== verification/Structure.v ===== *)
(** * Structure: the structure clause of a chDB table function

    src/hook/copy.c builds the clause from the columns a COPY names
    ([structure_for_attnums]) and, for a format that lacks a type, replaces
    every clause of that type by [String] ([structure_as_string],
    [format_lacks_time64]); src/hook/hook.c flattens a clause the user wrote
    ([structure_on_one_line]). How pg-clickhouse-c spells an identifier and a
    type, and how Postgres folds case, are parameters. *)

From stdpp Require Import prelude.
From Stdlib Require Import Strings.Byte.
From S2P Require Import Prelude CString Catalog.

Definition SPACE : byte := x20.
Definition LPAREN : byte := x28.
Definition RPAREN : byte := x29.
Definition COMMA : byte := x2c.

(** [TupleDescAttr(desc, n - 1)]; a number the descriptor does not have reads
    past its end. *)
Definition TupleDescAttr (desc : list attribute) (attnum : nat) : res error attribute :=
  match attnum with
  | O => UB
  | S i => or_ub (desc !! i)
  end.

Section for_attnums.
(** [pgch_quote_ch_ident] and [pgch_ch_type_for] of pg-clickhouse-c. *)
Context (pgch_quote_ch_ident : bytes -> bytes).
Context (pgch_ch_type_for : Z -> Z -> bool -> bytes).

Definition column_clause (attr : attribute) : bytes :=
  pgch_quote_ch_ident (attname attr) ++ b8 " "
  ++ pgch_ch_type_for (atttypid attr) (atttypmod attr) (attnotnull attr).

(** One round of the loop, the buffer in hand. *)
Definition append_column (desc : list attribute) (buf : bytes) (attnum : nat)
    : res error bytes :=
  attr ← TupleDescAttr desc attnum;
  let buf := if decide (buf = []) then buf else buf ++ b8 ", " in
  Ok (buf ++ column_clause attr).

Fixpoint append_columns (desc : list attribute) (buf : bytes) (attnums : list nat)
    : res error bytes :=
  match attnums with
  | [] => Ok buf
  | n :: attnums => buf ← append_column desc buf n; append_columns desc buf attnums
  end.

Definition structure_for_attnums (desc : list attribute) (attnums : list nat)
    : res error bytes :=
  append_columns desc [] attnums.
End for_attnums.

(** ** Replacing a type by String *)

(** Where the type clause that begins at [pos] ends, parameters included, when
    one does begin there: outside quotes, after a space or an opening
    parenthesis, and closed by the end of the string, a comma or a closing
    parenthesis. *)
Definition clause_end (s type : bytes) (quoted : bool) (pos : nat) : option nat :=
  if negb quoted && has_prefix type (drop pos s)
     && bool_decide (0 < pos)%nat
     && bool_decide (s !! pred pos = Some SPACE \/ s !! pred pos = Some LPAREN)
  then
    let stop := (pos + length type)%nat in
    let stop :=
      if decide (s !! stop = Some LPAREN) then
        match strchr (drop stop s) RPAREN with
        | Some k => (stop + k + 1)%nat
        | None => stop
        end
      else stop in
    if bool_decide (s !! stop = None \/ s !! stop = Some COMMA \/ s !! stop = Some RPAREN)
    then Some stop else None
  else None.

(** The loop over the string. [None] is a loop still running when the fuel is
    spent. *)
Fixpoint structure_as_string_loop (fuel : nat) (s type : bytes) (quoted : bool)
    (pos : nat) (buf : bytes) : option bytes :=
  match fuel with
  | O => None
  | S fuel =>
      match s !! pos with
      | None => Some buf
      | Some c =>
          let quoted := if decide (c = DQUOTE) then negb quoted else quoted in
          match clause_end s type quoted pos with
          | Some stop =>
              structure_as_string_loop fuel s type quoted stop (buf ++ b8 "String")
          | None =>
              structure_as_string_loop fuel s type quoted (S pos) (buf ++ [c])
          end
      end
  end.

Definition structure_as_string (fuel : nat) (structure type : bytes) : option bytes :=
  structure_as_string_loop fuel structure type false 0 [].

(** ** Formats without Time64 *)

Definition formats_lacking_time64 : list bytes :=
  [ b8 "Parquet"; b8 "Arrow"; b8 "ArrowStream"; b8 "ORC"; b8 "Avro";
    b8 "Protobuf"; b8 "ProtobufList"; b8 "MsgPack"; b8 "BSONEachRow" ].

Definition format_lacks_time64 (pg_strcasecmp : bytes -> bytes -> Z) (format : bytes) : bool :=
  existsb (fun f => bool_decide (pg_strcasecmp format f = 0%Z)) formats_lacking_time64.

(** ** src/hook/hook.c: a structure on one line *)

Fixpoint structure_on_one_line (structure : bytes) : bytes :=
  match structure with
  | [] => []
  | c :: s =>
      (if decide (c = NEWLINE \/ c = RETURN) then SPACE else c) :: structure_on_one_line s
  end.
