(* ===== verification/StructureProps.v ===== *)
(** * StructureProps: what the structure clause functions promise

    [structure_for_attnums] is the comma-separated list of the columns in the
    order COPY names them. [structure_as_string] is shown to be a rewriting of
    type terms: on the text of a structure it gives the text of the structure
    with every leaf of the replaced type turned into [String], whatever the
    columns are called and however deep the type sits. *)

From stdpp Require Import prelude.
From Stdlib Require Import Strings.Byte.
From S2P Require Import Prelude CString Catalog Structure.

(** ** structure_for_attnums *)

Section for_attnums.
Context (quote : bytes -> bytes) (type_for : Z -> Z -> bool -> bytes).

Lemma column_clause_nonempty attr : column_clause quote type_for attr <> [].
Proof. unfold column_clause. by destruct (quote _). Qed.

Lemma append_columns_join desc attnums attrs done_ :
  Forall2 (fun n a => TupleDescAttr desc n = Ok a) attnums attrs ->
  append_columns quote type_for desc
    (join (b8 ", ") (map (column_clause quote type_for) done_)) attnums
  = Ok (join (b8 ", ") (map (column_clause quote type_for) (done_ ++ attrs))).
Proof.
  intros H. revert done_. induction H as [|n a attnums attrs Ha _ IH]; intros done_.
  { by rewrite app_nil_r. }
  cbn [append_columns]. unfold append_column. rewrite Ha. cbn.
  replace (done_ ++ a :: attrs) with ((done_ ++ [a]) ++ attrs) by by rewrite <-app_assoc.
  rewrite <-IH, map_app. f_equal. cbn [map].
  destruct done_ as [|d ds]; [done|].
  rewrite join_snoc by done. rewrite decide_False; [by rewrite app_assoc|].
  cbn [map]. pose proof (column_clause_nonempty d). destruct (map _ ds); cbn;
    destruct (column_clause quote type_for d); done.
Qed.

Lemma structure_for_attnums_join desc attnums attrs :
  Forall2 (fun n a => TupleDescAttr desc n = Ok a) attnums attrs ->
  structure_for_attnums quote type_for desc attnums
  = Ok (join (b8 ", ") (map (column_clause quote type_for) attrs)).
Proof. apply (append_columns_join desc attnums attrs []). Qed.
End for_attnums.

(** ** structure_as_string as a scan of the remaining text *)

(** A clause may begin after a space or an opening parenthesis. *)
Definition starts (c : byte) : bool := bool_decide (c = SPACE \/ c = LPAREN).

(** [clause_end], as a length and on the rest of the string. *)
Definition clause_len (type : bytes) (start quoted : bool) (s : bytes) : option nat :=
  if negb quoted && has_prefix type s && start then
    let rest := drop (length type) s in
    let stop :=
      if decide (rest !! 0 = Some LPAREN) then
        match strchr rest RPAREN with Some k => k + 1 | None => 0 end
      else 0 in
    if bool_decide (rest !! stop = None \/ rest !! stop = Some COMMA \/ rest !! stop = Some RPAREN)
    then Some (length type + stop) else None
  else None.

(** The text that comes out of the rest [s] of the structure, the first
    [skip] bytes of it being the end of a replaced clause. *)
Fixpoint scan (type : bytes) (skip : nat) (start quoted : bool) (s : bytes) : bytes :=
  match s with
  | [] => []
  | c :: s' =>
      match skip with
      | S skip => scan type skip (starts c) quoted s'
      | O =>
          let quoted := if decide (c = DQUOTE) then negb quoted else quoted in
          match clause_len type start quoted s with
          | Some n => b8 "String" ++ scan type (pred n) (starts c) quoted s'
          | None => c :: scan type 0 (starts c) quoted s'
          end
      end
  end.

(** Whether a clause may begin at [pos]. *)
Definition start_at (s : bytes) (pos : nat) : bool :=
  match pos with
  | O => false
  | S i => match s !! i with Some c => starts c | None => false end
  end.

Lemma clause_end_len s type quoted pos :
  clause_end s type quoted pos
  = Nat.add pos <$> clause_len type (start_at s pos) quoted (drop pos s).
Proof.
  unfold clause_end, clause_len.
  assert (bool_decide (0 < pos)%nat
          && bool_decide (s !! pred pos = Some SPACE \/ s !! pred pos = Some LPAREN)
          = start_at s pos) as Hstart.
  { destruct pos as [|i]; [done|]. rewrite bool_decide_true by lia. cbn [pred start_at].
    destruct (s !! i) as [c|]; cbn; unfold starts.
    - apply bool_decide_ext. naive_solver.
    - by apply bool_decide_false; intros [|]. }
  rewrite <-andb_assoc, Hstart. clear Hstart. destruct (negb quoted && _ && _); [|done]. cbn zeta.
  rewrite drop_drop, !lookup_drop.
  replace (pos + length type + 0) with (pos + length type) by lia.
  destruct (decide (s !! (pos + length type) = Some LPAREN)); [destruct (strchr _ _) as [k|]|];
    rewrite ?Nat.add_assoc, ?Nat.add_0_r; case_bool_decide; cbn;
    done || (apply f_equal; lia).
Qed.

Lemma clause_len_pos type start quoted s n :
  type <> [] -> clause_len type start quoted s = Some n -> 0 < n <= length s.
Proof.
  unfold clause_len. intros Ht. destruct (negb quoted && has_prefix type s && start) eqn:Hg;
    [|done].
  apply andb_true_iff in Hg as [[_ Hp]%andb_true_iff _].
  apply has_prefix_spec in Hp as [r ->]. rewrite drop_app_length, length_app.
  destruct type as [|x type]; [done|]. cbn [length].
  intros H. case_bool_decide; [|done]. injection H as <-.
  destruct (decide _); [|lia]. destruct (strchr r RPAREN) eqn:Hr; [|lia].
  apply take_strchr_le in Hr. lia.
Qed.

Lemma scan_skip type k start quoted s :
  scan type k start quoted s
  = scan type 0 (if decide (k = 0) then start else start_at s k) quoted (drop k s).
Proof.
  revert start s; induction k as [|k IH]; intros start s; [done|].
  destruct s as [|c s]; [done|]. cbn [scan drop]. rewrite IH. f_equal. by destruct k.
Qed.

Lemma structure_as_string_loop_scan fuel s type quoted pos buf :
  type <> [] -> (pos <= length s)%nat -> (length s - pos < fuel)%nat ->
  structure_as_string_loop fuel s type quoted pos buf
  = Some (buf ++ scan type 0 (start_at s pos) quoted (drop pos s)).
Proof.
  intros Ht. revert quoted pos buf. induction fuel as [|fuel IH]; intros quoted pos buf Hpos Hf;
    [lia|]. cbn [structure_as_string_loop].
  destruct (s !! pos) as [c|] eqn:Hc.
  2: { apply lookup_ge_None in Hc. rewrite drop_ge by done. by rewrite app_nil_r. }
  assert (drop pos s = c :: drop (S pos) s) as Hd by (by apply drop_S).
  pose proof (lookup_lt_Some _ _ _ Hc).
  rewrite clause_end_len, Hd. cbn [scan].
  destruct (clause_len _ _ _ _) as [n|] eqn:Hn; cbn.
  - apply clause_len_pos in Hn as [Hn0 Hn]; [|done]. rewrite <-Hd, length_drop in Hn.
    rewrite IH, (scan_skip _ (pred n)), <-app_assoc, drop_drop by lia. do 4 f_equal; [|f_equal; lia].
    destruct n as [|[|n]]; [lia| |]; cbn [pred].
    + rewrite decide_True by done. rewrite Nat.add_1_r. cbn. by rewrite Hc.
    + rewrite decide_False by done. rewrite Nat.add_succ_r. cbn.
      rewrite lookup_drop. by rewrite Nat.add_succ_comm.
  - rewrite IH by lia. cbn. by rewrite Hc, <-app_assoc.
Qed.

Lemma structure_as_string_scan fuel s type :
  type <> [] -> (length s < fuel)%nat ->
  structure_as_string fuel s type = Some (scan type 0 false false s).
Proof.
  intros. unfold structure_as_string. rewrite structure_as_string_loop_scan by (done || lia).
  done.
Qed.

(** ** Structures as terms *)

(** A column or field name: bare, or between double quotes. *)
Inductive ident : Type :=
| Bare (w : bytes)
| Quoted (w : bytes).

(** A ClickHouse type: a name with literal parameters, a type constructor over
    types, or one over named fields. A structure is itself a field list. *)
Inductive chtype : Type :=
| Base (name : bytes) (params : option bytes)
| Apply (name : bytes) (ts : types)
| Named (name : bytes) (fs : fields)
with types : Type :=
| TypeOne (t : chtype)
| TypeCons (t : chtype) (ts : types)
with fields : Type :=
| FieldOne (i : ident) (t : chtype)
| FieldCons (i : ident) (t : chtype) (fs : fields).

Scheme chtype_mut := Induction for chtype Sort Prop
  with types_mut := Induction for types Sort Prop
  with fields_mut := Induction for fields Sort Prop.
Combined Scheme chtype_fields_ind from chtype_mut, types_mut, fields_mut.

Definition show_ident (i : ident) : bytes :=
  match i with
  | Bare w => w
  | Quoted w => quoted w
  end.

Definition parens (s : bytes) : bytes := LPAREN :: s ++ [RPAREN].

Fixpoint show_type (t : chtype) : bytes :=
  match t with
  | Base n None => n
  | Base n (Some p) => n ++ parens p
  | Apply n ts => n ++ parens (show_types ts)
  | Named n fs => n ++ parens (show_fields fs)
  end
with show_types (ts : types) : bytes :=
  match ts with
  | TypeOne t => show_type t
  | TypeCons t ts => show_type t ++ (COMMA :: SPACE :: show_types ts)
  end
with show_fields (fs : fields) : bytes :=
  match fs with
  | FieldOne i t => show_ident i ++ (SPACE :: show_type t)
  | FieldCons i t fs =>
      show_ident i ++ (SPACE :: show_type t ++ (COMMA :: SPACE :: show_fields fs))
  end.

(** The replacement, on terms. *)
Fixpoint subst_type (type : bytes) (t : chtype) : chtype :=
  match t with
  | Base n p => if decide (n = type) then Base (b8 "String") None else Base n p
  | Apply n ts => Apply n (subst_types type ts)
  | Named n fs => Named n (subst_fields type fs)
  end
with subst_types (type : bytes) (ts : types) : types :=
  match ts with
  | TypeOne t => TypeOne (subst_type type t)
  | TypeCons t ts => TypeCons (subst_type type t) (subst_types type ts)
  end
with subst_fields (type : bytes) (fs : fields) : fields :=
  match fs with
  | FieldOne i t => FieldOne i (subst_type type t)
  | FieldCons i t fs => FieldCons i (subst_type type t) (subst_fields type fs)
  end.

(** Characters with a meaning in a structure. *)
Definition delim (c : byte) : bool :=
  bool_decide (c = SPACE \/ c = LPAREN \/ c = RPAREN \/ c = COMMA \/ c = DQUOTE).
Definition word (w : bytes) : Prop := w <> [] /\ Forall (fun c => delim c = false) w.

Definition ident_ok (i : ident) : Prop :=
  match i with
  | Bare w => word w
  | Quoted w => DQUOTE ∉ w
  end.

(** Parameters are literals, such as [6, 'UTC'], not naming the replaced type. *)
Definition params_ok (type p : bytes) : Prop :=
  (LPAREN ∉ p) /\ (RPAREN ∉ p) /\ (DQUOTE ∉ p) /\ strstr p type = None.

Fixpoint type_ok (type : bytes) (t : chtype) : Prop :=
  match t with
  | Base n None => word n
  | Base n (Some p) => word n /\ params_ok type p
  | Apply n ts => word n /\ n <> type /\ types_ok type ts
  | Named n fs => word n /\ n <> type /\ fields_ok type fs
  end
with types_ok (type : bytes) (ts : types) : Prop :=
  match ts with
  | TypeOne t => type_ok type t
  | TypeCons t ts => type_ok type t /\ types_ok type ts
  end
with fields_ok (type : bytes) (fs : fields) : Prop :=
  match fs with
  | FieldOne i t => ident_ok i /\ type_ok type t
  | FieldCons i t fs => ident_ok i /\ type_ok type t /\ fields_ok type fs
  end.

(** What may follow a complete type clause, and what may follow a word. *)
Definition closed (k : bytes) : Prop :=
  k = [] \/ (exists k', k = COMMA :: k') \/ (exists k', k = RPAREN :: k').
Definition fenced (k : bytes) : Prop :=
  k = [] \/ exists c k', k = c :: k' /\ delim c = true.

Lemma closed_fenced k : closed k -> fenced k.
Proof. intros [->|[[k' ->]|[k' ->]]]; [by left|right; by eauto..]. Qed.

Lemma fenced_cons c k : delim c = true -> fenced (c :: k).
Proof. right. eauto. Qed.

Lemma starts_delim c : delim c = false -> starts c = false.
Proof. unfold delim, starts. rewrite !bool_decide_eq_false. tauto. Qed.

Lemma delim_not_quote c : delim c = false -> c <> DQUOTE.
Proof. unfold delim. rewrite bool_decide_eq_false. tauto. Qed.

Section scan_terms.
Context (type : bytes) (Htype : word type).

(** The type is a word: no prefix of the text that begins with a delimiter. *)
Lemma clause_delim start quoted c k :
  delim c = true -> clause_len type start quoted (c :: k) = None.
Proof.
  intros Hc. unfold clause_len. destruct Htype as [Hne Hw].
  destruct type as [|x t]; [done|]. apply Forall_cons in Hw as [Hx _].
  cbn [has_prefix]. rewrite decide_False by congruence. by rewrite andb_false_r.
Qed.

Lemma clause_no_start quoted s : clause_len type false quoted s = None.
Proof. unfold clause_len. by rewrite andb_false_r. Qed.

(** A word in front of a fence is a clause only if it is the type itself. *)
Lemma has_prefix_word w k :
  Forall (fun c => delim c = false) w -> fenced k -> has_prefix type (w ++ k) = true ->
  exists x, w = type ++ x.
Proof.
  intros Hw Hk Hp. destruct Htype as [_ Ht]. clear Htype. revert type Ht Hp.
  induction Hw as [|c w Hc _ IH]; intros t Ht Hp.
  - exists []. destruct t as [|x t]; [done|]. apply Forall_cons in Ht as [Hx _].
    destruct Hk as [->|(c & k' & -> & Hc)]; [done|]. cbn in Hp.
    case_decide; congruence.
  - destruct t as [|x t]; [by exists (c :: w)|]. apply Forall_cons in Ht as [_ Ht].
    cbn in Hp. case_decide; [|done]. subst. destruct (IH t Ht Hp) as [y ->].
    by exists y.
Qed.

Lemma clause_word start quoted w k :
  word w -> w <> type -> fenced k -> clause_len type start quoted (w ++ k) = None.
Proof.
  intros [_ Hw] Hne Hk. unfold clause_len.
  destruct (has_prefix type (w ++ k)) eqn:Hp; [|by rewrite andb_false_r].
  apply has_prefix_word in Hp as [x ->]; [|done..].
  destruct (_ && _ && _); [|done]. cbn zeta. rewrite <-app_assoc, drop_app_length.
  destruct x as [|c x]; [by rewrite app_nil_r in Hne|].
  apply Forall_app in Hw as [_ [Hc _]%Forall_cons]. cbn.
  unfold delim in Hc. apply bool_decide_eq_false in Hc.
  rewrite decide_False by naive_solver. cbn.
  by rewrite bool_decide_false by naive_solver.
Qed.

(** The type itself followed by a space is a column of that name. *)
Lemma clause_type_space start quoted k :
  clause_len type start quoted (type ++ SPACE :: k) = None.
Proof.
  unfold clause_len. rewrite drop_app_length. destruct (_ && _ && _); [|done]. cbn.
  by rewrite bool_decide_false by (intros [|[|]]; discriminate).
Qed.

(** The type itself, with or without parameters, is a clause. *)
Lemma clause_type k :
  closed k -> clause_len type true false (type ++ k) = Some (length type).
Proof.
  intros Hk. unfold clause_len. rewrite has_prefix_app, drop_app_length. cbn.
  rewrite decide_False by (destruct Hk as [->|[[? ->]|[? ->]]]; discriminate).
  rewrite bool_decide_true, Nat.add_0_r; [done|].
  destruct Hk as [->|[[? ->]|[? ->]]]; cbn; auto.
Qed.

Lemma clause_type_params p k :
  RPAREN ∉ p -> closed k ->
  clause_len type true false (type ++ parens p ++ k) = Some (length (type ++ parens p)).
Proof.
  intros Hp Hk. unfold clause_len, parens. rewrite has_prefix_app, drop_app_length.
  cbn [negb andb]. cbn zeta. rewrite decide_True by done.
  replace ((LPAREN :: p ++ [RPAREN]) ++ k) with ((LPAREN :: p) ++ RPAREN :: k)
    by (cbn; by rewrite <-app_assoc).
  rewrite strchr_app by set_solver. cbn [length].
  rewrite lookup_app_r by (cbn; lia). cbn [length].
  replace (S (length p) + 1 - S (length p)) with 1 by lia. cbn [lookup list_lookup].
  rewrite bool_decide_true by (destruct Hk as [->|[[? ->]|[? ->]]]; cbn; auto).
  f_equal. autorewrite with chdb_len. cbn. len.
Qed.

(** Scanning the pieces of a structure. *)
Lemma scan_inside w k :
  Forall (fun c => delim c = false) w ->
  scan type 0 false false (w ++ k) = w ++ scan type 0 false false k.
Proof.
  induction 1 as [|c w Hc _ IH]; [done|]. cbn [app scan].
  rewrite decide_False by (by apply delim_not_quote).
  rewrite clause_no_start, starts_delim, IH by done. done.
Qed.

Lemma scan_word start w k :
  word w -> clause_len type start false (w ++ k) = None ->
  scan type 0 start false (w ++ k) = w ++ scan type 0 false false k.
Proof.
  intros [Hne Hw] Hcl. destruct w as [|c w]; [done|].
  apply Forall_cons in Hw as [Hc Hw]. cbn [app scan] in *.
  rewrite decide_False by (by apply delim_not_quote).
  by rewrite Hcl, starts_delim, scan_inside.
Qed.

Lemma scan_punct start c k :
  delim c = true -> c <> DQUOTE ->
  scan type 0 start false (c :: k) = c :: scan type 0 (starts c) false k.
Proof. intros. cbn [scan]. rewrite decide_False by done. by rewrite clause_delim. Qed.

Lemma scan_in_quotes w k start :
  DQUOTE ∉ w ->
  scan type 0 start true (w ++ DQUOTE :: k) = w ++ DQUOTE :: scan type 0 false false k.
Proof.
  revert start. induction w as [|c w IH]; intros start Hw; cbn [app scan].
  - rewrite decide_True by done. by rewrite clause_delim.
  - rewrite decide_False by set_solver. rewrite IH by set_solver. done.
Qed.

Lemma scan_ident start i k :
  ident_ok i ->
  scan type 0 start false (show_ident i ++ SPACE :: k)
  = show_ident i ++ SPACE :: scan type 0 true false k.
Proof.
  intros Hi. destruct i as [w|w]; cbn [show_ident ident_ok] in *.
  - rewrite scan_word, scan_punct; [done|done|done|done|].
    destruct (decide (w = type)) as [->|]; [apply clause_type_space|].
    by apply clause_word, fenced_cons.
  - unfold quoted. cbn [app scan]. rewrite decide_True by done. cbn [negb].
    rewrite clause_delim by done. rewrite <-!app_assoc. cbn [app].
    rewrite scan_in_quotes by done. by rewrite scan_punct.
Qed.

Lemma has_prefix_fence u k :
  has_prefix type (u ++ RPAREN :: k) = true -> has_prefix type u = true.
Proof.
  destruct Htype as [_ Ht]. clear Htype. revert type Ht.
  induction u as [|c u IH]; intros t Ht Hp.
  - destruct t as [|x t]; [done|]. apply Forall_cons in Ht as [Hx _]. cbn in Hp.
    case_decide; [by subst|done].
  - destruct t as [|x t]; [done|]. apply Forall_cons in Ht as [_ Ht]. cbn in *.
    case_decide; [eauto|done].
Qed.

Lemma scan_params start p k :
  params_ok type p ->
  scan type 0 start false (p ++ RPAREN :: k) = p ++ RPAREN :: scan type 0 false false k.
Proof.
  revert start. induction p as [|c p IH]; intros start (Hl & Hr & Hq & Hs).
  - by apply scan_punct.
  - cbn [app scan]. rewrite decide_False by set_solver.
    cbn [strstr] in Hs. destruct (has_prefix type (c :: p)) eqn:Hp; [done|].
    apply fmap_None in Hs.
    assert (clause_len type start false (c :: p ++ RPAREN :: k) = None) as ->.
    { unfold clause_len. destruct (has_prefix type (c :: p ++ RPAREN :: k)) eqn:Hp'.
      - apply (has_prefix_fence (c :: p)) in Hp'. congruence.
      - by rewrite andb_false_r. }
    rewrite IH; [done|]. repeat split; set_solver.
Qed.

(** A clause is replaced, and scanning resumes behind it. *)
Lemma scan_clause w z k :
  delim z = false \/ z = RPAREN -> head (w ++ [z]) <> Some DQUOTE ->
  clause_len type true false ((w ++ [z]) ++ k) = Some (length (w ++ [z])) ->
  scan type 0 true false ((w ++ [z]) ++ k) = b8 "String" ++ scan type 0 false false k.
Proof.
  intros Hz Hhead Hcl.
  assert (starts z = false) as Hsz by (destruct Hz as [?| ->]; auto using starts_delim).
  destruct w as [|x w].
  - cbn [app scan head] in *. rewrite decide_False by congruence. rewrite Hcl. cbn.
    by rewrite Hsz.
  - cbn [app scan head] in *. rewrite decide_False by congruence. rewrite Hcl.
    cbn [length pred]. rewrite scan_skip, decide_False by (rewrite length_app; cbn; lia).
    rewrite drop_app_length. do 2 f_equal.
    rewrite length_app, Nat.add_1_r. cbn [start_at].
    rewrite <-app_assoc, lookup_app_r, Nat.sub_diag by lia. done.
Qed.

Lemma scan_replaced k :
  closed k -> scan type 0 true false (type ++ k) = b8 "String" ++ scan type 0 false false k.
Proof.
  intros Hk. pose proof (clause_type k Hk) as Hcl. destruct Htype as [Hne Hw].
  destruct (exists_last Hne) as (w & z & Heq).
  assert (delim z = false /\ head (w ++ [z]) <> Some DQUOTE) as [Hz Hh].
  { rewrite Heq in Hw. split.
    - by apply Forall_app in Hw as [_ [? _]%Forall_cons].
    - destruct w as [|x w]; apply Forall_cons in Hw as [Hx _]; cbn; intros [= ->]; done. }
  rewrite Heq in Hcl at 2 3. rewrite Heq at 2. apply scan_clause; auto.
Qed.

Lemma scan_replaced_params p k :
  (RPAREN ∉ p) -> closed k ->
  scan type 0 true false (type ++ parens p ++ k) = b8 "String" ++ scan type 0 false false k.
Proof.
  intros Hp Hk. pose proof (clause_type_params p k Hp Hk) as Hcl.
  assert (type ++ parens p = (type ++ LPAREN :: p) ++ [RPAREN]) as Heq
    by (unfold parens; by rewrite <-app_assoc).
  rewrite app_assoc in *. rewrite Heq in *. apply scan_clause; [by right| |done].
  destruct Htype as [Hne Hw]. destruct type as [|x t]; [done|].
  apply Forall_cons in Hw as [Hx _]. cbn. intros [= ->]. done.
Qed.

(** A parenthesised list is scanned with the scanner of its contents. *)
Lemma scan_parens n s s' k :
  word n -> n <> type ->
  (forall k, closed k -> scan type 0 true false (s ++ k) = s' ++ scan type 0 false false k) ->
  scan type 0 true false ((n ++ parens s) ++ k)
  = (n ++ parens s') ++ scan type 0 false false k.
Proof.
  intros Hn Hne Hs. unfold parens. rewrite <-!app_assoc. cbn [app].
  rewrite <-!app_assoc. cbn [app].
  rewrite scan_word by (done || by apply clause_word, fenced_cons).
  rewrite scan_punct by done. rewrite Hs by (right; right; eauto).
  by rewrite scan_punct.
Qed.

Lemma scan_terms_correct :
  (forall t k, type_ok type t -> closed k ->
    scan type 0 true false (show_type t ++ k)
    = show_type (subst_type type t) ++ scan type 0 false false k) /\
  (forall ts k, types_ok type ts -> closed k ->
    scan type 0 true false (show_types ts ++ k)
    = show_types (subst_types type ts) ++ scan type 0 false false k) /\
  (forall fs start k, fields_ok type fs -> closed k ->
    scan type 0 start false (show_fields fs ++ k)
    = show_fields (subst_fields type fs) ++ scan type 0 false false k).
Proof.
  apply chtype_fields_ind.
  - intros n [p|] k; cbn [type_ok subst_type show_type].
    + intros [Hn Hp] Hk. case_decide as Heq.
      * subst n. rewrite <-app_assoc. apply scan_replaced_params; [by apply Hp|done].
      * cbn [show_type]. unfold parens. rewrite <-!app_assoc. cbn [app].
        rewrite <-app_assoc. cbn [app].
        rewrite scan_word by (done || by apply clause_word, fenced_cons).
        rewrite scan_punct by done. by rewrite scan_params, <-app_assoc.
    + intros Hn Hk. case_decide as Heq; [subst n; by apply scan_replaced|].
      by apply scan_word, clause_word; [..|apply closed_fenced].
  - intros n ts IH k (Hn & Hne & Hts) Hk. apply scan_parens; auto.
  - intros n fs IH k (Hn & Hne & Hfs) Hk. apply scan_parens; auto.
  - intros t IH k Ht Hk. by apply IH.
  - intros t IHt ts IHts k [Ht Hts] Hk. cbn. rewrite <- !app_assoc. cbn [app].
    rewrite IHt by (done || (right; left; eauto)).
    rewrite scan_punct by done. rewrite scan_punct by done. by rewrite IHts.
  - intros i t IH start k [Hi Ht] Hk. cbn. rewrite <-!app_assoc. cbn [app].
    rewrite scan_ident by done. by rewrite IH.
  - intros i t IHt fs IHf start k (Hi & Ht & Hf) Hk. cbn. rewrite <-!app_assoc.
    cbn [app]. rewrite <-!app_assoc, scan_ident by done. cbn [app].
    rewrite IHt by (done || (right; left; eauto)).
    rewrite scan_punct by done. rewrite scan_punct by done. by rewrite IHf.
Qed.
End scan_terms.

(** [structure_as_string] on the text of a structure. *)
Lemma structure_as_string_fields type fs fuel :
  word type -> fields_ok type fs -> (length (show_fields fs) < fuel)%nat ->
  structure_as_string fuel (show_fields fs) type = Some (show_fields (subst_fields type fs)).
Proof.
  intros Ht Hfs Hf. destruct (scan_terms_correct type Ht) as (_ & _ & Hscan).
  rewrite structure_as_string_scan by (done || apply Ht).
  pose proof (Hscan fs false [] Hfs (or_introl eq_refl)) as Heq.
  rewrite !app_nil_r in Heq. by rewrite Heq.
Qed.

(** ** Properties *)


(** [u UUID, "x (UUID" Map(String, Nullable(UUID)), UUID Time64(6)] *)
Definition example_fields : fields :=
  FieldCons (Bare (b8 "u")) (Base (b8 "UUID") None)
    (FieldCons (Quoted (b8 "x (UUID"))
       (Apply (b8 "Map") (TypeCons (Base (b8 "String") None)
          (TypeOne (Apply (b8 "Nullable") (TypeOne (Base (b8 "UUID") None))))))
      (FieldOne (Bare (b8 "UUID")) (Base (b8 "Time64") (Some (b8 "6"))))).

