(* ===== verification/Port.v ===== *)
(** * Port: the portability functions of Postgres the code calls

    [pg_strcasecmp], [pg_strncasecmp] and [is_absolute_path] are Postgres's.
    Their documented behaviour is the interface [PortLaws]; [ascii_port] shows
    that it can be met. *)

From stdpp Require Import prelude.
From Stdlib Require Import Strings.Byte.
From S2P Require Import Prelude Words.

(** ASCII case folding. *)
Definition fold_byte (c : byte) : byte :=
  let z := Z_of_byte c in
  if bool_decide (65 <= z <= 90)%Z then byte_of_Z (z + 32) else c.
Definition fold_case (s : bytes) : bytes := map fold_byte s.

Record Port : Type := MkPort {
  pg_strcasecmp : bytes -> bytes -> Z;
  pg_strncasecmp : bytes -> bytes -> nat -> Z;
  is_absolute_path : bytes -> bool;
}.

(** Case-independent comparison of two strings, and of their first [n] bytes;
    on Unix an absolute path begins with a slash. *)
Class PortLaws (port : Port) : Prop := {
  pg_strcasecmp_spec s t : pg_strcasecmp port s t = 0%Z <-> fold_case s = fold_case t;
  pg_strncasecmp_spec s t n :
    pg_strncasecmp port s t n = 0%Z <-> fold_case (take n s) = fold_case (take n t);
  is_absolute_path_spec s : is_absolute_path port s = true <-> exists r, s = x2f :: r;
}.

Definition ascii_casecmp (s t : bytes) : Z :=
  if decide (fold_case s = fold_case t) then 0 else 1.
Definition ascii_port : Port :=
  MkPort ascii_casecmp (fun s t n => ascii_casecmp (take n s) (take n t))
    (fun s => match s with x2f :: _ => true | _ => false end).

#[export] Instance ascii_port_laws : PortLaws ascii_port.
Proof.
  split; cbn.
  - intros s t. unfold ascii_casecmp. by case_decide.
  - intros s t n. unfold ascii_casecmp. by case_decide.
  - intros [|c s]; [by split; [|intros []]|].
    split; [|by intros [r [= -> ->]]]. destruct c; try done. by exists s.
Qed.
