(* ===== verification/Query.v ===== *)
(** * Query: from a COPY to a chDB query

    src/hook/copy.c: the URL decompositions ([parse_azure_url],
    [get_local_path_from_file_url]) and [make_ch_query], which chooses the table
    function, binds every value as a query parameter and appends the settings.
    The context is src/hook/copy.h's [chdbCopyContext]. *)

From stdpp Require Import prelude.
From Stdlib Require Import Strings.Byte SpecFloat.
From S2P Require Import Prelude Words CString Catalog Setup.
Local Open Scope Z_scope.

Definition SLASH : byte := x2f.
Definition QUESTION : byte := x3f.
Definition AT_SIGN : byte := x40.
Definition DOT : byte := x2e.

(** ** src/hook/copy.h *)

Inductive scheme : Type :=
| http_scheme
| s3_scheme
| gcs_scheme
| az_scheme
| abfs_scheme
| hdfs_scheme
| file_scheme
| no_scheme.

#[export] Instance scheme_eq_decision : EqDecision scheme.
Proof. solve_decision. Defined.

(** [enum scheme] is numbered in order. *)
Definition scheme_number (s : scheme) : Z :=
  match s with
  | http_scheme => 0 | s3_scheme => 1 | gcs_scheme => 2 | az_scheme => 3
  | abfs_scheme => 4 | hdfs_scheme => 5 | file_scheme => 6 | no_scheme => 7
  end.

Record chdbCopyContext : Type := CopyContext {
  cc_rel : option Relation;
  cc_attnums : list nat;
  cc_rtable : option RangeTable;
  cc_scheme : scheme;
  cc_cmd_type : Z;
  cc_timeout : Z;        (** uint32_t, milliseconds *)
  cc_max_memory : Z;     (** uint16_t *)
  cc_max_threads : Z;    (** uint16_t *)
  cc_max_parsers : Z;    (** uint16_t *)
  cc_encoding_check : Z; (** uint16_t *)
  cc_url : bytes;
  cc_access_key : bytes;
  cc_access_secret : bytes;
  cc_session_token : bytes;
  cc_format : bytes;
  cc_structure : bytes;
  cc_compression : bytes;
  cc_preserve_nested : bool;
}.

(** Assignments to its fields. *)
Definition set_timeout (v : Z) (c : chdbCopyContext) : chdbCopyContext :=
    CopyContext (cc_rel c) (cc_attnums c) (cc_rtable c) (cc_scheme c) (cc_cmd_type c) v
    (cc_max_memory c) (cc_max_threads c) (cc_max_parsers c) (cc_encoding_check c) (cc_url c)
    (cc_access_key c) (cc_access_secret c) (cc_session_token c) (cc_format c) (cc_structure
    c) (cc_compression c) (cc_preserve_nested c).
Definition set_encoding_check (v : Z) (c : chdbCopyContext) : chdbCopyContext :=
    CopyContext (cc_rel c) (cc_attnums c) (cc_rtable c) (cc_scheme c) (cc_cmd_type c)
    (cc_timeout c) (cc_max_memory c) (cc_max_threads c) (cc_max_parsers c) v (cc_url c)
    (cc_access_key c) (cc_access_secret c) (cc_session_token c) (cc_format c) (cc_structure
    c) (cc_compression c) (cc_preserve_nested c).
Definition set_url (v : bytes) (c : chdbCopyContext) : chdbCopyContext :=
    CopyContext (cc_rel c) (cc_attnums c) (cc_rtable c) (cc_scheme c) (cc_cmd_type c)
    (cc_timeout c) (cc_max_memory c) (cc_max_threads c) (cc_max_parsers c)
    (cc_encoding_check c) v (cc_access_key c) (cc_access_secret c) (cc_session_token c)
    (cc_format c) (cc_structure c) (cc_compression c) (cc_preserve_nested c).
Definition set_access_key (v : bytes) (c : chdbCopyContext) : chdbCopyContext :=
    CopyContext (cc_rel c) (cc_attnums c) (cc_rtable c) (cc_scheme c) (cc_cmd_type c)
    (cc_timeout c) (cc_max_memory c) (cc_max_threads c) (cc_max_parsers c)
    (cc_encoding_check c) (cc_url c) v (cc_access_secret c) (cc_session_token c) (cc_format
    c) (cc_structure c) (cc_compression c) (cc_preserve_nested c).
Definition set_access_secret (v : bytes) (c : chdbCopyContext) : chdbCopyContext :=
    CopyContext (cc_rel c) (cc_attnums c) (cc_rtable c) (cc_scheme c) (cc_cmd_type c)
    (cc_timeout c) (cc_max_memory c) (cc_max_threads c) (cc_max_parsers c)
    (cc_encoding_check c) (cc_url c) (cc_access_key c) v (cc_session_token c) (cc_format c)
    (cc_structure c) (cc_compression c) (cc_preserve_nested c).
Definition set_session_token (v : bytes) (c : chdbCopyContext) : chdbCopyContext :=
    CopyContext (cc_rel c) (cc_attnums c) (cc_rtable c) (cc_scheme c) (cc_cmd_type c)
    (cc_timeout c) (cc_max_memory c) (cc_max_threads c) (cc_max_parsers c)
    (cc_encoding_check c) (cc_url c) (cc_access_key c) (cc_access_secret c) v (cc_format c)
    (cc_structure c) (cc_compression c) (cc_preserve_nested c).
Definition set_format (v : bytes) (c : chdbCopyContext) : chdbCopyContext :=
    CopyContext (cc_rel c) (cc_attnums c) (cc_rtable c) (cc_scheme c) (cc_cmd_type c)
    (cc_timeout c) (cc_max_memory c) (cc_max_threads c) (cc_max_parsers c)
    (cc_encoding_check c) (cc_url c) (cc_access_key c) (cc_access_secret c)
    (cc_session_token c) v (cc_structure c) (cc_compression c) (cc_preserve_nested c).
Definition set_structure (v : bytes) (c : chdbCopyContext) : chdbCopyContext :=
    CopyContext (cc_rel c) (cc_attnums c) (cc_rtable c) (cc_scheme c) (cc_cmd_type c)
    (cc_timeout c) (cc_max_memory c) (cc_max_threads c) (cc_max_parsers c)
    (cc_encoding_check c) (cc_url c) (cc_access_key c) (cc_access_secret c)
    (cc_session_token c) (cc_format c) v (cc_compression c) (cc_preserve_nested c).
Definition set_compression (v : bytes) (c : chdbCopyContext) : chdbCopyContext :=
    CopyContext (cc_rel c) (cc_attnums c) (cc_rtable c) (cc_scheme c) (cc_cmd_type c)
    (cc_timeout c) (cc_max_memory c) (cc_max_threads c) (cc_max_parsers c)
    (cc_encoding_check c) (cc_url c) (cc_access_key c) (cc_access_secret c)
    (cc_session_token c) (cc_format c) (cc_structure c) v (cc_preserve_nested c).
Definition set_preserve_nested (v : bool) (c : chdbCopyContext) : chdbCopyContext :=
    CopyContext (cc_rel c) (cc_attnums c) (cc_rtable c) (cc_scheme c) (cc_cmd_type c)
    (cc_timeout c) (cc_max_memory c) (cc_max_threads c) (cc_max_parsers c)
    (cc_encoding_check c) (cc_url c) (cc_access_key c) (cc_access_secret c)
    (cc_session_token c) (cc_format c) (cc_structure c) (cc_compression c) v.
Definition set_scheme (v : scheme) (c : chdbCopyContext) : chdbCopyContext :=
    CopyContext (cc_rel c) (cc_attnums c) (cc_rtable c) v (cc_cmd_type c) (cc_timeout c)
    (cc_max_memory c) (cc_max_threads c) (cc_max_parsers c) (cc_encoding_check c) (cc_url c)
    (cc_access_key c) (cc_access_secret c) (cc_session_token c) (cc_format c) (cc_structure
    c) (cc_compression c) (cc_preserve_nested c).
Definition set_cmd_type (v : Z) (c : chdbCopyContext) : chdbCopyContext :=
    CopyContext (cc_rel c) (cc_attnums c) (cc_rtable c) (cc_scheme c) v (cc_timeout c)
    (cc_max_memory c) (cc_max_threads c) (cc_max_parsers c) (cc_encoding_check c) (cc_url c)
    (cc_access_key c) (cc_access_secret c) (cc_session_token c) (cc_format c) (cc_structure
    c) (cc_compression c) (cc_preserve_nested c).

Definition set_relation (rel : Relation) (attnums : list nat) (rt : RangeTable)
    (c : chdbCopyContext) : chdbCopyContext :=
    CopyContext (Some rel) attnums (Some rt) (cc_scheme c) (cc_cmd_type c) (cc_timeout c)
    (cc_max_memory c) (cc_max_threads c) (cc_max_parsers c) (cc_encoding_check c) (cc_url c)
    (cc_access_key c) (cc_access_secret c) (cc_session_token c) (cc_format c) (cc_structure
    c) (cc_compression c) (cc_preserve_nested c).

Definition CHDB_MAX_TABLEFUNC_ARGS : nat := 9.

(** The array of function names; [no_scheme] has no entry. *)
Definition table_function (s : scheme) : option bytes :=
  match s with
  | http_scheme => Some (b8 "url")
  | s3_scheme => Some (b8 "s3")
  | gcs_scheme => Some (b8 "gcs")
  | az_scheme => Some (b8 "azureBlobStorage")
  | abfs_scheme => Some (b8 "azureBlobStorage")
  | file_scheme => Some (b8 "file")
  | hdfs_scheme => Some (b8 "hdfs")
  | no_scheme => None
  end.

(** ** Azure URLs *)

Record azureURLParts : Type := AzureParts {
  account_url : bytes;
  container : bytes;
  path : bytes;
}.

(** [strstr(url, "://")], moved past the separator. *)
Definition after_scheme (url : bytes) : option bytes :=
  match strstr url (b8 "://") with
  | Some i => Some (drop (i + 3) url)
  | None => None
  end.

Definition azure_account_url (account : bytes) (query : option bytes) : bytes :=
  match query with
  | Some q => b8 "https://" ++ account ++ b8 "?" ++ q
  | None => b8 "https://" ++ account
  end.

Definition err_abfs_container : error :=
  with_hint (b8 "abfs://<container>@<account>.dfs.core.windows.net/<path>")
    (ereport ERRCODE_INVALID_PARAMETER_VALUE
       (b8 "chdb: Azure ABFS URL missing the container part")).
Definition azure_hint : bytes := b8 "az://<account>.blob.core.windows.net/<container>/<path>".
Definition err_azure_host : error :=
  with_hint azure_hint
    (ereport ERRCODE_INVALID_PARAMETER_VALUE
       (b8 "chdb: Azure URL missing the storage account host")).
Definition err_azure_container : error :=
  with_hint azure_hint
    (ereport ERRCODE_INVALID_PARAMETER_VALUE
       (b8 "chdb: Azure URL missing the container name")).

Definition parse_azure_url (ctx : chdbCopyContext) : res error azureURLParts :=
  match after_scheme (cc_url ctx) with
  | None => Raise (elog_error (b8 "chdb: malformed Azure URL " ++ cc_url ctx))
  | Some uri =>
      let '(uri, query) :=
        match strchr uri QUESTION with
        | Some q => (take q uri, Some (drop (S q) uri))
        | None => (uri, None)
        end in
      if decide (cc_scheme ctx = abfs_scheme) then
        match strchr uri AT_SIGN with
        | None => Raise err_abfs_container
        | Some at_ =>
            let host_and_path := drop (S at_) uri in
            let slash := strchr host_and_path SLASH in
            let host := match slash with Some i => take i host_and_path | None => host_and_path end in
            let path := match slash with Some i => drop (S i) host_and_path | None => [] end in
            let account :=
              match strchr host DOT with
              | Some _ => host
              | None => host ++ b8 ".blob.core.windows.net"
              end in
            Ok (AzureParts (azure_account_url account query) (take at_ uri) path)
        end
      else
        let slash := strstr uri (b8 "/") in
        let host := match slash with Some i => take i uri | None => uri end in
        let path := match slash with Some i => drop (S i) uri | None => [] end in
        match strchr host DOT with
        | None => Raise err_azure_host
        | Some _ =>
            let slash := strchr path SLASH in
            let container := match slash with Some i => take i path | None => path end in
            let rest := match slash with Some i => drop (S i) path | None => [] end in
            if decide (container = []) then Raise err_azure_container
            else Ok (AzureParts (azure_account_url host query) container rest)
        end
  end.

(** ** File URLs *)

Definition get_local_path_from_file_url (is_absolute_path : bytes -> bool) (url : bytes)
    : res error bytes :=
  match after_scheme url with
  | None => Raise (elog_error (b8 "chdb: malformed file URL " ++ url))
  | Some path =>
      raise_if (negb (is_absolute_path path))
        (ereport ERRCODE_INVALID_NAME
           (b8 "chdb: relative path not allowed for COPY to file URL")) ;;
      Ok path
  end.

(** ** The request timeout in seconds: [(uint32_t)ceil(timeout / (double)1000)] *)

Definition double_of (z : Z) : spec_float := binary_normalize 53 1024 z 0 false.

(** [ceil], as an integer; the code never meets an infinity or a NaN. *)
Definition ceil_double (f : spec_float) : Z :=
  match f with
  | S754_finite s m e =>
      let v := if s then Z.neg m else Z.pos m in
      if 0 <=? e then v * 2 ^ e else - ((- v) / 2 ^ (- e))
  | _ => 0
  end.

Definition http_timeout (timeout : Z) : Z :=
  u32 (ceil_double (SFdiv 53 1024 (double_of timeout) (double_of 1000))).

(** ** make_ch_query *)

Record ch_query : Type := ChQuery {
  q_text : bytes;
  q_params : list (bytes * bytes);
}.

Definition append (s : bytes) (q : ch_query) : ch_query := ChQuery (q_text q ++ s) (q_params q).

(** The PARAM macro: the arrays hold CHDB_MAX_TABLEFUNC_ARGS entries. *)
Definition PARAM (fmt name val : bytes) (q : ch_query) : res error ch_query :=
  if decide (length (q_params q) + 1 <= CHDB_MAX_TABLEFUNC_ARGS)%nat then
    Ok (ChQuery (q_text q ++ fmt) (q_params q ++ [(name, val)]))
  else UB.

Definition truncate_setting (ctx : chdbCopyContext) (setting : bytes) : bytes :=
  if decide (cc_cmd_type ctx = CHDB_CMD_INSERT) then setting else [].

Definition GCS_HOST : bytes := b8 "storage.googleapis.com".
Definition AWS_HOST : bytes := b8 ".amazonaws.com".

Section make_ch_query.
(** [pg_strncasecmp(s, t, n)] and [is_absolute_path] of Postgres. *)
Context (pg_strncasecmp : bytes -> bytes -> nat -> Z).
Context (is_absolute_path : bytes -> bool).

(** The URL argument of s3() and gcs(). *)
Definition s3_url (ctx : chdbCopyContext) (uri : bytes) : bytes :=
  let slash := strchr uri SLASH in
  if decide (cc_scheme ctx = s3_scheme) then
    match slash with
    | Some i =>
        if bool_decide (length AWS_HOST <= i)%nat
           && bool_decide (pg_strncasecmp (drop (i - length AWS_HOST) uri) AWS_HOST
                             (length AWS_HOST) = 0)
        then b8 "https://" ++ uri else cc_url ctx
    | None => cc_url ctx
    end
  else
    match slash with
    | Some i =>
        if bool_decide (length GCS_HOST <= i)%nat
           && bool_decide (pg_strncasecmp uri GCS_HOST (length GCS_HOST) = 0)
        then b8 "https://" ++ uri else b8 "https://" ++ GCS_HOST ++ b8 "/" ++ uri
    | None => b8 "https://" ++ GCS_HOST ++ b8 "/" ++ uri
    end.

Definition s3_query (ctx : chdbCopyContext) (fn format : bytes) (q : ch_query)
    : res error ch_query :=
  match after_scheme (cc_url ctx) with
  | None =>
      Raise (elog_error (b8 "chdb: malformed " ++ fn ++ b8 " URL " ++ cc_url ctx))
  | Some uri =>
      q ← PARAM (b8 "{url:String}") (b8 "url") (s3_url ctx uri) q;
      q ← (if decide (cc_access_key ctx = []) then Ok (append (b8 ", NOSIGN") q)
           else
             q ← PARAM (b8 ", {access_key:String}") (b8 "access_key") (cc_access_key ctx) q;
             q ← PARAM (b8 ", {access_secret:String}") (b8 "access_secret")
                   (cc_access_secret ctx) q;
             if decide (cc_session_token ctx <> [] /\ cc_scheme ctx = s3_scheme) then
               PARAM (b8 ", {session_token:String}") (b8 "session_token")
                 (cc_session_token ctx) q
             else Ok q);
      q ← PARAM (b8 ", {format:String}") (b8 "format") format q;
      q ← PARAM (b8 ", {structure:String}") (b8 "structure") (cc_structure ctx) q;
      q ← (if decide (cc_compression ctx = []) then Ok q
           else PARAM (b8 ", {compression:String}") (b8 "compression") (cc_compression ctx) q);
      Ok (append (b8 ") SETTINGS " ++ truncate_setting ctx (b8 "s3_truncate_on_insert = 1, ")
                  ++ b8 "s3_request_timeout_ms = " ++ fmt_d (cc_timeout ctx)) q)
  end.

Definition http_query (ctx : chdbCopyContext) (format : bytes) (q : ch_query)
    : res error ch_query :=
  q ← PARAM (b8 "{url:String}") (b8 "url") (cc_url ctx) q;
  q ← PARAM (b8 ", {format:String}") (b8 "format") format q;
  q ← PARAM (b8 ", {structure:String}") (b8 "structure") (cc_structure ctx) q;
  Ok (append (b8 ") SETTINGS http_connection_timeout=" ++ fmt_d (http_timeout (cc_timeout ctx))
              ++ b8 ", http_max_tries=1") q).

Definition azure_query (ctx : chdbCopyContext) (format : bytes) (q : ch_query)
    : res error ch_query :=
  parts ← parse_azure_url ctx;
  q ← PARAM (b8 "{url:String}") (b8 "url") (account_url parts) q;
  q ← PARAM (b8 ", {container:String}") (b8 "container") (container parts) q;
  q ← PARAM (b8 ", {path:String}") (b8 "path") (path parts) q;
  q ← PARAM (b8 ", {account_name:String}") (b8 "account_name") (cc_access_key ctx) q;
  q ← PARAM (b8 ", {account_key:String}") (b8 "account_key") (cc_access_secret ctx) q;
  q ← PARAM (b8 ", {format:String}") (b8 "format") format q;
  q ← PARAM (b8 ", {compression:String}") (b8 "compression")
        (if decide (cc_compression ctx = []) then b8 "auto" else cc_compression ctx) q;
  q ← PARAM (b8 ", {structure:String}") (b8 "structure") (cc_structure ctx) q;
  Ok (append (b8 ") SETTINGS " ++ truncate_setting ctx (b8 "azure_truncate_on_insert = 1, ")
              ++ b8 "azure_request_timeout_ms=" ++ fmt_d (cc_timeout ctx)) q).

Definition file_query (ctx : chdbCopyContext) (format : bytes) (q : ch_query)
    : res error ch_query :=
  local ← get_local_path_from_file_url is_absolute_path (cc_url ctx);
  q ← PARAM (b8 "{path:String}") (b8 "path") local q;
  q ← PARAM (b8 ", {format:String}") (b8 "format") format q;
  q ← PARAM (b8 ", {structure:String}") (b8 "structure") (cc_structure ctx) q;
  q ← (if decide (cc_compression ctx = []) then Ok q
       else PARAM (b8 ", {compression:String}") (b8 "compression") (cc_compression ctx) q);
  Ok (append (b8 ")" ++ truncate_setting ctx (b8 " SETTINGS engine_file_truncate_on_insert=1")) q).

Definition hdfs_query (ctx : chdbCopyContext) (format : bytes) (q : ch_query)
    : res error ch_query :=
  q ← PARAM (b8 "{url:String}") (b8 "url") (cc_url ctx) q;
  q ← PARAM (b8 ", {format:String}") (b8 "format") format q;
  q ← PARAM (b8 ", {structure:String}") (b8 "structure") (cc_structure ctx) q;
  Ok (append (b8 ")" ++ truncate_setting ctx (b8 " SETTINGS hdfs_truncate_on_insert = 1")) q).

(** The settings appended after the switch. *)
Definition final_settings (ctx : chdbCopyContext) : bytes :=
  let joins := negb (bool_decide (cc_scheme ctx = file_scheme))
               && negb (bool_decide (cc_scheme ctx = hdfs_scheme)) in
  let opening := if joins then b8 ", " else b8 " SETTINGS " in
  if decide (cc_cmd_type ctx = CHDB_CMD_DESCRIBE) then
    opening ++ b8 "describe_compact_output=1"
  else if decide (cc_cmd_type ctx = CHDB_CMD_SELECT /\ cc_preserve_nested ctx = true) then
    opening ++ b8 "flatten_nested=0"
  else [].

Definition query_verb (cmd_type : Z) : bytes :=
  if decide (cmd_type = CHDB_CMD_DESCRIBE) then b8 "DESCRIBE TABLE"
  else if decide (cmd_type = CHDB_CMD_SELECT) then b8 "SELECT * FROM"
  else b8 "INSERT INTO FUNCTION".

Definition make_ch_query (ctx : chdbCopyContext) : res error ch_query :=
  fn ← or_ub (table_function (cc_scheme ctx));
  let q := ChQuery (query_verb (cc_cmd_type ctx) ++ b8 " " ++ fn ++ b8 "(") [] in
  let format := if decide (cc_format ctx = []) then b8 "auto" else cc_format ctx in
  q ← match cc_scheme ctx with
      | s3_scheme | gcs_scheme => s3_query ctx fn format q
      | http_scheme => http_query ctx format q
      | az_scheme | abfs_scheme => azure_query ctx format q
      | file_scheme => file_query ctx format q
      | hdfs_scheme => hdfs_query ctx format q
      | no_scheme =>
          Raise (elog_error (b8 "unsupported URL scheme " ++ fmt_d (scheme_number no_scheme)))
      end;
  Ok (append (final_settings ctx) q).
End make_ch_query.

(** The parameters as the debug log shows them. *)
Definition log_params (params : list (bytes * bytes)) : bytes :=
  b8 "params: { "
  ++ join (b8 ", ") (map (fun p => p.1 ++ b8 ": " ++ quoted p.2) params)
  ++ b8 " }".
