(* ===== verification/QueryProps.v ===== *)
(** * QueryProps: what make_ch_query promises

    An abstract query is a verb, a table function, a list of arguments and a
    list of settings; [make_ch_query] is shown to print one, so its text is
    always well formed: the argument list is separated and closed, the
    [SETTINGS] clause is opened at most once, and every value travels as a
    bound parameter. *)

From stdpp Require Import prelude.
From Stdlib Require Import Strings.Byte.
From S2P Require Import Prelude Words CString Catalog Setup Query.
Local Open Scope Z_scope.

(** ** The abstract query *)

Inductive argument : Type :=
| Bind (name value : bytes)  (** a query parameter *)
| Nosign.                    (** the keyword that turns request signing off *)

Record abstract_query : Type := AbstractQuery {
  aq_verb : bytes;
  aq_function : bytes;
  aq_args : list argument;
  aq_settings : list bytes;
}.

Definition show_argument (a : argument) : bytes :=
  match a with
  | Bind n _ => b8 "{" ++ n ++ b8 ":String}"
  | Nosign => b8 "NOSIGN"
  end.

Definition show_settings (ss : list bytes) : bytes :=
  match ss with
  | [] => []
  | _ => b8 " SETTINGS " ++ join (b8 ", ") ss
  end.

Definition show_query (a : abstract_query) : bytes :=
  aq_verb a ++ b8 " " ++ aq_function a ++ b8 "("
  ++ join (b8 ", ") (map show_argument (aq_args a)) ++ b8 ")"
  ++ show_settings (aq_settings a).

Definition bound (a : argument) : list (bytes * bytes) :=
  match a with Bind n v => [(n, v)] | Nosign => [] end.

Definition print_query (a : abstract_query) : ch_query :=
  ChQuery (show_query a) (aq_args a ≫= bound).

(** ** The specification: arguments and settings of each scheme *)

(** "auto" stands for what the statement left out. *)
Definition or_auto (s : bytes) : bytes := if decide (s = []) then b8 "auto" else s.

Section spec.
Context (pg_strncasecmp : bytes -> bytes -> nat -> Z).
Context (is_absolute_path : bytes -> bool).
Implicit Types ctx : chdbCopyContext.

Definition credentials ctx : list argument :=
  if decide (cc_access_key ctx = []) then [Nosign]
  else [Bind (b8 "access_key") (cc_access_key ctx);
        Bind (b8 "access_secret") (cc_access_secret ctx)]
       ++ (if decide (cc_session_token ctx <> [] /\ cc_scheme ctx = s3_scheme)
           then [Bind (b8 "session_token") (cc_session_token ctx)] else []).

Definition format_structure ctx : list argument :=
  [Bind (b8 "format") (or_auto (cc_format ctx)); Bind (b8 "structure") (cc_structure ctx)].

Definition compression_arg ctx : list argument :=
  if decide (cc_compression ctx = []) then []
  else [Bind (b8 "compression") (cc_compression ctx)].

Definition spec_args ctx : res error (list argument) :=
  match cc_scheme ctx with
  | s3_scheme | gcs_scheme =>
      match after_scheme (cc_url ctx) with
      | None =>
          Raise (elog_error (b8 "chdb: malformed "
            ++ default [] (table_function (cc_scheme ctx)) ++ b8 " URL " ++ cc_url ctx))
      | Some uri =>
          Ok (Bind (b8 "url") (s3_url pg_strncasecmp ctx uri)
              :: credentials ctx ++ format_structure ctx ++ compression_arg ctx)
      end
  | http_scheme | hdfs_scheme =>
      Ok (Bind (b8 "url") (cc_url ctx) :: format_structure ctx)
  | az_scheme | abfs_scheme =>
      p ← parse_azure_url ctx;
      Ok [Bind (b8 "url") (account_url p); Bind (b8 "container") (container p);
          Bind (b8 "path") (path p); Bind (b8 "account_name") (cc_access_key ctx);
          Bind (b8 "account_key") (cc_access_secret ctx);
          Bind (b8 "format") (or_auto (cc_format ctx));
          Bind (b8 "compression") (or_auto (cc_compression ctx));
          Bind (b8 "structure") (cc_structure ctx)]
  | file_scheme =>
      local ← get_local_path_from_file_url is_absolute_path (cc_url ctx);
      Ok (Bind (b8 "path") local :: format_structure ctx ++ compression_arg ctx)
  | no_scheme => UB
  end.

Definition on_insert ctx (setting : bytes) : list bytes :=
  if decide (cc_cmd_type ctx = CHDB_CMD_INSERT) then [setting] else [].

Definition scheme_settings ctx : list bytes :=
  match cc_scheme ctx with
  | s3_scheme | gcs_scheme =>
      on_insert ctx (b8 "s3_truncate_on_insert = 1")
      ++ [b8 "s3_request_timeout_ms = " ++ fmt_d (cc_timeout ctx)]
  | http_scheme =>
      [b8 "http_connection_timeout=" ++ fmt_d (http_timeout (cc_timeout ctx));
       b8 "http_max_tries=1"]
  | az_scheme | abfs_scheme =>
      on_insert ctx (b8 "azure_truncate_on_insert = 1")
      ++ [b8 "azure_request_timeout_ms=" ++ fmt_d (cc_timeout ctx)]
  | file_scheme => on_insert ctx (b8 "engine_file_truncate_on_insert=1")
  | hdfs_scheme => on_insert ctx (b8 "hdfs_truncate_on_insert = 1")
  | no_scheme => []
  end.

Definition command_settings ctx : list bytes :=
  if decide (cc_cmd_type ctx = CHDB_CMD_DESCRIBE) then [b8 "describe_compact_output=1"]
  else if decide (cc_cmd_type ctx = CHDB_CMD_SELECT /\ cc_preserve_nested ctx = true)
       then [b8 "flatten_nested=0"]
  else [].

Definition spec_query ctx : res error abstract_query :=
  args ← spec_args ctx;
  Ok (AbstractQuery (query_verb (cc_cmd_type ctx))
        (default [] (table_function (cc_scheme ctx))) args
        (scheme_settings ctx ++ command_settings ctx)).

(** ** Refinement *)

(** The text up to the arguments printed so far. *)
Definition opened (verb fn : bytes) (args : list argument) : ch_query :=
  ChQuery (verb ++ b8 " " ++ fn ++ b8 "(" ++ join (b8 ", ") (map show_argument args))
    (args ≫= bound).

(** A PARAM after the first argument prints a comma first. *)
Lemma PARAM_next fmt verb fn args n v :
  fmt = b8 ", {" ++ n ++ b8 ":String}" ->
  args <> [] -> (length (args ≫= bound) < CHDB_MAX_TABLEFUNC_ARGS)%nat ->
  PARAM fmt n v (opened verb fn args) = Ok (opened verb fn (args ++ [Bind n v])).
Proof.
  intros -> Hne Hlen. unfold PARAM, opened. cbn [q_params q_text].
  rewrite decide_True by lia. do 2 f_equal.
  - rewrite map_app. cbn [map show_argument]. rewrite join_snoc by by destruct args.
    rewrite <-!app_assoc. done.
  - by rewrite bind_app.
Qed.

Lemma PARAM_first fmt verb fn n v :
  fmt = b8 "{" ++ n ++ b8 ":String}" ->
  PARAM fmt n v (ChQuery (verb ++ b8 " " ++ fn ++ b8 "(") [])
  = Ok (opened verb fn [Bind n v]).
Proof. intros ->. unfold PARAM, opened. cbn. by rewrite <-!app_assoc. Qed.

Lemma append_nosign verb fn args :
  args <> [] -> append (b8 ", NOSIGN") (opened verb fn args) = opened verb fn (args ++ [Nosign]).
Proof.
  intros Hne. unfold append, opened. cbn [q_params q_text]. f_equal.
  - rewrite map_app. cbn [map show_argument]. rewrite join_snoc by by destruct args.
    rewrite <-!app_assoc. done.
  - by rewrite bind_app, app_nil_r.
Qed.

(** Closing the argument list and adding the settings. *)
Lemma append_settings verb fn args first rest ss :
  first ++ rest = show_settings ss ->
  append rest (append (b8 ")" ++ first) (opened verb fn args))
  = print_query (AbstractQuery verb fn args ss).
Proof.
  intros Hss. unfold append, opened, print_query, show_query.
  cbn [q_text q_params aq_verb aq_function aq_args aq_settings].
  rewrite <-Hss. by rewrite <-!app_assoc.
Qed.

(** The settings text the code builds is the printed list. *)
Lemma settings_always ctx (t s0 : bytes) :
  (cc_scheme ctx <> file_scheme) -> (cc_scheme ctx <> hdfs_scheme) ->
  (b8 " SETTINGS " ++ truncate_setting ctx (t ++ b8 ", ") ++ s0) ++ final_settings ctx
  = show_settings (on_insert ctx t ++ [s0] ++ command_settings ctx).
Proof.
  intros Hf Hh. unfold truncate_setting, final_settings, on_insert, command_settings.
  rewrite !(bool_decide_false _) by done. cbn [negb andb].
  destruct (decide (cc_cmd_type ctx = CHDB_CMD_INSERT)) as [->|];
    [rewrite !decide_False by (discriminate || intros [? _]; discriminate)|
     repeat case_decide]; cbn [app show_settings join]; by rewrite ?app_nil_r, <-?app_assoc.
Qed.

Lemma settings_on_insert ctx t :
  cc_scheme ctx = file_scheme \/ cc_scheme ctx = hdfs_scheme ->
  truncate_setting ctx (b8 " SETTINGS " ++ t) ++ final_settings ctx
  = show_settings (on_insert ctx t ++ command_settings ctx).
Proof.
  intros Hs. unfold truncate_setting, final_settings, on_insert, command_settings.
  assert (negb (bool_decide (cc_scheme ctx = file_scheme))
          && negb (bool_decide (cc_scheme ctx = hdfs_scheme)) = false) as ->
    by by destruct Hs as [-> | ->].
  destruct (decide (cc_cmd_type ctx = CHDB_CMD_INSERT)) as [->|];
    [rewrite !decide_False by (discriminate || intros [? _]; discriminate)|
     repeat case_decide]; cbn [app show_settings join]; by rewrite ?app_nil_r.
Qed.
End spec.

(** One argument, its comma and its parameter. *)
Ltac param :=
  first
    [ rewrite PARAM_first by reflexivity
    | rewrite PARAM_next by (reflexivity || done || (cbn; unfold CHDB_MAX_TABLEFUNC_ARGS; lia)) ];
  cbn [mbind res_bind app].

Section refinement.
Context (pg_strncasecmp : bytes -> bytes -> nat -> Z).
Context (is_absolute_path : bytes -> bool).
Implicit Types ctx : chdbCopyContext.

Lemma s3_query_refines ctx fn uri :
  cc_scheme ctx = s3_scheme \/ cc_scheme ctx = gcs_scheme ->
  after_scheme (cc_url ctx) = Some uri ->
  (q ← s3_query pg_strncasecmp ctx fn (or_auto (cc_format ctx))
         (ChQuery (query_verb (cc_cmd_type ctx) ++ b8 " " ++ fn ++ b8 "(") []);
   Ok (append (final_settings ctx) q))
  = Ok (print_query (AbstractQuery (query_verb (cc_cmd_type ctx)) fn
      (Bind (b8 "url") (s3_url pg_strncasecmp ctx uri)
       :: credentials ctx ++ format_structure ctx ++ compression_arg ctx)
      (scheme_settings ctx ++ command_settings ctx))).
Proof.
  intros Hs Hu. unfold s3_query. rewrite Hu. param.
  set (settings := b8 ") SETTINGS " ++ _).
  assert (forall args, append (final_settings ctx) (append settings
            (opened (query_verb (cc_cmd_type ctx)) fn args))
          = print_query (AbstractQuery (query_verb (cc_cmd_type ctx)) fn args
              (scheme_settings ctx ++ command_settings ctx))) as Hend.
  { intros args. unfold settings.
    change (b8 ") SETTINGS ") with (b8 ")" ++ b8 " SETTINGS ").
    replace (scheme_settings ctx) with (on_insert ctx (b8 "s3_truncate_on_insert = 1")
      ++ [b8 "s3_request_timeout_ms = " ++ fmt_d (cc_timeout ctx)])
      by (unfold scheme_settings; by destruct Hs as [-> | ->]).
    rewrite <-!app_assoc. apply append_settings.
    apply (settings_always ctx (b8 "s3_truncate_on_insert = 1")); destruct Hs as [-> | ->]; done. }
  clearbody settings. unfold credentials, compression_arg.
  destruct (decide (cc_access_key ctx = [])); cbn [mbind res_bind].
  - rewrite append_nosign by done. cbn [app]. do 2 param.
    destruct (decide (cc_compression ctx = [])); cbn [mbind res_bind]; [|param];
      by rewrite Hend.
  - do 2 param.
    destruct (decide (cc_session_token ctx <> [] /\ _)); [param|cbn [mbind res_bind]];
      do 2 param; (destruct (decide (cc_compression ctx = [])); cbn [mbind res_bind]; [|param]);
      by rewrite Hend.
Qed.

(** The arguments are printed; what is left is the settings text. *)
Ltac settle :=
  cbn [fmap res_fmap]; f_equal; rewrite <-?app_assoc; apply append_settings.

Lemma http_query_refines ctx fn :
  cc_scheme ctx = http_scheme ->
  (q ← http_query ctx (or_auto (cc_format ctx))
         (ChQuery (query_verb (cc_cmd_type ctx) ++ b8 " " ++ fn ++ b8 "(") []);
   Ok (append (final_settings ctx) q))
  = Ok (print_query (AbstractQuery (query_verb (cc_cmd_type ctx)) fn
      (Bind (b8 "url") (cc_url ctx) :: format_structure ctx)
      (scheme_settings ctx ++ command_settings ctx))).
Proof.
  intros Hs. unfold http_query. do 3 param.
  change (b8 ") SETTINGS http_connection_timeout=")
    with (b8 ")" ++ b8 " SETTINGS " ++ b8 "http_connection_timeout=").
  settle. unfold scheme_settings, final_settings, command_settings. rewrite Hs. cbn [app].
  repeat case_decide; cbn [show_settings join app]; by rewrite <-?app_assoc, ?app_nil_r.
Qed.

Lemma azure_query_refines ctx fn :
  cc_scheme ctx = az_scheme \/ cc_scheme ctx = abfs_scheme ->
  (q ← azure_query ctx (or_auto (cc_format ctx))
         (ChQuery (query_verb (cc_cmd_type ctx) ++ b8 " " ++ fn ++ b8 "(") []);
   Ok (append (final_settings ctx) q))
  = (args ← spec_args pg_strncasecmp is_absolute_path ctx;
     Ok (print_query (AbstractQuery (query_verb (cc_cmd_type ctx)) fn args
           (scheme_settings ctx ++ command_settings ctx)))).
Proof.
  intros Hs. unfold azure_query.
  assert (spec_args pg_strncasecmp is_absolute_path ctx
          = (p ← parse_azure_url ctx;
             Ok [Bind (b8 "url") (account_url p); Bind (b8 "container") (container p);
                 Bind (b8 "path") (path p); Bind (b8 "account_name") (cc_access_key ctx);
                 Bind (b8 "account_key") (cc_access_secret ctx);
                 Bind (b8 "format") (or_auto (cc_format ctx));
                 Bind (b8 "compression") (or_auto (cc_compression ctx));
                 Bind (b8 "structure") (cc_structure ctx)])) as ->
    by (unfold spec_args; by destruct Hs as [-> | ->]).
  destruct (parse_azure_url ctx); cbn [mbind res_bind]; [|done..]. do 8 param.
  change (b8 ") SETTINGS ") with (b8 ")" ++ b8 " SETTINGS "). settle.
  replace (scheme_settings ctx) with (on_insert ctx (b8 "azure_truncate_on_insert = 1")
      ++ [b8 "azure_request_timeout_ms=" ++ fmt_d (cc_timeout ctx)])
      by (unfold scheme_settings; by destruct Hs as [-> | ->]).
  rewrite <-!app_assoc.
  rewrite <-(settings_always ctx (b8 "azure_truncate_on_insert = 1"));
    [by rewrite <-!app_assoc|destruct Hs as [-> | ->]; done..].
Qed.

Lemma local_query_refines ctx fn n v :
  cc_scheme ctx = file_scheme \/ cc_scheme ctx = hdfs_scheme ->
  forall t, scheme_settings ctx = on_insert ctx t -> forall args,
  append (final_settings ctx)
    (append (b8 ")" ++ truncate_setting ctx (b8 " SETTINGS " ++ t))
      (opened (query_verb (cc_cmd_type ctx)) fn (Bind n v :: args)))
  = print_query (AbstractQuery (query_verb (cc_cmd_type ctx)) fn (Bind n v :: args)
      (scheme_settings ctx ++ command_settings ctx)).
Proof.
  intros Hs t Ht args. apply append_settings. rewrite Ht. by apply settings_on_insert.
Qed.

Lemma make_ch_query_spec ctx :
  cc_scheme ctx <> no_scheme ->
  make_ch_query pg_strncasecmp is_absolute_path ctx
  = print_query <$> spec_query pg_strncasecmp is_absolute_path ctx.
Proof.
  intros Hno. unfold make_ch_query, spec_query. fold (or_auto (cc_format ctx)).
  destruct (cc_scheme ctx) eqn:Hs; cbn [table_function or_ub mbind res_bind default from_option];
    try done.
  - rewrite http_query_refines by done. unfold spec_args. by rewrite Hs.
  - unfold spec_args. rewrite Hs.
    destruct (after_scheme (cc_url ctx)) as [uri|] eqn:Hu.
    + by rewrite (s3_query_refines _ _ uri) by auto.
    + unfold s3_query. by rewrite Hu.
  - unfold spec_args. rewrite Hs.
    destruct (after_scheme (cc_url ctx)) as [uri|] eqn:Hu.
    + by rewrite (s3_query_refines _ _ uri) by auto.
    + unfold s3_query. by rewrite Hu.
  - rewrite azure_query_refines by auto. by destruct (spec_args _ _ _).
  - rewrite azure_query_refines by auto. by destruct (spec_args _ _ _).
  - unfold spec_args. rewrite Hs. unfold hdfs_query. do 3 param. cbn [fmap res_fmap]. f_equal.
    apply (local_query_refines ctx _ _ _ (or_intror Hs) (b8 "hdfs_truncate_on_insert = 1")).
    unfold scheme_settings. by rewrite Hs.
  - unfold spec_args. rewrite Hs. unfold file_query.
    destruct (get_local_path_from_file_url _ _); cbn [mbind res_bind]; [|done..].
    do 3 param. unfold compression_arg.
    destruct (decide (cc_compression ctx = [])); cbn [mbind res_bind]; [|param];
      cbn [fmap res_fmap]; f_equal;
      apply (local_query_refines ctx _ _ _ (or_introl Hs) (b8 "engine_file_truncate_on_insert=1"));
      unfold scheme_settings; by rewrite Hs.
Qed.

(** ** Consequences *)

(** What the text of a query may depend on: not on any value of a parameter. *)
Definition same_shape (c1 c2 : chdbCopyContext) : Prop :=
  cc_scheme c1 = cc_scheme c2 /\ cc_cmd_type c1 = cc_cmd_type c2 /\
  cc_timeout c1 = cc_timeout c2 /\ cc_preserve_nested c1 = cc_preserve_nested c2 /\
  (cc_access_key c1 = [] <-> cc_access_key c2 = []) /\
  (cc_session_token c1 = [] <-> cc_session_token c2 = []) /\
  (cc_compression c1 = [] <-> cc_compression c2 = []).

Lemma credentials_shape c1 c2 :
  same_shape c1 c2 ->
  map show_argument (credentials c1) = map show_argument (credentials c2).
Proof.
  intros (Hs & _ & _ & _ & Hk & Ht & _). unfold credentials. rewrite Hs.
  destruct (decide (cc_access_key c1 = [])), (decide (cc_access_key c2 = [])); try tauto.
  repeat case_decide; tauto || done.
Qed.

Lemma compression_shape c1 c2 :
  same_shape c1 c2 ->
  map show_argument (compression_arg c1) = map show_argument (compression_arg c2).
Proof.
  intros (_ & _ & _ & _ & _ & _ & Hc). unfold compression_arg.
  repeat case_decide; tauto || done.
Qed.

Lemma spec_args_shape c1 c2 a1 a2 :
  same_shape c1 c2 ->
  spec_args pg_strncasecmp is_absolute_path c1 = Ok a1 ->
  spec_args pg_strncasecmp is_absolute_path c2 = Ok a2 ->
  map show_argument a1 = map show_argument a2.
Proof.
  intros Hsh. pose proof (credentials_shape _ _ Hsh) as Hcr.
  pose proof (compression_shape _ _ Hsh) as Hco. destruct Hsh as [Hs _].
  unfold spec_args. rewrite <-Hs. destruct (cc_scheme c1); intros H1 H2;
    repeat match goal with
           | H : context [after_scheme ?u] |- _ => destruct (after_scheme u); [|done]
           end; inv_ok; cbn [map]; rewrite ?map_app, ?Hcr; cbn [map show_argument app format_structure]; rewrite ?Hco; done.
Qed.

Lemma settings_shape c1 c2 :
  same_shape c1 c2 ->
  scheme_settings c1 ++ command_settings c1 = scheme_settings c2 ++ command_settings c2.
Proof.
  intros (Hs & Hcmd & Ht & Hn & _). unfold scheme_settings, command_settings, on_insert.
  by rewrite Hs, Hcmd, Ht, Hn.
Qed.

(** The names are fixed, so no two parameters share one. *)
Lemma spec_args_names ctx args :
  spec_args pg_strncasecmp is_absolute_path ctx = Ok args ->
  NoDup (args ≫= bound).*1 /\ (length (args ≫= bound) <= CHDB_MAX_TABLEFUNC_ARGS)%nat.
Proof.
  unfold spec_args. intros H.
  assert (forall l : list argument, bool_decide (NoDup (l ≫= bound).*1) ->
    bool_decide (length (l ≫= bound) <= CHDB_MAX_TABLEFUNC_ARGS)%nat ->
    NoDup (l ≫= bound).*1 /\ (length (l ≫= bound) <= CHDB_MAX_TABLEFUNC_ARGS)%nat) as Hok
    by (intros; split; by apply (bool_decide_unpack _)).
  destruct (cc_scheme ctx);
    repeat match goal with
           | H : context [after_scheme ?u] |- _ => destruct (after_scheme u); [|done]
           end; inv_ok; apply Hok; unfold credentials, compression_arg;
    try destruct (decide (cc_access_key ctx = []));
    try destruct (decide (cc_session_token ctx <> [] /\ _));
    try destruct (decide (cc_compression ctx = [])); vm_compute; exact I.
Qed.

Lemma parse_azure_url_defined ctx : parse_azure_url ctx <> UB.
Proof. unfold parse_azure_url. by repeat case_match. Qed.

Lemma spec_args_defined ctx :
  spec_args pg_strncasecmp is_absolute_path ctx = UB -> cc_scheme ctx = no_scheme.
Proof.
  unfold spec_args, get_local_path_from_file_url.
  destruct (cc_scheme ctx); [..|done]; intros H; exfalso; revert H;
    try done; try (by case_match).
  - by intros [?%parse_azure_url_defined|(? & _ & [=])]%bind_UB.
  - by intros [?%parse_azure_url_defined|(? & _ & [=])]%bind_UB.
  - by intros [H|(? & _ & [=])]%bind_UB; revert H; case_match; [|done];
      intros [?%raise_if_not_UB|(? & _ & [=])]%bind_UB.
Qed.
End refinement.
