(* ===== verification/QueryTheorems.v ===== *)
(** * QueryTheorems: the properties of queries and URLs *)

From stdpp Require Import prelude.
From Stdlib Require Import Strings.Byte.
From S2P Require Import Prelude Words CString Catalog Port Setup Query QueryProps.
Local Open Scope Z_scope.

Section properties.
Context (port : Port) {Hport : PortLaws port}.
Local Abbreviation query := (make_ch_query (pg_strncasecmp port) (is_absolute_path port)).
Local Abbreviation spec := (spec_query (pg_strncasecmp port) (is_absolute_path port)).

(** C4. For every scheme and every command, [make_ch_query] prints the query
    its specification names: the right verb and table function, the arguments
    of that function in the order chDB takes them, separated and closed, each
    value bound as a parameter beside its placeholder, and the settings of the
    scheme followed by those of the command in one well-formed SETTINGS clause
    (none at all when there is no setting); it fails exactly when the
    specification does, with the same error. *)
Theorem make_ch_query_refines ctx :
  cc_scheme ctx <> no_scheme -> query ctx = print_query <$> spec ctx.
Proof. apply make_ch_query_spec. Qed.

(** C5. No value reaches the text of a query: two copies that agree on scheme,
    command, timeout and nesting, and on which credentials, token and
    compression are given at all, have the same text whatever their URLs,
    keys, formats and structures are. So no value can inject SQL, and an
    error that quotes the query leaks no credential. *)
Theorem query_text_independent c1 c2 q1 q2 :
  same_shape c1 c2 -> query c1 = Ok q1 -> query c2 = Ok q2 -> q_text q1 = q_text q2.
Proof.
  intros Hsh H1 H2.
  destruct (decide (cc_scheme c1 = no_scheme)) as [Hno|Hno].
  { unfold make_ch_query in H1. by rewrite Hno in H1. }
  assert (cc_scheme c2 <> no_scheme) as Hno2 by (destruct Hsh as [<- _]; done).
  rewrite make_ch_query_spec in H1, H2 by done. unfold spec_query in *.
  destruct (spec_args _ _ c1) as [a1| |] eqn:E1; [|done..].
  destruct (spec_args _ _ c2) as [a2| |] eqn:E2; [|done..].
  cbn in H1, H2. injection H1 as <-. injection H2 as <-.
  unfold print_query, show_query. cbn [q_text aq_verb aq_function aq_args aq_settings].
  rewrite (spec_args_shape _ _ _ _ _ _ Hsh E1 E2), (settings_shape _ _ Hsh).
  by destruct Hsh as (-> & -> & _).
Qed.

(** C35. The parameter arrays never overflow: for every scheme the hook can
    hand over, [make_ch_query] is free of undefined behaviour, and a query it
    builds has at most CHDB_MAX_TABLEFUNC_ARGS parameters, no two of them with
    the same name. *)
Theorem make_ch_query_bounds ctx :
  cc_scheme ctx <> no_scheme ->
  query ctx <> UB /\
  forall q, query ctx = Ok q ->
    (length (q_params q) <= CHDB_MAX_TABLEFUNC_ARGS)%nat /\ NoDup (q_params q).*1.
Proof.
  intros Hno. rewrite make_ch_query_spec by done. unfold spec_query.
  destruct (spec_args _ _ ctx) as [args| |] eqn:Ha; cbn.
  - split; [done|]. intros q [= <-]. by destruct (spec_args_names _ _ _ _ Ha).
  - by split.
  - by apply spec_args_defined in Ha.
Qed.

(** A file query names an absolute path only, the one the URL gives after
    its scheme; any other file URL is refused. *)
Theorem file_query_absolute ctx q :
  cc_scheme ctx = file_scheme -> query ctx = Ok q ->
  exists local rest scheme_name,
    q_params q = (b8 "path", x2f :: local) :: rest /\
    cc_url ctx = scheme_name ++ b8 "://" ++ x2f :: local.
Proof using Hport.
  intros Hs. rewrite make_ch_query_spec by by rewrite Hs.
  unfold spec_query, spec_args. rewrite Hs. unfold get_local_path_from_file_url, after_scheme.
  destruct (strstr (cc_url ctx) (b8 "://")) as [i|] eqn:Hi; [|done].
  apply strstr_split in Hi.
  destruct (is_absolute_path port _) eqn:Habs; [|done]. cbn. intros [= <-].
  apply is_absolute_path_spec in Habs as [r Hr]. cbn. rewrite Hr.
  exists r. eexists _, (take i (cc_url ctx)). split; [done|].
  rewrite <-Hr. exact Hi.
Qed.

(** The two documented forms of a GCS URL, the public one that names the
    storage host and the short one that names the bucket first, give the same
    address. *)
Theorem gcs_url_forms ctx bucket rest :
  cc_scheme ctx = gcs_scheme -> SLASH ∉ bucket ->
  fold_case (take (length GCS_HOST) (bucket ++ SLASH :: rest)) <> fold_case GCS_HOST ->
  s3_url (pg_strncasecmp port) ctx (GCS_HOST ++ SLASH :: bucket ++ SLASH :: rest)
  = s3_url (pg_strncasecmp port) ctx (bucket ++ SLASH :: rest) /\
  s3_url (pg_strncasecmp port) ctx (bucket ++ SLASH :: rest)
  = b8 "https://storage.googleapis.com/" ++ bucket ++ SLASH :: rest.
Proof using Hport.
  intros Hs Hb Hne. unfold s3_url. rewrite Hs.
  rewrite !decide_False by done. rewrite !strchr_app by (done || by apply (bool_decide_unpack _)).
  assert (pg_strncasecmp port (bucket ++ SLASH :: rest) GCS_HOST (length GCS_HOST) <> 0) as Hcmp.
  { rewrite pg_strncasecmp_spec. by rewrite (take_ge GCS_HOST) by done. }
  assert (pg_strncasecmp port (GCS_HOST ++ SLASH :: bucket ++ SLASH :: rest) GCS_HOST
            (length GCS_HOST) = 0) as ->.
  { apply pg_strncasecmp_spec. by rewrite take_app_length, firstn_all. }
  rewrite (bool_decide_false (pg_strncasecmp port (bucket ++ _) _ _ = 0)) by done.
  rewrite andb_false_r.
  rewrite !bool_decide_true by (done || lia). done.
Qed.
End properties.

(** ** Azure URLs *)

(** A URL from its parts. *)
Definition query_suffix (query : option bytes) : bytes :=
  match query with Some q => QUESTION :: q | None => [] end.

Lemma after_scheme_app name rest :
  x3a ∉ name -> after_scheme (name ++ b8 "://" ++ rest) = Some rest.
Proof.
  intros Hn. unfold after_scheme.
  change (b8 "://" ++ rest) with (x3a :: [x2f; x2f] ++ rest).
  change (b8 "://") with (x3a :: [x2f; x2f]). rewrite strstr_app by done.
  by rewrite drop_app_add.
Qed.

(** Cutting off the query string. *)
Lemma split_query uri query :
  QUESTION ∉ uri ->
  (match strchr (uri ++ query_suffix query) QUESTION with
   | Some q => (take q (uri ++ query_suffix query), Some (drop (S q) (uri ++ query_suffix query)))
   | None => (uri ++ query_suffix query, None)
   end) = (uri, query).
Proof.
  intros Hu. destruct query as [q|]; cbn [query_suffix].
  - rewrite strchr_app by done. rewrite take_app_length.
    by rewrite drop_app_ge, Nat.sub_succ_l, Nat.sub_diag by lia.
  - rewrite app_nil_r. by rewrite (proj2 (strchr_None _ _) Hu).
Qed.

Lemma strchr_dot host : strchr host DOT = None <-> DOT ∉ host.
Proof. apply strchr_None. Qed.

(** An az:// or azure:// URL is taken apart into the account URL, the
    container and the blob path it was put together from, and the first
    question mark ends the path: what follows it, a SAS token, goes to the
    account URL. A host without a dot and an empty container are refused. *)
Theorem azure_url_parts ctx name host container path query :
  cc_scheme ctx <> abfs_scheme ->
  cc_url ctx = name ++ b8 "://"
    ++ (host ++ SLASH :: container ++ SLASH :: path) ++ query_suffix query ->
  x3a ∉ name -> SLASH ∉ host -> SLASH ∉ container ->
  QUESTION ∉ host ++ SLASH :: container ++ SLASH :: path ->
  parse_azure_url ctx
  = if decide (DOT ∈ host) then
      if decide (container = []) then Raise err_azure_container
      else Ok (AzureParts (azure_account_url host query) container path)
    else Raise err_azure_host.
Proof.
  intros Hs Hurl Hname Hhost Hcont Hq. unfold parse_azure_url.
  rewrite Hurl, after_scheme_app, split_query by done. rewrite (decide_False (P := _ = abfs_scheme)) by done.
  change (b8 "/") with [SLASH]. rewrite strstr_singleton, strchr_app by done.
  rewrite take_app_length. replace (S (length host)) with (length host + 1)%nat by lia.
  rewrite drop_app_add. cbn [skipn]. rewrite ?drop_0.
  destruct (strchr host DOT) eqn:Hdot.
  - rewrite (decide_True (P := DOT ∈ host)) by (apply strchr_Some in Hdot as [Hd _]; by eapply list_elem_of_lookup_2).
    rewrite strchr_app by done. rewrite take_app_length.
    replace (S (length container)) with (length container + 1)%nat by lia.
    by rewrite drop_app_add.
  - by rewrite decide_False by by apply strchr_dot.
Qed.

(** An abfs:// or abfss:// URL is taken apart at the first at sign: the
    container before it, the account after it, completed with the blob host
    when it is a bare name, then the path, the query string going to the
    account URL; a URL without an at sign is refused. *)
Theorem abfs_url_parts ctx name uri query :
  cc_scheme ctx = abfs_scheme ->
  cc_url ctx = name ++ b8 "://" ++ uri ++ query_suffix query ->
  x3a ∉ name -> QUESTION ∉ uri ->
  (AT_SIGN ∉ uri -> parse_azure_url ctx = Raise err_abfs_container) /\
  (forall container account path,
    uri = container ++ AT_SIGN :: account ++ SLASH :: path ->
    AT_SIGN ∉ container -> SLASH ∉ account ->
    parse_azure_url ctx
    = Ok (AzureParts
            (azure_account_url
               (if decide (DOT ∈ account) then account
                else account ++ b8 ".blob.core.windows.net") query)
            container path)).
Proof.
  intros Hs Hurl Hname Hq. unfold parse_azure_url.
  rewrite Hurl, after_scheme_app, split_query by done. rewrite decide_True by done. split.
  - intros Hat. by rewrite (proj2 (strchr_None _ _) Hat).
  - intros container account path -> Hat Hsl. rewrite strchr_app by done.
    rewrite take_app_length. replace (S (length container)) with (length container + 1)%nat by lia.
    rewrite drop_app_add. cbn [skipn]. rewrite ?drop_0. rewrite strchr_app by done. rewrite take_app_length.
    replace (S (length account)) with (length account + 1)%nat by lia.
    rewrite drop_app_add. cbn [skipn]. rewrite ?drop_0.
    destruct (strchr account DOT) eqn:Hdot.
    + rewrite (decide_True (P := DOT ∈ account)) by (apply strchr_Some in Hdot as [Hd _]; by eapply list_elem_of_lookup_2).
      done.
    + by rewrite decide_False by by apply strchr_dot.
Qed.

(** ** Witnesses *)

Definition example_copy (s : scheme) (cmd : Z) (url key : bytes) : chdbCopyContext :=
  CopyContext None [] None s cmd 30000 4096 0 0 0 url key (b8 "secret") [] [] (b8 "a Int32")
    [] false.
Local Abbreviation ascii_query :=
  (make_ch_query (pg_strncasecmp ascii_port) (is_absolute_path ascii_port)).

Definition example_s3 : chdbCopyContext :=
  example_copy s3_scheme CHDB_CMD_INSERT (b8 "s3://bucket/data.csv") (b8 "key").

Lemma make_ch_query_refines_witness :
  ascii_query example_s3
  = print_query <$> spec_query (pg_strncasecmp ascii_port) (is_absolute_path ascii_port) example_s3
  /\ q_text <$> ascii_query example_s3
     = Ok (b8 "INSERT INTO FUNCTION s3({url:String}, {access_key:String}, {access_secret:String}, {format:String}, {structure:String}) SETTINGS s3_truncate_on_insert = 1, s3_request_timeout_ms = 30000").
Proof. split; [apply make_ch_query_refines; concrete|reflexivity]. Defined.

Lemma query_text_independent_witness :
  exists q1 q2,
    ascii_query example_s3 = Ok q1 /\
    ascii_query (example_copy s3_scheme CHDB_CMD_INSERT (b8 "s3://x') --/y") (b8 "other")) = Ok q2 /\
    q_text q1 = q_text q2.
Proof.
  eexists _, _. split; [reflexivity|]. split; [reflexivity|].
  eapply (query_text_independent ascii_port example_s3
    (example_copy s3_scheme CHDB_CMD_INSERT (b8 "s3://x') --/y") (b8 "other")));
    [|reflexivity|reflexivity].
  split_and!; concrete.
Defined.

Lemma make_ch_query_bounds_witness :
  ascii_query example_s3 <> UB /\
  forall q, ascii_query example_s3 = Ok q ->
    (length (q_params q) <= CHDB_MAX_TABLEFUNC_ARGS)%nat /\ NoDup (q_params q).*1.
Proof. apply (make_ch_query_bounds ascii_port example_s3). concrete. Defined.

Definition example_file : chdbCopyContext :=
  example_copy file_scheme CHDB_CMD_SELECT (b8 "file:///tmp/a.csv") [].

Lemma file_query_absolute_witness :
  exists q local rest scheme_name,
    ascii_query example_file = Ok q /\
    q_params q = (b8 "path", x2f :: local) :: rest /\
    cc_url example_file = scheme_name ++ b8 "://" ++ x2f :: local.
Proof.
  assert (exists q, ascii_query example_file = Ok q) as [q Hq] by (eexists; reflexivity).
  destruct (file_query_absolute ascii_port example_file q eq_refl Hq) as (l & r & n & H).
  exists q, l, r, n. by split.
Defined.

Lemma gcs_url_forms_witness :
  let ctx := example_copy gcs_scheme CHDB_CMD_SELECT (b8 "gs://bucket/a.csv") [] in
  s3_url (pg_strncasecmp ascii_port) ctx (b8 "storage.googleapis.com/bucket/a.csv")
  = s3_url (pg_strncasecmp ascii_port) ctx (b8 "bucket/a.csv") /\
  s3_url (pg_strncasecmp ascii_port) ctx (b8 "bucket/a.csv")
  = b8 "https://storage.googleapis.com/" ++ b8 "bucket" ++ SLASH :: b8 "a.csv".
Proof.
  intros ctx. apply (gcs_url_forms ascii_port ctx (b8 "bucket") (b8 "a.csv")); concrete.
Defined.

Lemma azure_url_parts_witness :
  parse_azure_url (example_copy az_scheme CHDB_CMD_SELECT
    (b8 "az://acct.blob.core.windows.net/logs/day/file?.csv") [])
  = Ok (AzureParts (b8 "https://acct.blob.core.windows.net?.csv") (b8 "logs") (b8 "day/file")).
Proof.
  apply (azure_url_parts _ (b8 "az") (b8 "acct.blob.core.windows.net") (b8 "logs")
           (b8 "day/file") (Some (b8 ".csv"))); concrete.
Defined.

Lemma abfs_url_parts_witness :
  parse_azure_url (example_copy abfs_scheme CHDB_CMD_SELECT (b8 "abfss://logs@acct/day/file") [])
  = Ok (AzureParts (b8 "https://acct.blob.core.windows.net") (b8 "logs") (b8 "day/file")).
Proof.
  apply (proj2 (abfs_url_parts
    (example_copy abfs_scheme CHDB_CMD_SELECT (b8 "abfss://logs@acct/day/file") [])
    (b8 "abfss") (b8 "logs@acct/day/file") None
    ltac:(concrete) ltac:(concrete) ltac:(concrete) ltac:(concrete))
    (b8 "logs") (b8 "acct") (b8 "day/file")); concrete.
Defined.
