(* ===== verification/Options.v ===== *)
(** * Options: URL schemes and statement options

    The parts of src/hook/hook.c that read a statement: [scheme_for],
    [contextualize_options] and [option_url_scheme]. Reading the argument of a
    [DefElem] is Postgres's, parsing the name of an encoding check is
    pg-clickhouse-c's. *)

From stdpp Require Import prelude.
From Stdlib Require Import Strings.Byte.
From S2P Require Import Prelude Words CString Catalog Structure Query.
Local Open Scope Z_scope.

(** ** Schemes *)

Definition scheme_name (s : scheme) : list bytes :=
  match s with
  | http_scheme => [b8 "http"; b8 "https"]
  | s3_scheme => [b8 "s3"]
  | gcs_scheme => [b8 "gs"; b8 "gcs"; b8 "oss"]
  | az_scheme => [b8 "az"; b8 "azure"]
  | abfs_scheme => [b8 "abfs"; b8 "abfss"]
  | file_scheme => [b8 "file"]
  | hdfs_scheme => [b8 "hdfs"]
  | no_scheme => []
  end.

(** The schemes below CHDB_NO_SCHEME, in the order of the enumeration: with
    CHDB_NO_FILE_SCHEME the loop stops before [file_scheme]. *)
Definition schemes (no_file : bool) : list scheme :=
  [http_scheme; s3_scheme; gcs_scheme; az_scheme; abfs_scheme; hdfs_scheme]
  ++ (if no_file then [] else [file_scheme]).

(** The inner loop: is [str] one of the names of the scheme, up to [len]? *)
Definition names_scheme (str : bytes) (len : nat) (s : scheme) : bool :=
  existsb (fun name => bool_decide (length name = len) && bool_decide (take len str = name))
    (scheme_name s).

Definition scheme_for (no_file : bool) (str : option bytes) : scheme :=
  match str with
  | None => no_scheme
  | Some str =>
      match strstr str (b8 "://") with
      | None => no_scheme
      | Some len => default no_scheme (List.find (names_scheme str len) (schemes no_file))
      end
  end.

(** ** Options *)

Definition err_timeout : error :=
  ereport ERRCODE_INVALID_PARAMETER_VALUE
    (b8 "chdb: argument to COPY option " ++ quoted (b8 "timeout") ++ b8 " must be a uint32").
Definition err_encoding (val : bytes) : error :=
  with_hint (b8 "Valid values are: fail, truncate, remove, replace")
    (ereport ERRCODE_FDW_INVALID_STRING_FORMAT
       (b8 "invalid value for option " ++ quoted (b8 "encoding_check") ++ b8 ": " ++ quoted val)).
Definition err_unsupported (name : bytes) : error :=
  ereport ERRCODE_SYNTAX_ERROR (b8 "chdb: option " ++ quoted name ++ b8 " not supported").

Definition UINT32_MAX : Z := 2 ^ 32 - 1.

Section options.
(** Postgres's readers of an option's argument. *)
Context (defGetString : DefElem -> res error bytes).
Context (defGetInt64 : DefElem -> res error Z).
(** pg-clickhouse-c's names for the ways to handle invalid text. *)
Context (pgch_parse_encoding_check : bytes -> option Z).
Context (CHC_ENC_FAIL : Z).

Definition default_options (ctx : chdbCopyContext) : chdbCopyContext :=
  let ctx := set_access_key [] ctx in
  let ctx := set_access_secret [] ctx in
  let ctx := set_session_token [] ctx in
  let ctx := set_format [] ctx in
  let ctx := set_structure [] ctx in
  let ctx := set_compression [] ctx in
  let ctx := set_timeout 30000 ctx in
  set_encoding_check CHC_ENC_FAIL ctx.

(** One round of the loop. [others] is [None] for a NULL pointer. *)
Definition take_option (ctx : chdbCopyContext) (others : option (list DefElem))
    (elem : DefElem) : res error (chdbCopyContext * option (list DefElem)) :=
  let name := defname elem in
  if decide (name = b8 "access_key") then
    v ← defGetString elem; Ok (set_access_key v ctx, others)
  else if decide (name = b8 "access_secret") then
    v ← defGetString elem; Ok (set_access_secret v ctx, others)
  else if decide (name = b8 "session_token") then
    v ← defGetString elem; Ok (set_session_token v ctx, others)
  else if decide (name = b8 "format") then
    v ← defGetString elem; Ok (set_format v ctx, others)
  else if decide (name = b8 "structure") then
    v ← defGetString elem; Ok (set_structure (structure_on_one_line v) ctx, others)
  else if decide (name = b8 "compression") then
    v ← defGetString elem; Ok (set_compression v ctx, others)
  else if decide (name = b8 "timeout") then
    timeout ← defGetInt64 elem;
    raise_if (bool_decide (timeout < 0 \/ UINT32_MAX < timeout)) err_timeout ;;
    Ok (set_timeout (u32 timeout) ctx, others)
  else if decide (name = b8 "encoding_check") then
    val ← defGetString elem;
    match pgch_parse_encoding_check val with
    | None => Raise (err_encoding val)
    | Some v => Ok (set_encoding_check (u16 v) ctx, others)
    end
  else
    match others with
    | Some others => Ok (ctx, Some (others ++ [elem]))
    | None => Raise (err_unsupported name)
    end.

Fixpoint take_options (ctx : chdbCopyContext) (others : option (list DefElem))
    (options : list DefElem) : res error (chdbCopyContext * option (list DefElem)) :=
  match options with
  | [] => Ok (ctx, others)
  | elem :: options =>
      '(ctx, others) ← take_option ctx others elem;
      take_options ctx others options
  end.

Definition contextualize_options (ctx : chdbCopyContext) (options : list DefElem)
    (others : option (list DefElem)) : res error (chdbCopyContext * option (list DefElem)) :=
  take_options (default_options ctx) others options.
End options.
