(* ===== verification/OptionsProps.v ===== *)
(** * OptionsProps: what reading a statement promises

    Which URLs belong to the extension, and what a list of options means: the
    last option of each name wins, unknown options are kept in order or
    refused, and the list is accepted exactly when each option is. *)

From stdpp Require Import prelude.
From Stdlib Require Import Strings.Byte.
From S2P Require Import Prelude Words CString Catalog Structure Query Options.
Local Open Scope Z_scope.

(** ** Schemes *)

Lemma scheme_names_plain s name : name ∈ scheme_name s -> x3a ∉ name.
Proof.
  intros Hn Hc. assert (bool_decide (Forall (fun n => x3a ∉ n) (scheme_name s))) as H
    by by destruct s.
  apply bool_decide_unpack in H. rewrite Forall_forall in H. by apply (H name).
Qed.

Lemma strstr_scheme name rest :
  x3a ∉ name -> strstr (name ++ b8 "://" ++ rest) (b8 "://") = Some (length name).
Proof. intros Hn. by apply (strstr_app name x3a [x2f; x2f] rest). Qed.

Lemma names_scheme_spec str len s :
  names_scheme str len s = true <-> take len str ∈ scheme_name s /\ (len <= length str)%nat.
Proof.
  unfold names_scheme. rewrite existsb_exists. split.
  - intros (n & Hin & [Hl%bool_decide_eq_true Ht%bool_decide_eq_true]%andb_true_iff).
    rewrite Ht. split; [by apply list_elem_of_In|]. rewrite <-Ht in Hl.
    rewrite length_take in Hl. lia.
  - intros [Hin Hl]. exists (take len str). split; [by apply list_elem_of_In|].
    rewrite !bool_decide_true; [done|done|]. rewrite length_take. lia.
Qed.

(** The scheme a name belongs to is the one the loop finds. *)
Lemma find_scheme no_file s name rest :
  s ∈ schemes no_file -> name ∈ scheme_name s ->
  List.find (names_scheme (name ++ rest) (length name)) (schemes no_file) = Some s.
Proof.
  intros Hs Hn.
  assert (forall t, names_scheme (name ++ rest) (length name) t
          = bool_decide (name ∈ scheme_name t)) as Ht.
  { intros t. apply eq_true_iff_eq. rewrite names_scheme_spec, bool_decide_eq_true.
    rewrite take_app_length, length_app. intuition lia. }
  assert (List.find (names_scheme (name ++ rest) (length name)) (schemes no_file)
          = List.find (fun t => bool_decide (name ∈ scheme_name t)) (schemes no_file)) as ->.
  { generalize (schemes no_file). clear - Ht. induction l as [|t l IH]; [done|].
    cbn [List.find]. by rewrite Ht, IH. }
  clear Ht. assert (bool_decide (Forall (fun t => Forall (fun n =>
      List.find (fun u => bool_decide (n ∈ scheme_name u)) (schemes no_file) = Some t)
      (scheme_name t)) (schemes no_file))) as H by by destruct no_file.
  apply bool_decide_unpack in H. rewrite Forall_forall in H.
  specialize (H s Hs). rewrite Forall_forall in H. by apply H.
Qed.

(** The hook takes a URL for its own exactly when the URL is one of the
    documented scheme names followed by [://], and gives it that name's
    scheme; a build without the file scheme loses file URLs and nothing
    else. *)
Theorem scheme_for_spec no_file url s :
  (scheme_for no_file (Some url) = s /\ s <> no_scheme) <->
  (s ∈ schemes no_file /\
   exists name rest, name ∈ scheme_name s /\ url = name ++ b8 "://" ++ rest).
Proof.
  unfold scheme_for. split.
  - intros [Hs Hno]. destruct (strstr url (b8 "://")) as [len|] eqn:Hstr; [|by subst].
    destruct (List.find _ _) as [t|] eqn:Hf; [|by subst]. cbn in Hs. subst t.
    apply List.find_some in Hf as [Hin Hn]. apply names_scheme_spec in Hn as [Hn _].
    split; [by apply list_elem_of_In|]. exists (take len url), (drop (len + 3) url).
    split; [done|]. by apply strstr_split.
  - intros (Hin & name & rest & Hn & ->).
    rewrite strstr_scheme by by eapply scheme_names_plain.
    rewrite (find_scheme _ s) by done. cbn. split; [done|]. intros ->. by apply not_elem_of_nil in Hn.
Qed.

(** ** Options *)

Definition string_options : list bytes :=
  [b8 "access_key"; b8 "access_secret"; b8 "session_token"; b8 "format"; b8 "structure";
   b8 "compression"].
Definition option_names : list bytes := string_options ++ [b8 "timeout"; b8 "encoding_check"].

Definition last_option (n : bytes) (options : list DefElem) : option DefElem :=
  last (filter (fun e => defname e = n) options).

Section options.
Context (defGetString : DefElem -> res error bytes).
Context (defGetInt64 : DefElem -> res error Z).
Context (pgch_parse_encoding_check : bytes -> option Z).
Context (CHC_ENC_FAIL : Z).
Local Abbreviation take_option :=
  (take_option defGetString defGetInt64 pgch_parse_encoding_check).
Local Abbreviation take_options :=
  (take_options defGetString defGetInt64 pgch_parse_encoding_check).
Local Abbreviation contextualize_options :=
  (contextualize_options defGetString defGetInt64 pgch_parse_encoding_check CHC_ENC_FAIL).

(** What the argument of an option means for the field it sets. *)
Definition reads_string (e : DefElem) (v : bytes) : Prop := defGetString e = Ok v.
Definition reads_structure (e : DefElem) (v : bytes) : Prop :=
  exists s, defGetString e = Ok s /\ v = structure_on_one_line s.
Definition reads_timeout (e : DefElem) (v : Z) : Prop :=
  defGetInt64 e = Ok v /\ 0 <= v <= UINT32_MAX.
Definition reads_encoding (e : DefElem) (v : Z) : Prop :=
  exists s c, defGetString e = Ok s /\ pgch_parse_encoding_check s = Some c /\ v = u16 c.

(** One round, as a case analysis. *)
Inductive taken (ctx : chdbCopyContext) (o : option (list DefElem)) (e : DefElem)
    : chdbCopyContext -> option (list DefElem) -> Prop :=
| taken_access_key v : defname e = b8 "access_key" -> reads_string e v ->
    taken ctx o e (set_access_key v ctx) o
| taken_access_secret v : defname e = b8 "access_secret" -> reads_string e v ->
    taken ctx o e (set_access_secret v ctx) o
| taken_session_token v : defname e = b8 "session_token" -> reads_string e v ->
    taken ctx o e (set_session_token v ctx) o
| taken_format v : defname e = b8 "format" -> reads_string e v ->
    taken ctx o e (set_format v ctx) o
| taken_structure v : defname e = b8 "structure" -> reads_structure e v ->
    taken ctx o e (set_structure v ctx) o
| taken_compression v : defname e = b8 "compression" -> reads_string e v ->
    taken ctx o e (set_compression v ctx) o
| taken_timeout v : defname e = b8 "timeout" -> reads_timeout e v ->
    taken ctx o e (set_timeout v ctx) o
| taken_encoding v : defname e = b8 "encoding_check" -> reads_encoding e v ->
    taken ctx o e (set_encoding_check v ctx) o
| taken_other l : (defname e ∉ option_names) -> o = Some l ->
    taken ctx o e ctx (Some (l ++ [e])).

Lemma u32_small v : 0 <= v <= UINT32_MAX -> u32 v = v.
Proof. unfold UINT32_MAX. intros. apply wrap_id. unfold fits. lia. Qed.

Lemma take_option_taken ctx o e ctx' o' :
  take_option ctx o e = Ok (ctx', o') -> taken ctx o e ctx' o'.
Proof.
  unfold Options.take_option. intros H.
  destruct (decide (defname e = b8 "access_key")); [inv_ok; by constructor|].
  destruct (decide (defname e = b8 "access_secret")); [inv_ok; by constructor|].
  destruct (decide (defname e = b8 "session_token")); [inv_ok; by constructor|].
  destruct (decide (defname e = b8 "format")); [inv_ok; by constructor|].
  destruct (decide (defname e = b8 "structure")); [inv_ok; constructor; [done|by eexists]|].
  destruct (decide (defname e = b8 "compression")); [inv_ok; by constructor|].
  destruct (decide (defname e = b8 "timeout")).
  { apply bind_Ok in H as (t & Ht & H). apply bind_Ok in H as (u & Hr & H).
    apply raise_if_Ok, bool_decide_eq_false in Hr. injection H as <- <-.
    rewrite u32_small by lia. apply taken_timeout; [done|]. split; [done|lia]. }
  destruct (decide (defname e = b8 "encoding_check")).
  { apply bind_Ok in H as (s & Hs & H). destruct (pgch_parse_encoding_check s) eqn:Hp; [|done].
    injection H as <- <-. apply taken_encoding; [done|]. by exists s, z. }
  destruct o as [l|]; [|done]. injection H as <- <-. apply taken_other; [|done].
  unfold option_names, string_options. cbn [app]. rewrite !not_elem_of_cons.
  split_and!; try done. apply not_elem_of_nil.
Qed.

(** The last option of a name decides its field. *)
Lemma last_option_cons n e l :
  last_option n (e :: l)
  = match last_option n l with
    | Some e' => Some e'
    | None => if decide (defname e = n) then Some e else None
    end.
Proof.
  unfold last_option. rewrite filter_cons. case_decide; [|by destruct (last _)].
  apply last_cons.
Qed.

Lemma field_last {A} n (f : chdbCopyContext -> A) (reads : DefElem -> A -> Prop) :
  (forall ctx o e ctx' o', taken ctx o e ctx' o' ->
    if decide (defname e = n) then reads e (f ctx') else f ctx' = f ctx) ->
  forall l ctx o ctx' o', take_options ctx o l = Ok (ctx', o') ->
  match last_option n l with Some e => reads e (f ctx') | None => f ctx' = f ctx end.
Proof.
  intros Hstep l. induction l as [|e l IH]; intros ctx o ctx' o' H; cbn in H.
  { by injection H as <- <-. }
  apply bind_Ok in H as ([c1 o1] & H1%take_option_taken & H).
  rewrite last_option_cons. specialize (IH _ _ _ _ H). specialize (Hstep _ _ _ _ _ H1).
  destruct (last_option n l); [done|]. case_decide; by rewrite IH.
Qed.

Lemma field_kept {A} (f : chdbCopyContext -> A) :
  (forall ctx o e ctx' o', taken ctx o e ctx' o' -> f ctx' = f ctx) ->
  forall l ctx o ctx' o', take_options ctx o l = Ok (ctx', o') -> f ctx' = f ctx.
Proof.
  intros Hstep l. induction l as [|e l IH]; intros ctx o ctx' o' H; cbn in H.
  { by injection H as <- <-. }
  apply bind_Ok in H as ([c1 o1] & H1%take_option_taken & H).
  rewrite (IH _ _ _ _ H). by eapply Hstep.
Qed.

Lemma others_kept l ctx o ctx' o' :
  take_options ctx o l = Ok (ctx', o') ->
  o' = (fun k => k ++ filter (fun e => defname e ∉ option_names) l) <$> o /\
  (o = None -> Forall (fun e => defname e ∈ option_names) l).
Proof.
  revert ctx o. induction l as [|e l IH]; intros ctx o H; cbn in H.
  { injection H as <- <-. split; [|done]. destruct o; cbn; [by rewrite app_nil_r|done]. }
  apply bind_Ok in H as ([c1 o1] & H1%take_option_taken & H).
  destruct (IH _ _ H) as [-> Hnone]. clear IH H. rewrite filter_cons.
  inversion H1; subst;
    try (rewrite decide_False by (intros Hne; apply Hne;
           match goal with E : defname e = _ |- _ => rewrite E end;
           apply (bool_decide_unpack _); vm_compute; exact I);
         split; [done|]; intros Ho; apply Forall_cons; split; [|auto];
         match goal with E : defname e = _ |- _ => rewrite E end;
         apply (bool_decide_unpack _); vm_compute; exact I).
  rewrite decide_True by done. split; [|done]. cbn. by rewrite <-app_assoc.
Qed.
End options.
