(* ===== verification/OptionsTheorems.v ===== *)
(** * OptionsTheorems: the properties of statement options *)

From stdpp Require Import prelude.
From Stdlib Require Import Strings.Byte.
From S2P Require Import Prelude Words CString Catalog Structure Query Options OptionsProps.
Local Open Scope Z_scope.

Section properties.
Context (defGetString : DefElem -> res error bytes).
Context (defGetInt64 : DefElem -> res error Z).
Context (pgch_parse_encoding_check : bytes -> option Z).
Context (CHC_ENC_FAIL : Z).
Local Abbreviation contextualize_options :=
  (contextualize_options defGetString defGetInt64 pgch_parse_encoding_check CHC_ENC_FAIL).
Local Abbreviation taken := (taken defGetString defGetInt64 pgch_parse_encoding_check).
Implicit Types ctx : chdbCopyContext.

(** A field's value: what the last option of its name says, else a default. *)
Definition decided {A} (options : list DefElem) (n : bytes) (reads : DefElem -> A -> Prop)
    (default v : A) : Prop :=
  match last_option n options with
  | Some e => reads e v
  | None => v = default
  end.

(** Closes one step of [field_last]: the name decides which field changes. *)
Local Ltac field_step :=
  intros ?ctx ?o ?e ?ctx' ?o' Ht; destruct Ht; case_decide as Hn; try done;
  exfalso;
  first
    [ match goal with
      | E : defname ?e = b8 ?m, Hn : defname ?e = b8 ?n |- _ =>
          rewrite E in Hn; discriminate Hn
      end
    | match goal with
      | E : defname ?e ∉ option_names, Hn : defname ?e = _ |- _ =>
          apply E; rewrite Hn; apply (bool_decide_unpack _); vm_compute; exact I
      end
    | by match goal with Hn : defname ?e <> _ |- _ => apply Hn end ].

(** C28. What a list of options means: each field is set by the last option of
    its name, or has its default (no credentials, no format, 30 seconds, fail
    on invalid text); a structure keeps no line break; the timeout is the
    number the user gave, unchanged by the cast to 32 bits; the options of
    other names come out in order for Postgres to use; and nothing else of the
    context changes. *)
Theorem contextualize_options_spec ctx options others ctx' others' :
  contextualize_options ctx options others = Ok (ctx', others') ->
  decided options (b8 "access_key") (reads_string defGetString) [] (cc_access_key ctx') /\
  decided options (b8 "access_secret") (reads_string defGetString) [] (cc_access_secret ctx') /\
  decided options (b8 "session_token") (reads_string defGetString) [] (cc_session_token ctx') /\
  decided options (b8 "format") (reads_string defGetString) [] (cc_format ctx') /\
  decided options (b8 "structure") (reads_structure defGetString) [] (cc_structure ctx') /\
  decided options (b8 "compression") (reads_string defGetString) [] (cc_compression ctx') /\
  decided options (b8 "timeout") (reads_timeout defGetInt64) 30000 (cc_timeout ctx') /\
  decided options (b8 "encoding_check")
    (reads_encoding defGetString pgch_parse_encoding_check) CHC_ENC_FAIL
    (cc_encoding_check ctx') /\
  others' = (fun l => l ++ filter (fun e => defname e ∉ option_names) options) <$> others /\
  (cc_url ctx', cc_scheme ctx', cc_cmd_type ctx', cc_preserve_nested ctx',
   (cc_max_memory ctx', cc_max_threads ctx', cc_max_parsers ctx'))
  = (cc_url ctx, cc_scheme ctx, cc_cmd_type ctx, cc_preserve_nested ctx,
     (cc_max_memory ctx, cc_max_threads ctx, cc_max_parsers ctx)).
Proof.
  unfold Options.contextualize_options, decided. intros H.
  pose proof (fun A n f reads step => field_last (A := A) defGetString defGetInt64
    pgch_parse_encoding_check n f reads step options _ _ _ _ H) as Hlast.
  split_and!.
  - apply (Hlast _ (b8 "access_key") cc_access_key (reads_string _)). field_step.
  - apply (Hlast _ (b8 "access_secret") cc_access_secret (reads_string _)). field_step.
  - apply (Hlast _ (b8 "session_token") cc_session_token (reads_string _)). field_step.
  - apply (Hlast _ (b8 "format") cc_format (reads_string _)). field_step.
  - apply (Hlast _ (b8 "structure") cc_structure (reads_structure _)). field_step.
  - apply (Hlast _ (b8 "compression") cc_compression (reads_string _)). field_step.
  - apply (Hlast _ (b8 "timeout") cc_timeout (reads_timeout _)). field_step.
  - apply (Hlast _ (b8 "encoding_check") cc_encoding_check (reads_encoding _ _)). field_step.
  - by apply others_kept in H as [-> _].
  - eapply (field_kept _ _ _ (fun c => (cc_url c, cc_scheme c, cc_cmd_type c,
      cc_preserve_nested c, (cc_max_memory c, cc_max_threads c, cc_max_parsers c)))) in H;
      [exact H|]. by destruct 1.
Qed.

(** ** Acceptance *)

(** An option the statement may carry; [keep] tells whether options of other
    names are collected rather than refused. *)
Definition acceptable (keep : bool) (e : DefElem) : Prop :=
  (defname e ∈ string_options /\ is_Ok (defGetString e)) \/
  (defname e = b8 "timeout" /\ exists t, defGetInt64 e = Ok t /\ 0 <= t <= UINT32_MAX) \/
  (defname e = b8 "encoding_check" /\
   exists v, defGetString e = Ok v /\ is_Some (pgch_parse_encoding_check v)) \/
  (keep = true /\ defname e ∉ option_names).

Definition keeps (others : option (list DefElem)) : bool :=
  match others with Some _ => true | None => false end.

Lemma taken_keeps ctx o e ctx' o' : taken ctx o e ctx' o' -> keeps o' = keeps o.
Proof. destruct 1; subst; done. Qed.

Lemma taken_acceptable ctx o e ctx' o' :
  taken ctx o e ctx' o' -> acceptable (keeps o) e.
Proof.
  unfold acceptable, is_Ok, reads_string, reads_structure, reads_encoding.
  destruct 1 as [v Hn Hv|v Hn Hv|v Hn Hv|v Hn Hv|v Hn (s & Hv & _)|v Hn Hv|v Hn [Hv Hr]
                |v Hn (s & c & Hs & Hc & _)|l Hn ->];
    try (left; split; [rewrite Hn; apply (bool_decide_unpack _); vm_compute; exact I|by eexists]).
  - right. left. eauto.
  - right. right. left. split; [done|]. exists s. split; [done|by eexists].
  - right. right. right. done.
Qed.

Lemma acceptable_taken ctx o e :
  acceptable (keeps o) e ->
  exists ctx' o', take_option defGetString defGetInt64 pgch_parse_encoding_check ctx o e
                  = Ok (ctx', o').
Proof.
  unfold take_option, acceptable. intros [[Hn [v Hv]]|[(Hn & t & Ht & Hr)|[(Hn & v & Hv & c & Hc)|[Hk Hn]]]].
  - rewrite Hv. unfold string_options in Hn. repeat case_decide; try (eexists _, _; reflexivity);
      exfalso; set_solver.
  - rewrite Hn, Ht. cbn. rewrite bool_decide_false by lia. eexists _, _; reflexivity.
  - rewrite Hn, Hv. cbn. rewrite Hc. eexists _, _; reflexivity.
  - unfold option_names, string_options in Hn. cbn [app] in Hn.
    rewrite !not_elem_of_cons in Hn. rewrite !decide_False by tauto.
    destruct o; [|done]. eexists _, _; reflexivity.
Qed.

(** A list of options is accepted exactly when every option of it is: a
    known name with a readable argument, a timeout that is a uint32, a way to
    handle invalid text that pg-clickhouse-c knows; a name chDB does not use
    is refused by COPY and kept for Postgres by CREATE TABLE. *)
Theorem contextualize_options_accepts ctx options others :
  is_Ok (contextualize_options ctx options others) <->
  Forall (acceptable (keeps others)) options.
Proof.
  unfold Options.contextualize_options. generalize (default_options CHC_ENC_FAIL ctx) as c.
  revert others. induction options as [|e l IH]; intros others c; cbn [take_options].
  { split; [by constructor|by eexists]. }
  rewrite Forall_cons. split.
  - intros [[c' o'] ([c1 o1] & H1 & H)%bind_Ok]. apply take_option_taken in H1.
    split; [by eapply taken_acceptable|]. rewrite <-(taken_keeps _ _ _ _ _ H1).
    apply (IH o1 c1). by eexists.
  - intros [He Hl]. destruct (acceptable_taken c others e He) as (c1 & o1 & H1).
    rewrite H1. cbn. apply IH. apply take_option_taken in H1.
    by rewrite (taken_keeps _ _ _ _ _ H1).
Qed.
End properties.

(** ** Witnesses *)

Definition example_defGetString (e : DefElem) : res error bytes :=
  match defarg e with
  | VString s => Ok s
  | VInteger z => Ok (fmt_d z)
  | _ => Raise (ereport ERRCODE_SYNTAX_ERROR (defname e ++ b8 " requires a parameter"))
  end.
Definition example_defGetInt64 (e : DefElem) : res error Z :=
  match defarg e with
  | VInteger z => Ok z
  | _ => Raise (ereport ERRCODE_SYNTAX_ERROR (defname e ++ b8 " requires a numeric value"))
  end.
Definition example_encoding (s : bytes) : option Z :=
  if decide (s = b8 "fail") then Some 0 else if decide (s = b8 "replace") then Some 3 else None.
Definition example_create : chdbCopyContext :=
  CopyContext None [] None no_scheme 0 0 4096 0 0 0 [] [] [] [] [] [] [] false.
Definition example_options : list DefElem :=
  [MkDefElem (b8 "format") (VString (b8 "CSV")); MkDefElem (b8 "fillfactor") (VInteger 90);
   MkDefElem (b8 "timeout") (VInteger 60000); MkDefElem (b8 "format") (VString (b8 "TSV"))].

Lemma scheme_for_spec_witness :
  scheme_for false (Some (b8 "abfss://c@a/p")) = abfs_scheme /\
  scheme_for true (Some (b8 "file:///etc/passwd")) = no_scheme /\
  (scheme_for false (Some (b8 "s3://b/k")) = s3_scheme /\ s3_scheme <> no_scheme).
Proof.
  split; [reflexivity|]. split; [reflexivity|].
  apply (scheme_for_spec false (b8 "s3://b/k") s3_scheme).
  split; [concrete|]. exists (b8 "s3"), (b8 "b/k"). split; concrete.
Defined.

Lemma contextualize_options_spec_witness :
  exists ctx' others',
    contextualize_options example_defGetString example_defGetInt64 example_encoding 0
      example_create example_options (Some []) = Ok (ctx', others') /\
    decided example_options (b8 "format") (reads_string example_defGetString) []
      (cc_format ctx') /\
    cc_format ctx' = b8 "TSV" /\
    others' = Some [MkDefElem (b8 "fillfactor") (VInteger 90)].
Proof.
  eexists _, _. split; [reflexivity|]. split_and!; [|reflexivity..].
  apply (contextualize_options_spec example_defGetString example_defGetInt64 example_encoding 0
           example_create example_options (Some []) _ _ eq_refl).
Defined.
