(* ===== verification/Gucs.v ===== *)
(** * Gucs: the settings an administrator can give chDB

    src/gucs.h, which both modules expand for their own name space, and the
    casts to [uint16_t] that put the values into a helper's context. *)

From stdpp Require Import prelude.
From S2P Require Import Prelude Words Setup.
Local Open Scope Z_scope.

Definition UINT16_MAX : Z := 2 ^ 16 - 1.
Definition INT32_MAX : Z := 2 ^ 31 - 1.

(** What [DefineCustomIntVariable] is told of a variable. *)
Record guc : Type := Guc {
  guc_name : bytes;
  guc_boot : Z;
  guc_min : Z;
  guc_max : Z;
}.

Definition CHDB_GUCS (ns : bytes) : list guc :=
  [ Guc (ns ++ b8 ".max_memory") 4096 0 INT32_MAX;
    Guc (ns ++ b8 ".max_threads") 0 0 UINT16_MAX;
    Guc (ns ++ b8 ".max_parsing_threads") 0 0 UINT16_MAX ].

(** The values a variable can have: Postgres refuses those out of range. *)
Definition guc_accepts (g : guc) (v : Z) : bool :=
  bool_decide (guc_min g <= v <= guc_max g).

(** The module's variables, before the casts. *)
Record settings : Type := Settings {
  chdb_max_memory : Z;
  chdb_max_threads : Z;
  chdb_max_parsers : Z;
}.

Definition boot_settings : settings := Settings 4096 0 0.

Definition settings_values (s : settings) : list Z :=
  [chdb_max_memory s; chdb_max_threads s; chdb_max_parsers s].

(** Settings Postgres can hold. *)
Definition settings_accepted (ns : bytes) (s : settings) : Prop :=
  Forall2 (fun g v => guc_accepts g v = true) (CHDB_GUCS ns) (settings_values s).

(** The helper context the settings give a command. *)
Definition guc_context (s : settings) (cmd : Z) : chdbHelperContext :=
  HelperContext cmd (u16 (chdb_max_memory s)) (u16 (chdb_max_threads s))
    (u16 (chdb_max_parsers s)).

Lemma settings_accepted_bounds ns s :
  settings_accepted ns s <->
  0 <= chdb_max_memory s <= INT32_MAX /\ 0 <= chdb_max_threads s <= UINT16_MAX /\
  0 <= chdb_max_parsers s <= UINT16_MAX.
Proof.
  unfold settings_accepted, CHDB_GUCS, settings_values, guc_accepts.
  rewrite !Forall2_cons, !bool_decide_eq_true. cbn. rewrite Forall2_nil. tauto.
Qed.
