(* ===== verification/Backend.v ===== *)
(** * Backend: what the extension asks of its surroundings

    The code of src/hook/ runs between Postgres, pg-clickhouse-c and the helper
    channel. Every call that has an effect or depends on the state of the
    server is an event of a trace: the call is recorded, then answered by the
    surroundings, which may look at everything that happened before. A call
    that raises ends the run, so every event but the last one succeeded. *)

From stdpp Require Import prelude gmap.
From S2P Require Import Prelude Stateful Logic Catalog Port Setup Query.
Local Open Scope Z_scope.

Inductive lockmode : Type :=
| AccessShareLock
| RowExclusiveLock.

Inductive role : Type :=
| ROLE_PG_READ_SERVER_FILES
| ROLE_PG_WRITE_SERVER_FILES.

(** The statement tree a write goes to: the one the caller passed, or the copy
    the hook made of it. *)
Inductive tree : Type :=
| CallersTree
| OwnCopy.

#[export] Instance lockmode_eq_decision : EqDecision lockmode.
Proof. solve_decision. Defined.
#[export] Instance role_eq_decision : EqDecision role.
Proof. solve_decision. Defined.
#[export] Instance tree_eq_decision : EqDecision tree.
Proof. solve_decision. Defined.

(** A running helper process. *)
Abbreviation helper := nat.

(** One column a DESCRIBE reports (src/native.h). *)
Record chdbDescribedColumn : Type := DescribedColumn {
  dc_name : bytes;
  dc_type : bytes;
}.

Inductive event : Type :=
| EvPreventReadOnly (cmd : bytes)
| EvHasPrivs (r : role)
| EvTableOpen (rv : RangeVar) (lock : lockmode)
| EvGetAttnums (rel : Relation) (attlist : list bytes)
| EvCheckPermissions (rt : RangeTable)
| EvCheckRls (relid : Z)
| EvTableClose (relid : Z)
| EvRelationExists (rv : RangeVar)
| EvPrev (stmt : utility) (readOnlyTree : bool)
| EvWriteTree (t : tree)
| EvCommandCounterIncrement
| EvNewGucLevel
| EvRestoreGuc (level : nat)
| EvHelperStart (ctx : chdbHelperContext) (query : ch_query)
| EvCopyReceive (h : helper) (relid : Z) (attnums : list nat) (rt : RangeTable) (enc : Z)
| EvCopySend (h : helper) (relid : Z) (structure : bytes) (attnums : list nat)
| EvDescribe (h : helper)
| EvHelperFinish (h : helper)
| EvNotice (msg : bytes)
| EvSetCompletion (rows : Z).

Abbreviation trace := (list event).

(** Postgres, and the extension's own lower layers (src/helper.c, src/native.c)
    as the layer above them sees them. *)
Record Server : Type := MkServer {
  sv_prevent_read_only : trace -> bytes -> res error unit;
  sv_has_privs : trace -> role -> bool;
  sv_table_open : trace -> RangeVar -> lockmode -> res error Relation;
  sv_get_attnums : trace -> Relation -> list bytes -> res error (list nat);
  sv_relkind_detail : relkind -> bytes;  (** errdetail_relkind_not_supported *)
  sv_check_permissions : trace -> RangeTable -> res error unit;
  sv_rls_enabled : trace -> Z -> res error bool;
  sv_relation_exists : trace -> RangeVar -> res error bool;
  sv_prev : trace -> utility -> bool -> res error unit;
  sv_new_guc_level : trace -> nat;
  sv_helper_start : trace -> chdbHelperContext -> ch_query -> res error helper;
  sv_copy_receive : trace -> helper -> res error Z;
  sv_copy_send : trace -> helper -> res error Z;
  sv_describe : trace -> helper -> res error (list chdbDescribedColumn);
  sv_helper_finish : trace -> helper -> res error unit;
  sv_first_low_attno : Z;  (** FirstLowInvalidHeapAttributeNumber *)
}.

(** A ClickHouse type's Postgres counterpart. *)
Record pgch_pg_type : Type := PgType {
  pt_typid : Z;
  pt_typmod : Z;
  pt_ndims : Z;
  pt_nullable : bool;
}.

(** pg-clickhouse-c and clickhouse-c. *)
Record PgClickhouse : Type := MkPgClickhouse {
  chc_type : Type;
  chc_err : Type;
  pgch_quote_ch_ident : bytes -> bytes;
  pgch_ch_type_for : Z -> Z -> bool -> bytes;
  pgch_parse_encoding_check : bytes -> option Z;
  CHC_ENC_FAIL : Z;
  chc_type_parse : bytes -> chc_type + chc_err;
  chc_type_is_nested : chc_type -> bool;
  pgch_pg_type_for : chc_type -> bytes -> res error pgch_pg_type;
  pgch_pg_type_is_column : pgch_pg_type -> bool;
  pgch_raise : chc_err -> errcode -> option bytes -> option bytes -> error;
  TEXTARRAYOID : Z;
}.

(** ** Runs *)

Abbreviation M := (runs event).
Abbreviation guard := (trace -> event -> Prop).
