(* ===== verification/Surroundings.v ===== *)
(** * Surroundings: a concrete server for the examples

    Nothing here models code: these are instances of the parameters of the
    model, on which the examples of the other files evaluate. *)

From stdpp Require Import prelude gmap.
From S2P Require Import Prelude Stateful Logic Catalog Port Setup Structure Query Options Gucs Backend.
Local Open Scope Z_scope.

(** Types are their names; [Point] is a type no column can have. *)
Definition sample_pg_type (t : bytes) : pgch_pg_type :=
  if decide (t = b8 "Int32") then PgType 23 (-1) 0 false
  else if decide (t = b8 "Point") then PgType 2249 (-1) 0 true
  else PgType 25 (-1) 0 true.

Definition sample_pgch : PgClickhouse := {|
  chc_type := bytes;
  chc_err := unit;
  pgch_quote_ch_ident := id;
  pgch_ch_type_for := fun typid _ _ => if decide (typid = 2950) then b8 "UUID" else b8 "String";
  pgch_parse_encoding_check := fun s => if decide (s = b8 "fail") then Some 0 else None;
  CHC_ENC_FAIL := 0;
  chc_type_parse := inl;
  chc_type_is_nested := fun t => bool_decide (t = b8 "Nested");
  pgch_pg_type_for := fun t _ => Ok (sample_pg_type t);
  pgch_pg_type_is_column := fun t => bool_decide (pt_typid t <> 2249);
  pgch_raise := fun _ c _ _ => ereport c (b8 "bad type");
  TEXTARRAYOID := 1009;
|}.

Definition sample_relation : Relation :=
  RelationData 16384 (b8 "events") RELKIND_RELATION
    [Attribute (b8 "id") 2950 (-1) true false false; Attribute (b8 "name") 25 (-1) false false false].

Definition sample_columns : list chdbDescribedColumn :=
  [DescribedColumn (b8 "id") (b8 "Int32"); DescribedColumn (b8 "at") (b8 "Point")].

(** Everything is allowed; [members] says who holds a role. *)
Definition sample_server (members : role -> bool) : Server := {|
  sv_prevent_read_only := fun _ _ => Ok tt;
  sv_has_privs := fun _ => members;
  sv_table_open := fun _ _ _ => Ok sample_relation;
  sv_get_attnums := fun _ _ _ => Ok [1; 2]%nat;
  sv_relkind_detail := fun _ => [];
  sv_check_permissions := fun _ _ => Ok tt;
  sv_rls_enabled := fun _ _ => Ok false;
  sv_relation_exists := fun _ _ => Ok false;
  sv_prev := fun _ _ _ => Ok tt;
  sv_new_guc_level := fun _ => 3%nat;
  sv_helper_start := fun _ _ _ => Ok 42%nat;
  sv_copy_receive := fun _ _ => Ok 10;
  sv_copy_send := fun _ _ => Ok 20;
  sv_describe := fun _ _ => Ok sample_columns;
  sv_helper_finish := fun _ _ => Ok tt;
  sv_first_low_attno := -7;
|}.

Definition sample_getString (e : DefElem) : res error bytes :=
  match defarg e with
  | VString s => Ok s
  | _ => Raise (ereport ERRCODE_SYNTAX_ERROR (b8 "requires a parameter"))
  end.
Definition sample_getInt64 (e : DefElem) : res error Z :=
  match defarg e with
  | VInteger z => Ok z
  | _ => Raise (ereport ERRCODE_SYNTAX_ERROR (b8 "requires a numeric value"))
  end.

Definition sample_url : bytes := b8 "s3://bucket/events.csv".
Definition sample_rv : RangeVar := MkRangeVar None (b8 "events").

(** COPY events FROM/TO 's3://bucket/events.csv' *)
Definition sample_copy (is_from : bool) (url : bytes) : CopyStmt :=
  MkCopyStmt (Some sample_rv) [] is_from false (Some url)
    [MkDefElem (b8 "format") (VString (b8 "orc"))] false.

(** CREATE TABLE events () WITH (copy_from = 's3://bucket/events.csv', fillfactor = 90) *)
Definition sample_create : CreateStmt :=
  MkCreateStmt sample_rv [] [] false false
    [MkDefElem (b8 "copy_from") (VString sample_url); MkDefElem (b8 "fillfactor") (VInteger 90)]
    false.
