(* ===== verification/Copy.v ===== *)
(** * Copy: running a COPY or a DESCRIBE through a helper

    [chdb_copy] and [chdb_describe] of src/hook/copy.c, on the trace monad. *)

From stdpp Require Import prelude gmap.
From S2P Require Import Prelude Stateful Logic Catalog Port Setup Structure Query Backend.
Local Open Scope Z_scope.

Section copy.
Context (pgch : PgClickhouse) (port : Port) (sv : Server).

(** The structure of a COPY that names none. *)
Definition copy_structure (rel : Relation) (ctx : chdbCopyContext) : res error bytes :=
  structure ← structure_for_attnums (pgch_quote_ch_ident pgch) (pgch_ch_type_for pgch)
                (rel_desc rel) (cc_attnums ctx);
  let as_string type s :=
    or_ub (structure_as_string (S (length s)) s type) in
  structure ← (if decide (pg_strcasecmp port (cc_format ctx) (b8 "ORC") = 0)
               then as_string (b8 "UUID") structure else Ok structure);
  if format_lacks_time64 (pg_strcasecmp port) (cc_format ctx)
  then as_string (b8 "Time64") structure else Ok structure.

Definition helper_context (ctx : chdbCopyContext) : chdbHelperContext :=
  HelperContext (cc_cmd_type ctx) (cc_max_memory ctx) (cc_max_threads ctx)
    (cc_max_parsers ctx).

Definition make_query (ctx : chdbCopyContext) : res error ch_query :=
  make_ch_query (pg_strncasecmp port) (is_absolute_path port) ctx.

Definition chdb_copy (ctx : chdbCopyContext) : M Z :=
  nestlevel ← call EvNewGucLevel (fun tr => Ok (sv_new_guc_level sv tr));
  ctx ← (if decide (cc_structure ctx = []) then
           rel ← lift (or_ub (cc_rel ctx));
           structure ← lift (copy_structure rel ctx);
           mret (set_structure structure ctx)
         else mret ctx);
  ch_query ← lift (make_query ctx);
  let hcx := helper_context ctx in
  h ← call (EvHelperStart hcx ch_query) (fun tr => sv_helper_start sv tr hcx ch_query);
  rel ← lift (or_ub (cc_rel ctx));
  rt ← lift (or_ub (cc_rtable ctx));
  num_rows ←
    (if decide (cc_cmd_type ctx = CHDB_CMD_SELECT) then
       call (EvCopyReceive h (rel_id rel) (cc_attnums ctx) rt (cc_encoding_check ctx))
         (fun tr => sv_copy_receive sv tr h)
     else
       call (EvCopySend h (rel_id rel) (cc_structure ctx) (cc_attnums ctx))
         (fun tr => sv_copy_send sv tr h));
  call (EvHelperFinish h) (fun tr => sv_helper_finish sv tr h) ;;
  emit (EvRestoreGuc nestlevel) ;;
  mret num_rows.

Definition chdb_describe (ctx : chdbCopyContext) : M (list chdbDescribedColumn) :=
  let describe := set_cmd_type CHDB_CMD_DESCRIBE ctx in
  let describe :=
    if decide (cc_structure describe = []) then set_structure (b8 "auto") describe
    else describe in
  ch_query ← lift (make_query describe);
  let hcx := helper_context describe in
  h ← call (EvHelperStart hcx ch_query) (fun tr => sv_helper_start sv tr hcx ch_query);
  columns ← call (EvDescribe h) (fun tr => sv_describe sv tr h);
  call (EvHelperFinish h) (fun tr => sv_helper_finish sv tr h) ;;
  mret columns.
End copy.
