(* ===== verification/CopyProps.v ===== *)
(** * CopyProps: the properties of running a COPY

    Which structure a COPY that names none gets ([copy_structure_types]) and
    the calls a successful COPY makes ([chdb_copy_protocol]). *)

From stdpp Require Import prelude gmap.
From Stdlib Require Import Strings.Byte.
From S2P Require Import Prelude Stateful Logic CString Catalog Port Setup Structure StructureProps Query.
From S2P Require Import Backend Copy Surroundings.
Local Open Scope Z_scope.

(** ** The replaced types do not get in each other's way *)

Lemma string_word : word (b8 "String").
Proof. split; [by vm_compute|]. repeat constructor; by vm_compute. Qed.

(** A replacement leaves a structure of the grammar, whatever comes next. *)
Lemma subst_ok type type' :
  (forall t, type_ok type' t -> type_ok type' (subst_type type t)) /\
  (forall ts, types_ok type' ts -> types_ok type' (subst_types type ts)) /\
  (forall fs, fields_ok type' fs -> fields_ok type' (subst_fields type fs)).
Proof.
  apply chtype_fields_ind; try (cbn; naive_solver).
  intros n p H. cbn [subst_type]. case_decide; [apply string_word|done].
Qed.

(** Replacing when a condition holds. *)
Definition subst_when (b : bool) (type : bytes) (fs : fields) : fields :=
  if b then subst_fields type fs else fs.

Lemma subst_when_ok b type type' fs :
  fields_ok type' fs -> fields_ok type' (subst_when b type fs).
Proof. destruct b; [apply subst_ok|done]. Qed.

Section copy.
Context (pgch : PgClickhouse) (port : Port) (sv : Server).
Implicit Types (ctx : chdbCopyContext) (tr : trace).

Lemma as_string_when (b : bool) type fs :
  word type -> fields_ok type fs ->
  (if b then or_ub (structure_as_string (S (length (show_fields fs))) (show_fields fs) type)
   else Ok (show_fields fs))
  = Ok (E := error) (show_fields (subst_when b type fs)).
Proof.
  intros Hw Hfs. destruct b; [|done]. rewrite structure_as_string_fields by (done || lia). done.
Qed.

(** The structure of a COPY that names none lists the copied columns in
    the order of the column list, each with its ClickHouse type, where every
    UUID of an ORC file and every Time64 of a format without it is a String. *)
Theorem copy_structure_types ctx rel attrs fs :
  Forall2 (fun n a => TupleDescAttr (rel_desc rel) n = Ok a) (cc_attnums ctx) attrs ->
  show_fields fs
  = join (b8 ", ") (map (column_clause (pgch_quote_ch_ident pgch) (pgch_ch_type_for pgch)) attrs) ->
  fields_ok (b8 "UUID") fs -> fields_ok (b8 "Time64") fs ->
  copy_structure pgch port rel ctx
  = Ok (show_fields
      (subst_when (format_lacks_time64 (pg_strcasecmp port) (cc_format ctx)) (b8 "Time64")
        (subst_when (bool_decide (pg_strcasecmp port (cc_format ctx) (b8 "ORC") = 0)) (b8 "UUID")
          fs))).
Proof.
  intros Hattrs Hfs Hu Ht. unfold copy_structure.
  rewrite (structure_for_attnums_join _ _ _ _ _ Hattrs), <- Hfs. cbn [mbind res_bind].
  set (orc := bool_decide _).
  replace (if decide _ then _ else Ok (show_fields fs))
    with (Ok (E := error) (show_fields (subst_when orc (b8 "UUID") fs))).
  - cbn [mbind res_bind]. apply as_string_when; [|by apply subst_when_ok].
    split; [by vm_compute|]. repeat constructor; by vm_compute.
  - rewrite <- as_string_when; [unfold orc; by case_decide; case_bool_decide| |done].
    split; [by vm_compute|]. repeat constructor; by vm_compute.
Qed.

(** The context [chdb_copy] makes its query from. *)
Definition structured ctx ctx' : Prop :=
  exists s, ctx' = set_structure s ctx /\
    if decide (cc_structure ctx = []) then
      exists rel, cc_rel ctx = Some rel /\ copy_structure pgch port rel ctx = Ok s
    else s = cc_structure ctx.

Lemma structured_inj ctx ctx1 ctx2 : structured ctx ctx1 -> structured ctx ctx2 -> ctx1 = ctx2.
Proof.
  intros (s1 & -> & H1) (s2 & -> & H2). f_equal. case_decide; [|congruence].
  destruct H1 as (? & ? & ?), H2 as (? & ? & ?). congruence.
Qed.

(** The call that moves the rows. *)
Definition moves ctx (h : helper) (ev : event) (answer : trace -> res error Z) : Prop :=
  exists rel rt, cc_rel ctx = Some rel /\ cc_rtable ctx = Some rt /\
    if decide (cc_cmd_type ctx = CHDB_CMD_SELECT) then
      ev = EvCopyReceive h (rel_id rel) (cc_attnums ctx) rt (cc_encoding_check ctx) /\
      answer = (fun tr => sv_copy_receive sv tr h)
    else
      ev = EvCopySend h (rel_id rel) (cc_structure ctx) (cc_attnums ctx) /\
      answer = (fun tr => sv_copy_send sv tr h).

(** Inversion of a run that succeeds. *)
Lemma copy_run_Ok ctx tr rows tr' :
  chdb_copy pgch port sv ctx tr = (Ok rows, tr') ->
  exists ctx' q h move answer,
    structured ctx ctx' /\ make_query port ctx' = Ok q /\ moves ctx' h move answer /\
    let tr1 := tr ++ [EvNewGucLevel] in
    let start := EvHelperStart (helper_context ctx) q in
    sv_helper_start sv tr1 (helper_context ctx) q = Ok h /\
    answer (tr1 ++ [start]) = Ok rows /\
    sv_helper_finish sv (tr1 ++ [start; move]) h = Ok tt /\
    tr' = tr1 ++ [start; move; EvHelperFinish h; EvRestoreGuc (sv_new_guc_level sv tr)].
Proof.
  intros H. unfold chdb_copy in H.
  apply run_bind_Ok in H as (level & ? & [= <- <-] & H).
  apply run_bind_Ok in H as (ctx' & tr1 & Hctx & H).
  assert (structured ctx ctx' /\ tr1 = tr ++ [EvNewGucLevel]) as [Hst ->].
  { unfold structured. destruct (decide (cc_structure ctx = [])).
    - apply run_bind_Ok in Hctx as (rel & ? & [= Hrel <-] & Hctx).
      apply run_bind_Ok in Hctx as (s & ? & [= Hs <-] & [= <- <-]).
      apply or_ub_Ok in Hrel. naive_solver.
    - injection Hctx as <- <-. split; [|done]. exists (cc_structure ctx). by destruct ctx. }
  apply run_bind_Ok in H as (q & ? & [= Hq <-] & H).
  apply run_bind_Ok in H as (h & ? & [= Hh <-] & H).
  apply run_bind_Ok in H as (rel & ? & [= Hrel <-] & H).
  apply run_bind_Ok in H as (rt & ? & [= Hrt <-] & H).
  apply run_bind_Ok in H as (n & tr2 & Hmove & H).
  apply run_bind_Ok in H as ([] & ? & [= Hfin <-] & H).
  apply run_bind_Ok in H as ([] & ? & [= <-] & [= -> <-]).
  apply or_ub_Ok in Hrel, Hrt.
  assert (Hc : helper_context ctx' = helper_context ctx) by by destruct Hst as (s & -> & _).
  rewrite Hc in *.
  exists ctx', q, h. unfold moves. rewrite Hrel, Hrt.
  destruct (decide (cc_cmd_type ctx' = _)); injection Hmove as Hm <-; eexists _, _;
    (split; [done|]; split; [done|]; split; [by exists rel, rt|]; cbv zeta; split_and!; [done|done| |]);
    by rewrite <- ?app_assoc in *.
Qed.

(** C6. What a successful COPY does, in order: it opens a level of settings,
    starts one helper with the query and the limits of its context, moves the
    rows through that helper, waits for it to succeed, and restores the level
    it opened; the result is the number of rows that crossed. *)
Theorem chdb_copy_protocol ctx tr rows tr' :
  chdb_copy pgch port sv ctx tr = (Ok rows, tr') ->
  exists ctx' q h move answer,
    structured ctx ctx' /\ make_query port ctx' = Ok q /\ moves ctx' h move answer /\
    let tr1 := tr ++ [EvNewGucLevel] in
    let start := EvHelperStart (helper_context ctx) q in
    sv_helper_start sv tr1 (helper_context ctx) q = Ok h /\
    answer (tr1 ++ [start]) = Ok rows /\
    sv_helper_finish sv (tr1 ++ [start; move]) h = Ok tt /\
    tr' = tr1 ++ [start; move; EvHelperFinish h; EvRestoreGuc (sv_new_guc_level sv tr)].
Proof. apply copy_run_Ok. Qed.

(** The context [chdb_describe] makes its query from. *)
Definition describing ctx : chdbCopyContext :=
  let ctx := set_cmd_type CHDB_CMD_DESCRIBE ctx in
  if decide (cc_structure ctx = []) then set_structure (b8 "auto") ctx else ctx.

Lemma describe_run_Ok ctx tr columns tr' :
  chdb_describe port sv ctx tr = (Ok columns, tr') ->
  exists q h, make_query port (describing ctx) = Ok q /\
    let start := EvHelperStart (helper_context (describing ctx)) q in
    sv_helper_start sv tr (helper_context (describing ctx)) q = Ok h /\
    sv_describe sv (tr ++ [start]) h = Ok columns /\
    sv_helper_finish sv (tr ++ [start; EvDescribe h]) h = Ok tt /\
    tr' = tr ++ [start; EvDescribe h; EvHelperFinish h].
Proof.
  intros H. unfold chdb_describe in H. cbv zeta in H. fold (describing ctx) in H.
  apply run_bind_Ok in H as (q & ? & [= Hq <-] & H).
  apply run_bind_Ok in H as (h & ? & [= Hh <-] & H).
  apply run_bind_Ok in H as (cols & ? & [= Hd <-] & H).
  apply run_bind_Ok in H as ([] & ? & [= Hf <-] & [= <- <-]).
  exists q, h. rewrite <- !app_assoc in *. done.
Qed.
End copy.

(** ** Examples *)

Definition sample_context : chdbCopyContext :=
  CopyContext (Some sample_relation) [1; 2]%nat
    (Some (RangeTableEntry 16384 ACL_INSERT ∅ ∅)) s3_scheme CHDB_CMD_SELECT 30000 4096 0 0 0
    sample_url [] [] [] (b8 "orc") [] [] false.

Lemma copy_structure_types_witness :
  copy_structure sample_pgch ascii_port sample_relation sample_context
  = Ok (b8 "id String, name String").
Proof.
  apply (copy_structure_types sample_pgch ascii_port sample_context sample_relation
           (rel_desc sample_relation)
           (FieldCons (Bare (b8 "id")) (Base (b8 "UUID") None)
             (FieldOne (Bare (b8 "name")) (Base (b8 "String") None))));
    [by repeat constructor|concrete..].
Defined.

Lemma chdb_copy_protocol_witness :
  let run := chdb_copy sample_pgch ascii_port (sample_server (fun _ => true)) sample_context [] in
  run = (Ok 10, run.2) /\
  exists ctx' q h move,
    structured sample_pgch ascii_port sample_context ctx' /\
    run.2 = [EvNewGucLevel; EvHelperStart (helper_context sample_context) q; move;
             EvHelperFinish h; EvRestoreGuc 3].
Proof.
  intros run. assert (H : run = (Ok 10, run.2)) by (apply run_Ok; by vm_compute).
  split; [exact H|].
  destruct (chdb_copy_protocol sample_pgch ascii_port (sample_server (fun _ => true))
              sample_context [] _ _ H) as (ctx' & q & h & move & answer & Hs & _ & _ & _ & _ & _ & Ht).
  by exists ctx', q, h, move.
Defined.
