(* ===== verification/Create.v ===== *)
(** * Create: CREATE TABLE from a URL

    src/hook/create.c: taking the URL options off the statement, the checks
    that refuse it, and the columns DESCRIBE implies. Writes to the statement
    are events that say which tree they go to. *)

From stdpp Require Import prelude gmap.
From Stdlib Require Import Strings.Byte.
From S2P Require Import Prelude Stateful Logic Catalog Port Setup Structure Query Backend Copy.
Local Open Scope Z_scope.

Definition CHDB_STRUCTURE_FROM : bytes := b8 "structure_from".
Definition CHDB_COPY_FROM : bytes := b8 "copy_from".

Record chdbCreateFromURL : Type := CreateFromURL {
  structure_url : option bytes;
  copy_url : option bytes;
}.

Definition chdb_creates_from_url (create : CreateStmt) : bool :=
  existsb (fun elem => bool_decide (defname elem = CHDB_STRUCTURE_FROM)
                       || bool_decide (defname elem = CHDB_COPY_FROM))
    (ct_options create).

(** ** Taking an option *)

(** The loop: the first option of the name, and the list without it. *)
Fixpoint delete_option (name : bytes) (options : list DefElem)
    : option (DefElem * list DefElem) :=
  match options with
  | [] => None
  | elem :: options =>
      if decide (defname elem = name) then Some (elem, options)
      else
        match delete_option name options with
        | Some (found, rest) => Some (found, elem :: rest)
        | None => None
        end
  end.

Section create.
Context (pgch : PgClickhouse) (port : Port) (sv : Server).
Context (defGetString : DefElem -> res error bytes).

Definition take_url_option (t : tree) (create : CreateStmt) (name : bytes)
    : M (option bytes * CreateStmt) :=
  match delete_option name (ct_options create) with
  | Some (elem, rest) =>
      emit (EvWriteTree t) ;;
      v ← lift (defGetString elem);
      mret (Some v, set_options rest create)
  | None => mret (None, create)
  end.

(** ** Refusals *)

Definition err_exists (relname : bytes) : error :=
  ereport ERRCODE_DUPLICATE_TABLE (b8 "relation " ++ quoted relname ++ b8 " already exists").
Definition err_exists_if_not_exists (relname : bytes) : error :=
  with_hint (b8 "Use COPY to load an existing relation.")
    (with_detail
       (b8 "CREATE TABLE IF NOT EXISTS neither derives columns nor copies rows from a URL.")
       (err_exists relname)).
Definition err_combined : error :=
  with_detail (quoted CHDB_COPY_FROM ++ b8 " derives the columns from the URL it loads.")
    (ereport ERRCODE_SYNTAX_ERROR
       (b8 "chdb: cannot combine option " ++ quoted CHDB_STRUCTURE_FROM
        ++ b8 " with option " ++ quoted CHDB_COPY_FROM)).
Definition err_has_columns : error :=
  with_detail
    (b8 "A column list, an INHERITS clause, an OF type, or a partition each define columns.")
    (ereport ERRCODE_SYNTAX_ERROR
       (b8 "chdb: option " ++ quoted CHDB_STRUCTURE_FROM
        ++ b8 " requires a table that names no columns")).

Definition error_if_relation_exists (create : CreateStmt) : M unit :=
  exists_ ← call (EvRelationExists (ct_relation create))
              (fun tr => sv_relation_exists sv tr (ct_relation create));
  if negb exists_ then mret tt
  else if ct_if_not_exists create then
    raise (err_exists_if_not_exists (rv_name (ct_relation create)))
  else raise (err_exists (rv_name (ct_relation create))).

Definition has_columns (create : CreateStmt) : bool :=
  bool_decide (ct_tableElts create <> []) || bool_decide (ct_inhRelations create <> [])
  || ct_partbound create || ct_ofTypename create.

Definition chdb_create_from_url (t : tree) (create : CreateStmt)
    : M (chdbCreateFromURL * CreateStmt) :=
  '(structure_url, create) ← take_url_option t create CHDB_STRUCTURE_FROM;
  '(copy_url, create) ← take_url_option t create CHDB_COPY_FROM;
  lift (raise_if (bool_decide (is_Some structure_url) && bool_decide (is_Some copy_url))
          err_combined) ;;
  lift (raise_if (bool_decide (is_Some structure_url) && has_columns create)
          err_has_columns) ;;
  let structure_url :=
    if bool_decide (is_Some copy_url) && negb (has_columns create) then copy_url
    else structure_url in
  error_if_relation_exists create ;;
  mret (CreateFromURL structure_url copy_url, create).

(** ** Columns *)

(** [strcmp(ctx->structure, "auto") == 0] or no structure at all. *)
Definition infers_structure (ctx : chdbCopyContext) : bool :=
  bool_decide (cc_structure ctx = []) || bool_decide (cc_structure ctx = b8 "auto").

(** The declaration the notice shows: [text[]] and one more pair of brackets
    per further dimension. *)
Fixpoint array_decl (dims : nat) : bytes :=
  match dims with
  | O => b8 "text[]"
  | S dims => array_decl dims ++ b8 "[]"
  end.

Definition notice_converted (d : chdbDescribedColumn) (decl : bytes) : bytes :=
  b8 "chdb: column " ++ quoted (dc_name d) ++ b8 " of type " ++ quoted (dc_type d)
  ++ b8 " converted to " ++ decl.

Definition err_no_type (d : chdbDescribedColumn) : error :=
  with_hint (b8 "Use a " ++ quoted (b8 "structure") ++ b8 " option that maps the column to String.")
    (ereport ERRCODE_FEATURE_NOT_SUPPORTED
       (b8 "chdb: no Postgres type for column " ++ quoted (dc_name d) ++ b8 " of type "
        ++ quoted (dc_type d))).
Definition err_no_columns (url : bytes) : error :=
  ereport ERRCODE_INVALID_PARAMETER_VALUE (b8 "chdb: no columns found at " ++ quoted url).

(** The loop's state: the structure so far, whether a Nested was seen, and the
    columns. *)
Definition columns_state : Type := bytes * bool * list ColumnDef.

Definition url_column (infer : bool) (st : columns_state) (described : chdbDescribedColumn)
    : M columns_state :=
  let '(structure, nested, columns) := st in
  let where_ := b8 "column " ++ quoted (dc_name described) in
  parsed ← lift (match chc_type_parse pgch (dc_type described) with
                 | inl t => Ok t
                 | inr err =>
                     Raise (pgch_raise pgch err ERRCODE_FEATURE_NOT_SUPPORTED None (Some where_))
                 end);
  type ← lift (pgch_pg_type_for pgch parsed where_);
  let structure :=
    if infer then
      (if decide (structure = []) then structure else structure ++ b8 ", ")
      ++ pgch_quote_ch_ident pgch (dc_name described) ++ b8 " " ++ dc_type described
    else structure in
  let nested := nested || (infer && chc_type_is_nested pgch parsed) in
  type ← (if bool_decide (pt_typid type <> 0) && negb (pgch_pg_type_is_column pgch type) then
            let type :=
              PgType (TEXTARRAYOID pgch) (-1) (pt_ndims type + 1) (pt_nullable type) in
            emit (EvNotice (notice_converted described
                              (array_decl (Z.to_nat (pt_ndims type - 1))))) ;;
            mret type
          else mret type);
  lift (raise_if (negb (pgch_pg_type_is_column pgch type)) (err_no_type described)) ;;
  let column :=
    MkColumnDef (dc_name described) (pt_typid type) (pt_typmod type)
      (replicate (Z.to_nat (pt_ndims type)) (-1)) (negb (pt_nullable type)) in
  mret (structure, nested, columns ++ [column]).

Fixpoint url_columns_loop (infer : bool) (st : columns_state)
    (described : list chdbDescribedColumn) : M columns_state :=
  match described with
  | [] => mret st
  | d :: described => st ← url_column infer st d; url_columns_loop infer st described
  end.

(** chDB unescapes a String parameter: every backslash is doubled. *)
Fixpoint escape_param (s : bytes) : bytes :=
  match s with
  | [] => []
  | c :: s => (if decide (c = BACKSLASH) then [BACKSLASH; c] else [c]) ++ escape_param s
  end.

Definition chdb_url_columns (ctx : chdbCopyContext) : M (list ColumnDef * chdbCopyContext) :=
  let infer := infers_structure ctx in
  described ← chdb_describe port sv ctx;
  '(structure, nested, columns) ←
    url_columns_loop infer ([], cc_preserve_nested ctx, []) described;
  lift (raise_if (bool_decide (columns = [])) (err_no_columns (cc_url ctx))) ;;
  let ctx := set_preserve_nested nested ctx in
  let ctx := if infer then set_structure (escape_param structure) ctx else ctx in
  mret (columns, ctx).
End create.
