(* ===== verification/CreateProps.v ===== *)
(** * CreateProps: the properties of CREATE TABLE from a URL

    What the URL options mean and when the statement is refused
    ([create_from_url_spec]); the columns DESCRIBE implies and the structure
    the copy then names ([url_columns_spec], [escape_roundtrip]). *)

From stdpp Require Import prelude gmap.
From Stdlib Require Import Strings.Byte.
From S2P Require Import Prelude Stateful Logic Catalog Port Setup Structure Query Backend Copy Create.
From S2P Require Import Surroundings.
Local Open Scope Z_scope.

(** ** The URL options *)

Definition url_options : list bytes := [CHDB_STRUCTURE_FROM; CHDB_COPY_FROM].

(** The first option of a name. *)
Definition first_option (name : bytes) (options : list DefElem) : option DefElem :=
  head (filter (fun e => defname e = name) options).

Lemma first_option_cons name e options :
  first_option name (e :: options)
  = if decide (defname e = name) then Some e else first_option name options.
Proof. unfold first_option. rewrite filter_cons. by case_decide. Qed.

(** What [delete_option] finds and leaves. *)
Lemma delete_option_spec name options :
  match delete_option name options with
  | Some (e, rest) =>
      first_option name options = Some e /\
      (forall other, other <> name -> first_option other rest = first_option other options)
  | None => first_option name options = None /\ filter (fun x => defname x <> name) options = options
  end.
Proof.
  induction options as [|e options IH]; [done|].
  cbn [delete_option]. rewrite first_option_cons. case_decide as He.
  - split; [done|]. intros other Ho. rewrite first_option_cons, decide_False by congruence. done.
  - destruct (delete_option name options) as [[found rest]|].
    + destruct IH as [H1 H2]. split; [done|].
      intros other Ho. rewrite !first_option_cons, H2 by done. done.
    + destruct IH as [H1 H2]. by rewrite filter_cons, decide_True, H1, H2 by done.
Qed.

(** The names of a statement that gives every option once. *)
Lemma delete_option_once name options e rest :
  NoDup (map defname options) -> delete_option name options = Some (e, rest) ->
  rest = filter (fun x => defname x <> name) options /\ NoDup (map defname rest).
Proof.
  revert rest. induction options as [|x options IH]; [done|]. intros rest Hnd.
  cbn in Hnd. apply NoDup_cons in Hnd as [Hx Hnd].
  cbn [delete_option]. case_decide as He.
  - intros [= -> ->]. rewrite filter_cons, decide_False by naive_solver.
    split; [|done]. rewrite filter_all; [done|].
    apply Forall_forall. intros y Hy Heq. apply Hx. rewrite He, <- Heq.
    by apply list_elem_of_fmap_2.
  - destruct (delete_option name options) as [[found rest']|] eqn:Hd; [|done].
    intros [= -> <-]. destruct (IH _ Hnd eq_refl) as [-> Hnd'].
    rewrite filter_cons, decide_True by done. split; [done|].
    cbn. apply NoDup_cons. split; [|done]. intros Hin. apply Hx.
    apply list_elem_of_fmap in Hin as (y & -> & Hy).
    apply list_elem_of_filter in Hy as [_ Hy]. by apply list_elem_of_fmap_2.
Qed.

Section create.
Context (pgch : PgClickhouse) (port : Port) (sv : Server).
Context (defGetString : DefElem -> res error bytes).
Implicit Types (create : CreateStmt) (tr : trace).

(** The URL an option of the statement gives. *)
Definition url_of (name : bytes) (create : CreateStmt) : res error (option bytes) :=
  match first_option name (ct_options create) with
  | Some e => v ← defGetString e; Ok (Some v)
  | None => Ok None
  end.

Lemma take_url_option_Ok t create name tr v create' tr' :
  take_url_option defGetString t create name tr = (Ok (v, create'), tr') ->
  url_of name create = Ok v /\
  (exists opts, create' = set_options opts create /\
    (NoDup (map defname (ct_options create)) -> 
      opts = filter (fun x => defname x <> name) (ct_options create) /\
      NoDup (map defname opts)) /\
    (forall other, other <> name ->
      first_option other opts = first_option other (ct_options create))) /\
  exists k, tr' = tr ++ replicate k (EvWriteTree t).
Proof.
  unfold take_url_option, url_of.
  pose proof (delete_option_spec name (ct_options create)) as Hd.
  pose proof (fun Hnd e r => delete_option_once name (ct_options create) e r Hnd) as Hone.
  destruct (delete_option name (ct_options create)) as [[e rest]|].
  - destruct Hd as [Hf Ho]. intros H.
    apply run_bind_Ok in H as (? & ? & [= <- <-] & H).
    apply run_bind_Ok in H as (v' & ? & [= Hv <-] & [= <- <- <-]).
    rewrite Hf, Hv. split; [done|]. split.
    + exists rest. naive_solver.
    + by exists 1%nat.
  - destruct Hd as [Hf Hr]. intros [= <- <- <-]. rewrite Hf. split; [done|]. split.
    + exists (ct_options create). rewrite Hr. by destruct create.
    + exists 0%nat. by rewrite app_nil_r.
Qed.
(** The URLs of a statement: those of its two options. *)
Definition urls_of (create : CreateStmt) (structure copy : option bytes) : Prop :=
  url_of CHDB_STRUCTURE_FROM create = Ok structure /\ url_of CHDB_COPY_FROM create = Ok copy.

(** Where the columns come from: the structure option, or the copied URL when
    nothing else defines them. *)
Definition structure_source (create : CreateStmt) (structure copy : option bytes)
    : option bytes :=
  match structure with
  | Some url => Some url
  | None => if has_columns create then None else copy
  end.

Lemma url_options_distinct : CHDB_COPY_FROM <> CHDB_STRUCTURE_FROM.
Proof. apply (bool_decide_unpack _). by vm_compute. Qed.

Lemma url_of_first name create opts :
  first_option name opts = first_option name (ct_options create) ->
  url_of name (set_options opts create) = url_of name create.
Proof. intros Hf. unfold url_of. cbn [ct_options set_options]. by rewrite Hf. Qed.

(** Taking both options. *)
Lemma take_both_Ok t create tr s c create1 create2 tr1 tr2 :
  take_url_option defGetString t create CHDB_STRUCTURE_FROM tr = (Ok (s, create1), tr1) ->
  take_url_option defGetString t create1 CHDB_COPY_FROM tr1 = (Ok (c, create2), tr2) ->
  urls_of create s c /\ create2 = set_options (ct_options create2) create /\
  (NoDup (map defname (ct_options create)) ->
   ct_options create2 = filter (fun e => defname e ∉ url_options) (ct_options create)) /\
  exists k, tr2 = tr ++ replicate k (EvWriteTree t).
Proof.
  intros (Hs & (o1 & -> & Hf1 & Ho1) & k1 & ->)%take_url_option_Ok
    (Hc & (o2 & -> & Hf2 & _) & k2 & ->)%take_url_option_Ok. cbn.
  rewrite url_of_first in Hc by apply Ho1, url_options_distinct.
  split_and!; [done..| |].
  - intros Hnd. destruct (Hf1 Hnd) as [-> Hnd1], (Hf2 Hnd1) as [-> _]. cbn.
    rewrite list_filter_filter. apply list_filter_iff. intros e.
    unfold url_options. rewrite !not_elem_of_cons. set_solver.
  - exists (k1 + k2)%nat. by rewrite replicate_add, app_assoc.
Qed.

Lemma take_url_option_runs t create name tr v :
  url_of name create = Ok v ->
  exists create' tr', take_url_option defGetString t create name tr = (Ok (v, create'), tr').
Proof.
  unfold take_url_option, url_of.
  pose proof (delete_option_spec name (ct_options create)) as Hd.
  destruct (delete_option name (ct_options create)) as [[e rest]|].
  - destruct Hd as [-> _]. intros (u & Hu & [= <-])%bind_Ok.
    exists (set_options rest create), (tr ++ [EvWriteTree t]).
    unfold mbind, stateful_bind, emit, call, lift. by rewrite Hu.
  - destruct Hd as [-> _]. intros [= <-]. by exists create, tr.
Qed.

Lemma take_both_runs t create tr s c :
  urls_of create s c ->
  exists create1 tr1 create2 tr2,
    take_url_option defGetString t create CHDB_STRUCTURE_FROM tr = (Ok (s, create1), tr1) /\
    take_url_option defGetString t create1 CHDB_COPY_FROM tr1 = (Ok (c, create2), tr2).
Proof.
  intros [Hs Hc]. destruct (take_url_option_runs t create _ tr _ Hs) as (c1 & tr1 & H1).
  pose proof H1 as (_ & (o & -> & _ & Ho) & _)%take_url_option_Ok.
  rewrite <- (url_of_first _ _ o) in Hc by apply Ho, url_options_distinct.
  destruct (take_url_option_runs t _ _ tr1 _ Hc) as (c2 & tr2 & H2). eauto 10.
Qed.

(** What follows the options, once they are taken. *)
Lemma create_from_url_after t create tr s c :
  urls_of create s c ->
  exists create' k,
    create' = set_options (ct_options create') create /\
    (NoDup (map defname (ct_options create)) ->
     ct_options create' = filter (fun e => defname e ∉ url_options) (ct_options create)) /\
    chdb_create_from_url sv defGetString t create tr
    = (lift (raise_if (bool_decide (is_Some s) && bool_decide (is_Some c)) err_combined) ;;
       lift (raise_if (bool_decide (is_Some s) && has_columns create) err_has_columns) ;;
       error_if_relation_exists sv create ;;
       mret (CreateFromURL (structure_source create s c) c, create'))
      (tr ++ replicate k (EvWriteTree t)).
Proof.
  intros Hu. destruct (take_both_runs t create tr s c Hu) as (c1 & tr1 & c2 & tr2 & H1 & H2).
  pose proof (take_both_Ok _ _ _ _ _ _ _ _ _ H1 H2) as (_ & Hset & Hnd & k & ->).
  exists c2, k. split_and!; [done..|].
  unfold chdb_create_from_url, mbind at 1, stateful_bind at 1. rewrite H1. cbn.
  unfold mbind at 1, stateful_bind at 1. rewrite H2. cbn.
  rewrite Hset. unfold has_columns, error_if_relation_exists. cbn.
  destruct s, c; try done; unfold structure_source, has_columns; cbn;
    by destruct (bool_decide _ || _ || _ || _).
Qed.

Lemma raise_if_run {A} (b : bool) (e : error) (m : M A) tr :
  (lift (raise_if b e) ;; m) tr = if b then (Raise e, tr) else m tr.
Proof. by destruct b. Qed.

(** Inversion of a statement that is accepted. *)
Lemma create_from_url_Ok t create tr from create' tr' :
  chdb_create_from_url sv defGetString t create tr = (Ok (from, create'), tr') ->
  exists s k,
    urls_of create s (copy_url from) /\
    structure_url from = structure_source create s (copy_url from) /\
    (s = None \/ copy_url from = None) /\
    (is_Some s -> has_columns create = false) /\
    create' = set_options (ct_options create') create /\
    (NoDup (map defname (ct_options create)) ->
     ct_options create' = filter (fun e => defname e ∉ url_options) (ct_options create)) /\
    sv_relation_exists sv (tr ++ replicate k (EvWriteTree t)) (ct_relation create) = Ok false.
Proof.
  intros H. pose proof H as H0. unfold chdb_create_from_url in H0.
  apply run_bind_Ok in H0 as ([s c1] & tr1 & H1 & H0).
  apply run_bind_Ok in H0 as ([c c2] & tr2 & H2 & _).
  pose proof (take_both_Ok _ _ _ _ _ _ _ _ _ H1 H2) as [Hu _]. clear H1 H2.
  destruct (create_from_url_after t create tr s c Hu) as (c3 & k & Hset & Hnd & Hrun).
  rewrite Hrun, !raise_if_run in H.
  destruct (bool_decide (is_Some s) && bool_decide (is_Some c)) eqn:Hboth; [done|].
  destruct (bool_decide (is_Some s) && has_columns create) eqn:Hcols; [done|].
  apply run_bind_Ok in H as ([] & tr3 & Hex & [= <- <- <-]).
  apply run_bind_Ok in Hex as (ex & tr4 & [= Hsv <-] & Hex).
  destruct ex; cbn in Hex; [by destruct ct_if_not_exists|].
  destruct Hu as [Hu1 Hu2]. exists s, k. repeat apply conj; try done.
  - destruct s, c; naive_solver.
  - intros [x ->]. by destruct (has_columns create).
Qed.

(** C36. What the URL options of an accepted statement mean: the rows come
    from the [copy_from] URL; the columns come from the [structure_from] URL,
    or, in a statement that defines none, from the [copy_from] URL; the two
    options are never combined, nor is [structure_from] with columns; the
    relation does not exist; and Postgres gets the statement without the two
    options, otherwise unchanged. *)
Theorem create_from_url_spec t create tr from create' tr' :
  chdb_create_from_url sv defGetString t create tr = (Ok (from, create'), tr') ->
  exists s k,
    urls_of create s (copy_url from) /\
    structure_url from = structure_source create s (copy_url from) /\
    (s = None \/ copy_url from = None) /\
    (is_Some s -> has_columns create = false) /\
    create' = set_options (ct_options create') create /\
    (NoDup (map defname (ct_options create)) ->
     ct_options create' = filter (fun e => defname e ∉ url_options) (ct_options create)) /\
    sv_relation_exists sv (tr ++ replicate k (EvWriteTree t)) (ct_relation create) = Ok false.
Proof. apply create_from_url_Ok. Qed.

(** The statements that are refused, each with its own error, before any
    helper runs: both options, [structure_from] with columns of its own, and a
    relation that exists already, with or without IF NOT EXISTS. *)
Theorem create_from_url_refusals t create tr s c :
  urls_of create s c ->
  let run := chdb_create_from_url sv defGetString t create tr in
  (is_Some s -> is_Some c -> run.1 = Raise err_combined) /\
  (is_Some s -> c = None -> has_columns create = true -> run.1 = Raise err_has_columns) /\
  (s = None \/ c = None /\ has_columns create = false ->
   (forall tr, sv_relation_exists sv tr (ct_relation create) = Ok true) ->
   run.1 = Raise ((if ct_if_not_exists create then err_exists_if_not_exists else err_exists)
                    (rv_name (ct_relation create)))) /\
  exists evs, run.2 = tr ++ evs /\
    Forall (fun ev => ev = EvWriteTree t \/ ev = EvRelationExists (ct_relation create)) evs.
Proof.
  intros Hu run. subst run.
  destruct (create_from_url_after t create tr s c Hu) as (c3 & k & _ & _ & Hrun).
  rewrite Hrun, !raise_if_run. split_and!.
  - by intros [? ->] [? ->].
  - by intros [? ->] -> ->.
  - intros Hok Hex.
    replace (bool_decide (is_Some s) && bool_decide (is_Some c)) with false
      by (by destruct Hok as [-> | [-> _]]; rewrite ?andb_false_r).
    replace (bool_decide (is_Some s) && has_columns create) with false
      by (by destruct Hok as [-> | [_ ->]]; rewrite ?andb_false_r).
    unfold error_if_relation_exists, mbind, stateful_bind, call. rewrite Hex. cbn.
    by destruct (ct_if_not_exists create).
  - assert (Hw : Forall (fun ev => ev = EvWriteTree t \/ ev = EvRelationExists (ct_relation create))
               (replicate k (EvWriteTree t))) by (apply Forall_replicate; auto).
    repeat case_match; cbn; try (eexists; split; [done|exact Hw]).
    unfold error_if_relation_exists, mbind, stateful_bind, call.
    exists (replicate k (EvWriteTree t) ++ [EvRelationExists (ct_relation create)]).
    destruct (sv_relation_exists sv _ _) as [[]|e|]; cbn;
      try (destruct (ct_if_not_exists create); cbn);
      (split; [by rewrite app_assoc|apply Forall_app; split; [done|by constructor; [right|]]]).
Qed.

(** ** The columns *)

(** The type a described column has, read from its ClickHouse type. *)
Definition typed (d : chdbDescribedColumn) (parsed : chc_type pgch) (type : pgch_pg_type)
    : Prop :=
  chc_type_parse pgch (dc_type d) = inl parsed /\
  pgch_pg_type_for pgch parsed (b8 "column " ++ quoted (dc_name d)) = Ok type.

(** The type a table column can have: its own, or an array of text with one
    more dimension for a type no column can have. *)
Definition storable (type : pgch_pg_type) : pgch_pg_type :=
  if pgch_pg_type_is_column pgch type then type
  else PgType (TEXTARRAYOID pgch) (-1) (pt_ndims type + 1) (pt_nullable type).

(** The column a described column becomes. *)
Definition column_for (d : chdbDescribedColumn) (col : ColumnDef) : Prop :=
  exists parsed type,
    typed d parsed type /\ pgch_pg_type_is_column pgch (storable type) = true /\
    col = MkColumnDef (dc_name d) (pt_typid (storable type)) (pt_typmod (storable type))
            (replicate (Z.to_nat (pt_ndims (storable type))) (-1))
            (negb (pt_nullable type)) /\
    (pgch_pg_type_is_column pgch type = false -> pt_typid type <> 0).

(** The notices: one per converted column. *)
Definition notices_for (d : chdbDescribedColumn) (evs : trace) : Prop :=
  exists parsed type,
    typed d parsed type /\
    evs = if pgch_pg_type_is_column pgch type then []
          else [EvNotice (notice_converted d (array_decl (Z.to_nat (pt_ndims type))))].

Definition described_clause (d : chdbDescribedColumn) : bytes :=
  pgch_quote_ch_ident pgch (dc_name d) ++ b8 " " ++ dc_type d.

Definition is_nested (d : chdbDescribedColumn) : bool :=
  match chc_type_parse pgch (dc_type d) with
  | inl parsed => chc_type_is_nested pgch parsed
  | inr _ => false
  end.

(** One round of the loop. *)
Lemma url_column_Ok infer structure nested columns d tr st tr' :
  url_column pgch infer (structure, nested, columns) d tr = (Ok st, tr') ->
  exists col evs,
    column_for d col /\ notices_for d evs /\ tr' = tr ++ evs /\
    st = (if infer then (if decide (structure = []) then structure else structure ++ b8 ", ")
                         ++ described_clause d else structure,
          nested || (infer && is_nested d), columns ++ [col]).
Proof.
  unfold url_column. intros H.
  apply run_bind_Ok in H as (parsed & ? & [= Hp <-] & H).
  destruct (chc_type_parse pgch (dc_type d)) as [p|] eqn:Hparse; [|done].
  injection Hp as ->.
  apply run_bind_Ok in H as (type & ? & [= Ht <-] & H).
  apply run_bind_Ok in H as (type' & tr1 & Hc & H).
  apply run_bind_Ok in H as ([] & ? & [= Hcol <-] & H).
  apply raise_if_Ok in Hcol. apply negb_false_iff in Hcol.
  injection H as <- <-. unfold column_for, notices_for, typed, is_nested, storable.
  rewrite Hparse.
  destruct (pgch_pg_type_is_column pgch type) eqn:Hok; cbn in Hc.
  - rewrite andb_false_r in Hc. injection Hc as -> ->.
    exists (MkColumnDef (dc_name d) (pt_typid type') (pt_typmod type')
      (replicate (Z.to_nat (pt_ndims type')) (-1)) (negb (pt_nullable type'))), [].
    rewrite app_nil_r. split_and!; [| |done|done]; exists parsed, type'; by rewrite Hok.
  - rewrite andb_true_r in Hc. case_bool_decide as Hid; [|].
    + injection Hc as <- <-. eexists _, _. split_and!; [| |done|done];
        exists parsed, type; rewrite Hok; split_and!; try done.
      do 4 f_equal. cbn. lia.
    + injection Hc as -> ->. congruence.
Qed.

Lemma described_clause_nonempty d : described_clause d <> [].
Proof. unfold described_clause. by destruct (pgch_quote_ch_ident pgch (dc_name d)). Qed.

Lemma join_clauses_nonempty ds :
  ds <> [] -> join (b8 ", ") (map described_clause ds) <> [].
Proof.
  destruct ds as [|d ds]; [done|]. intros _. pose proof (described_clause_nonempty d).
  cbn. destruct (described_clause d) eqn:Hd, (map described_clause ds); done.
Qed.

(** The loop, [done_] behind it. *)
Lemma url_columns_loop_Ok infer done_ nested columns ds tr st tr' :
  url_columns_loop pgch infer
    (if infer then join (b8 ", ") (map described_clause done_) else [], nested, columns) ds tr
  = (Ok st, tr') ->
  exists cols evs,
    Forall2 column_for ds cols /\ Forall2 notices_for ds evs /\ tr' = tr ++ concat evs /\
    st = (if infer then join (b8 ", ") (map described_clause (done_ ++ ds)) else [],
          nested || (infer && existsb is_nested ds), columns ++ cols).
Proof.
  revert done_ nested columns tr. induction ds as [|d ds IH]; intros done_ nested columns tr H.
  - injection H as <- <-. exists [], []. cbn. rewrite !app_nil_r, andb_false_r, orb_false_r.
    by split_and!.
  - apply run_bind_Ok in H as (st1 & tr1 & H1 & H).
    apply url_column_Ok in H1 as (col & ev & Hcol & Hev & -> & ->).
    assert (Hs : (if infer then
               (if decide ((if infer then join (b8 ", ") (map described_clause done_) else []) = [])
                then if infer then join (b8 ", ") (map described_clause done_) else []
                else (if infer then join (b8 ", ") (map described_clause done_) else [])
                     ++ b8 ", ") ++ described_clause d
             else if infer then join (b8 ", ") (map described_clause done_) else [])
            = if infer then join (b8 ", ") (map described_clause (done_ ++ [d])) else []).
    { destruct infer; [|done]. destruct done_ as [|x done_]; [done|].
      rewrite decide_False by by apply join_clauses_nonempty.
      rewrite map_app. cbn [map]. rewrite join_snoc by done. by rewrite app_assoc. }
    rewrite Hs in H. apply IH in H as (cols & evs & Hcols & Hevs & -> & ->).
    exists (col :: cols), (ev :: evs). cbn.
    rewrite <- !app_assoc, <- orb_assoc. cbn.
    split_and!; [by constructor|by constructor|done|].
    do 2 f_equal. by destruct infer, nested, (is_nested d).
Qed.

(** Inversion of a run that succeeds. *)
Lemma url_columns_Ok ctx tr columns ctx' tr' :
  chdb_url_columns pgch port sv ctx tr = (Ok (columns, ctx'), tr') ->
  exists described tr1 notices,
    chdb_describe port sv ctx tr = (Ok described, tr1) /\
    Forall2 column_for described columns /\ columns <> [] /\
    Forall2 notices_for described notices /\ tr' = tr1 ++ concat notices /\
    ctx' = (if infers_structure ctx then
              set_structure (escape_param (join (b8 ", ") (map described_clause described)))
            else id)
             (set_preserve_nested
                (cc_preserve_nested ctx || (infers_structure ctx && existsb is_nested described))
                ctx).
Proof.
  unfold chdb_url_columns. intros H.
  apply run_bind_Ok in H as (described & tr1 & Hd & H).
  apply run_bind_Ok in H as ([[structure nested] cols] & tr2 & Hloop & H).
  apply run_bind_Ok in H as ([] & ? & [= Hne <-] & H).
  apply raise_if_Ok, bool_decide_eq_false in Hne. injection H as <- <- <-.
  assert (Hst : (@nil byte, cc_preserve_nested ctx, @nil ColumnDef)
    = (if infers_structure ctx then join (b8 ", ") (map described_clause []) else [],
       cc_preserve_nested ctx, [])) by by destruct (infers_structure ctx).
  rewrite Hst in Hloop.
  apply url_columns_loop_Ok in Hloop as (cols' & evs & Hcols & Hevs & -> & [= -> -> ->]).
  exists described, tr1, evs. split_and!; try done.
  by destruct (infers_structure ctx).
Qed.
(** C29. The columns of a table made from a URL: one per column DESCRIBE
    reports, in its order, with its name, the Postgres type, modifier and
    dimensions of its ClickHouse type (an array of text in place of a type no
    column can have, with a notice) and its nullability; there is at least one.
    When chDB inferred the structure, the copy that follows names exactly the
    described columns and types, escaped once, and keeps nested columns whole
    when there is one; otherwise it names what the user gave. Nothing else of
    the context changes. *)
Theorem url_columns_spec ctx tr columns ctx' tr' :
  chdb_url_columns pgch port sv ctx tr = (Ok (columns, ctx'), tr') ->
  exists described tr1 notices,
    chdb_describe port sv ctx tr = (Ok described, tr1) /\
    Forall2 column_for described columns /\ columns <> [] /\
    Forall2 notices_for described notices /\ tr' = tr1 ++ concat notices /\
    ctx' = (if infers_structure ctx then
              set_structure (escape_param (join (b8 ", ") (map described_clause described)))
            else id)
             (set_preserve_nested
                (cc_preserve_nested ctx || (infers_structure ctx && existsb is_nested described))
                ctx).
Proof. apply url_columns_Ok. Qed.

(** ** Escaping a parameter

    chDB unescapes a String parameter before it parses the structure in it. What
    the code relies on: two backslashes are one, and other bytes are themselves.
    Raw control characters that end a field of chDB's text formats are left out:
    src/hook/hook.c turns those of a given structure into blanks. *)
Definition field_breaks : list byte := [x00; x09; x0a; x0d].

Record unescapes (chdb_unescape : bytes -> option bytes) : Prop := Unescapes {
  unescape_end : chdb_unescape [] = Some [];
  unescape_backslash s : chdb_unescape (BACKSLASH :: BACKSLASH :: s) = cons BACKSLASH <$> chdb_unescape s;
  unescape_other c s :
    c <> BACKSLASH -> c ∉ field_breaks -> chdb_unescape (c :: s) = cons c <$> chdb_unescape s;
}.

Lemma unescape_escape chdb_unescape s :
  unescapes chdb_unescape -> Forall (fun c => c ∉ field_breaks) s ->
  chdb_unescape (escape_param s) = Some s.
Proof.
  intros [He Hb Ho]. induction 1 as [|c s Hc _ IH]; [done|]. cbn [escape_param]. case_decide as Heq.
  - subst c. cbn [app]. by rewrite Hb, IH.
  - cbn [app]. by rewrite Ho, IH.
Qed.

(** C37. What chDB reads as the structure of the copy that follows is exactly the
    columns and types DESCRIBE reported, whatever backslashes are in them,
    although it unescapes the parameter they come in; for columns and types
    without raw tabs and line breaks. *)
Theorem escape_roundtrip chdb_unescape ctx tr columns ctx' tr' :
  unescapes chdb_unescape -> infers_structure ctx = true ->
  chdb_url_columns pgch port sv ctx tr = (Ok (columns, ctx'), tr') ->
  exists described tr1,
    chdb_describe port sv ctx tr = (Ok described, tr1) /\
    let structure := join (b8 ", ") (map described_clause described) in
    (Forall (fun c => c ∉ field_breaks) structure -> chdb_unescape (cc_structure ctx') = Some structure).
Proof.
  intros Hu Hi (described & tr1 & notices & Hd & _ & _ & _ & _ & ->)%url_columns_Ok.
  exists described, tr1. split; [done|]. intros structure Hs. rewrite Hi. by apply unescape_escape.
Qed.
End create.

(** ** Examples *)

Local Abbreviation yes := (fun _ : role => true).
Local Abbreviation sample_from create :=
  (chdb_create_from_url (sample_server yes) sample_getString OwnCopy create []).

Lemma create_from_url_spec_witness :
  exists from create' tr',
    sample_from sample_create = (Ok (from, create'), tr') /\
    structure_url from = structure_source sample_create None (copy_url from) /\
    copy_url from = Some sample_url /\
    ct_options create' = [MkDefElem (b8 "fillfactor") (VInteger 90)].
Proof.
  assert (exists r, (sample_from sample_create).1 = Ok r) as [[from create'] H]
    by (eexists; vm_compute; reflexivity).
  pose proof H as H0. vm_compute in H0. injection H0 as <- <-.
  apply run_Ok in H. eexists _, _, _. split; [exact H|].
  destruct (create_from_url_spec (sample_server yes) sample_getString OwnCopy sample_create []
    _ _ _ H) as (s & k & [Hs _] & Hstr & _).
  split; [|split; reflexivity]. vm_compute in Hs. injection Hs as <-. exact Hstr.
Defined.

Definition sample_both : CreateStmt :=
  set_options [MkDefElem CHDB_COPY_FROM (VString sample_url);
               MkDefElem CHDB_STRUCTURE_FROM (VString sample_url)] sample_create.

Lemma create_from_url_refusals_witness :
  urls_of sample_getString sample_both (Some sample_url) (Some sample_url) /\
  (sample_from sample_both).1 = Raise err_combined.
Proof.
  assert (H : urls_of sample_getString sample_both (Some sample_url) (Some sample_url))
    by (split; vm_compute; reflexivity).
  split; [exact H|].
  exact (proj1 (create_from_url_refusals (sample_server yes) sample_getString OwnCopy sample_both
    [] _ _ H) ltac:(eauto) ltac:(eauto)).
Defined.

Definition sample_describe : chdbCopyContext :=
  CopyContext None [] None s3_scheme 0 30000 0 0 0 0 sample_url [] [] [] [] [] [] false.

Lemma url_columns_spec_witness :
  exists columns ctx' tr',
    chdb_url_columns sample_pgch ascii_port (sample_server yes) sample_describe []
    = (Ok (columns, ctx'), tr') /\
    (exists described, Forall2 (column_for sample_pgch) described columns) /\
    columns = [MkColumnDef (b8 "id") 23 (-1) [] true;
               MkColumnDef (b8 "at") 1009 (-1) [-1] false] /\
    cc_structure ctx' = b8 "id Int32, at Point".
Proof.
  assert (exists r, (chdb_url_columns sample_pgch ascii_port (sample_server yes)
    sample_describe []).1 = Ok r) as [[columns ctx'] H] by (eexists; vm_compute; reflexivity).
  pose proof H as H0. vm_compute in H0. injection H0 as <- <-.
  apply run_Ok in H. eexists _, _, _. split; [exact H|].
  destruct (url_columns_spec sample_pgch ascii_port (sample_server yes) sample_describe []
    _ _ _ H) as (ds & _ & _ & _ & Hc & _).
  split; [by exists ds|]. split; reflexivity.
Defined.

(** Line feeds and tabs have escapes of their own, and end a field raw. *)
Fixpoint sample_unescape (s : bytes) : option bytes :=
  match s with
  | [] => Some []
  | c :: s =>
      if decide (c = BACKSLASH) then
        match s with
        | [] => None
        | d :: s =>
            cons (if decide (d = x6e) then x0a else if decide (d = x74) then x09 else d)
              <$> sample_unescape s
        end
      else if decide (c ∈ field_breaks) then None else cons c <$> sample_unescape s
  end.

Lemma sample_unescapes : unescapes sample_unescape.
Proof.
  split; [done|done|]. intros c s Hc Hb. cbn. by rewrite decide_False, decide_False.
Qed.

Lemma escape_roundtrip_witness :
  exists columns ctx' tr',
    chdb_url_columns sample_pgch ascii_port (sample_server yes) sample_describe []
    = (Ok (columns, ctx'), tr') /\
    sample_unescape (cc_structure ctx') = Some (b8 "id Int32, at Point") /\
    sample_unescape (escape_param (b8 "`a\nb` String")) = Some (b8 "`a\nb` String").
Proof.
  assert (exists r, (chdb_url_columns sample_pgch ascii_port (sample_server yes)
    sample_describe []).1 = Ok r) as [[columns ctx'] H] by (eexists; vm_compute; reflexivity).
  apply run_Ok in H. eexists columns, ctx', _. split; [exact H|]. split; [|vm_compute; reflexivity].
  destruct (escape_roundtrip sample_pgch ascii_port (sample_server yes) sample_unescape sample_describe []
    _ _ _ sample_unescapes eq_refl H) as (described & tr1 & Hd & Hstr).
  assert (Hds : (chdb_describe ascii_port (sample_server yes) sample_describe []).1
    = Ok [DescribedColumn (b8 "id") (b8 "Int32"); DescribedColumn (b8 "at") (b8 "Point")])
    by (vm_compute; reflexivity).
  rewrite Hd in Hds. injection Hds as ->.
  exact (Hstr ltac:(apply (bool_decide_unpack _); vm_compute; exact I)).
Defined.
