(* ===== verification/Hook.v ===== *)
(** * Hook: the process utility hook

    src/hook/hook.c: the privilege checks, [open_copy_relation], the handling
    of CREATE TABLE and [chDBProcessUtilityHook] itself, on Postgres 16 and
    later. *)

From stdpp Require Import prelude gmap.
From Stdlib Require Import Strings.Byte.
From S2P Require Import Prelude Stateful Logic Words Catalog Port Setup Structure Query Options Gucs Backend.
From S2P Require Import Copy Create.
Local Open Scope Z_scope.

Definition err_no_read_role : error :=
  with_detail (b8 "Only roles with privileges of the " ++ quoted (b8 "pg_read_server_files")
               ++ b8 " role may COPY from a file.")
    (ereport ERRCODE_INSUFFICIENT_PRIVILEGE (b8 "chdb: permission denied to COPY from a file")).
Definition err_no_write_role : error :=
  with_detail (b8 "Only roles with privileges of the " ++ quoted (b8 "pg_write_server_files")
               ++ b8 " role may COPY to a file.")
    (ereport ERRCODE_INSUFFICIENT_PRIVILEGE (b8 "chdb: permission denied to COPY to a file")).
Definition err_rls (is_from : bool) (rel : Relation) : error :=
  with_detail (b8 "Row-level security policies apply to relation " ++ quoted (rel_name rel)
               ++ b8 " for this role.")
    (ereport ERRCODE_FEATURE_NOT_SUPPORTED
       (b8 "chdb: COPY " ++ (if is_from then b8 "FROM" else b8 "TO")
        ++ b8 " not supported with row-level security")).
Definition err_relkind (detail : relkind -> bytes) (rel : Relation) : error :=
  with_detail (detail (rel_kind rel))
    (ereport ERRCODE_WRONG_OBJECT_TYPE
       (b8 "chdb: cannot copy from relation " ++ quoted (rel_name rel))).
Definition err_option_url (url option_ : bytes) : error :=
  ereport ERRCODE_FEATURE_NOT_SUPPORTED
    (b8 "chdb: cannot read URL " ++ quoted url ++ b8 " specified by option " ++ quoted option_).
Definition err_where : error :=
  ereport ERRCODE_FEATURE_NOT_SUPPORTED
    (b8 "chdb: COPY FROM a URL not supported with a WHERE clause").

Section hook.
Context (no_file : bool).  (** built with CHDB_NO_FILE_SCHEME *)
Context (pgch : PgClickhouse) (port : Port) (sv : Server).
Context (defGetString : DefElem -> res error bytes).
Context (defGetInt64 : DefElem -> res error Z).
Context (gucs : settings).

Definition PreventCommandIfReadOnly (cmd : bytes) : M unit :=
  call (EvPreventReadOnly cmd) (fun tr => sv_prevent_read_only sv tr cmd).

Definition has_privs_of_role (r : role) : M bool :=
  call (EvHasPrivs r) (fun tr => Ok (sv_has_privs sv tr r)).

Definition check_server_file_privileges (is_from : bool) : M unit :=
  if is_from then
    ok ← has_privs_of_role ROLE_PG_READ_SERVER_FILES;
    lift (raise_if (negb ok) err_no_read_role)
  else
    ok ← has_privs_of_role ROLE_PG_WRITE_SERVER_FILES;
    lift (raise_if (negb ok) err_no_write_role).

(** The copied columns, as the permission check numbers them. *)
Definition column_set (attnums : list nat) : gset Z :=
  list_to_set (map (fun n => Z.of_nat n - sv_first_low_attno sv) attnums).

Definition copy_permissions (is_from : bool) (rel : Relation) (attnums : list nat) : RangeTable :=
  if is_from then RangeTableEntry (rel_id rel) ACL_INSERT (column_set attnums) ∅
  else RangeTableEntry (rel_id rel) ACL_SELECT ∅ (column_set attnums).

Definition open_copy_relation (rv : RangeVar) (is_from : bool) (attlist : list bytes)
    (ctx : chdbCopyContext) : M chdbCopyContext :=
  let lock := if is_from then RowExclusiveLock else AccessShareLock in
  rel ← call (EvTableOpen rv lock) (fun tr => sv_table_open sv tr rv lock);
  attnums ← call (EvGetAttnums rel attlist) (fun tr => sv_get_attnums sv tr rel attlist);
  let rt := copy_permissions is_from rel attnums in
  call (EvCheckPermissions rt) (fun tr => sv_check_permissions sv tr rt) ;;
  let ctx := set_relation rel attnums rt ctx in
  rls ← call (EvCheckRls (rel_id rel)) (fun tr => sv_rls_enabled sv tr (rel_id rel));
  lift (raise_if rls (err_rls is_from rel)) ;;
  lift (raise_if (negb is_from && bool_decide (rel_kind rel <> RELKIND_RELATION))
          (err_relkind (sv_relkind_detail sv) rel)) ;;
  mret ctx.

(** [table_close(ctx->rel, NoLock)]: the lock stays until the transaction ends. *)
Definition close_relation (ctx : chdbCopyContext) : M unit :=
  rel ← lift (or_ub (cc_rel ctx)); emit (EvTableClose (rel_id rel)).

Definition contextualize (ctx : chdbCopyContext) (options : list DefElem)
    (others : option (list DefElem)) : M (chdbCopyContext * option (list DefElem)) :=
  lift (contextualize_options defGetString defGetInt64 (pgch_parse_encoding_check pgch)
          (CHC_ENC_FAIL pgch) ctx options others).

Definition option_url_scheme (url option_ : bytes) : M scheme :=
  let s := scheme_for no_file (Some url) in
  if decide (s = no_scheme) then raise (err_option_url url option_)
  else
    (if decide (s = file_scheme) then check_server_file_privileges true else mret tt) ;;
    mret s.

Definition create_columns_from_url (t : tree) (create : CreateStmt) (ctx : chdbCopyContext)
    : M (chdbCreateFromURL * CreateStmt * chdbCopyContext) :=
  '(from, create) ← chdb_create_from_url sv defGetString t create;
  '(ctx, storage) ← contextualize ctx (ct_options create) (Some []);
  emit (EvWriteTree t) ;;
  let create := set_options (default [] storage) create in
  match structure_url from with
  | Some url =>
      let ctx := set_url url ctx in
      s ← option_url_scheme url CHDB_STRUCTURE_FROM;
      let ctx := set_scheme s ctx in
      '(columns, ctx) ← chdb_url_columns pgch port sv ctx;
      emit (EvWriteTree t) ;;
      mret (from, set_tableElts columns create, ctx)
  | None => mret (from, create, ctx)
  end.

Definition copy_url_into (relation : RangeVar) (url : bytes) (ctx : chdbCopyContext) : M unit :=
  let ctx := set_url url ctx in
  s ← option_url_scheme url CHDB_COPY_FROM;
  let ctx := set_cmd_type CHDB_CMD_SELECT (set_scheme s ctx) in
  emit EvCommandCounterIncrement ;;
  ctx ← open_copy_relation relation true [] ctx;
  chdb_copy pgch port sv ctx ;;
  close_relation ctx.

(** The context both statements start from. *)
Definition fresh_context (s : scheme) (cmd : Z) (url : bytes) : chdbCopyContext :=
  CopyContext None [] None s cmd 0 (u16 (chdb_max_memory gucs)) (u16 (chdb_max_threads gucs))
    (u16 (chdb_max_parsers gucs)) 0 url [] [] [] [] [] [] false.

Definition hook_copy (copy : CopyStmt) (rv : RangeVar) (s : scheme) (filename : bytes) : M unit :=
  lift (raise_if (cp_where copy) err_where) ;;
  (if cp_is_from copy then PreventCommandIfReadOnly (b8 "COPY FROM") else mret tt) ;;
  (if decide (s = file_scheme) then check_server_file_privileges (cp_is_from copy)
   else mret tt) ;;
  let cmd := if cp_is_from copy then CHDB_CMD_SELECT else CHDB_CMD_INSERT in
  let ctx := fresh_context s cmd filename in
  ctx ← open_copy_relation rv (cp_is_from copy) (cp_attlist copy) ctx;
  '(ctx, _) ← contextualize ctx (cp_options copy) None;
  rows ← chdb_copy pgch port sv ctx;
  emit (EvSetCompletion rows) ;;
  close_relation ctx.

Definition call_prev (stmt : utility) (readOnlyTree : bool) : M unit :=
  call (EvPrev stmt readOnlyTree) (fun tr => sv_prev sv tr stmt readOnlyTree).

Definition hook_create (create : CreateStmt) (readOnlyTree : bool) : M unit :=
  let t := if readOnlyTree then OwnCopy else CallersTree in
  let ctx := fresh_context http_scheme 0 [] in
  PreventCommandIfReadOnly (b8 "CREATE TABLE") ;;
  '(from, create, ctx) ← create_columns_from_url t create ctx;
  call_prev (UCreate create) false ;;
  match copy_url from with
  | Some url => copy_url_into (ct_relation create) url ctx
  | None => mret tt
  end.

(** [chDBProcessUtilityHook]. *)
Definition utility_hook (stmt : utility) (readOnlyTree : bool) : M unit :=
  match stmt with
  | UCopy copy =>
      let s := scheme_for no_file (cp_filename copy) in
      match cp_relation copy, cp_filename copy with
      | Some rv, Some filename =>
          if negb (cp_is_program copy) && bool_decide (s <> no_scheme)
          then hook_copy copy rv s filename
          else call_prev stmt readOnlyTree
      | _, _ => call_prev stmt readOnlyTree
      end
  | UCreate create =>
      if chdb_creates_from_url create then hook_create create readOnlyTree
      else call_prev stmt readOnlyTree
  | UOther _ => call_prev stmt readOnlyTree
  end.
End hook.
