(* ===== verification/HookProps.v ===== *)
(** * HookProps: what the process utility hook may do

    The guards an event must pass ([may_move], [may_start], [may_write]) and
    the proof, by the rules of Logic.v, that every event of every run of
    [utility_hook] passes them. *)

From stdpp Require Import prelude gmap.
From Stdlib Require Import Strings.Byte.
From S2P Require Import Prelude Stateful Logic Words Catalog Port Setup Structure Query Options OptionsProps.
From S2P Require Import Gucs Backend Copy Create Hook.
Local Open Scope Z_scope.

Section guards.
Context (no_file : bool) (port : Port) (sv : Server).

(** The current user was found to be allowed to copy the columns [attnums] of
    the relation [rel], which is locked; no policy hides rows of it. *)
Record may_copy (is_from : bool) (rel : Relation) (attnums : list nat) (rt : RangeTable)
    (tr : trace) : Prop := MayCopy {
  opened : exists rv,
    passed tr (EvTableOpen rv (if is_from then RowExclusiveLock else AccessShareLock))
      (fun p => sv_table_open sv p rv (if is_from then RowExclusiveLock else AccessShareLock)
                = Ok rel);
  named : exists attlist,
    passed tr (EvGetAttnums rel attlist) (fun p => sv_get_attnums sv p rel attlist = Ok attnums);
  checked : rt = copy_permissions sv is_from rel attnums;
  permitted : passed tr (EvCheckPermissions rt) (fun p => sv_check_permissions sv p rt = Ok tt);
  unfiltered :
    passed tr (EvCheckRls (rel_id rel)) (fun p => sv_rls_enabled sv p (rel_id rel) = Ok false);
  storage : is_from = false -> rel_kind rel = RELKIND_RELATION;
}.

Definition writable (tr : trace) : Prop :=
  exists cmd, passed tr (EvPreventReadOnly cmd) (fun p => sv_prevent_read_only sv p cmd = Ok tt).

(** Rows only move between the helper and a relation the user may copy. *)
Definition may_move : guard := fun tr ev =>
  match ev with
  | EvCopyReceive _ relid attnums rt _ =>
      (exists rel, relid = rel_id rel /\ may_copy true rel attnums rt tr) /\ writable tr
  | EvCopySend _ relid _ attnums =>
      exists rel rt, relid = rel_id rel /\ may_copy false rel attnums rt tr
  | _ => True
  end.

(** The role a command needs to touch the server's files. *)
Definition file_role (cmd : Z) : role :=
  if decide (cmd = CHDB_CMD_INSERT) then ROLE_PG_WRITE_SERVER_FILES
  else ROLE_PG_READ_SERVER_FILES.

(** The scheme is the URL's, and for a file the user holds the role. *)
Record cleared (s : scheme) (url : bytes) (r : role) (tr : trace) : Prop := Cleared {
  scheme_is : s = scheme_for no_file (Some url);
  scheme_known : s <> no_scheme;
  file_privileged :
    s = file_scheme -> passed tr (EvHasPrivs r) (fun p => sv_has_privs sv p r = true);
}.

(** A helper only starts for a query made for a URL the user may use. *)
Definition may_start : guard := fun tr ev =>
  match ev with
  | EvHelperStart hcx query =>
      exists ctx,
        make_query port ctx = Ok query /\ hcx = helper_context ctx /\
        cleared (cc_scheme ctx) (cc_url ctx) (file_role (cc_cmd_type ctx)) tr
  | _ => True
  end.

(** A tree the caller marked read-only is not written, and only goes on,
    marked so, the way it came. *)
Definition may_write (stmt : utility) (readOnlyTree : bool) : guard := fun _ ev =>
  match ev with
  | EvWriteTree t => readOnlyTree = true -> t = OwnCopy
  | EvPrev stmt' true => readOnlyTree = true /\ stmt' = stmt
  | _ => True
  end.

(** The COPY statements the hook runs itself: of a relation, not of a query,
    to or from a URL of a known scheme, not a program. *)
Definition takes_over (stmt : utility) : bool :=
  match stmt with
  | UCopy copy =>
      bool_decide (is_Some (cp_relation copy)) && bool_decide (is_Some (cp_filename copy))
      && negb (cp_is_program copy)
      && bool_decide (scheme_for no_file (cp_filename copy) <> no_scheme)
  | _ => false
  end.

(** Postgres does not run those a second time. *)
Definition may_delegate (stmt : utility) : guard := fun _ ev =>
  match ev with EvPrev _ _ => takes_over stmt = false | _ => True end.

Definition secure (stmt : utility) (readOnlyTree : bool) : guard := fun tr ev =>
  may_move tr ev /\ may_start tr ev /\ may_write stmt readOnlyTree tr ev /\
  may_delegate stmt tr ev.

(** ** The guards' facts last *)

Lemma may_copy_app is_from rel attnums rt tr l :
  may_copy is_from rel attnums rt tr -> may_copy is_from rel attnums rt (tr ++ l).
Proof. intros [(rv & ?) (al & ?) ? ? ? ?]. split; eauto using passed_app. Qed.

Lemma cleared_app s url r tr l : cleared s url r tr -> cleared s url r (tr ++ l).
Proof. intros [? ? Hf]. split; [done..|]. intros Hs. by apply passed_app, Hf. Qed.

Lemma writable_app tr l : writable tr -> writable (tr ++ l).
Proof. intros [cmd ?]. exists cmd. by apply passed_app. Qed.
End guards.

#[export] Hint Resolve may_copy_app cleared_app writable_app : chdb.

Section hook.
Context (no_file : bool) (pgch : PgClickhouse) (port : Port) (sv : Server).
Context (defGetString : DefElem -> res error bytes).
Context (defGetInt64 : DefElem -> res error Z).
Context (gucs : settings).
Context (stmt : utility) (ro : bool).
Local Abbreviation G := (secure no_file port sv stmt ro).
Local Abbreviation cleared := (cleared no_file sv).
Local Abbreviation may_copy := (may_copy sv).
Local Abbreviation writable := (writable sv).
Implicit Types (ctx : chdbCopyContext) (tr : trace).

(** [m] keeps whatever holds of every longer trace. *)
Lemma wp_frame {A} (P : trace -> Prop) (m : M A) Q tr :
  (forall l, P (tr ++ l)) -> wp G m Q tr -> wp G m (fun a tr' => Q a tr' /\ P tr') tr.
Proof.
  intros HP [(evs & He & Hg) HQ]. split; [by exists evs|].
  intros a Ha. split; [by apply HQ|]. rewrite He. apply HP.
Qed.

Lemma PreventCommandIfReadOnly_wp cmd tr :
  wp G (PreventCommandIfReadOnly sv cmd) (fun _ tr' => writable tr') tr.
Proof.
  unfold PreventCommandIfReadOnly. wp_step; [done|].
  exists cmd. apply passed_last. by destruct a.
Qed.

(** The check passes only for a role that holds. *)
Lemma check_server_file_privileges_wp (is_from : bool) tr :
  let r := if is_from then ROLE_PG_READ_SERVER_FILES else ROLE_PG_WRITE_SERVER_FILES in
  wp G (check_server_file_privileges sv is_from)
    (fun _ tr' => passed tr' (EvHasPrivs r) (fun p => sv_has_privs sv p r = true)) tr.
Proof.
  unfold check_server_file_privileges, has_privs_of_role. destruct is_from; cbn;
    (repeat wp_step; [done|]); apply passed_last; destruct a; naive_solver.
Qed.

Lemma file_check_wp (s : scheme) (is_from : bool) tr :
  let r := if is_from then ROLE_PG_READ_SERVER_FILES else ROLE_PG_WRITE_SERVER_FILES in
  wp G (if decide (s = file_scheme) then check_server_file_privileges sv is_from else mret tt)
    (fun _ tr' => s = file_scheme ->
       passed tr' (EvHasPrivs r) (fun p => sv_has_privs sv p r = true)) tr.
Proof.
  intros r. wp_step.
  - eapply wp_mono; [apply check_server_file_privileges_wp|auto].
  - by wp_step.
Qed.

Lemma option_url_scheme_wp url option_ tr :
  wp G (option_url_scheme no_file sv url option_)
    (fun s tr' => cleared s url ROLE_PG_READ_SERVER_FILES tr') tr.
Proof.
  unfold option_url_scheme. wp_step; [wp_step|].
  wp_step. eapply wp_mono; [apply file_check_wp|]. cbn. intros [] tr' Hf. wp_step.
  by split.
Qed.

(** What the context of a checked relation says. *)
Definition checked_context (is_from : bool) ctx tr : Prop :=
  exists rel rt, cc_rel ctx = Some rel /\ cc_rtable ctx = Some rt /\
    may_copy is_from rel (cc_attnums ctx) rt tr.

Lemma open_copy_relation_wp rv is_from attlist ctx tr :
  wp G (open_copy_relation sv rv is_from attlist ctx)
    (fun ctx' tr' =>
       checked_context is_from ctx' tr' /\
       exists rel attnums rt, ctx' = set_relation rel attnums rt ctx) tr.
Proof.
  unfold open_copy_relation. do 2 wp_step; [done|]. do 2 wp_step; [done|].
  do 2 wp_step; [done|]. do 2 wp_step; [done|]. do 4 wp_step. wp_step.
  match goal with H : raise_if a2 _ = _ |- _ => apply raise_if_Ok in H as -> end.
  match goal with H : raise_if _ _ = _ |- _ => apply raise_if_Ok in H end.
  split; [|by eauto]. eexists _, _. split_and!; [done..|]. split.
  - exists rv. auto with chdb.
  - exists attlist. auto with chdb.
  - done.
  - apply passed_app, passed_last. by destruct a1.
  - auto with chdb.
  - intros ->. by eapply dec_stable, (bool_decide_eq_false (rel_kind a <> RELKIND_RELATION)).
Qed.

(** A context fit for [chdb_copy]: its relation checked for the direction of
    its command, its URL cleared, and the transaction not read-only when rows
    come in. *)
Record fit (is_from : bool) ctx tr : Prop := Fit {
  fit_cmd : cc_cmd_type ctx = if is_from then CHDB_CMD_SELECT else CHDB_CMD_INSERT;
  fit_relation : checked_context is_from ctx tr;
  fit_url : cleared (cc_scheme ctx) (cc_url ctx) (file_role (cc_cmd_type ctx)) tr;
  fit_write : is_from = true -> writable tr;
}.

(** Starting a helper for a cleared context. *)
Lemma start_wp ctx q tr Q :
  make_query port ctx = Ok q ->
  cleared (cc_scheme ctx) (cc_url ctx) (file_role (cc_cmd_type ctx)) tr ->
  (forall h, Q h (tr ++ [EvHelperStart (helper_context ctx) q])) ->
  wp G (call (EvHelperStart (helper_context ctx) q)
          (fun tr => sv_helper_start sv tr (helper_context ctx) q)) Q tr.
Proof. intros Hq Hc HQ. wp_step; [|done]. split; [done|]. split; [by exists ctx|done]. Qed.

Lemma chdb_copy_wp is_from ctx tr :
  fit is_from ctx tr -> wp G (chdb_copy pgch port sv ctx) (fun _ _ => True) tr.
Proof.
  intros [Hcmd (rel & rt & Hrel & Hrt & Hmay) Hurl Hw]. unfold chdb_copy.
  do 2 wp_step; [done|]. wp_step.
  apply wp_mono with (fun ctx' tr' =>
    tr' = tr ++ [EvNewGucLevel] /\ exists s, ctx' = set_structure s ctx).
  { wp_step.
    - do 2 wp_step. do 2 wp_step. wp_step. by eauto.
    - wp_step. split; [done|]. exists (cc_structure ctx). by destruct ctx. }
  intros ctx' tr' (-> & s & ->). do 2 wp_step. rename H0 into Hq. wp_step.
  apply start_wp; [done|by apply cleared_app|]. intros h.
  do 2 wp_step. do 2 wp_step. cbn in *.
  replace a1 with rel by (rewrite Hrel in *; naive_solver).
  replace a2 with rt by (rewrite Hrt in *; naive_solver).
  wp_step. rewrite Hcmd.
  destruct is_from; [rewrite decide_True by done|rewrite decide_False by done].
  - wp_step; [split; [split; [exists rel|]; auto 6 with chdb|done]|].
    do 2 wp_step; [done|]. do 2 wp_step; [done|]. by wp_step.
  - wp_step; [split; [exists rel, rt; auto 6 with chdb|done]|].
    do 2 wp_step; [done|]. do 2 wp_step; [done|]. by wp_step.
Qed.

Lemma chdb_describe_wp ctx tr :
  cleared (cc_scheme ctx) (cc_url ctx) ROLE_PG_READ_SERVER_FILES tr ->
  wp G (chdb_describe port sv ctx) (fun _ _ => True) tr.
Proof.
  intros Hc. unfold chdb_describe. do 2 wp_step. rename H into Hq. wp_step.
  apply start_wp; [done|by destruct decide|]. intros h.
  do 2 wp_step; [done|]. do 2 wp_step; [done|]. by wp_step.
Qed.

Lemma url_columns_loop_wp infer st ds tr :
  wp G (url_columns_loop pgch infer st ds) (fun _ _ => True) tr.
Proof.
  revert st tr. induction ds as [|d ds IH]; intros st tr; cbn.
  { by wp_step. }
  wp_step. eapply wp_mono; [|intros st' tr' _; apply IH].
  instantiate (1 := fun _ _ => True). destruct st as [[structure nested] columns].
  unfold url_column. do 2 wp_step. do 2 wp_step. wp_step. wp_step.
  - do 2 wp_step; [done|]. wp_step. do 2 wp_step. by wp_step.
  - wp_step. do 2 wp_step. by wp_step.
Qed.

(** The fields the options of a statement leave alone. *)
Definition core ctx :=
  (cc_rel ctx, cc_attnums ctx, cc_rtable ctx, cc_scheme ctx, cc_cmd_type ctx, cc_url ctx).

Lemma contextualize_wp ctx options others tr :
  wp G (contextualize pgch defGetString defGetInt64 ctx options others)
    (fun r tr' => core r.1 = core ctx /\ tr' = tr) tr.
Proof.
  unfold contextualize, contextualize_options. wp_step. destruct a as [ctx' o'].
  split; [|done]. cbn. rewrite (field_kept _ _ _ core) with (2 := H); [done|].
  by destruct 1.
Qed.

(** A context with the fields of a fit one is fit, and stays so. *)
Lemma fit_core is_from ctx ctx' tr :
  core ctx' = core ctx -> fit is_from ctx tr -> fit is_from ctx' tr.
Proof.
  intros [= Hr Ha Ht Hs Hc Hu] [? (rel & rt & ? & ? & ?) ? ?]. split.
  - by rewrite Hc.
  - exists rel, rt. by rewrite Hr, Ha, Ht.
  - by rewrite Hs, Hc, Hu.
  - done.
Qed.

Lemma set_relation_core rel attnums rt ctx :
  cc_scheme (set_relation rel attnums rt ctx) = cc_scheme ctx /\
  cc_cmd_type (set_relation rel attnums rt ctx) = cc_cmd_type ctx /\
  cc_url (set_relation rel attnums rt ctx) = cc_url ctx.
Proof. done. Qed.

(** Opening the relation makes a cleared context fit. *)
Lemma open_fit_wp rv (is_from : bool) attlist ctx tr :
  cc_cmd_type ctx = (if is_from then CHDB_CMD_SELECT else CHDB_CMD_INSERT) ->
  cleared (cc_scheme ctx) (cc_url ctx) (file_role (cc_cmd_type ctx)) tr ->
  (is_from = true -> writable tr) ->
  wp G (open_copy_relation sv rv is_from attlist ctx) (fit is_from) tr.
Proof.
  intros Hcmd Hurl Hw. eapply wp_mono.
  - apply (wp_frame (fun tr' => cleared (cc_scheme ctx) (cc_url ctx) (file_role (cc_cmd_type ctx)) tr'
      /\ (is_from = true -> writable tr'))); [auto with chdb|].
    apply open_copy_relation_wp.
  - cbn. intros ctx' tr' [[Hrel (rel & attnums & rt & ->)] [Hurl' Hw']].
    by split.
Qed.

Lemma close_relation_wp ctx tr : wp G (close_relation ctx) (fun _ _ => True) tr.
Proof. unfold close_relation. do 2 wp_step. by wp_step. Qed.

Lemma hook_copy_wp copy rv url tr :
  scheme_for no_file (Some url) <> no_scheme ->
  wp G (hook_copy pgch port sv defGetString defGetInt64 gucs copy rv
          (scheme_for no_file (Some url)) url) (fun _ _ => True) tr.
Proof.
  intros Hs. unfold hook_copy. do 2 wp_step. clear H a. wp_step.
  apply wp_mono with (fun _ tr' => cp_is_from copy = true -> writable tr').
  { wp_step; [|by wp_step]. eapply wp_mono; [apply PreventCommandIfReadOnly_wp|auto]. }
  intros [] tr1 Hw. wp_step. eapply wp_mono.
  { apply (wp_frame (fun tr' => cp_is_from copy = true -> writable tr')); [auto with chdb|].
    apply file_check_wp. }
  cbn. clear dependent tr1. intros [] tr1 [Hf Hw]. wp_step. eapply wp_mono.
  { apply open_fit_wp; [done| |done]. split; [done..|].
    intros Hfile. specialize (Hf Hfile). by destruct (cp_is_from copy). }
  intros ctx tr2 Hfit. wp_step. eapply wp_mono; [apply contextualize_wp|].
  cbn. intros [ctx' o] tr3 [Hcore ->]. wp_step. eapply wp_mono.
  { eapply chdb_copy_wp, fit_core; [exact Hcore|done]. }
  cbn. intros rows tr3 _. do 2 wp_step; [done|]. apply close_relation_wp.
Qed.

Lemma copy_url_into_wp relation url ctx tr :
  writable tr ->
  wp G (copy_url_into no_file pgch port sv relation url ctx) (fun _ _ => True) tr.
Proof.
  intros Hw. unfold copy_url_into. wp_step. eapply wp_mono.
  { apply (wp_frame writable); [auto with chdb|]. apply option_url_scheme_wp. }
  cbn. intros s tr1 [Hc Hw1]. do 2 wp_step; [done|]. wp_step. eapply wp_mono.
  { apply open_fit_wp; [done|by apply cleared_app|auto with chdb]. }
  intros ctx' tr2 Hfit. wp_step. eapply wp_mono; [by eapply chdb_copy_wp|].
  cbn. intros _ tr3 _. apply close_relation_wp.
Qed.

(** The tree the hook writes to may be written. *)
Definition own_tree (t : tree) : Prop := ro = true -> t = OwnCopy.

Lemma take_url_option_wp t create name tr :
  own_tree t ->
  wp G (take_url_option defGetString t create name) (fun _ _ => True) tr.
Proof.
  intros Ht. unfold take_url_option. wp_step; [|by wp_step].
  wp_step. do 2 wp_step; [done|]. do 2 wp_step. by wp_step.
Qed.

Lemma chdb_create_from_url_wp t create tr :
  own_tree t ->
  wp G (chdb_create_from_url sv defGetString t create) (fun _ _ => True) tr.
Proof.
  intros Ht. unfold chdb_create_from_url. wp_step.
  eapply wp_mono; [by apply take_url_option_wp|]. intros [s c1] tr1 _. wp_step.
  eapply wp_mono; [by apply take_url_option_wp|]. intros [c c2] tr2 _.
  do 2 wp_step. do 2 wp_step. wp_step. unfold error_if_relation_exists.
  do 2 wp_step; [done|]. wp_step.
  - wp_step. by wp_step.
  - wp_step; wp_step.
Qed.

Lemma create_columns_from_url_wp t create ctx tr :
  own_tree t ->
  wp G (create_columns_from_url no_file pgch port sv defGetString defGetInt64 t create ctx)
    (fun _ _ => True) tr.
Proof.
  intros Ht. unfold create_columns_from_url. wp_step.
  eapply wp_mono; [by apply chdb_create_from_url_wp|]. intros [from c1] tr1 _. wp_step.
  eapply wp_mono; [apply contextualize_wp|]. intros [ctx' o] tr2 _.
  do 2 wp_step; [done|]. wp_step; [|by wp_step]. wp_step.
  eapply wp_mono; [apply option_url_scheme_wp|]. intros s tr3 Hc. cbn. wp_step.
  unfold chdb_url_columns. wp_step. eapply wp_mono; [by apply chdb_describe_wp|].
  intros ds tr4 _. wp_step. eapply wp_mono; [apply url_columns_loop_wp|].
  intros [[structure nested] cols] tr5 _. do 2 wp_step. wp_step. do 2 wp_step; [done|].
  by wp_step.
Qed.

Lemma call_prev_wp stmt' b tr :
  takes_over no_file stmt = false -> (b = true -> ro = true /\ stmt' = stmt) ->
  wp G (call_prev sv stmt' b) (fun _ _ => True) tr.
Proof.
  intros Ht Hb. unfold call_prev. wp_step; [|done].
  split; [done|]. split; [done|]. split; [|done]. destruct b; [by apply Hb|done].
Qed.

Lemma hook_create_wp create tr :
  takes_over no_file stmt = false ->
  wp G (hook_create no_file pgch port sv defGetString defGetInt64 gucs create ro)
    (fun _ _ => True) tr.
Proof.
  intros Ht. unfold hook_create. wp_step. eapply wp_mono; [apply PreventCommandIfReadOnly_wp|].
  intros [] tr1 Hw. wp_step. eapply wp_mono.
  { apply (wp_frame (writable)); [auto with chdb|].
    apply create_columns_from_url_wp. by intros ->. }
  cbn. intros [[from c] ctx] tr2 [_ Hw2]. wp_step. eapply wp_mono.
  { apply (wp_frame (writable)); [auto with chdb|]. by apply call_prev_wp. }
  cbn. intros [] tr3 [_ Hw3]. wp_step; [by apply copy_url_into_wp|by wp_step].
Qed.

(** Every event of every run of the hook is secure. *)
Lemma utility_hook_wp stmt' tr :
  stmt' = stmt ->
  wp G (utility_hook no_file pgch port sv defGetString defGetInt64 gucs stmt' ro)
    (fun _ _ => True) tr.
Proof.
  intros Heq.
  assert (Hprev : takes_over no_file stmt' = false ->
    wp G (call_prev sv stmt' ro) (fun _ _ => True) tr) by (subst; intros; by apply call_prev_wp).
  unfold utility_hook. destruct stmt' as [copy|create|tag]; [| |by apply Hprev].
  - cbn in Hprev.
    destruct (cp_relation copy) as [rv|]; [|by apply Hprev].
    destruct (cp_filename copy) as [url|]; [|by apply Hprev].
    wp_step; [|by apply Hprev]. apply hook_copy_wp. by destruct (bool_decide_reflect
      (scheme_for no_file (Some url) <> no_scheme)); [|rewrite andb_false_r in *].
  - wp_step; [apply hook_create_wp; by rewrite <- Heq|by apply Hprev].
Qed.
End hook.
