(* ===== verification/HookTheorems.v ===== *)
(** * HookTheorems: the properties of the process utility hook *)

From stdpp Require Import prelude gmap.
From Stdlib Require Import Strings.Byte.
From S2P Require Import Prelude Stateful Logic Words CString Catalog Port Setup Structure Query Options.
From S2P Require Import OptionsProps Gucs Backend Copy CopyProps Create CreateProps Hook.
From S2P Require Import HookProps Surroundings.
Local Open Scope Z_scope.

Section properties.
Context (no_file : bool) (pgch : PgClickhouse) (port : Port) (sv : Server).
Context (defGetString : DefElem -> res error bytes).
Context (defGetInt64 : DefElem -> res error Z).
Context (gucs : settings).
Local Abbreviation utility_hook :=
  (utility_hook no_file pgch port sv defGetString defGetInt64 gucs).
Implicit Types (stmt : utility) (ro : bool).

(** Every event of a run, at its prefix. *)
Lemma run_secure stmt ro pre e post :
  (utility_hook stmt ro []).2 = pre ++ e :: post -> secure no_file port sv stmt ro pre e.
Proof.
  intros Hrun.
  destruct (wp_guarded _ _ _ _ (utility_hook_wp no_file pgch port sv defGetString defGetInt64
    gucs stmt ro stmt [] eq_refl)) as (evs & He & Hg).
  apply (Hg pre e post). by rewrite <- Hrun, He.
Qed.

(** C1. Whatever statement runs and however it ends, rows only enter or leave
    a relation the hook opened and locked itself, for exactly the columns whose
    INSERT or SELECT privilege was checked and granted, when no row-level
    security policy hides rows of it; a relation is only read when it is a
    table with storage, and only written when the transaction was found not to
    be read-only. The insert runs under the range table that was checked. *)
Theorem moves_permitted stmt ro pre e post :
  (utility_hook stmt ro []).2 = pre ++ e :: post -> may_move sv pre e.
Proof. intros H. apply (run_secure _ _ _ _ _ H). Qed.

(** C2. A helper, the process that reaches files and the network, only starts
    for the query of a URL whose scheme is known and dispatches as its prefix
    says, and for a [file] URL only after the user was found to hold
    [pg_read_server_files], or [pg_write_server_files] when the helper is to
    write. *)
Theorem helpers_cleared stmt ro pre e post :
  (utility_hook stmt ro []).2 = pre ++ e :: post -> may_start no_file port sv pre e.
Proof. intros H. apply (run_secure _ _ _ _ _ H). Qed.

(** C32. A statement tree the caller marked read-only is never written: only
    the hook's copy of it is; and what goes on marked read-only is the
    statement that came in. *)
Theorem read_only_tree_kept stmt ro pre e post :
  (utility_hook stmt ro []).2 = pre ++ e :: post -> may_write stmt ro pre e.
Proof. intros H. apply (run_secure _ _ _ _ _ H). Qed.

(** ** What a CREATE TABLE from a URL runs *)

(** The statement Postgres runs for [create]: the given columns, and the
    options that are neither the URLs nor chDB's. *)
Definition plain_create (create : CreateStmt) (columns : list ColumnDef) : CreateStmt :=
  set_tableElts columns
    (set_options
       (filter (fun e => defname e ∉ option_names)
          (filter (fun e => defname e ∉ url_options) (ct_options create))) create).

(** The columns [columns] are those DESCRIBE reports of [url], in a run that has
    come to [tr]. *)
Definition columns_of (tr : trace) (url : bytes) (columns : list ColumnDef) : Prop :=
  exists ctx described tr1 tr2,
    cc_url ctx = url /\ chdb_describe port sv ctx tr1 = (Ok described, tr2) /\ tr2 `prefix_of` tr /\
    Forall2 (column_for pgch) described columns /\ columns <> [].

(** After [tr], [url] is copied into [relation]: it is opened, locked and checked,
    and the rows of the one helper started, for the URL's query, go into it. *)
Definition loads (tr : trace) (relation : RangeVar) (url : bytes) (evs : trace) : Prop :=
  exists ctx rel attnums rt q h level n,
    let role := if decide (scheme_for no_file (Some url) = file_scheme)
      then [EvHasPrivs ROLE_PG_READ_SERVER_FILES] else [] in
    let hcx := helper_context ctx in
    let opened := tr ++ role ++ [EvCommandCounterIncrement] in
    let started := opened ++ [EvTableOpen relation RowExclusiveLock; EvGetAttnums rel [];
      EvCheckPermissions rt; EvCheckRls (rel_id rel); EvNewGucLevel] in
    let moved := [EvHelperStart hcx q; EvCopyReceive h (rel_id rel) attnums rt (cc_encoding_check ctx)] in
    cc_url ctx = url /\ cc_scheme ctx = scheme_for no_file (Some url) /\
    cc_cmd_type ctx = CHDB_CMD_SELECT /\ make_query port ctx = Ok q /\
    sv_table_open sv opened relation RowExclusiveLock = Ok rel /\
    sv_helper_start sv started hcx q = Ok h /\
    sv_copy_receive sv (started ++ [EvHelperStart hcx q]) h = Ok n /\
    sv_helper_finish sv (started ++ moved) h = Ok tt /\
    tr ++ evs = started ++ moved ++ [EvHelperFinish h; EvRestoreGuc level; EvTableClose (rel_id rel)].

Lemma create_columns_Ok t create ctx tr from create' ctx' tr' :
  create_columns_from_url no_file pgch port sv defGetString defGetInt64 t create ctx tr
  = (Ok (from, create', ctx'), tr') ->
  NoDup (map defname (ct_options create)) ->
  exists s columns,
    urls_of defGetString create s (copy_url from) /\ create' = plain_create create columns /\
    match structure_source create s (copy_url from) with
    | Some url => columns_of tr' url columns
    | None => columns = ct_tableElts create
    end.
Proof.
  intros H Hnd. unfold create_columns_from_url in H.
  apply run_bind_Ok in H as ([from0 c1] & tr1 & Hfrom & H).
  apply create_from_url_Ok in Hfrom as (s & k & Hu & Hs & _ & _ & Hset & Hopts & _).
  specialize (Hopts Hnd).
  apply run_bind_Ok in H as ([ctx1 o] & ? & [= Hctx <-] & H).
  apply others_kept in Hctx as [Ho _]. cbn in Ho. subst o.
  apply run_bind_Ok in H as ([] & ? & [= <-] & H). cbn in H.
  exists s. rewrite Hset, Hopts in H. cbn in H.
  destruct (structure_url from0) as [url|] eqn:Hurl.
  - apply run_bind_Ok in H as (sch & tr2 & _ & H).
    apply run_bind_Ok in H as ([cols ctx2] & tr3 & Hcols & H).
    apply run_bind_Ok in H as ([] & ? & [= <-] & [= -> <- <- <-]).
    apply url_columns_Ok in Hcols as (ds & tr4 & ns & Hd & Hfor & Hne & _ & Htr & _).
    exists cols. split; [done|]. split; [done|]. rewrite <- Hs.
    eexists _, ds, _, _. split_and!; [|exact Hd| |done|done]; [done|].
    rewrite Htr, <- app_assoc. by eexists.
  - injection H as -> <- <- <-. exists (ct_tableElts create). rewrite <- Hs.
    split; [done|]. split; [by destruct create|done].
Qed.

Lemma option_url_scheme_run url option_ tr s tr' :
  option_url_scheme no_file sv url option_ tr = (Ok s, tr') ->
  s = scheme_for no_file (Some url) /\
  tr' = tr ++ (if decide (s = file_scheme) then [EvHasPrivs ROLE_PG_READ_SERVER_FILES] else []).
Proof.
  unfold option_url_scheme. cbv zeta.
  destruct (decide (scheme_for no_file (Some url) = no_scheme)) as [|Hs]; [done|].
  revert Hs. generalize (scheme_for no_file (Some url)) as s0. intros s0 _ (u & tr1 & H & [= <- <-])%run_bind_Ok.
  split; [done|]. destruct (decide (s0 = file_scheme)).
  - unfold check_server_file_privileges, has_privs_of_role in H.
    by apply run_bind_Ok in H as (ok & ? & [= _ <-] & [= _ <-]).
  - injection H as _ <-. by rewrite app_nil_r.
Qed.

Lemma copy_url_into_Ok relation url ctx tr tr' :
  copy_url_into no_file pgch port sv relation url ctx tr = (Ok tt, tr') ->
  exists evs, tr' = tr ++ evs /\ loads tr relation url evs.
Proof.
  intros H. unfold copy_url_into in H.
  apply run_bind_Ok in H as (sch & tr1 & Hs & H). apply option_url_scheme_run in Hs as [-> ->].
  apply run_bind_Ok in H as ([] & ? & [= <-] & H).
  apply run_bind_Ok in H as (ctx1 & tr2 & Hopen & H).
  apply run_bind_Ok in H as (rows & tr3 & Hcopy & H).
  apply run_bind_Ok in H as (rel0 & ? & [= Hrel0 <-] & [= <-]).
  apply run_bind_Ok in Hopen as (rel & ? & [= Hrel <-] & Hopen).
  apply run_bind_Ok in Hopen as (attnums & ? & [= _ <-] & Hopen).
  apply run_bind_Ok in Hopen as ([] & ? & [= _ <-] & Hopen).
  apply run_bind_Ok in Hopen as (rls & ? & [= _ <-] & Hopen).
  apply run_bind_Ok in Hopen as ([] & ? & [= _ <-] & Hopen).
  apply run_bind_Ok in Hopen as ([] & ? & [= <-] & [= <- <-]).
  cbn in Hrel0. injection Hrel0 as <-.
  apply copy_run_Ok in Hcopy as (ctx2 & q & h & move & answer & Hst & Hq & Hmv & Hstart & Hans & Hfin & ->).
  destruct Hst as (st & -> & _), Hmv as (rel' & rt' & [= <-] & [= <-] & Hmv).
  rewrite decide_True in Hmv by done. destruct Hmv as [-> ->].
  rewrite <- !app_assoc in *. eexists. split; [done|].
  eexists _, rel, attnums, _, q, h, _, rows. cbv zeta. rewrite <- !app_assoc. cbn [app] in *.
  split_and!; [| | |exact Hq|exact Hrel|exact Hstart|exact Hans|exact Hfin|]; done.
Qed.

(** *** Where the next hook is not called *)

Definition prevs (evs : trace) : list (utility * bool) :=
  evs ≫= fun ev => match ev with EvPrev stmt ro => [(stmt, ro)] | _ => [] end.

Definition sends (P : utility -> bool -> Prop) : guard := fun _ ev =>
  match ev with EvPrev stmt ro => P stmt ro | _ => True end.

Lemma sends_prevs P tr evs : guarded (sends P) tr evs -> Forall (fun p => P p.1 p.2) (prevs evs).
Proof.
  intros Hg. apply Forall_forall. intros [stmt ro] (ev & Hp & Hev)%list_elem_of_bind.
  apply list_elem_of_split in Hev as (pre & post & ->). specialize (Hg pre ev post eq_refl).
  destruct ev; try by apply not_elem_of_nil in Hp.
  by apply list_elem_of_singleton in Hp as [= -> ->].
Qed.

(** A COPY the hook takes over. *)
Definition taken_copy : utility :=
  UCopy (MkCopyStmt (Some (MkRangeVar None [])) [] true false (Some (b8 "http://host/file")) [] false).

Lemma taken_copy_taken : takes_over no_file taken_copy = true.
Proof. by destruct no_file; vm_compute. Qed.

(** What runs alike for every statement does not call it. *)
Lemma never_prev {A} (m : M A) ro Q tr P :
  (forall stmt, wp (secure no_file port sv stmt ro) m Q tr) ->
  wp (sends P) m (fun a tr' => Q a tr' /\ m tr = (Ok a, tr')) tr.
Proof.
  intros Hm. destruct (Hm taken_copy) as [(evs & He & Hg) HQ]. split.
  - exists evs. split; [done|]. intros pre ev post Heq.
    destruct (Hg pre ev post Heq) as (_ & _ & _ & Hd). destruct ev; try exact I.
    unfold may_delegate in Hd. by rewrite taken_copy_taken in Hd.
  - intros a Ha. split; [by apply HQ|]. by apply run_Ok.
Qed.

Lemma hook_create_sends create ro tr :
  NoDup (map defname (ct_options create)) ->
  wp (sends (fun stmt' ro' => ro' = false /\ exists columns, stmt' = UCreate (plain_create create columns)))
    (hook_create no_file pgch port sv defGetString defGetInt64 gucs create ro) (fun _ _ => True) tr.
Proof.
  intros Hnd. unfold hook_create. apply wp_bind. eapply wp_mono.
  { apply (never_prev _ ro). intros stmt. apply PreventCommandIfReadOnly_wp. }
  intros [] tr1 [Hw _]. apply wp_bind. eapply wp_mono.
  { apply (never_prev _ ro (fun _ => writable sv)). intros stmt. eapply wp_mono.
    - apply (wp_frame _ _ _ _ _ (writable sv)); [auto with chdb|].
      apply create_columns_from_url_wp. by intros ->.
    - by intros a tr2 [_ ?]. }
  intros [[from create'] ctx] tr2 [Hw2 Hrun]. apply wp_bind.
  apply create_columns_Ok in Hrun as (s & columns & _ & -> & _); [|done].
  unfold call_prev. apply wp_call; [by split; [|exists columns]|]. intros [] _.
  destruct (copy_url from) as [url|]; [|by apply wp_ret].
  eapply wp_mono; [|done].
  apply (never_prev _ ro). intros stmt. apply copy_url_into_wp. by apply writable_app.
Qed.

(** C26. What a successful CREATE TABLE with URL options does, when no option is
    given twice: Postgres runs the statement once, without the options that are
    the hook's, with the columns it wrote, or, when it wrote none, with those
    DESCRIBE reported of its URL before that; and after that, for [copy_from],
    the new relation is opened, locked and checked, one helper is started for
    the SELECT of the URL, its rows are received into that very relation, the
    helper ends well and the relation is closed, while for [structure_from]
    nothing more happens. *)
Theorem created_statement create ro tr' :
  utility_hook (UCreate create) ro [] = (Ok tt, tr') ->
  chdb_creates_from_url create = true -> NoDup (map defname (ct_options create)) ->
  exists s c columns pre post,
    urls_of defGetString create s c /\
    tr' = pre ++ EvPrev (UCreate (plain_create create columns)) false :: post /\
    prevs tr' = [(UCreate (plain_create create columns), false)] /\
    match structure_source create s c with
    | Some url => columns_of pre url columns
    | None => columns = ct_tableElts create
    end /\
    match c with
    | Some url =>
        loads (pre ++ [EvPrev (UCreate (plain_create create columns)) false]) (ct_relation create) url post
    | None => post = []
    end.
Proof.
  intros H Hc Hnd. unfold Hook.utility_hook in H. rewrite Hc in H. unfold hook_create in H.
  apply run_bind_Ok in H as ([] & ? & [= Hro <-] & H).
  apply run_bind_Ok in H as ([[from create'] ctx] & tr1 & Hcols & H).
  assert (Hpre : writable sv tr1 /\ prevs tr1 = []).
  { pose proof (never_prev (create_columns_from_url no_file pgch port sv defGetString defGetInt64
      (if ro then OwnCopy else CallersTree) create (fresh_context gucs http_scheme 0 []))
      ro (fun _ _ => True) [EvPreventReadOnly (b8 "CREATE TABLE")] (fun _ _ => False)) as Hw.
    destruct Hw as [(evs & He & Hg) _].
    { intros stmt. apply create_columns_from_url_wp. by intros ->. }
    rewrite Hcols in He. cbn in He. subst tr1. split; [exists (b8 "CREATE TABLE"), [], evs; done|].
    apply sends_prevs in Hg. change (prevs evs = []). by destruct (prevs evs); [|inversion Hg]. }
  destruct Hpre as [Hw Hnone].
  apply create_columns_Ok in Hcols as (s & columns & Hu & -> & Hmatch); [|done].
  apply run_bind_Ok in H as ([] & ? & [= _ <-] & H).
  exists s, (copy_url from), columns, tr1.
  destruct (copy_url from) as [url|].
  - apply copy_url_into_Ok in H as (evs & -> & Hl). exists evs.
    split; [done|]. split; [by rewrite <- app_assoc|]. split; [|split; [done|exact Hl]].
    assert (Hpost : prevs evs = []).
    { destruct Hl as (ctx' & rel & attnums & rt & q & h & level & n & Hl). cbv zeta in Hl.
      destruct Hl as (_ & _ & _ & _ & _ & _ & _ & _ & Hevs). rewrite <- !app_assoc in Hevs.
      apply (inj (app _)) in Hevs. cbn [app] in Hevs. injection Hevs as ->.
      by case_decide. }
    unfold prevs in *. rewrite <- app_assoc, bind_app. cbn. by rewrite Hnone, Hpost.
  - injection H as <-. exists []. split; [done|]. split; [done|]. split; [|done].
    unfold prevs in *. rewrite bind_app. cbn. by rewrite Hnone.
Qed.

(** C30. Who runs a statement: the COPY statements the hook takes over never
    reach the next hook, so they do not run twice; a CREATE TABLE with URL
    options, none of them given twice, reaches it only rewritten, without the
    options that are the hook's; and a CREATE TABLE without URL options and
    every other statement, COPY of a query, COPY PROGRAM and COPY to or from a
    plain path among them, goes on exactly as it came, and nothing else
    happens. *)
Theorem delegation stmt ro tr :
  (takes_over no_file stmt = true ->
   forall stmt' ro', EvPrev stmt' ro' ∉ (utility_hook stmt ro []).2) /\
  (forall create, stmt = UCreate create -> chdb_creates_from_url create = true ->
   NoDup (map defname (ct_options create)) ->
   forall stmt' ro', EvPrev stmt' ro' ∈ (utility_hook stmt ro []).2 ->
   ro' = false /\ exists columns, stmt' = UCreate (plain_create create columns)) /\
  (takes_over no_file stmt = false ->
   (forall create, stmt = UCreate create -> chdb_creates_from_url create = false) ->
   utility_hook stmt ro tr = (sv_prev sv tr stmt ro, tr ++ [EvPrev stmt ro])).
Proof.
  split; [|split].
  - intros Ht stmt' ro' (pre & post & Hin)%list_elem_of_split.
    destruct (run_secure _ _ _ _ _ Hin) as (_ & _ & _ & Hd). cbn in Hd. congruence.
  - intros create -> Hc Hnd stmt' ro' (pre & post & Hin)%list_elem_of_split.
    destruct (hook_create_sends create ro [] Hnd) as [(evs & He & Hg) _]. cbn in Hin, He. rewrite Hc, He in Hin.
    exact (Hg pre _ post Hin).
  - intros Ht Hc. destruct stmt as [copy|create|tag]; [| |done]; cbn -[scheme_for] in *.
    + destruct (cp_relation copy), (cp_filename copy); [|done..].
      cbn -[scheme_for] in Ht. by rewrite Ht.
    + by rewrite (Hc create eq_refl).
Qed.

(** C38. The memory limit chDB gets is the setting's value up to 65535 MB and
    loses its high bits above, for COPY and for [chdb_query] alike: every multiple of 64 GB, all of which the
    setting accepts, removes the limit, as zero does. *)
Theorem memory_limit_truncated ns s cmd url :
  settings_accepted ns gucs ->
  let limit := cc_max_memory (fresh_context gucs s cmd url) in
  limit = chdb_max_memory gucs mod 65536 /\
  (chdb_max_memory gucs < 65536 -> limit = chdb_max_memory gucs) /\
  (forall k, chdb_max_memory gucs = 65536 * k -> limit = 0) /\
  guc_context gucs cmd
  = HelperContext cmd limit (chdb_max_threads gucs) (chdb_max_parsers gucs) /\
  helper_context (fresh_context gucs s cmd url) = guc_context gucs cmd.
Proof.
  intros (Hm & Ht & Hp)%settings_accepted_bounds. unfold UINT16_MAX, INT32_MAX in *.
  cbn. unfold u16, wrap. change (2 ^ 16) with 65536.
  split_and!; [done| | | |].
  - intros. apply Z.mod_small. lia.
  - intros k ->. rewrite Z.mul_comm. apply Z_mod_mult.
  - unfold guc_context, u16, wrap. f_equal; apply Z.mod_small; lia.
  - done.
Qed.
End properties.

(** ** Examples *)

Definition everyone (r : role) : bool := true.

(** A run of the hook on the concrete surroundings. *)
Local Abbreviation sample_run stmt ro :=
  (utility_hook false sample_pgch ascii_port (sample_server everyone) sample_getString
    sample_getInt64 boot_settings stmt ro []).

Lemma split_at {A} (l : list A) i e : l !! i = Some e -> l = take i l ++ e :: drop (S i) l.
Proof. intros. symmetry. by apply take_drop_middle. Qed.

(** What a theorem about every event says of the event at a place. *)
Lemma at_place (run : trace) (P : trace -> event -> Prop) i e :
  (forall pre e post, run = pre ++ e :: post -> P pre e) -> run !! i = Some e ->
  P (take i run) e.
Proof. intros HP He. eapply HP, split_at, He. Qed.

Lemma moves_permitted_witness :
  exists e, (sample_run (UCopy (sample_copy true sample_url)) true).2 !! 7%nat = Some e /\
    may_move (sample_server everyone)
      (take 7 (sample_run (UCopy (sample_copy true sample_url)) true).2) e /\
    exists rt, e = EvCopyReceive 42 16384 [1; 2]%nat rt 0.
Proof.
  eexists. match goal with |- ?A /\ _ => assert (H : A) by (vm_compute; reflexivity) end.
  split; [exact H|]. split; [|by eexists].
  exact (at_place _ _ _ _ (moves_permitted false sample_pgch ascii_port (sample_server everyone)
    sample_getString sample_getInt64 boot_settings (UCopy (sample_copy true sample_url)) true) H).
Defined.

Definition sample_file_url : bytes := b8 "file:///srv/events.csv".

Lemma helpers_cleared_witness :
  exists e, (sample_run (UCopy (sample_copy false sample_file_url)) false).2 !! 6%nat = Some e /\
    may_start false ascii_port (sample_server everyone)
      (take 6 (sample_run (UCopy (sample_copy false sample_file_url)) false).2) e /\
    exists hcx q, e = EvHelperStart hcx q.
Proof.
  eexists. match goal with |- ?A /\ _ => assert (H : A) by (vm_compute; reflexivity) end.
  split; [exact H|]. split; [|by eexists _, _].
  exact (at_place _ _ _ _ (helpers_cleared false sample_pgch ascii_port (sample_server everyone)
    sample_getString sample_getInt64 boot_settings
    (UCopy (sample_copy false sample_file_url)) false) H).
Defined.

Lemma read_only_tree_kept_witness :
  (sample_run (UCreate sample_create) true).2 !! 1%nat = Some (EvWriteTree OwnCopy) /\
  may_write (UCreate sample_create) true (take 1 (sample_run (UCreate sample_create) true).2)
    (EvWriteTree OwnCopy).
Proof.
  match goal with |- ?A /\ _ => assert (H : A) by (vm_compute; reflexivity) end.
  split; [exact H|].
  exact (at_place _ _ _ _ (read_only_tree_kept false sample_pgch ascii_port
    (sample_server everyone) sample_getString sample_getInt64 boot_settings
    (UCreate sample_create) true) H).
Defined.

Lemma delegation_witness :
  (forall stmt' ro',
     EvPrev stmt' ro' ∉ (sample_run (UCopy (sample_copy true sample_url)) false).2) /\
  sample_run (UCopy (sample_copy true (b8 "/tmp/events.csv"))) true
  = (Ok tt, [EvPrev (UCopy (sample_copy true (b8 "/tmp/events.csv"))) true]).
Proof.
  split.
  - apply (proj1 (delegation false sample_pgch ascii_port (sample_server everyone)
      sample_getString sample_getInt64 boot_settings
      (UCopy (sample_copy true sample_url)) false [])). by vm_compute.
  - apply (proj2 (proj2 (delegation false sample_pgch ascii_port (sample_server everyone)
      sample_getString sample_getInt64 boot_settings
      (UCopy (sample_copy true (b8 "/tmp/events.csv"))) true []))); [by vm_compute|done].
Defined.

Lemma created_statement_witness :
  (sample_run (UCreate sample_create) true).1 = Ok tt /\
  exists s c columns pre post,
    urls_of sample_getString sample_create s c /\
    (sample_run (UCreate sample_create) true).2 = pre ++ EvPrev (UCreate (plain_create sample_create columns)) false :: post /\
    prevs (sample_run (UCreate sample_create) true).2 = [(UCreate (plain_create sample_create columns), false)] /\
    ct_options (plain_create sample_create columns)
    = [MkDefElem (b8 "fillfactor") (VInteger 90)].
Proof.
  match goal with |- ?A /\ _ => assert (H : A) by (vm_compute; reflexivity) end.
  split; [exact H|]. apply run_Ok in H.
  destruct (created_statement false sample_pgch ascii_port (sample_server everyone)
    sample_getString sample_getInt64 boot_settings sample_create true _ H
    ltac:(by vm_compute) ltac:(concrete)) as (s & c & columns & pre & post & Hu & Ht & Hone & _).
  exists s, c, columns, pre, post. split; [exact Hu|]. split; [exact Ht|]. split; [exact Hone|]. reflexivity.
Defined.

Lemma memory_limit_truncated_witness :
  let gucs := Settings 65536 8 4 in
  settings_accepted (b8 "chdb_hook") gucs /\
  cc_max_memory (fresh_context gucs s3_scheme CHDB_CMD_SELECT sample_url) = 0.
Proof.
  intros gucs. assert (H : settings_accepted (b8 "chdb_hook") gucs)
    by (apply settings_accepted_bounds; cbn; unfold INT32_MAX, UINT16_MAX; lia).
  split; [exact H|].
  by apply (proj1 (proj2 (proj2 (memory_limit_truncated gucs (b8 "chdb_hook") s3_scheme
    CHDB_CMD_SELECT sample_url H))) 1).
Defined.
