(* ===== verification/Os.v ===== *)
(** * Os: the system calls of the backend's side of the channel

    The kernel as src/helper.c sees it. The state holds the struct the code
    keeps (chdbHelper) beside what the kernel will answer, in order: what a
    descriptor delivers, how much each write takes, whether an interrupt is
    pending, how the process ends. Calls with an effect outside the process are
    logged. *)

From stdpp Require Import prelude functions.
From S2P Require Import Prelude Words Stateful Pipe.
Local Open Scope Z_scope.

(** The descriptors of struct chdbHelper. *)
Inductive slot : Type :=
| data | err | setup
| data_peer | err_peer | setup_peer.

#[export] Instance slot_eq_decision : EqDecision slot.
Proof. solve_decision. Defined.

Record chdbHelper : Type := Helper {
  h_pid : Z;
  h_fd : slot -> Z;        (** -1 once closed *)
  h_query : bytes;
  h_reaped : bool;
  h_status : Z;            (** wait status, negative when waitpid gave none *)
  h_wait_errno : option errno;
  h_err_buf : bytes;       (** the first [err_len] bytes of [err_buf] *)
}.

Inductive fdflag : Type :=
| FD_CLOEXEC
| O_NONBLOCK.

Inductive sysev : Type :=
| SysOpen (fd1 fd2 : Z)
| SysClose (fd : Z)
| SysSetFlag (fd : Z) (flag : fdflag)
| SysKill (pid : Z)
| SysWait (pid : Z)
| SysSleep (s : slot)    (** [wait_fd] *)
| SysFork (pid : Z).

Record os : Type := Os {
  o_in : slot -> pipe;
  o_out : slot -> list wstep;
  o_sent : slot -> bytes;                  (** what the writes delivered *)
  o_interrupts : list (option error);      (** what CHECK_FOR_INTERRUPTS does *)
  o_waits : list errno;                    (** waitpid's failures, before *)
  o_exit : Z;                              (** the status it gives *)
  o_access : option errno;
  o_opens : list (errno + Z * Z);          (** pipe and socketpair *)
  o_fcntls : list (option errno);
  o_fork : errno + Z;
  o_log : list sysev;
}.

Definition channel : Type := chdbHelper * os.

(** ** Assignments *)

Definition set_fds (v : slot -> Z) (h : chdbHelper) : chdbHelper :=
  Helper (h_pid h) v (h_query h) (h_reaped h) (h_status h) (h_wait_errno h) (h_err_buf h).
Definition set_pid (v : Z) (h : chdbHelper) : chdbHelper :=
  Helper v (h_fd h) (h_query h) (h_reaped h) (h_status h) (h_wait_errno h) (h_err_buf h).
Definition set_reaped (status : Z) (e : option errno) (h : chdbHelper) : chdbHelper :=
  Helper (h_pid h) (h_fd h) (h_query h) true status e (h_err_buf h).
Definition set_err_buf (v : bytes) (h : chdbHelper) : chdbHelper :=
  Helper (h_pid h) (h_fd h) (h_query h) (h_reaped h) (h_status h) (h_wait_errno h) v.

Definition set_in (v : slot -> pipe) (o : os) : os :=
  Os v (o_out o) (o_sent o) (o_interrupts o) (o_waits o) (o_exit o) (o_access o) (o_opens o)
    (o_fcntls o) (o_fork o) (o_log o).
Definition set_out (v : slot -> list wstep) (sent : slot -> bytes) (o : os) : os :=
  Os (o_in o) v sent (o_interrupts o) (o_waits o) (o_exit o) (o_access o) (o_opens o)
    (o_fcntls o) (o_fork o) (o_log o).
Definition set_interrupts (v : list (option error)) (o : os) : os :=
  Os (o_in o) (o_out o) (o_sent o) v (o_waits o) (o_exit o) (o_access o) (o_opens o)
    (o_fcntls o) (o_fork o) (o_log o).
Definition set_waits (v : list errno) (o : os) : os :=
  Os (o_in o) (o_out o) (o_sent o) (o_interrupts o) v (o_exit o) (o_access o) (o_opens o)
    (o_fcntls o) (o_fork o) (o_log o).
Definition set_opens (v : list (errno + Z * Z)) (o : os) : os :=
  Os (o_in o) (o_out o) (o_sent o) (o_interrupts o) (o_waits o) (o_exit o) (o_access o) v
    (o_fcntls o) (o_fork o) (o_log o).
Definition set_fcntls (v : list (option errno)) (o : os) : os :=
  Os (o_in o) (o_out o) (o_sent o) (o_interrupts o) (o_waits o) (o_exit o) (o_access o)
    (o_opens o) v (o_fork o) (o_log o).
Definition log (ev : sysev) (o : os) : os :=
  Os (o_in o) (o_out o) (o_sent o) (o_interrupts o) (o_waits o) (o_exit o) (o_access o)
    (o_opens o) (o_fcntls o) (o_fork o) (o_log o ++ [ev]).

(** ** The monad: errors leave the channel as it is then *)

Abbreviation H := (stateful channel error).

Abbreviation liftH := liftS.
Definition raiseH {A} (e : error) : H A := liftH (Raise e).
Definition getH : H chdbHelper := getsS fst.
Definition putH (f : chdbHelper -> chdbHelper) : H unit := modifyS (fun c => (f c.1, c.2)).
Definition logH (ev : sysev) : H unit := modifyS (fun c => (c.1, log ev c.2)).

(** ** System calls *)

Definition EBADF : errno := EOTHER 9.

(** [read(h->s, buf, n)]. *)
Definition sys_read (s : slot) (n : Z) : H sysread := fun c =>
  let '(h, o) := c in
  if h_fd h s <? 0 then (Ok (RError EBADF), c)
  else
    let '(r, p) := read_fd (o_in o s) n in
    (Ok r, (h, set_in (<[s := p]> (o_in o)) o)).

(** [write(h->s, b, len)], for at least one byte: how many it took, or why
    none. *)
Definition sys_write (s : slot) (b : bytes) : H (errno + nat) := fun c =>
  let '(h, o) := c in
  if h_fd h s <? 0 then (Ok (inl EBADF), c)
  else
    let '(r, l) := write_fd (o_out o s) b in
    let sent := match r with inl _ => [] | inr n => take n b end in
    (Ok r, (h, set_out (<[s := l]> (o_out o)) (<[s := o_sent o s ++ sent]> (o_sent o)) o)).

Definition CHECK_FOR_INTERRUPTS : H unit := fun c =>
  let '(h, o) := c in
  match o_interrupts o with
  | Some e :: l => (Raise e, (h, set_interrupts l o))
  | None :: l => (Ok tt, (h, set_interrupts l o))
  | [] => (Ok tt, c)
  end.

(** [wait_fd]: sleeping until the descriptor is ready or a second has passed. *)
Definition wait_fd (s : slot) : H unit := logH (SysSleep s).

(** [pipe] or [socketpair]. *)
Definition sys_open : H (errno + Z * Z) := fun c =>
  let '(h, o) := c in
  match o_opens o with
  | inr (a, b) :: l => (Ok (inr (a, b)), (h, log (SysOpen a b) (set_opens l o)))
  | inl e :: l => (Ok (inl e), (h, set_opens l o))
  | [] => (Ok (inl (EOTHER 24)), c)    (* EMFILE *)
  end.

Definition sys_fcntl : H (option errno) := fun c =>
  let '(h, o) := c in
  match o_fcntls o with
  | r :: l => (Ok r, (h, set_fcntls l o))
  | [] => (Ok None, c)
  end.
