(* ===== verification/Channel.v ===== *)
(** * Channel: the backend's side of the helper process

    src/helper.c, from the struct's life (chdb_helper_start, stop_helper) to the
    reports of how the helper ended. A loop takes fuel it cannot use up: a loop
    that ran out would count as undefined behaviour, and the theorems show that
    none does. *)

From stdpp Require Import prelude functions.
From Stdlib Require Import Strings.Byte.
From S2P Require Import Prelude Words CString Stateful Pipe Setup Os.
Local Open Scope Z_scope.

Definition CHDB_HELPER_PROGRAM : bytes := b8 "chdb_helper".
Definition CHDB_HELPER_ERR_MAX : Z := 4096.
Definition MAXPGPATH : Z := 1024.

(** ** Wait statuses *)

Definition WTERMSIG (status : Z) : Z := Z.land status 127.
Definition WIFEXITED (status : Z) : bool := WTERMSIG status =? 0.
Definition WEXITSTATUS (status : Z) : Z := Z.land (Z.shiftr status 8) 255.
Definition WIFSIGNALED (status : Z) : bool :=
  negb (WTERMSIG status =? 0) && negb (WTERMSIG status =? 127).

(** ** Closing, draining, reaping *)

Definition close_fd (s : slot) : H unit :=
  h ← getH;
  if 0 <=? h_fd h s then
    logH (SysClose (h_fd h s)) ;; putH (set_fds (<[s := -1]> (h_fd h)))
  else mret tt.

(** The loop of [drain_err]. *)
Fixpoint drain_err_loop (fuel : nat) : H unit :=
  match fuel with
  | O => liftH UB
  | S fuel =>
      h ← getH;
      if h_fd h err <? 0 then mret tt
      else
        let room := CHDB_HELPER_ERR_MAX - 1 - zlen (h_err_buf h) in
        got ← sys_read err (if 0 <? room then room else CHDB_HELPER_ERR_MAX);
        match got with
        | RBytes b =>
            (if 0 <? room then putH (set_err_buf (h_err_buf h ++ b)) else mret tt) ;;
            drain_err_loop fuel
        | REof => close_fd err ;; drain_err_loop fuel
        | RError EINTR => drain_err_loop fuel
        | RError _ => mret tt
        end
  end.

(** What is still to come on a descriptor. *)
Definition pending (s : slot) (c : channel) : nat := pipe_size (o_in c.2 s).

Definition drain_err : H unit := fun c => drain_err_loop (S (S (pending err c))) c.

(** The loop around [waitpid]: the failures it meets, before a status. *)
Fixpoint waitpid_loop (waits : list errno) : option errno * list errno :=
  match waits with
  | [] => (None, [])
  | EINTR :: waits => waitpid_loop waits
  | e :: waits => (Some e, waits)
  end.

Definition reap : H Z := fun c =>
  let '(h, o) := c in
  if h_reaped h then (Ok (h_status h), c)
  else
    let '(failed, waits) := waitpid_loop (o_waits o) in
    let status := match failed with Some _ => -1 | None => o_exit o end in
    (Ok status, (set_reaped status failed h, log (SysWait (h_pid h)) (set_waits waits o))).

Fixpoint drain_and_reap_loop (fuel : nat) : H Z :=
  match fuel with
  | O => liftH UB
  | S fuel =>
      h ← getH;
      if h_fd h err <? 0 then reap
      else
        CHECK_FOR_INTERRUPTS ;;
        drain_err ;;
        h ← getH;
        (if 0 <=? h_fd h err then wait_fd err else mret tt) ;;
        drain_and_reap_loop fuel
  end.

Definition drain_and_reap : H Z := fun c => drain_and_reap_loop (S (S (pending err c))) c.

(** Memory context callback. *)
Definition stop_helper : H unit :=
  close_fd data ;;
  close_fd err ;;
  close_fd setup ;;
  close_fd data_peer ;;
  close_fd err_peer ;;
  close_fd setup_peer ;;
  h ← getH;
  if (0 <? h_pid h) && negb (h_reaped h) then
    logH (SysKill (h_pid h)) ;; reap ;; mret tt
  else mret tt.

(** ** What the helper said *)

Fixpoint strip_newlines_rev (b : bytes) : bytes :=
  match b with
  | c :: b' => if decide (c = NEWLINE \/ c = RETURN) then strip_newlines_rev b' else b
  | [] => []
  end.
Definition strip_newlines (b : bytes) : bytes := rev (strip_newlines_rev (rev b)).

(** The [memmove]s: the text from the first [from] through the next [upto] is
    cut out, when both are there. *)
Definition cut_out (from : bytes) (upto : byte) (s : bytes) : bytes :=
  match strstr s from with
  | Some i =>
      match strchr (drop i s) upto with
      | Some k => take i s ++ drop (i + k + 1) s
      | None => s
      end
  | None => s
  end.

Section reports.
(** [pg_encoding_mbcliplen(PG_UTF8, s, len, len)]. *)
Context (utf8_cliplen : bytes -> nat).
Context (strerror : errno -> bytes).

(** The text of the report. The buffer's length afterwards no longer matters:
    the report raises. *)
Definition helper_error : H (option bytes) :=
  h ← getH;
  let buf := strip_newlines (h_err_buf h) in
  let buf := take (utf8_cliplen buf) buf in
  putH (set_err_buf buf) ;;
  if decide (buf = []) then mret None
  else
    let text := cut_out (b8 " (version ") x29 (cut_out (b8 "Request ID:") NEWLINE (cstr buf)) in
    putH (set_err_buf text) ;;
    mret (Some text).

(** [waitpid]'s errno is there when it gave no status. *)
Definition helper_end (h : chdbHelper) : bytes :=
  if h_status h <? 0 then
    b8 "chDB (pid " ++ fmt_d (h_pid h) ++ b8 ") could not be waited for: "
    ++ match h_wait_errno h with Some e => strerror e | None => [] end ++ b8 "."
  else if WIFEXITED (h_status h) then
    if WEXITSTATUS (h_status h) =? CHDB_HELPER_LOST_BACKEND then
      b8 "chDB lost the channel to the copy."
    else b8 "chDB exited with status " ++ fmt_d (WEXITSTATUS (h_status h)) ++ b8 "."
  else b8 "chDB ended abnormally.".

(** What [report_helper] raises. *)
Definition helper_report (h : chdbHelper) (detail : option bytes) (what : bytes) : error :=
  if (0 <=? h_status h) && WIFSIGNALED (h_status h) then
    with_context (b8 "query: " ++ h_query h)
      (with_detail (default (b8 "chDB produced no message.") detail)
         (ereport ERRCODE_EXTERNAL_ROUTINE_EXCEPTION
            (b8 "chdb: chDB was terminated by signal " ++ fmt_d (WTERMSIG (h_status h)))))
  else
    with_context (b8 "query: " ++ h_query h)
      (with_detail (default (helper_end h) detail)
         (ereport ERRCODE_EXTERNAL_ROUTINE_EXCEPTION (b8 "chdb: " ++ what))).

Definition report_helper {A} (what : bytes) : H A :=
  drain_and_reap ;;
  detail ← helper_error;
  h ← getH;
  raiseH (helper_report h detail what).

(** ** Moving bytes *)

(** [None]: all written; otherwise the errno that stopped it. *)
Fixpoint write_all_loop (fuel : nat) (s : slot) (p : bytes) : H (option errno) :=
  match fuel with
  | O => liftH UB
  | S fuel =>
      match p with
      | [] => mret None
      | _ =>
          CHECK_FOR_INTERRUPTS ;;
          put ← sys_write s p;
          match put with
          | inr n => write_all_loop fuel s (drop n p)
          | inl EAGAIN | inl EWOULDBLOCK =>
              drain_err ;; wait_fd s ;; write_all_loop fuel s p
          | inl EINTR => write_all_loop fuel s p
          | inl e => mret (Some e)
          end
      end
  end.

Definition write_all (s : slot) (p : bytes) : H (option errno) := fun c =>
  write_all_loop (S (length p + length (o_out c.2 s))) s p c.

Definition err_send (e : errno) : error :=
  ereport ERRCODE_FROM_ERRNO (b8 "chdb: could not send the query to chDB: " ++ strerror e).

Definition write_setup (payload : bytes) : H unit :=
  failed ← write_all setup payload;
  match failed with
  | Some e =>
      (if decide (e = EPIPE) then report_helper (b8 "could not start chDB") else mret tt) ;;
      raiseH (err_send e)
  | None => close_fd setup
  end.

Fixpoint recv_loop (fuel : nat) (len : Z) : H bytes :=
  match fuel with
  | O => liftH UB
  | S fuel =>
      CHECK_FOR_INTERRUPTS ;;
      got ← sys_read data len;
      match got with
      | RBytes b => mret b
      | REof =>
          close_fd data ;;
          status ← drain_and_reap;
          (if status =? 0 then mret tt else report_helper (b8 "error executing chDB query")) ;;
          mret []
      | RError EAGAIN | RError EWOULDBLOCK =>
          drain_err ;; wait_fd data ;; recv_loop fuel len
      | RError EINTR => recv_loop fuel len
      | RError _ => report_helper (b8 "error fetching chDB query result")
      end
  end.

(** The bytes received, none at the end of the stream. *)
Definition chdb_helper_recv (len : Z) : H bytes := fun c =>
  recv_loop (S (S (pending data c))) len c.

Definition chdb_helper_write (p : bytes) : H unit :=
  failed ← write_all data p;
  match failed with
  | Some _ => report_helper (b8 "error appending to chDB query")
  | None => mret tt
  end.

Definition chdb_helper_finish : H unit :=
  close_fd data ;;
  status ← drain_and_reap;
  if status =? 0 then mret tt else report_helper (b8 "error finishing chDB query").

(** ** Starting *)

Definition err_open (e : errno) : error :=
  ereport ERRCODE_FROM_ERRNO (b8 "chdb: could not open a channel to chDB: " ++ strerror e).
Definition err_configure (e : errno) : error :=
  ereport ERRCODE_FROM_ERRNO (b8 "chdb: could not configure the chDB channel: " ++ strerror e).
Definition err_fork (e : errno) : error :=
  ereport ERRCODE_FROM_ERRNO (b8 "chdb: could not fork: " ++ strerror e).
Definition err_execute (program : bytes) (e : errno) : error :=
  with_hint (b8 "The chdb extension installs chdb_helper beside its libraries.")
    (ereport ERRCODE_FROM_ERRNO
       (b8 "chdb: could not execute " ++ quoted program ++ b8 ": " ++ strerror e)).

Definition open_channel (first second : slot) : H unit :=
  r ← sys_open;
  match r with
  | inl e => raiseH (err_open e)
  | inr (a, b) => putH (fun h => set_fds (<[second := b]> (<[first := a]> (h_fd h))) h)
  end.

(** [fcntl] reads the flags, then sets them with one more. *)
Definition set_flag (s : slot) (flag : fdflag) : H unit :=
  got ← sys_fcntl;
  match got with
  | Some e => raiseH (err_configure e)
  | None =>
      put ← sys_fcntl;
      match put with
      | Some e => raiseH (err_configure e)
      | None => h ← getH; logH (SysSetFlag (h_fd h s) flag)
      end
  end.

(** The struct as [palloc0] and the assignments after it leave it. *)
Definition fresh_helper (query : bytes) : chdbHelper :=
  Helper (-1) (fun _ => -1) query false 0 None [].

Definition helper_program (pkglib : bytes) : bytes :=
  take (Z.to_nat (MAXPGPATH - 1)) (pkglib ++ b8 "/" ++ CHDB_HELPER_PROGRAM).

(** [chdb_helper_start], after the struct is set up and its cleanup
    registered. *)
Definition start_helper (little : bool) (pkglib session_timezone : bytes)
    (ctx : chdbHelperContext) (query : bytes) (params : list (bytes * bytes)) : H unit :=
  let program := helper_program pkglib in
  (fun c => match o_access c.2 with
            | Some e => (Raise (err_execute program e), c)
            | None => (Ok tt, c)
            end) ;;
  payload ← liftH (build_setup little [] ctx session_timezone query params);
  open_channel data data_peer ;;
  open_channel err err_peer ;;
  open_channel setup_peer setup ;;
  set_flag data FD_CLOEXEC ;; set_flag err FD_CLOEXEC ;; set_flag setup FD_CLOEXEC ;;
  set_flag data O_NONBLOCK ;; set_flag err O_NONBLOCK ;; set_flag setup O_NONBLOCK ;;
  (fun c => match o_fork c.2 with
            | inl e => (Raise (err_fork e), c)
            | inr pid => (Ok tt, (set_pid pid c.1, log (SysFork pid) c.2))
            end) ;;
  close_fd data_peer ;;
  close_fd err_peer ;;
  close_fd setup_peer ;;
  write_setup payload.

Definition chdb_helper_start (little : bool) (pkglib session_timezone : bytes)
    (ctx : chdbHelperContext) (query : bytes) (params : list (bytes * bytes)) (o : os)
    : res error unit * channel :=
  start_helper little pkglib session_timezone ctx query params (fresh_helper query, o).
End reports.
