(* ===== verification/ChannelLogic.v ===== *)
(** * ChannelLogic: the logic of the channel's calls *)

From stdpp Require Import prelude functions.
From S2P Require Import Prelude Words CString Stateful Pipe Setup Os Channel.
Local Open Scope Z_scope.

(** One step into a program. *)
Ltac h_step :=
  match goal with
  | |- wpS (raiseH _) _ _ _ => apply wpS_lift
  | |- wpS getH _ _ _ => apply wpS_gets; cbn beta iota
  | |- wpS (putH _) _ _ _ => apply wpS_modify; cbn beta iota
  | |- wpS (logH _) _ _ _ => apply wpS_modify; cbn beta iota
  | _ => s_step
  end.

(** ** What an interrupt raises *)

(** [e] is an interrupt that was pending in [c]. *)
Definition interrupted (c : channel) (e : error) : Prop := Some e ∈ o_interrupts c.2.

Lemma CHECK_FOR_INTERRUPTS_wp Q R h o :
  (forall l, l ⊆ o_interrupts o -> Q tt (h, set_interrupts l o)) ->
  (forall l e, l ⊆ o_interrupts o -> Some e ∈ o_interrupts o -> R e (h, set_interrupts l o)) ->
  wpS CHECK_FOR_INTERRUPTS Q R (h, o).
Proof.
  intros HQ HR. unfold wpS, CHECK_FOR_INTERRUPTS.
  destruct (o_interrupts o) as [|[e|] l] eqn:Hi.
  - specialize (HQ []). replace (set_interrupts [] o) with o in HQ; [apply HQ; set_solver|].
    rewrite <- Hi. by destruct o.
  - apply HR; set_solver.
  - apply HQ. set_solver.
Qed.
