(* ===== verification/ChannelProps.v ===== *)
(** * ChannelProps: what the channel's operations do

    [heard] is what any operation may do to the error side of a channel and to
    the process: take error output, keep its head, close descriptors, reap.
    [quiet] is what draining and reaping do: nothing else. Both are preorders,
    so the steps of a loop compose. *)

From stdpp Require Import prelude functions.
From Stdlib Require Import Strings.Byte.
From S2P Require Import Prelude Words CString Stateful Pipe Setup Os Channel ChannelLogic.
Local Open Scope Z_scope.

(** The longest text the buffer keeps, its NUL aside. *)
Definition ERR_ROOM : nat := Z.to_nat (CHDB_HELPER_ERR_MAX - 1).

(** The error output still to come. *)
Definition unheard (c : channel) : bytes := content (o_in c.2 err).
(** The head of the error output. *)
Definition said (c : channel) : bytes := h_err_buf c.1.
Definition buffer_ok (c : channel) : Prop := (length (said c) <= ERR_ROOM)%nat.

Record heard (c c' : channel) : Prop := Heard {
  heard_text : exists got, unheard c = got ++ unheard c' /\
    (buffer_ok c -> said c' = take ERR_ROOM (said c ++ got));
  heard_end : h_fd c'.1 err = h_fd c.1 err \/ (h_fd c'.1 err = -1 /\ unheard c' = []);
  heard_fds s : h_fd c'.1 s = h_fd c.1 s \/ h_fd c'.1 s = -1;
  heard_pid : h_pid c'.1 = h_pid c.1;
  heard_query : h_query c'.1 = h_query c.1;
  heard_reaped : h_reaped c.1 = true ->
    h_reaped c'.1 = true /\ h_status c'.1 = h_status c.1 /\ h_wait_errno c'.1 = h_wait_errno c.1;
  heard_interrupts : o_interrupts c'.2 ⊆ o_interrupts c.2;
  heard_exit : o_exit c'.2 = o_exit c.2;
  heard_status : h_reaped c.1 = false -> h_reaped c'.1 = true ->
    h_status c'.1 = o_exit c.2 \/ h_status c'.1 = -1 /\ is_Some (h_wait_errno c'.1);
  heard_log : o_log c.2 `prefix_of` o_log c'.2;
}.

(** The fields of [heard] that a step does not bear on. *)
Ltac untouched :=
  try done; try (by cbn; apply prefix_app_r); try (by cbn; intros; congruence).

Record quiet (c c' : channel) : Prop := Quiet {
  quiet_heard : heard c c';
  quiet_fds s : s <> err -> h_fd c'.1 s = h_fd c.1 s;
  quiet_in s : s <> err -> o_in c'.2 s = o_in c.2 s;
  quiet_out : o_out c'.2 = o_out c.2;
  quiet_sent : o_sent c'.2 = o_sent c.2;
}.

Lemma take_take_app {A} n (x y : list A) : take n (take n x ++ y) = take n (x ++ y).
Proof. rewrite !take_app, take_take, Nat.min_id, length_take. do 2 f_equal. lia. Qed.

Lemma heard_buffer c c' : heard c c' -> buffer_ok c -> buffer_ok c'.
Proof.
  intros [(got & _ & Hs) _ _ _ _ _ _ _ _ _] Hb. unfold buffer_ok. rewrite Hs by done.
  rewrite length_take. lia.
Qed.

#[export] Instance heard_preorder : PreOrder heard.
Proof.
  split.
  - intros c. split; untouched; [|by left|by left].
    exists []. split; [done|]. unfold buffer_ok, said. intros Hb.
    by rewrite app_nil_r, take_ge.
  - intros c1 c2 c3 H12 H23. pose proof (heard_buffer _ _ H12) as Hb.
    destruct H12 as [(g1 & E1 & S1) F1 D1 P1 Q1 R1 I1 X1 T1 L1],
      H23 as [(g2 & E2 & S2) F2 D2 P2 Q2 R2 I2 X2 T2 L2]. split.
    + exists (g1 ++ g2). rewrite E1, E2, app_assoc. split; [done|]. intros Hc.
      rewrite S2, S1 by auto. rewrite app_assoc.
      apply take_take_app.
    + destruct F2 as [->|[-> ->]]; [|by right]. destruct F1 as [->|[-> E]]; [by left|].
      right. split; [done|]. rewrite E in E2. symmetry in E2. by apply app_eq_nil in E2 as [_ ->].
    + intros s. destruct (D2 s) as [->| ->]; [apply D1|by right].
    + congruence.
    + congruence.
    + intros Hr. destruct (R1 Hr) as (A & B & C). destruct (R2 A) as (? & ? & ?).
      split; [done|]. split; congruence.
    + set_solver.
    + congruence.
    + intros Hf Ht. destruct (h_reaped c2.1) eqn:Hr2.
      * destruct (R2 eq_refl) as (_ & -> & ->). by apply T1.
      * rewrite <- X1. by apply T2.
    + by etrans.
Qed.

#[export] Instance quiet_preorder : PreOrder quiet.
Proof.
  split.
  - intros c. by split.
  - intros c1 c2 c3 [H1 F1 I1 O1 S1] [H2 F2 I2 O2 S2]. split; [by etrans| | |congruence..].
    + intros s Hs. by rewrite F2, F1.
    + intros s Hs. by rewrite I2, I1.
Qed.

(** ** The steps *)

Lemma quiet_log ev c : quiet c (c.1, log ev c.2).
Proof.
  split; [split|..]; untouched; [|by left|by left].
  exists []. split; [done|]. intros Hb. unfold said. by rewrite app_nil_r, take_ge.
Qed.

Lemma quiet_interrupts l c :
  l ⊆ o_interrupts c.2 -> quiet c (c.1, set_interrupts l c.2).
Proof.
  split; [split|..]; untouched; [|by left|by left].
  exists []. split; [done|]. intros Hb. unfold said. by rewrite app_nil_r, take_ge.
Qed.

Lemma sys_read_wp s n h o Q R :
  0 < n -> 0 <= h_fd h s ->
  (forall r p, read_spec (o_in o s) n (r, p) -> Q r (h, set_in (<[s := p]> (o_in o)) o)) ->
  wpS (sys_read s n) Q R (h, o).
Proof.
  intros Hn Hfd HQ. unfold wpS, sys_read. destruct (Z.ltb_spec (h_fd h s) 0); [lia|].
  pose proof (read_fd_spec (o_in o s) n Hn) as Hspec.
  destruct (read_fd (o_in o s) n) as [r p]. by apply HQ.
Qed.

Lemma close_fd_wp s h o Q R :
  (h_fd h s < 0 -> Q tt (h, o)) ->
  (0 <= h_fd h s ->
   Q tt (set_fds (<[s := -1]> (h_fd h)) h, log (SysClose (h_fd h s)) o)) ->
  wpS (close_fd s) Q R (h, o).
Proof.
  intros H1 H2. unfold close_fd. do 2 h_step. cbn.
  destruct (Z.leb_spec 0 (h_fd h s)) as [Hfd|Hfd].
  - do 2 h_step. h_step. by apply H2.
  - h_step. by apply H1.
Qed.

(** Reading error output: the head stays in the buffer, the rest goes. *)
Lemma quiet_read h o b p buf :
  content (o_in o err) = b ++ content p ->
  buf = h_err_buf h \/ buf = h_err_buf h ++ b ->
  ((length (h_err_buf h) <= ERR_ROOM)%nat -> buf = take ERR_ROOM (h_err_buf h ++ b)) ->
  quiet (h, o) (set_err_buf buf h, set_in (<[err := p]> (o_in o)) o).
Proof.
  intros Hc _ Hb. split; [split| | | |]; untouched; cbn.
  - exists b. unfold unheard. cbn. by rewrite fn_lookup_insert.
  - by left.
  - by left.
  - intros s Hs. by rewrite fn_lookup_insert_ne.
Qed.

Lemma quiet_read_error h o p :
  content (o_in o err) = content p ->
  quiet (h, o) (h, set_in (<[err := p]> (o_in o)) o).
Proof.
  intros Hc. replace (h, set_in (<[err := p]> (o_in o)) o)
    with (set_err_buf (h_err_buf h) h, set_in (<[err := p]> (o_in o)) o) by by destruct h.
  apply (quiet_read h o []); [done|by left|]. intros Hb. by rewrite app_nil_r, take_ge.
Qed.

Lemma quiet_close_err h o :
  content (o_in o err) = [] ->
  quiet (h, o) (set_fds (<[err := -1]> (h_fd h)) h, log (SysClose (h_fd h err)) o).
Proof.
  intros Hc. split; [split| | | |]; untouched; cbn.
  - exists []. split; [done|]. intros Hb. unfold said. cbn. by rewrite app_nil_r, take_ge.
  - right. by rewrite fn_lookup_insert.
  - intros s. destruct (decide (s = err)) as [->|].
    + right. by rewrite fn_lookup_insert.
    + left. by rewrite fn_lookup_insert_ne.
  - intros s Hs. by rewrite fn_lookup_insert_ne.
Qed.

(** What one more read buys: the end, or fewer bytes to come. *)
Definition progress (c c' : channel) : Prop :=
  (h_fd c'.1 err < 0 /\ (pending err c' <= pending err c)%nat) \/
  (pending err c' < pending err c)%nat.

Lemma pending_set h h' o p s :
  (pipe_size p < pipe_size (o_in o s))%nat ->
  (pending s (h', set_in (<[s := p]> (o_in o)) o) < pending s (h, o))%nat.
Proof. unfold pending. cbn [snd o_in set_in]. by rewrite fn_lookup_insert. Qed.

(** The buffer keeps the head of what was said. *)
Lemma kept_head (h : chdbHelper) (b buf : bytes) :
  let room := CHDB_HELPER_ERR_MAX - 1 - zlen (h_err_buf h) in
  zlen b <= (if 0 <? room then room else CHDB_HELPER_ERR_MAX) ->
  (buf = h_err_buf h ++ b /\ 0 < room) \/ (buf = h_err_buf h /\ room <= 0) ->
  (length (h_err_buf h) <= ERR_ROOM)%nat -> buf = take ERR_ROOM (h_err_buf h ++ b).
Proof.
  intros room Hlen [[-> Hr]|[-> Hr]] Hl.
  - rewrite (proj2 (Z.ltb_lt 0 room) Hr) in Hlen. unfold room, CHDB_HELPER_ERR_MAX in *.
    rewrite take_ge; [done|]. rewrite length_app. unfold ERR_ROOM, CHDB_HELPER_ERR_MAX in *. lia.
  - unfold room, ERR_ROOM, CHDB_HELPER_ERR_MAX in *.
    rewrite take_app_le by lia. rewrite take_ge; [done|lia].
Qed.

Lemma drain_err_loop_wp fuel c R :
  (pending err c + 1 < fuel)%nat -> buffer_ok c ->
  wpS (drain_err_loop fuel)
    (fun _ c' => quiet c c' /\ h_reaped c'.1 = h_reaped c.1 /\
       (0 <= h_fd c.1 err -> progress c c')) R c.
Proof.
  revert c. induction fuel as [|fuel IH]; intros [h o] Hf Hb; [lia|]. cbn [drain_err_loop].
  do 2 h_step. cbn [fst]. destruct (Z.ltb_spec (h_fd h err) 0) as [Hfd|Hfd].
  { h_step. split; [reflexivity|]. split; [done|]. cbn. lia. }
  set (room := CHDB_HELPER_ERR_MAX - 1 - zlen (h_err_buf h)).
  h_step. apply sys_read_wp; [unfold CHDB_HELPER_ERR_MAX in *; destruct (Z.ltb_spec 0 room); lia|done|].
  unfold pending in Hf. cbn in Hf.
  assert (Hnext : forall c', quiet (h, o) c' -> h_reaped c'.1 = h_reaped h ->
    h_fd c'.1 = h_fd h -> (pending err c' < pending err (h, o))%nat ->
    wpS (drain_err_loop fuel)
      (fun _ c2 => quiet (h, o) c2 /\ h_reaped c2.1 = h_reaped h /\
         (0 <= h_fd h err -> progress (h, o) c2)) R c').
  { intros c' Hq Hr Hd Hp. unfold pending in *. cbn in Hp. eapply wpS_mono; [apply IH| |done].
    - unfold pending. lia.
    - by eapply heard_buffer, Hb; apply Hq.
    - intros _ c2 (Hq2 & Hr2 & Hp2). split; [by etrans|]. split; [congruence|]. intros _.
      rewrite Hd in Hp2. unfold progress, pending in *. cbn.
      destruct (Hp2 Hfd) as [[]|]; [left|right]; lia. }
  intros r p Hspec. inversion Hspec as [Hc He|b p' Hne Hlen Hc He Hp|e p' Hc He Hp]; subst.
  - (* end of file *)
    set (o1 := set_in _ o). assert (Hq1 : quiet (h, o) (h, o1)).
    { apply quiet_read_error. by rewrite Hc. }
    h_step. apply close_fd_wp; [cbn; lia|]. intros _.
    destruct fuel as [|fuel]; [lia|]. cbn [drain_err_loop]. do 2 h_step. cbn.
    rewrite fn_lookup_insert. cbn. split.
    + etrans; [exact Hq1|]. apply quiet_close_err. cbn. by rewrite fn_lookup_insert.
    + split; [done|]. intros _. left. unfold pending. cbn. rewrite !fn_lookup_insert. cbn. lia.
  - (* bytes *)
    pose proof (fun buf => kept_head h b buf Hlen) as Hbuf. cbv zeta in Hbuf. fold room in Hbuf.
    h_step. destruct (Z.ltb_spec 0 room) as [Hr|Hr]; h_step; cbn;
      (apply Hnext; [|done|done|by apply pending_set]).
    + apply (quiet_read h o b p); auto.
    + replace h with (set_err_buf (h_err_buf h) h) at 2 by by destruct h.
      apply (quiet_read h o b p); auto.
  - (* a failed read *)
    assert (Hq : quiet (h, o) (h, set_in (<[err := p]> (o_in o)) o)) by by apply quiet_read_error.
    assert (Hp' : (pending err (h, set_in (<[err := p]> (o_in o)) o) < pending err (h, o))%nat)
      by by apply pending_set.
    destruct e; [by apply Hnext|..]; h_step; (split; [done|split; [done|]]); intros _; by right.
Qed.

Lemma drain_err_wp c R :
  buffer_ok c ->
  wpS drain_err (fun _ c' => quiet c c' /\ h_reaped c'.1 = h_reaped c.1 /\ (0 <= h_fd c.1 err -> progress c c')) R c.
Proof. intros Hb. apply drain_err_loop_wp; [lia|done]. Qed.

Lemma reap_wp c R :
  wpS reap (fun st c' => quiet c c' /\ h_reaped c'.1 = true /\ st = h_status c'.1 /\
    (h_fd c'.1 = h_fd c.1) /\
    (h_reaped c.1 = false -> st = o_exit c.2 \/ st = -1 /\ is_Some (h_wait_errno c'.1))) R c.
Proof.
  destruct c as [h o]. unfold wpS, reap. destruct (h_reaped h) eqn:Hr.
  { split; [reflexivity|]. cbn. by rewrite Hr. }
  destruct (waitpid_loop (o_waits o)) as [failed waits].
  split; [|cbn; split; [done|]; split; [done|]; split; [done|]; intros _; destruct failed;
    [right; eauto|by left]].
  split; [split|..]; try done; cbn; [|by left|by left|congruence|intros; destruct failed; eauto|by apply prefix_app_r].
  exists []. split; [done|]. intros Hb. unfold said. cbn. by rewrite app_nil_r, take_ge.
Qed.

(** The error output was taken to its end and the process reaped, with [st]. *)
Record collected (c : channel) (st : Z) (c' : channel) : Prop := Collected {
  collected_quiet : quiet c c';
  collected_reaped : h_reaped c'.1 = true;
  collected_status : st = h_status c'.1;
  collected_end : h_fd c'.1 err < 0;
  collected_exit : h_reaped c.1 = false ->
    st = o_exit c.2 \/ st = -1 /\ is_Some (h_wait_errno c'.1);
}.

(** An interrupt that was pending, and nothing but draining before it. *)
Definition cancelled (c : channel) (e : error) (c' : channel) : Prop :=
  interrupted c e /\ quiet c c'.

Lemma collected_trans c1 c2 st c3 :
  quiet c1 c2 -> h_reaped c2.1 = h_reaped c1.1 -> collected c2 st c3 -> collected c1 st c3.
Proof.
  intros Hq Hr [Hq2 Hr2 Hs He Hx]. split; [by etrans|done..|].
  intros Hf. rewrite <- (heard_exit _ _ (quiet_heard _ _ Hq)). apply Hx. congruence.
Qed.

Lemma cancelled_trans c1 c2 e c3 : quiet c1 c2 -> cancelled c2 e c3 -> cancelled c1 e c3.
Proof.
  intros Hq [Hi Hq2]. split; [|by etrans]. unfold interrupted in *.
  apply (heard_interrupts _ _ (quiet_heard _ _ Hq)), Hi.
Qed.

Lemma check_wp c Q R :
  (forall c', quiet c c' -> c'.1 = c.1 -> o_in c'.2 = o_in c.2 -> Q tt c') ->
  (forall e c', cancelled c e c' -> c'.1 = c.1 -> R e c') ->
  wpS CHECK_FOR_INTERRUPTS Q R c.
Proof.
  intros HQ HR. destruct c as [h o]. apply CHECK_FOR_INTERRUPTS_wp.
  - intros l Hl. apply HQ; [|done..]. by apply (quiet_interrupts l (h, o)).
  - intros l e Hl He. apply HR; [|done]. split; [done|]. by apply (quiet_interrupts l (h, o)).
Qed.

Lemma wait_fd_wp s c Q R : (forall c', quiet c c' -> c'.1 = c.1 -> o_in c'.2 = o_in c.2 ->
  o_out c'.2 = o_out c.2 -> Q tt c') -> wpS (wait_fd s) Q R c.
Proof. intros HQ. unfold wait_fd. h_step. apply HQ; [apply quiet_log|done..]. Qed.

Lemma drain_and_reap_loop_wp fuel c :
  (pending err c + (if (0 <=? h_fd c.1 err)%Z then 1 else 0) < fuel)%nat -> buffer_ok c ->
  wpS (drain_and_reap_loop fuel) (collected c) (cancelled c) c.
Proof.
  revert c. induction fuel as [|fuel IH]; intros c Hf Hb; [lia|]. cbn [drain_and_reap_loop].
  do 2 h_step. destruct (Z.ltb_spec (h_fd c.1 err) 0) as [Hfd|Hfd].
  { eapply wpS_mono; [apply reap_wp| |done]. intros st c' (Hq & Hr & Hs & Hfds & Hx).
    split; try done. by rewrite Hfds. }
  destruct (Z.leb_spec 0 (h_fd c.1 err)); [|lia].
  h_step. apply check_wp; [|done]. intros c1 Hq1 Hh1 Hin1.
  h_step. eapply wpS_mono; [apply drain_err_wp, (heard_buffer _ _ (quiet_heard _ _ Hq1) Hb)| |done].
  intros [] c2 (Hq2 & Hr2 & Hp). do 2 h_step. h_step.
  assert (Hq : quiet c c2) by by etrans.
  assert (Hnext : forall c3, quiet c c3 -> c3.1 = c2.1 -> o_in c3.2 = o_in c2.2 ->
    wpS (drain_and_reap_loop fuel) (collected c) (cancelled c) c3).
  { intros c3 Hq3 Hh3 Hin3. eapply wpS_mono; [apply IH| |].
    - rewrite Hh1 in Hp. unfold progress, pending in *. rewrite Hh3, Hin3.
      rewrite Hin1 in Hp. destruct (Z.leb_spec 0 (h_fd c2.1 err)), (Hp Hfd) as [[]|]; lia.
    - by eapply heard_buffer, Hb; apply Hq3.
    - intros st c4. apply collected_trans; [done|congruence].
    - intros e c4. by apply cancelled_trans. }
  destruct (0 <=? h_fd c2.1 err).
  - apply wait_fd_wp. intros c3 Hq3 Hh3 Hin3 _. apply Hnext; [by etrans|done|done].
  - h_step. by apply Hnext.
Qed.

Lemma drain_and_reap_wp c :
  buffer_ok c -> wpS drain_and_reap (collected c) (cancelled c) c.
Proof. intros Hb. apply drain_and_reap_loop_wp; [destruct (0 <=? _); lia|done]. Qed.

(** The buffer holds the head of everything the process wrote. *)
Lemma collected_text c st c' :
  collected c st c' -> buffer_ok c -> 0 <= h_fd c.1 err ->
  said c' = take ERR_ROOM (said c ++ unheard c).
Proof.
  intros [[[(got & Hg & Hs) [He|[_ He]] _ _ _ _ _ _ _] _ _ _ _] _ _ Hend _] Hb Hfd; [lia|].
  rewrite Hs by done. by rewrite Hg, He, app_nil_r.
Qed.

Section reports.
Context (utf8_cliplen : bytes -> nat) (strerror : errno -> bytes).
Local Abbreviation helper_error := (helper_error utf8_cliplen).
Local Abbreviation report_helper := (report_helper utf8_cliplen strerror).

(** The text of a report, from the buffer. *)
Definition helper_text (buf : bytes) : option bytes :=
  let buf := strip_newlines buf in
  let buf := take (utf8_cliplen buf) buf in
  if decide (buf = []) then None
  else Some (cut_out (b8 " (version ") x29 (cut_out (b8 "Request ID:") NEWLINE (cstr buf))).

Lemma helper_error_wp c Q R :
  (forall buf, Q (helper_text (said c)) (set_err_buf buf c.1, c.2)) ->
  wpS helper_error Q R c.
Proof.
  intros HQ. unfold Channel.helper_error, helper_text, said in *. do 2 h_step. cbv zeta. do 2 h_step.
  case_decide; [h_step; apply HQ|]. cbv zeta. do 2 h_step. h_step. apply HQ.
Qed.

(** The report of a helper that ended, with everything it said. *)
Definition reported (c : channel) (what : bytes) (e : error) : Prop :=
  exists st c', collected c st c' /\
    e = helper_report strerror c'.1 (helper_text (said c')) what.

(** [report_helper] never returns: it raises the report, unless cancelled. *)
Lemma report_helper_wp {A} what c (Q : A -> channel -> Prop) (R : error -> channel -> Prop) :
  buffer_ok c ->
  (forall e c', cancelled c e c' \/ reported c what e -> o_sent c'.2 = o_sent c.2 -> R e c') ->
  wpS (report_helper what) Q R c.
Proof.
  intros Hb HR. unfold Channel.report_helper. h_step.
  eapply wpS_mono; [by apply drain_and_reap_wp| |].
  2: { intros e c' [Hi Hq]. apply HR; [by left|apply Hq]. }
  intros st c1 Hc. h_step. apply helper_error_wp. intros buf. do 2 h_step. h_step.
  apply HR; [right|by apply (quiet_sent _ _ (collected_quiet _ _ _ Hc))].
  exists st, c1. split; [done|]. cbn. by destruct c1 as [[] ?].
Qed.

(** ** Writing *)

(** [c'] is [c] with [sent] more delivered on [s], and error output heard. *)
Record delivered (s : slot) (sent : bytes) (c c' : channel) : Prop := Delivered {
  delivered_heard : heard c c';
  delivered_fds s' : s' <> err -> h_fd c'.1 s' = h_fd c.1 s';
  delivered_reaped : h_reaped c'.1 = h_reaped c.1;
  delivered_in s' : s' <> err -> o_in c'.2 s' = o_in c.2 s';
  delivered_sent : o_sent c'.2 s = o_sent c.2 s ++ sent;
  delivered_only s' : s' <> s -> o_sent c'.2 s' = o_sent c.2 s';
}.

Lemma delivered_quiet s c c' :
  quiet c c' -> h_reaped c'.1 = h_reaped c.1 -> delivered s [] c c'.
Proof.
  intros [? ? ? ? Hs] ?. split; try done.
  - by rewrite Hs, app_nil_r.
  - intros. by rewrite Hs.
Qed.

Lemma delivered_trans s a b c1 c2 c3 :
  delivered s a c1 c2 -> delivered s b c2 c3 -> delivered s (a ++ b) c1 c3.
Proof.
  intros [H1 F1 R1 I1 S1 O1] [H2 F2 R2 I2 S2 O2]. split.
  - by etrans.
  - intros s' ?. by rewrite F2, F1.
  - congruence.
  - intros s' ?. by rewrite I2, I1.
  - by rewrite S2, S1, app_assoc.
  - intros s' ?. by rewrite O2, O1.
Qed.

(** The failures a write goes on after. *)
Definition transient (e : errno) : bool := bool_decide (e ∈ [EINTR; EAGAIN; EWOULDBLOCK]).

Definition write_result (s : slot) (p : bytes) (c : channel) (r : option errno)
    (c' : channel) : Prop :=
  match r with
  | None => delivered s p c c'
  | Some e => transient e = false /\ exists a b, p = a ++ b /\ delivered s a c c'
  end.

(** The steps of the loop: an outcome of the rest is an outcome of the whole. *)
Lemma write_result_after s a p c c1 r c' :
  delivered s a c c1 -> write_result s p c1 r c' -> write_result s (a ++ p) c r c'.
Proof.
  intros H1. destruct r as [e|]; cbn.
  - intros (He & x & y & -> & H2). split; [done|]. exists (a ++ x), y.
    rewrite app_assoc. split; [done|]. by eapply delivered_trans.
  - intros H2. by eapply delivered_trans.
Qed.

(** Cancelled, with some of [p] delivered. *)
Definition write_cancelled (s : slot) (p : bytes) (c : channel) (e : error) (c' : channel) : Prop :=
  interrupted c e /\ exists a b, p = a ++ b /\ delivered s a c c'.

Lemma write_cancelled_after s a p c c1 e c' :
  delivered s a c c1 -> write_cancelled s p c1 e c' -> write_cancelled s (a ++ p) c e c'.
Proof.
  intros H1 [Hi (x & y & -> & H2)]. split.
  - unfold interrupted in *. apply (heard_interrupts _ _ (delivered_heard _ _ _ _ H1)), Hi.
  - exists (a ++ x), y. rewrite app_assoc. split; [done|]. by eapply delivered_trans.
Qed.

Lemma sys_write_wp s p c Q R :
  (0 < length p)%nat ->
  (forall n c', (0 < n <= length p)%nat -> delivered s (take n p) c c' -> c'.1 = c.1 ->
     (length (o_out c'.2 s) <= length (o_out c.2 s))%nat -> Q (inr n) c') ->
  (forall e c', delivered s [] c c' -> c'.1 = c.1 ->
     (length (o_out c'.2 s) < length (o_out c.2 s))%nat \/ transient e = false -> Q (inl e) c') ->
  wpS (sys_write s p) Q R c.
Proof.
  intros Hp Hn He. destruct c as [h o]. unfold wpS, sys_write.
  assert (Hheard : forall out sent, heard (h, o) (h, set_out out sent o)).
  { intros out sent. split; untouched; [|by left|by left].
    exists []. split; [done|]. intros Hb. unfold said. cbn. by rewrite app_nil_r, take_ge. }
  destruct (Z.ltb_spec (h_fd h s) 0).
  { apply He; [|done|by right]. apply delivered_quiet; reflexivity. }
  destruct (write_fd_spec (o_out o s) p Hp) as [n l Hlen Hl _|e l Hl _ _].
  - apply Hn; [lia| |done|cbn; rewrite fn_lookup_insert; lia].
    split; try done; cbn; [by rewrite fn_lookup_insert|].
    intros s' ?. by rewrite fn_lookup_insert_ne.
  - apply He; [|done|left; cbn; rewrite fn_lookup_insert; lia].
    split; try done; cbn; [by rewrite fn_lookup_insert|].
    intros s' ?. by rewrite fn_lookup_insert_ne.
Qed.

(** A call that would block: what the helper said is taken, and the call is made
    again once the descriptor is ready. *)
Lemma drain_wait_wp {A} s (again : H A) Q R c :
  buffer_ok c ->
  (forall c', quiet c c' -> h_reaped c'.1 = h_reaped c.1 -> wpS again Q R c') ->
  wpS (drain_err ;; wait_fd s ;; again) Q R c.
Proof.
  intros Hb Hagain. h_step. eapply wpS_mono; [by apply drain_err_wp| |done].
  intros [] c1 (Hq1 & Hr1 & _). h_step. apply wait_fd_wp. intros c2 Hq2 Hh2 _ _.
  apply Hagain; [by etrans|]. by rewrite Hh2.
Qed.

Lemma write_all_loop_wp fuel s p c :
  (length p + length (o_out c.2 s) < fuel)%nat -> buffer_ok c ->
  wpS (write_all_loop fuel s p) (write_result s p c) (write_cancelled s p c) c.
Proof.
  revert p c. induction fuel as [|fuel IH]; intros p c Hf Hb; [lia|].
  cbn [write_all_loop]. destruct p as [|x p].
  { h_step. apply delivered_quiet; reflexivity. }
  remember (x :: p) as xp eqn:Hxp. assert (Hlen : (0 < length xp)%nat) by (subst; cbn; lia).
  clear x p Hxp.
  h_step. apply check_wp.
  2: { intros e c' [Hi Hq] Hh. split; [done|]. exists [], xp. split; [done|].
       apply delivered_quiet; [done|by rewrite Hh]. }
  intros c1 Hq1 Hh1 _.
  assert (H1 : delivered s [] c c1) by (apply delivered_quiet; [done|by rewrite Hh1]).
  assert (Hrest : forall a q c2, xp = a ++ q -> delivered s a c c2 ->
    (length q + length (o_out c2.2 s) < fuel)%nat ->
    wpS (write_all_loop fuel s q) (write_result s xp c) (write_cancelled s xp c) c2).
  { intros a q c2 -> H2 Hm. eapply wpS_mono; [apply IH; [done|]| |].
    - by eapply heard_buffer, Hb; apply H2.
    - intros r c3. by apply write_result_after.
    - intros e c3. by apply write_cancelled_after. }
  rewrite <- (quiet_out _ _ Hq1) in Hf.
  h_step. apply sys_write_wp; [done| |].
  - intros n c2 Hn H2 _ Ho. apply (Hrest (take n xp)).
    + by rewrite take_drop.
    + by apply (delivered_trans _ [] _ _ _ _ H1).
    + rewrite length_drop. lia.
  - intros e c2 H2 Hh2 Ho.
    assert (H3 : delivered s [] c c2) by by apply (delivered_trans _ [] [] _ _ _ H1).
    assert (Hagain : (length (o_out c2.2 s) < length (o_out c1.2 s))%nat ->
      wpS (drain_err ;; wait_fd s ;; write_all_loop fuel s xp)
        (write_result s xp c) (write_cancelled s xp c) c2).
    { intros Hlt. apply drain_wait_wp; [by eapply heard_buffer, Hb; apply H3|].
      intros c3 Hq3 Hr3. apply (Hrest [] xp); [done| |].
      - by apply (delivered_trans _ [] [] _ _ _ H3), delivered_quiet.
      - rewrite (quiet_out _ _ Hq3). lia. }
    assert (Hstop : transient e = false ->
      wpS (mret (Some e)) (write_result s xp c) (write_cancelled s xp c) c2).
    { intros Ht. h_step. split; [done|]. by exists [], xp. }
    destruct e; try (apply Hstop; reflexivity).
    + destruct Ho as [Ho|Ho]; [|done]. apply (Hrest [] xp); [done|done|lia].
    + destruct Ho as [Ho|Ho]; [|done]. by apply Hagain.
    + destruct Ho as [Ho|Ho]; [|done]. by apply Hagain.
Qed.

Lemma write_all_wp s p c :
  buffer_ok c -> wpS (write_all s p) (write_result s p c) (write_cancelled s p c) c.
Proof. intros Hb. apply write_all_loop_wp; [lia|done]. Qed.

(** ** Receiving *)

(** How an operation may fail: cancelled, or with the report of a helper whose
    error output was taken to its end. *)
Definition failed (c : channel) (e : error) (c' : channel) : Prop :=
  interrupted c e \/ exists c1 what, heard c c1 /\ reported c1 what e.

Lemma failed_after c c1 e c' : heard c c1 -> failed c1 e c' -> failed c e c'.
Proof.
  intros Hh [Hi|(c2 & what & H2 & Hr)].
  - left. unfold interrupted in *. by apply (heard_interrupts _ _ Hh).
  - right. exists c2, what. split; [by etrans|done].
Qed.

Lemma report_failed {A} what c (Q : A -> channel -> Prop) :
  buffer_ok c -> wpS (report_helper what) Q (failed c) c.
Proof.
  intros Hb. apply report_helper_wp; [done|]. intros e c' [[Hi _]|Hr]; [by left|right].
  exists c, what. split; [reflexivity|done].
Qed.

(** [b] came in on the data channel. *)
Record received (b : bytes) (c c' : channel) : Prop := Received {
  received_heard : heard c c';
  received_data : content (o_in c.2 data) = b ++ content (o_in c'.2 data);
  received_fds s : s <> err -> s <> data -> h_fd c'.1 s = h_fd c.1 s;
  received_sent : o_sent c'.2 = o_sent c.2;
}.

Lemma received_quiet c c' : quiet c c' -> received [] c c'.
Proof. intros [? F I O S]. split; [done| | |done]; intros; by rewrite ?I, ?F by done. Qed.

Lemma received_trans a b c1 c2 c3 :
  received a c1 c2 -> received b c2 c3 -> received (a ++ b) c1 c3.
Proof.
  intros [H1 D1 F1 S1] [H2 D2 F2 S2]. split.
  - by etrans.
  - by rewrite D1, D2, app_assoc.
  - intros s ? ?. by rewrite F2, F1.
  - congruence.
Qed.

(** Closing the data channel, in itself. *)
Lemma close_data_wp c Q R :
  (forall c', received [] c c' -> h_fd c'.1 data < 0 -> h_reaped c'.1 = h_reaped c.1 ->
     h_fd c'.1 err = h_fd c.1 err -> Q tt c') ->
  wpS (close_fd data) Q R c.
Proof.
  intros HQ. destruct c as [h o]. apply close_fd_wp.
  - intros Hfd. apply HQ; [|done|done|done]. apply received_quiet. reflexivity.
  - intros Hfd. apply HQ; cbn; [|by rewrite fn_lookup_insert; lia|done|by rewrite fn_lookup_insert_ne].
    split; [split| | |]; untouched; cbn.
    + exists []. split; [done|]. intros Hb. unfold said. cbn. by rewrite app_nil_r, take_ge.
    + left. by rewrite fn_lookup_insert_ne.
    + intros s. destruct (decide (s = data)) as [->|].
      * right. by rewrite fn_lookup_insert.
      * left. by rewrite fn_lookup_insert_ne.
    + intros s ? ?. by rewrite fn_lookup_insert_ne.
Qed.

(** The helper exited cleanly and said all it had to say. *)
Record finished (c c' : channel) : Prop := Finished {
  finished_received : received [] c c';
  finished_status : h_reaped c'.1 = true /\ h_status c'.1 = 0;
  finished_closed : h_fd c'.1 data < 0 /\ h_fd c'.1 err < 0;
  finished_exit : h_reaped c.1 = false -> o_exit c.2 = 0;
}.

(** Closing the channel and waiting for the process, as
    [chdb_helper_finish] and the end of a stream do. *)
Lemma close_and_reap_wp {A} (k : Z -> H A) c Q :
  buffer_ok c ->
  (forall c', finished c c' -> wpS (k 0) Q (failed c) c') ->
  (forall st c', st <> 0 -> heard c c' -> wpS (k st) Q (failed c) c') ->
  wpS (close_fd data ;; status ← drain_and_reap; k status) Q (failed c) c.
Proof.
  intros Hb H0 Hk. h_step. apply close_data_wp. intros c1 H1 Hd1 Hr1 He1. h_step.
  assert (Hb1 : buffer_ok c1) by (by eapply heard_buffer, Hb; apply H1).
  eapply wpS_mono; [by apply drain_and_reap_wp| |].
  2: { intros e c2 [Hi _]. eapply failed_after; [apply H1|by left]. }
  intros st c2 Hc. destruct (Z.eqb_spec st 0) as [->|Hst].
  - apply H0. destruct Hc as [Hq Hr Hs He Hx]. split.
    + eapply (received_trans []); [exact H1|by apply received_quiet].
    + by rewrite <- Hs.
    + split; [|done]. by rewrite (quiet_fds _ _ Hq).
    + intros Hf. rewrite <- (heard_exit _ _ (received_heard _ _ _ H1)).
      destruct Hx as [ |[ ]]; [congruence|done|done].
  - apply Hk; [done|]. etrans; [apply H1|apply Hc].
Qed.

(** [report_helper] after whatever was heard. *)
Lemma report_after {A} what c c' (Q : A -> channel -> Prop) :
  buffer_ok c -> heard c c' -> wpS (report_helper what) Q (failed c) c'.
Proof.
  intros Hb Hh. eapply wpS_mono; [apply (report_failed _ _ (fun _ _ => False))|done|].
  - by eapply heard_buffer, Hb.
  - intros e c2. by apply failed_after.
Qed.

(** What a failure reports, in terms of the channel at the start: the head of
    everything the process wrote to its error output, and how it ended. *)
Definition failure_report (c : channel) (e : error) : Prop :=
  exists h what,
    h_pid h = h_pid c.1 /\ h_query h = h_query c.1 /\
    (h_reaped c.1 = false ->
     h_status h = o_exit c.2 \/ h_status h = -1 /\ is_Some (h_wait_errno h)) /\
    e = helper_report strerror h (helper_text (take ERR_ROOM (said c ++ unheard c))) what.

(** The error output can be heard to its end, or was. *)
Definition audible (c : channel) : Prop := 0 <= h_fd c.1 err \/ unheard c = [].

Lemma failed_report c e c' :
  buffer_ok c -> audible c -> failed c e c' -> interrupted c e \/ failure_report c e.
Proof.
  intros Hb Hfd [Hi|(c1 & what & H1 & st & c2 & H2 & ->)]; [by left|right].
  assert (Hh : heard c c2) by (etrans; [exact H1|apply H2]).
  exists c2.1, what. split_and!.
  - apply Hh.
  - apply Hh.
  - intros Hr. apply (heard_status _ _ Hh Hr), (collected_reaped _ _ _ H2).
  - destruct Hh as [(got & Hg & Hs) He _ _ _ _ _ _ _]. rewrite Hs by done. do 4 f_equal.
    assert (unheard c2 = []) as Hu.
    { destruct He as [He|[_ He]]; [|done]. pose proof (collected_end _ _ _ H2).
      destruct Hfd as [|Hn]; [lia|]. rewrite Hn in Hg. symmetry in Hg.
      by apply app_eq_nil in Hg as [_ ->]. }
    by rewrite Hg, Hu, app_nil_r.
Qed.
End reports.
