(* ===== verification/ChannelTheorems.v ===== *)
(** * ChannelTheorems: the properties of the channel *)

From stdpp Require Import prelude functions.
From Stdlib Require Import Strings.Byte.
From S2P Require Import Prelude Words CString Stateful Pipe Setup Os Channel ChannelLogic ChannelProps.
Local Open Scope Z_scope.

Section channel.
Context (utf8_cliplen : bytes -> nat) (strerror : errno -> bytes).
Local Abbreviation chdb_helper_recv := (chdb_helper_recv utf8_cliplen strerror).
Local Abbreviation chdb_helper_write := (chdb_helper_write utf8_cliplen strerror).
Local Abbreviation chdb_helper_finish := (chdb_helper_finish utf8_cliplen strerror).
Local Abbreviation recv_loop := (recv_loop utf8_cliplen strerror).
Local Abbreviation failed := (failed utf8_cliplen strerror).
Local Abbreviation reported := (reported utf8_cliplen strerror).

(** ** Receiving *)

(** What one receive gives: the next bytes of the stream, or its end. *)
Definition recv_result (len : Z) (c : channel) (b : bytes) (c' : channel) : Prop :=
  (b <> [] /\ zlen b <= len /\ received b c c' /\ h_reaped c'.1 = h_reaped c.1 /\
   (pending data c' < pending data c)%nat) \/
  (b = [] /\ content (o_in c.2 data) = [] /\ finished c c').

Lemma pending_quiet c c' s : s <> err -> quiet c c' -> pending s c' = pending s c.
Proof. intros Hs Hq. unfold pending. by rewrite (quiet_in _ _ Hq). Qed.

Lemma finished_after c c1 c2 :
  received [] c c1 -> h_reaped c1.1 = h_reaped c.1 -> finished c1 c2 -> finished c c2.
Proof.
  intros H1 Hr [H2 Hs Hc Hx]. split; [by apply (received_trans [] []) with c1|done|done|].
  intros Hf. rewrite <- (heard_exit _ _ (received_heard _ _ _ H1)). apply Hx. congruence.
Qed.

Lemma recv_result_after len c c1 b c2 :
  received [] c c1 -> h_reaped c1.1 = h_reaped c.1 -> (pending data c1 <= pending data c)%nat ->
  recv_result len c1 b c2 -> recv_result len c b c2.
Proof.
  intros H1 Hr Hp [(Hne & Hl & H2 & Hr2 & Hlt)|(-> & Hd & Hf)].
  - left. split_and!; [done|done| |congruence|lia]. by apply (received_trans []) with c1.
  - right. split; [done|]. split; [by rewrite (received_data _ _ _ H1), Hd|].
    by apply finished_after with c1.
Qed.

(** A failed read, or one that found the end, changes only what is left. *)
Lemma received_read h o p b :
  content (o_in o data) = b ++ content p ->
  received b (h, o) (h, set_in (<[data := p]> (o_in o)) o).
Proof.
  intros Hc. split; [split| | |]; untouched; cbn; try (by left); try (by rewrite fn_lookup_insert).
  exists []. unfold unheard, said. cbn. rewrite fn_lookup_insert_ne by done. split; [done|].
  intros Hb. by rewrite app_nil_r, take_ge.
Qed.

(** The end of the stream: the helper is waited for. *)
Lemma recv_end_wp len c c1 :
  received [] c c1 -> h_reaped c1.1 = h_reaped c.1 -> content (o_in c.2 data) = [] -> buffer_ok c ->
  wpS (close_fd data ;; status ← drain_and_reap;
       (if status =? 0 then mret tt
        else report_helper utf8_cliplen strerror (b8 "error executing chDB query")) ;; mret [])
    (recv_result len c) (failed c) c1.
Proof.
  intros H1 Hr1 Hd Hb. assert (Hb1 : buffer_ok c1) by (by eapply heard_buffer, Hb; apply H1).
  eapply wpS_mono; [apply (close_and_reap_wp utf8_cliplen strerror (fun st => (if st =? 0 then mret tt else
      report_helper utf8_cliplen strerror (b8 "error executing chDB query")) ;; mret [])
      _ (fun b c2 => b = [] /\ finished c1 c2))| |]; [done| | | |].
  - intros c2 Hfin. h_step. cbn [Z.eqb]. h_step. by h_step.
  - intros st c2 Hst Hh. h_step. rewrite (proj2 (Z.eqb_neq _ _) Hst). by apply report_after.
  - intros a c2 [-> Hfin]. right. split; [done|]. split; [done|]. by eapply finished_after.
  - intros e c2. apply failed_after, H1.
Qed.

(** A read that cannot go on. *)
Lemma recv_report_wp len c c1 :
  received [] c c1 -> buffer_ok c ->
  wpS (report_helper utf8_cliplen strerror (b8 "error fetching chDB query result"))
    (recv_result len c) (failed c) c1.
Proof.
  intros H1 Hb. eapply wpS_mono; [apply (report_failed utf8_cliplen strerror _ _ (fun _ _ => False))|done|].
  - by eapply heard_buffer, Hb; apply H1.
  - intros e c2. apply failed_after, H1.
Qed.

Lemma recv_loop_wp fuel len c :
  0 < len -> (pending data c + 1 < fuel)%nat -> buffer_ok c ->
  wpS (recv_loop fuel len) (recv_result len c) (failed c) c.
Proof.
  intros Hlen. revert c. induction fuel as [|fuel IH]; intros c Hf Hb; [lia|].
  cbn [Channel.recv_loop]. h_step. apply check_wp.
  2: { intros e c' [Hi _] _. by left. }
  intros c1 Hq1 Hh1 Hin1.
  assert (H1 : received [] c c1) by by apply received_quiet.
  assert (Hb1 : buffer_ok c1) by (by eapply heard_buffer, Hb; apply H1).
  assert (Hrest : forall c2, received [] c c2 -> h_reaped c2.1 = h_reaped c.1 ->
    (pending data c2 < pending data c)%nat ->
    wpS (recv_loop fuel len) (recv_result len c) (failed c) c2).
  { intros c2 H2 Hr2 Hp2. eapply wpS_mono; [apply IH| |].
    - lia.
    - by eapply heard_buffer, Hb; apply H2.
    - intros b c3. apply recv_result_after; [done|done|lia].
    - intros e c3. apply failed_after, H2. }
  destruct c1 as [h o]. cbn in Hh1, Hin1.
  destruct (Z.ltb_spec (h_fd h data) 0) as [Hfd|Hfd].
  { h_step. unfold wpS, sys_read. rewrite (proj2 (Z.ltb_lt _ _) Hfd). cbn. by apply recv_report_wp. }
  assert (Hpc : pending data c = pipe_size (o_in o data)) by (unfold pending; by rewrite Hin1).
  assert (Hread : forall b p, content (o_in o data) = b ++ content p ->
    received b c (h, set_in (<[data := p]> (o_in o)) o)).
  { intros b p Hc. apply (received_trans [] b _ _ _ H1), received_read, Hc. }
  assert (Hpp : forall p, pending data (h, set_in (<[data := p]> (o_in o)) o) = pipe_size p)
    by (intros; unfold pending; cbn; by rewrite fn_lookup_insert).
  assert (Hh : h_reaped h = h_reaped c.1) by by rewrite Hh1.
  h_step. apply sys_read_wp; [done|done|]. intros r p Hspec.
  inversion_clear Hspec as [Hc He|b p' Hne Hl Hc He Hp|e p' Hc He Hp].
  - apply recv_end_wp; [apply (Hread [] []); by rewrite Hc|done|by rewrite <- Hin1|done].
  - h_step. left. split_and!; [done|done|by apply Hread|done|]. by rewrite Hpp, Hpc.
  - assert (H2 := Hread [] p Hc). specialize (Hpp p).
    destruct e; try (by apply recv_report_wp); [apply Hrest; [done|done|lia]|..];
      (apply drain_wait_wp; [by eapply heard_buffer, Hb; apply H2|]; intros c3 Hq3 Hr3; apply Hrest;
       [by apply (received_trans [] [] _ _ _ H2), received_quiet|by rewrite Hr3|
        rewrite (pending_quiet _ _ data ltac:(done) Hq3); lia]).
Qed.

Lemma recv_wp len c :
  0 < len -> buffer_ok c -> wpS (chdb_helper_recv len) (recv_result len c) (failed c) c.
Proof. intros Hl Hb. apply recv_loop_wp; [done|lia|done]. Qed.

(** A consumer that receives until the end. *)
Fixpoint recv_stream (fuel : nat) (len : Z) : H (list bytes) :=
  match fuel with
  | O => liftH UB
  | S fuel =>
      b ← chdb_helper_recv len;
      if decide (b = []) then mret [] else bs ← recv_stream fuel len; mret (b :: bs)
  end.

(** A channel whose process can still be heard, as [chdb_helper_start] leaves it. *)
Record running (c : channel) : Prop := Running {
  running_buffer : buffer_ok c;
  running_err : audible c;
  running_reaped : h_reaped c.1 = false;
}.

Lemma recv_stream_wp fuel len c :
  0 < len -> (pending data c < fuel)%nat -> buffer_ok c ->
  wpS (recv_stream fuel len)
    (fun bs c' => concat bs = content (o_in c.2 data) /\
       Forall (fun b => b <> [] /\ zlen b <= len) bs /\
       (h_reaped c.1 = false -> o_exit c.2 = 0) /\
       h_reaped c'.1 = true /\ h_fd c'.1 data < 0)
    (failed c) c.
Proof.
  intros Hlen. revert c. induction fuel as [|fuel IH]; intros c Hf Hb; [lia|].
  cbn [recv_stream]. h_step. eapply wpS_mono; [by apply recv_wp| |done].
  intros b c1 [(Hne & Hl & H1 & Hr1 & Hp1)|(-> & Hd & [_ [Hr _] [Hdc _] Hx])].
  - rewrite decide_False by done. h_step. eapply wpS_mono; [apply IH| |].
    + lia.
    + by eapply heard_buffer, Hb; apply H1.
    + intros bs c2 (Hbs & Hall & Hx & Hfin). h_step.
      rewrite (received_data _ _ _ H1), <- Hbs. split; [done|]. split; [by constructor|].
      split; [|done]. rewrite <- Hr1, <- (heard_exit _ _ (received_heard _ _ _ H1)). done.
    + intros e c2. apply failed_after, H1.
  - rewrite decide_True by done. h_step. by rewrite Hd.
Qed.

(** C7. Receiving until the end gives exactly the bytes the helper wrote to
    its channel, in order and in pieces no larger than asked for, and the end
    only comes when the helper exited with status 0. In every other case an
    error is raised: a pending interrupt, or a report that carries the head of
    all the helper wrote to its error output. No call of a running helper loops
    forever or is undefined, whatever pieces and failures reads come in. *)
Theorem recv_stream_spec len c :
  0 < len -> running c ->
  wpS (recv_stream (S (pending data c)) len)
    (fun bs c' => concat bs = content (o_in c.2 data) /\
       Forall (fun b => b <> [] /\ zlen b <= len) bs /\ o_exit c.2 = 0 /\
       h_reaped c'.1 = true /\ h_fd c'.1 data < 0)
    (fun e c' => interrupted c e \/ failure_report utf8_cliplen strerror c e) c.
Proof.
  intros Hlen [Hb He Hr]. eapply wpS_mono; [apply recv_stream_wp; [done|lia|done]| |].
  - intros bs c' (? & ? & Hx & ? & ?). auto.
  - intros e c'. by apply failed_report.
Qed.

(** One write, with the failure told apart from the state it happens in. *)
Lemma helper_write_wp p c :
  buffer_ok c ->
  wpS (chdb_helper_write p)
    (fun _ c' => delivered data p c c')
    (fun e c' => failed c e c' /\
       exists sent, sent `prefix_of` p /\ o_sent c'.2 data = o_sent c.2 data ++ sent) c.
Proof.
  intros Hb. unfold Channel.chdb_helper_write. h_step.
  eapply wpS_mono; [by apply write_all_wp| |].
  - intros [e|] c1; cbn [write_result]; [|intros; by h_step].
    intros (_ & x & y & -> & H1). apply report_helper_wp.
    { by eapply heard_buffer, Hb; apply H1. }
    intros e' c2 Hout Hsent. split.
    + apply (failed_after _ _ c c1); [apply H1|].
      destruct Hout as [[Hi _]|Hrep]; [by left|right]. exists c1. by eexists.
    + exists x. split; [by eexists|]. by rewrite Hsent, (delivered_sent _ _ _ _ H1).
  - intros e c1 [Hi (x & y & -> & H1)]. split; [by left|].
    exists x. split; [by eexists|]. apply (delivered_sent _ _ _ _ H1).
Qed.

(** Sending to a running helper delivers every byte, in order, and nothing
    else, or raises an interrupt or the report of the helper, and then what was
    delivered is a head of the bytes. It ends, however often the channel is
    full. *)
Theorem write_spec p c :
  running c ->
  wpS (chdb_helper_write p)
    (fun _ c' => delivered data p c c')
    (fun e c' => (interrupted c e \/ failure_report utf8_cliplen strerror c e) /\
       exists sent, sent `prefix_of` p /\ o_sent c'.2 data = o_sent c.2 data ++ sent) c.
Proof.
  intros [Hb He Hr]. eapply wpS_mono; [by apply helper_write_wp|done|].
  intros e c' [Hf Hs]. split; [|done]. by apply (failed_report _ _ c e c').
Qed.

Lemma helper_finish_wp c :
  running c ->
  wpS chdb_helper_finish
    (fun _ c' => o_exit c.2 = 0 /\ finished c c')
    (fun e c' => interrupted c e \/ failure_report utf8_cliplen strerror c e) c.
Proof.
  intros [Hb He Hr]. eapply wpS_mono; [apply (close_and_reap_wp utf8_cliplen strerror (fun st =>
    if st =? 0 then mret tt else report_helper utf8_cliplen strerror (b8 "error finishing chDB query"))
    c (fun _ c' => o_exit c.2 = 0 /\ finished c c'))| |].
  - done.
  - intros c' Hf. apply wpS_ret. split; [by apply Hf|done].
  - intros st c' Hst Hh. rewrite (proj2 (Z.eqb_neq _ _) Hst). by apply report_after.
  - done.
  - intros e c'. by apply failed_report.
Qed.

(** Finishing succeeds only when the helper, told that the stream ended,
    exits with status 0; its whole error output is taken first, so it can end.
    Otherwise an interrupt or the report is raised. *)
Theorem finish_spec c :
  running c ->
  wpS chdb_helper_finish
    (fun _ c' => o_exit c.2 = 0 /\ finished c c')
    (fun e c' => interrupted c e \/ failure_report utf8_cliplen strerror c e) c.
Proof. apply helper_finish_wp. Qed.
End channel.

(** ** Examples *)

(** A helper that writes [ab], stalls, writes [c] and exits well, warning of
    something on its error output. *)
Definition sample_os : os := {|
  o_in := fun s => match s with
                   | data => [Data (b8 "ab"); Err EAGAIN; Err EINTR; Data (b8 "c")]
                   | err => [Data (b8 "warning")]
                   | _ => []
                   end;
  o_out := fun s => match s with data => [Takes 1; Fails EAGAIN; Fails EINTR] | _ => [] end;
  o_sent := fun _ => [];
  o_interrupts := [];
  o_waits := [EINTR];
  o_exit := 0;
  o_access := None;
  o_opens := [inr (10, 11); inr (12, 13); inr (14, 15)];
  o_fcntls := [];
  o_fork := inr 99;
  o_log := [];
|}.

Definition sample_channel : channel :=
  (Helper 99 (fun s => match s with data => 10 | err => 12 | _ => -1 end) (b8 "SELECT 1")
     false 0 None [], sample_os).

Lemma sample_running : running sample_channel.
Proof. split; [unfold buffer_ok; cbn; lia|left; cbn; lia|done]. Qed.

Lemma recv_stream_spec_witness :
  (exists bs c', recv_stream length (fun _ => []) (S (pending data sample_channel)) 4096
                   sample_channel = (Ok bs, c') /\
     concat bs = content (o_in sample_channel.2 data) /\ bs = [b8 "ab"; b8 "c"]).
Proof.
  pose proof (recv_stream_spec length (fun _ => []) 4096 sample_channel ltac:(lia) sample_running)
    as Hwp.
  assert (H : exists c', recv_stream length (fun _ => []) (S (pending data sample_channel)) 4096
    sample_channel = (Ok [b8 "ab"; b8 "c"], c')) by (eexists; vm_compute; reflexivity).
  destruct H as [c' H]. eexists _, _. split; [exact H|].
  split; [|reflexivity]. exact (proj1 (wpS_Ok _ _ _ _ _ _ H Hwp)).
Defined.

Lemma write_spec_witness :
  exists c', chdb_helper_write length (fun _ => []) (b8 "rows") sample_channel = (Ok tt, c') /\
    delivered data (b8 "rows") sample_channel c'.
Proof.
  pose proof (write_spec length (fun _ => []) (b8 "rows") sample_channel sample_running) as Hwp.
  assert (H : exists c', chdb_helper_write length (fun _ => []) (b8 "rows") sample_channel
    = (Ok tt, c')) by (eexists; vm_compute; reflexivity).
  destruct H as [c' H]. exists c'. split; [exact H|].
  exact (wpS_Ok _ _ _ _ _ _ H Hwp).
Defined.

Lemma finish_spec_witness :
  exists c', chdb_helper_finish length (fun _ => []) sample_channel = (Ok tt, c') /\
    finished sample_channel c'.
Proof.
  pose proof (finish_spec length (fun _ => []) sample_channel sample_running) as Hwp.
  assert (H : exists c', chdb_helper_finish length (fun _ => []) sample_channel = (Ok tt, c'))
    by (eexists; vm_compute; reflexivity).
  destruct H as [c' H]. exists c'. split; [exact H|].
  exact (proj2 (wpS_Ok _ _ _ _ _ _ H Hwp)).
Defined.
