(* ===== verification/Reports.v ===== *)
(** * Reports: what a failed helper's report says

    How a wait status turns into words ([helper_report_spec]), and what is left
    of the helper's own text ([helper_text_spec]). *)

From stdpp Require Import prelude functions.
From Stdlib Require Import Strings.Byte.
From S2P Require Import Prelude Words CString Stateful Pipe Setup Os Channel ChannelLogic ChannelProps.
Local Open Scope Z_scope.

(** ** Wait statuses *)

(** The status of a process that exited with [code], and of one a signal
    ended, with or without a core. *)
Definition exit_status (code : Z) : Z := code * 256.
Definition signal_status (sig : Z) (core : bool) : Z := sig + (if core then 128 else 0).

Lemma WTERMSIG_mod st : WTERMSIG st = st mod 128.
Proof. unfold WTERMSIG. change 127 with (Z.ones 7). by rewrite Z.land_ones. Qed.

Lemma exit_status_fields code :
  0 <= code < 256 ->
  WTERMSIG (exit_status code) = 0 /\ WEXITSTATUS (exit_status code) = code.
Proof.
  intros Hc. unfold exit_status. split.
  - rewrite WTERMSIG_mod. replace (code * 256) with (code * 2 * 128) by lia. apply Z_mod_mult.
  - unfold WEXITSTATUS. change 255 with (Z.ones 8). rewrite Z.land_ones, Z.shiftr_div_pow2 by lia.
    change (2 ^ 8) with 256. rewrite Z_div_mult by lia. by apply Z.mod_small.
Qed.

Lemma signal_status_fields sig core :
  0 < sig < 127 -> WTERMSIG (signal_status sig core) = sig.
Proof.
  intros Hs. rewrite WTERMSIG_mod. unfold signal_status. destruct core.
  - rewrite <- (Z.mul_1_l 128) at 1. rewrite Z_mod_plus_full. apply Z.mod_small. lia.
  - rewrite Z.add_0_r. apply Z.mod_small. lia.
Qed.

(** The report of a helper names the query and how the helper ended: the
    signal that killed it; or, under the message of what was being done, the
    helper's own words, and without any, that it lost the backend (status 2),
    its exit status, or why it could not be waited for. *)
Theorem helper_report_spec strerror h text what :
  let e := helper_report strerror h text what in
  sqlstate e = ERRCODE_EXTERNAL_ROUTINE_EXCEPTION /\
  errcontext e = Some (b8 "query: " ++ h_query h) /\
  (forall sig core, 0 < sig < 127 -> h_status h = signal_status sig core ->
     errmsg e = b8 "chdb: chDB was terminated by signal " ++ fmt_d sig /\
     errdetail e = Some (default (b8 "chDB produced no message.") text)) /\
  (forall code, 0 <= code < 256 -> h_status h = exit_status code ->
     errmsg e = b8 "chdb: " ++ what /\
     errdetail e = Some (default
       (if decide (code = CHDB_HELPER_LOST_BACKEND) then b8 "chDB lost the channel to the copy."
        else b8 "chDB exited with status " ++ fmt_d code ++ b8 ".") text)) /\
  (forall err, h_status h = -1 -> h_wait_errno h = Some err ->
     errmsg e = b8 "chdb: " ++ what /\
     errdetail e = Some (default
       (b8 "chDB (pid " ++ fmt_d (h_pid h) ++ b8 ") could not be waited for: " ++ strerror err
        ++ b8 ".") text)).
Proof.
  intros e. unfold e, helper_report, helper_end, WIFSIGNALED, WIFEXITED. split_and!.
  - by destruct (_ && _).
  - by destruct (_ && _).
  - intros sig core Hs ->. rewrite (signal_status_fields sig core Hs).
    destruct (Z.leb_spec 0 (signal_status sig core)); [|unfold signal_status in *; destruct core; lia].
    destruct (Z.eqb_spec sig 0), (Z.eqb_spec sig 127); try lia. done.
  - intros code Hc ->. destruct (exit_status_fields code Hc) as [-> ->]. rewrite andb_false_r.
    split; [done|]. cbn [errdetail with_context with_detail ereport].
    destruct (Z.ltb_spec (exit_status code) 0); [unfold exit_status in *; lia|]. cbn [Z.eqb].
    destruct (Z.eqb_spec code CHDB_HELPER_LOST_BACKEND); case_decide; done.
  - intros err -> ->. done.
Qed.

(** ** The helper's own words *)

(** Cutting a piece out of a text that has it. *)
Lemma cut_out_spec from upto a m b :
  strstr (a ++ from ++ m ++ upto :: b) from = Some (length a) -> upto ∉ from ++ m ->
  cut_out from upto (a ++ from ++ m ++ upto :: b) = a ++ b.
Proof.
  intros Hs Hn. unfold cut_out. rewrite Hs, drop_app_length.
  assert (strchr (from ++ m ++ upto :: b) upto = Some (length (from ++ m))) as ->.
  { rewrite app_assoc. by apply strchr_app. }
  f_equal; [by rewrite take_app_length|].
  replace (length a + length (from ++ m) + 1)%nat
    with (length (a ++ from ++ m ++ [upto])) by (rewrite !length_app; cbn; lia).
  replace (a ++ from ++ m ++ upto :: b) with ((a ++ from ++ m ++ [upto]) ++ b)
    by by rewrite <- !app_assoc.
  apply drop_app_length.
Qed.

Definition is_newline (c : byte) : Prop := c = NEWLINE \/ c = RETURN.

Lemma strip_newlines_app text nls :
  Forall is_newline nls -> (forall c, last text = Some c -> ~ is_newline c) ->
  strip_newlines (text ++ nls) = text.
Proof.
  intros Hn Hl. unfold strip_newlines. rewrite rev_app_distr.
  assert (Hr : Forall is_newline (rev nls)) by by apply Forall_rev.
  revert Hr. generalize (rev nls) as r. induction 1 as [|c r Hc _ IH]; cbn.
  - destruct text as [|x text _] using rev_ind; [done|]. rewrite rev_app_distr. cbn.
    rewrite decide_False by (apply Hl; by rewrite last_snoc). cbn. by rewrite rev_involutive.
  - by rewrite decide_True.
Qed.

(** What is left of the helper's words, cut short or not: the line ends
    after them go, then the line that holds a request ID and the version of
    chDB, and nothing else; whole characters only. *)
Theorem helper_text_spec utf8_cliplen text nls :
  text <> [] -> (forall c, last text = Some c -> ~ is_newline c) -> Forall is_newline nls ->
  x00 ∉ text -> utf8_cliplen text = length text ->
  helper_text utf8_cliplen (text ++ nls)
  = Some (cut_out (b8 " (version ") x29 (cut_out (b8 "Request ID:") NEWLINE text)) /\
  (forall a id b, text = a ++ b8 "Request ID:" ++ id ++ NEWLINE :: b -> NEWLINE ∉ id ->
     strstr text (b8 "Request ID:") = Some (length a) ->
     cut_out (b8 "Request ID:") NEWLINE text = a ++ b) /\
  (forall a version b, a ++ b8 " (version " ++ version ++ x29 :: b
     = cut_out (b8 "Request ID:") NEWLINE text -> x29 ∉ version ->
     strstr (a ++ b8 " (version " ++ version ++ x29 :: b) (b8 " (version ") = Some (length a) ->
     cut_out (b8 " (version ") x29 (cut_out (b8 "Request ID:") NEWLINE text) = a ++ b).
Proof.
  intros Hne Hl Hn H0 Hu. split_and!.
  - unfold helper_text. rewrite strip_newlines_app, Hu, take_ge, cstr_id by done.
    by rewrite decide_False.
  - intros a id b -> Hid Hs. apply cut_out_spec; [done|].
    apply not_elem_of_app. split; [|done]. apply (bool_decide_unpack _). by vm_compute.
  - intros a v b <- Hv Hs. apply cut_out_spec; [done|].
    apply not_elem_of_app. split; [|done]. apply (bool_decide_unpack _). by vm_compute.
Qed.

(** Code: 47. DB::Exception: no x. (version 25.5.1.1) *)
Lemma helper_text_spec_witness :
  let text := b8 "DB::Exception: no x (version 25.5.1) in SELECT" in
  helper_text length (text ++ [NEWLINE; NEWLINE]) = Some (b8 "DB::Exception: no x in SELECT").
Proof.
  intros text. rewrite (proj1 (helper_text_spec length text [NEWLINE; NEWLINE]
    ltac:(done) ltac:(intros c; vm_compute; intros [= <-] [|]; discriminate)
    ltac:(by repeat constructor) ltac:(apply (bool_decide_unpack _); by vm_compute) eq_refl)).
  reflexivity.
Defined.

Lemma helper_report_spec_witness :
  let h := Helper 7 (fun _ => -1) (b8 "SELECT 1") true (exit_status 2) None [] in
  errdetail (helper_report (fun _ => []) h None (b8 "error executing chDB query"))
  = Some (b8 "chDB lost the channel to the copy.") /\
  (errmsg (helper_report (fun _ => []) h None (b8 "error executing chDB query"))
   = b8 "chdb: error executing chDB query").
Proof.
  intros h. destruct (helper_report_spec (fun _ => []) h None (b8 "error executing chDB query"))
    as (_ & _ & _ & He & _).
  destruct (He 2 ltac:(lia) eq_refl) as [Hm Hd]. split; [exact Hd|exact Hm].
Defined.
