(* ===== verification/Lifecycle.v ===== *)
(** * Lifecycle: starting a helper, and what is left when it is gone

    [start_spec] follows [chdb_helper_start] to a running helper that has its
    whole setup payload; [no_leak] accounts for every descriptor and process
    over any sequence of operations, failures included, up to [stop_helper]. *)

From stdpp Require Import prelude functions.
From Stdlib Require Import Strings.Byte.
From S2P Require Import Prelude Words CString Stateful Pipe Setup Os Channel.
From S2P Require Import ChannelLogic ChannelProps ChannelTheorems.
Local Open Scope Z_scope.

(** The descriptors the kernel gives out. *)
Definition fds_valid (o : os) : Prop :=
  Forall (fun r => match r with inr (a, b) => 0 <= a /\ 0 <= b | inl _ => True end) (o_opens o).

(** What starting leaves of the surroundings: only what the calls use up. *)
Record same_io (o o' : os) : Prop := SameIo {
  same_in : o_in o' = o_in o;
  same_out : o_out o' = o_out o;
  same_sent : o_sent o' = o_sent o;
  same_exit : o_exit o' = o_exit o;
  same_interrupts : o_interrupts o' = o_interrupts o;
  same_fork : o_fork o' = o_fork o;
  same_log : o_log o `prefix_of` o_log o';
}.

#[export] Instance same_io_preorder : PreOrder same_io.
Proof. split; [by split|]. intros ? ? ? [] []. split; [congruence..|by etrans]. Qed.

Lemma same_io_event ev o o' : ev ∈ o_log o -> same_io o o' -> ev ∈ o_log o'.
Proof. intros Hin [? ? ? ? ? ? [l ->]]. apply elem_of_app. by left. Qed.

Section start.
Context (utf8_cliplen : bytes -> nat) (strerror : errno -> bytes).

Lemma open_channel_wp o0 first second h o Q :
  fds_valid o -> same_io o0 o ->
  (forall a b o', 0 <= a -> 0 <= b -> same_io o0 o' -> fds_valid o' ->
     Q tt (set_fds (<[second := b]> (<[first := a]> (h_fd h))) h, o')) ->
  wpS (open_channel strerror first second) Q (fun _ _ => True) (h, o).
Proof.
  intros Hv H0 HQ. unfold open_channel. h_step. unfold wpS, sys_open, fds_valid in *.
  destruct (o_opens o) as [|[e|[a b]] l] eqn:Ho; [done|done|].
  apply Forall_cons in Hv as [[Ha Hb] Hl]. apply HQ; [done|done| |done].
  etrans; [exact H0|]. split; try done. cbn. by apply prefix_app_r.
Qed.

Lemma set_flag_wp h o s f Q :
  fds_valid o ->
  (forall o', same_io o o' -> fds_valid o' -> SysSetFlag (h_fd h s) f ∈ o_log o' ->
     Q tt (h, o')) ->
  wpS (set_flag strerror s f) Q (fun _ _ => True) (h, o).
Proof.
  intros Hv HQ. unfold set_flag, wpS, mbind, stateful_bind, sys_fcntl.
  assert (Hlast : forall (l : list sysev) ev, ev ∈ l ++ [ev]) by set_solver.
  destruct (o_fcntls o) as [|[e|] l] eqn:Ho; [|done|].
  - rewrite Ho. apply HQ; [|done|by apply Hlast]. split; try done. by apply prefix_app_r.
  - cbn. destruct l as [|[e|] l]; [|done|];
      (apply HQ; [|done|by apply Hlast]); (split; try done; by apply prefix_app_r).
Qed.

(** What the backend keeps closes on exec and never blocks. *)
Definition configured (h : chdbHelper) (l : list sysev) : Prop :=
  forall s f, s ∈ [data; err; setup] -> SysSetFlag (h_fd h s) f ∈ l.

(** The six flags, before what follows. *)
Lemma set_flags_wp h o (k : H unit) Q :
  fds_valid o ->
  (forall o', same_io o o' -> configured h (o_log o') -> wpS k Q (fun _ _ => True) (h, o')) ->
  wpS (set_flag strerror data FD_CLOEXEC ;; set_flag strerror err FD_CLOEXEC ;;
       set_flag strerror setup FD_CLOEXEC ;; set_flag strerror data O_NONBLOCK ;;
       set_flag strerror err O_NONBLOCK ;; set_flag strerror setup O_NONBLOCK ;; k)
    Q (fun _ _ => True) (h, o).
Proof.
  intros Hv Hk. h_step. apply set_flag_wp; [done|]. intros o1 S1 V1 F1.
  h_step. apply set_flag_wp; [done|]. intros o2 S2 V2 F2.
  h_step. apply set_flag_wp; [done|]. intros o3 S3 V3 F3.
  h_step. apply set_flag_wp; [done|]. intros o4 S4 V4 F4.
  h_step. apply set_flag_wp; [done|]. intros o5 S5 V5 F5.
  h_step. apply set_flag_wp; [done|]. intros o6 S6 V6 F6.
  assert (S56 : same_io o5 o6) by done. assert (S46 : same_io o4 o6) by by etrans.
  assert (S36 : same_io o3 o6) by by etrans. assert (S26 : same_io o2 o6) by by etrans.
  assert (S16 : same_io o1 o6) by by etrans.
  apply Hk; [by etrans|]. intros s f Hs. rewrite !elem_of_cons in Hs.
  destruct f, Hs as [->|[->|[->|Hs]]]; try (by apply elem_of_nil in Hs);
    eauto using same_io_event.
Qed.

(** Closing a descriptor that is not the error channel's. *)
Lemma close_other_wp s c Q R :
  (forall c', c'.1 = set_fds (<[s := -1]> (h_fd c.1)) c.1 -> same_io c.2 c'.2 -> Q tt c') ->
  0 <= h_fd c.1 s -> wpS (close_fd s) Q R c.
Proof.
  intros HQ Hfd. destruct c as [h o]. apply close_fd_wp; cbn in *; [lia|].
  intros _. apply HQ; [done|]. split; try done. by apply prefix_app_r.
Qed.

(** Sending the payload closes the setup channel. *)
Lemma write_setup_wp payload c :
  buffer_ok c -> 0 <= h_fd c.1 setup ->
  wpS (write_setup utf8_cliplen strerror payload)
    (fun _ c' => exists c1, delivered setup payload c c1 /\
       c'.1 = set_fds (<[setup := -1]> (h_fd c1.1)) c1.1 /\ same_io c1.2 c'.2)
    (fun _ _ => True) c.
Proof.
  intros Hb Hfd. unfold write_setup. h_step. eapply wpS_mono; [by apply write_all_wp| |done].
  intros [e|] c1; cbn [write_result].
  - intros (_ & a & b & _ & H1). h_step. case_decide.
    + apply report_helper_wp; [|done]. by eapply heard_buffer, Hb; apply H1.
    + h_step. by h_step.
  - intros H1. apply close_other_wp; [by eauto|]. by rewrite (delivered_fds _ _ _ _ H1).
Qed.

(** A channel as a successful start leaves it. *)
Record started (o : os) (pid : Z) (query payload : bytes) (c : channel) : Prop := Started {
  started_running : running c;
  started_pid : h_pid c.1 = pid;
  started_query : h_query c.1 = query;
  started_setup : o_sent c.2 setup = o_sent o setup ++ payload;
  started_data : o_sent c.2 data = o_sent o data /\ o_in c.2 data = o_in o data;
  started_fds : 0 <= h_fd c.1 data /\
    Forall (fun s => h_fd c.1 s = -1) [setup; data_peer; err_peer; setup_peer];
  started_flags : exists before,
    before ++ [SysFork pid] `prefix_of` o_log c.2 /\
    forall s f, s ∈ [data; err] -> 0 <= h_fd c.1 s -> SysSetFlag (h_fd c.1 s) f ∈ before;
}.

(** The channel of a process just forked, when the helper's ends are closed. *)
Record forked_channel (o : os) (pid : Z) (query : bytes) (c : channel) : Prop := ForkedChannel {
  fk_io : same_io o c.2;
  fk_pid : h_pid c.1 = pid;
  fk_query : h_query c.1 = query;
  fk_reaped : h_reaped c.1 = false;
  fk_buf : h_err_buf c.1 = [];
  fk_ours s : s ∈ [data; err; setup] -> 0 <= h_fd c.1 s;
  fk_peers s : s ∈ [data_peer; err_peer; setup_peer] -> h_fd c.1 s = -1;
  fk_flags : exists before,
    before ++ [SysFork pid] `prefix_of` o_log c.2 /\
    forall s f, s ∈ [data; err] -> SysSetFlag (h_fd c.1 s) f ∈ before;
}.

(** The fork, of a struct that holds all six descriptors. *)
Lemma fork_wp o h o1 (k : H unit) Q :
  same_io o o1 -> (forall s, 0 <= h_fd h s) -> configured h (o_log o1) ->
  h_reaped h = false -> h_err_buf h = [] ->
  (forall pid c, o_fork o = inr pid -> forked_channel o pid (h_query h) c ->
     wpS k Q (fun _ _ => True) c) ->
  wpS ((fun c => match o_fork c.2 with
            | inl e => (Raise (err_fork strerror e), c)
            | inr pid => (Ok tt, (set_pid pid c.1, log (SysFork pid) c.2))
            end) ;;
       close_fd data_peer ;; close_fd err_peer ;; close_fd setup_peer ;; k)
    Q (fun _ _ => True) (h, o1).
Proof.
  intros Ho1 Hfd Hflags Hr Hbuf Hk. h_step. unfold wpS at 1. cbn [snd].
  rewrite (same_fork _ _ Ho1). destruct (o_fork o) as [|pid] eqn:Hfork; [done|].
  h_step. apply close_other_wp; [|by cbn]. intros c5 Hh5 Hs5.
  h_step. apply close_other_wp; [|rewrite Hh5; cbn; by rewrite fn_lookup_insert_ne].
  intros c6 Hh6 Hs6. rewrite Hh5 in Hh6.
  h_step. apply close_other_wp; [|rewrite Hh6; cbn; by rewrite !fn_lookup_insert_ne].
  intros c7 Hh7 Hs7. rewrite Hh6 in Hh7. cbn in Hh7. cbn [snd] in Hs5.
  assert (Hio : same_io (log (SysFork pid) o1) c7.2) by (etrans; [exact Hs5|by etrans]).
  apply (Hk pid); [done|]. split; try (by rewrite Hh7).
  - etrans; [exact Ho1|]. etrans; [|exact Hio]. split; try done. by apply prefix_app_r.
  - intros s Hs. rewrite Hh7. cbn. rewrite !elem_of_cons in Hs.
    destruct Hs as [->|[->|[->|Hs]]]; [..|by apply elem_of_nil in Hs];
      by rewrite !fn_lookup_insert_ne.
  - intros s Hs. rewrite Hh7. cbn. rewrite !elem_of_cons in Hs.
    destruct Hs as [->|[->|[->|Hs]]]; [..|by apply elem_of_nil in Hs];
      rewrite ?fn_lookup_insert, ?fn_lookup_insert_ne, ?fn_lookup_insert by done; done.
  - exists (o_log o1). split; [apply (same_log _ _ Hio)|]. intros s f Hs. rewrite Hh7. cbn.
    assert (s ∈ [data; err; setup] /\ s <> data_peer /\ s <> err_peer /\ s <> setup_peer)
      as (Hin & N1 & N2 & N3) by (split_and!; set_solver).
    rewrite !fn_lookup_insert_ne by done. by apply Hflags.
Qed.

(** The payload sent to it, and the setup channel closed. *)
Lemma payload_sent o pid query payload c c1 c2 :
  forked_channel o pid query c -> delivered setup payload c c1 ->
  c2.1 = set_fds (<[setup := -1]> (h_fd c1.1)) c1.1 -> same_io c1.2 c2.2 ->
  started o pid query payload c2.
Proof.
  intros [Hio Hp Hq Hr Hbuf Hours Hpeers (before & Hpre & Hflags)] [Hheard Hfd Hr1 Hin Hsent Honly]
    Hh Hs2.
  assert (Hkept : forall s, s <> setup -> h_fd c2.1 s = h_fd c1.1 s).
  { intros s Hs. rewrite Hh. cbn. by rewrite fn_lookup_insert_ne. }
  assert (Hb : buffer_ok c) by (unfold buffer_ok, said; rewrite Hbuf; cbn; lia).
  split.
  - split.
    + unfold buffer_ok, said. rewrite Hh. by apply (heard_buffer _ _ Hheard).
    + unfold audible, unheard. rewrite (same_in _ _ Hs2), Hkept by done.
      destruct (heard_end _ _ Hheard) as [->|[_ Hu]]; [left|by right]. apply Hours. set_solver.
    + rewrite Hh. cbn. by rewrite Hr1.
  - rewrite Hh. cbn. by rewrite (heard_pid _ _ Hheard).
  - rewrite Hh. cbn. by rewrite (heard_query _ _ Hheard).
  - by rewrite (same_sent _ _ Hs2), Hsent, (same_sent _ _ Hio).
  - by rewrite (same_sent _ _ Hs2), Honly, (same_sent _ _ Hio), (same_in _ _ Hs2), Hin,
      (same_in _ _ Hio).
  - rewrite Hkept, Hfd by done. split; [apply Hours; set_solver|].
    repeat constructor; [by rewrite Hh; cbn; rewrite fn_lookup_insert|..];
      rewrite Hkept, Hfd by done; apply Hpeers; set_solver.
  - exists before. split.
    + etrans; [exact Hpre|]. etrans; [apply (heard_log _ _ Hheard)|apply (same_log _ _ Hs2)].
    + intros s f Hs. rewrite Hkept by set_solver. intros Hpos.
      replace (h_fd c1.1 s) with (h_fd c.1 s)
        by (destruct (heard_fds _ _ Hheard s); [done|lia]). by apply Hflags.
Qed.

Lemma helper_start_wp little pkglib tz ctx query params o :
  fds_valid o ->
  match chdb_helper_start utf8_cliplen strerror little pkglib tz ctx query params o with
  | (Ok _, c) =>
      exists pid payload, o_fork o = inr pid /\
        build_setup little [] ctx tz query params = Ok payload /\
        started o pid query payload c
  | (Raise _, _) => True
  | (UB, _) => False
  end.
Proof.
  intros Hv. unfold chdb_helper_start.
  change (wpS (start_helper utf8_cliplen strerror little pkglib tz ctx query params)
    (fun _ c => exists pid payload, o_fork o = inr pid /\
        build_setup little [] ctx tz query params = Ok payload /\ started o pid query payload c)
    (fun _ _ => True) (fresh_helper query, o)).
  unfold start_helper. h_step. unfold wpS at 1. destruct (o_access _); [done|].
  h_step. h_step. destruct (build_setup little [] ctx tz query params) as [payload|e|] eqn:Hb;
    [|done|by rewrite build_setup_wire in Hb; case_match].
  h_step. apply (open_channel_wp o); [done|done|]. intros d dp o1 Hd Hdp Ho1 Hv1.
  h_step. apply (open_channel_wp o); [done|done|]. intros e ep o2 He Hep Ho2 Hv2.
  h_step. apply (open_channel_wp o); [done|done|]. intros sp s o3 Hsp Hs Ho3 Hv3.
  apply set_flags_wp; [done|]. intros o4 Ho4 Hflags.
  apply (fork_wp o); [by etrans| |done..|].
  { intros x. by destruct x; cbn; rewrite ?fn_lookup_insert, ?fn_lookup_insert_ne,
      ?fn_lookup_insert by done. }
  intros pid c Hfork Hc. eapply wpS_mono; [apply write_setup_wp| |done].
  - unfold buffer_ok, said. rewrite (fk_buf _ _ _ _ Hc). cbn. lia.
  - apply (fk_ours _ _ _ _ Hc). set_solver.
  - intros [] c' (c1 & Hdel & Hh & Hs'). exists pid, payload. split; [done|]. split; [done|].
    by apply (payload_sent o pid query payload c c1 c').
Qed.

(** A helper that [chdb_helper_start] returns is running and was sent its
    setup payload whole, [build_setup]'s, after which the setup channel was
    closed, so that the helper sees its end; the backend keeps its own ends of
    the data and error channels, both of them set to close on exec and not to
    block before the fork, and none of the helper's. Starting always ends, and
    is never undefined. *)
Theorem start_spec little pkglib tz ctx query params o :
  fds_valid o ->
  match chdb_helper_start utf8_cliplen strerror little pkglib tz ctx query params o with
  | (Ok _, c) =>
      exists pid payload, o_fork o = inr pid /\
        build_setup little [] ctx tz query params = Ok payload /\
        started o pid query payload c
  | (Raise _, _) => True
  | (UB, _) => False
  end.
Proof. apply helper_start_wp. Qed.
End start.

(** ** Accounting *)

Definition opened (l : list sysev) : list Z :=
  l ≫= (fun ev => match ev with SysOpen a b => [a; b] | _ => [] end).
Definition closed_fds (l : list sysev) : list Z :=
  l ≫= (fun ev => match ev with SysClose fd => [fd] | _ => [] end).
Definition forked (l : list sysev) : list Z :=
  l ≫= (fun ev => match ev with SysFork pid => [pid] | _ => [] end).
Definition waited (l : list sysev) : list Z :=
  l ≫= (fun ev => match ev with SysWait pid => [pid] | _ => [] end).

Definition slots : list slot := [data; err; setup; data_peer; err_peer; setup_peer].

(** The descriptors the struct holds. *)
Definition held (h : chdbHelper) : list Z := filter (fun fd => 0 <= fd) (map (h_fd h) slots).

(** A process is only signalled while it is ours: forked and not yet waited
    for, after which its number may be another's. *)
Definition kills_ours (l : list sysev) : Prop :=
  forall pre pid post, l = pre ++ SysKill pid :: post -> forked pre = [pid] /\ waited pre = [].

Lemma kills_ours_snoc l ev :
  kills_ours l -> (forall pid, ev = SysKill pid -> forked l = [pid] /\ waited l = []) ->
  kills_ours (l ++ [ev]).
Proof.
  intros Hl Hev pre pid post Heq. destruct post as [|x post _] using rev_ind.
  - apply app_inj_tail in Heq as [-> ->]. by apply Hev.
  - rewrite app_comm_cons, app_assoc in Heq. apply app_inj_tail in Heq as [-> _].
    by apply (Hl pre pid post).
Qed.

(** Every descriptor opened is held or was closed, once; a process was forked
    when the struct says so, and waited for once it says so. *)
Record accounted (c : channel) : Prop := Accounted {
  acc_fds : opened (o_log c.2) ≡ₚ closed_fds (o_log c.2) ++ held c.1;
  acc_forked : forked (o_log c.2) = if 0 <? h_pid c.1 then [h_pid c.1] else [];
  acc_waited : waited (o_log c.2) = if h_reaped c.1 then [h_pid c.1] else [];
  acc_killed : kills_ours (o_log c.2);
  acc_ours : h_reaped c.1 = true -> 0 < h_pid c.1;
}.

(** [m] leaves the channel of a forked process accounted for, whatever its
    outcome. *)
Class Keeps {A} (m : H A) : Prop :=
  keeps c : accounted c -> 0 < h_pid c.1 -> accounted (m c).2 /\ h_pid (m c).2.1 = h_pid c.1.

Section keeps.
Context {A B : Type}.

#[export] Instance keeps_ret (a : A) : Keeps (mret a).
Proof. by intros c. Qed.
#[export] Instance keeps_lift (r : res error A) : Keeps (liftH r).
Proof. by intros c. Qed.
#[export] Instance keeps_raise (e : error) : Keeps (A := A) (raiseH e).
Proof. by intros c. Qed.
#[export] Instance keeps_get : Keeps getH.
Proof. by intros c. Qed.
#[export] Instance keeps_bind (m : H A) (f : A -> H B) :
  Keeps m -> (forall a, Keeps (f a)) -> Keeps (m ≫= f).
Proof.
  intros Hm Hf c Hc Hp. destruct (Hm c Hc Hp) as [Hc1 Hp1]. unfold mbind, stateful_bind.
  destruct (m c) as [[a|e|] c']; [|done|done]. cbn in *. rewrite <- Hp1 in *. by apply Hf.
Qed.
#[export] Instance keeps_if (b : bool) (m m' : H A) :
  Keeps m -> Keeps m' -> Keeps (if b then m else m').
Proof. by destruct b. Qed.
#[export] Instance keeps_decide P `{Decision P} (m m' : H A) :
  Keeps m -> Keeps m' -> Keeps (if decide P then m else m').
Proof. by destruct (decide P). Qed.
End keeps.

(** Changes the accounts do not look at. *)
Lemma accounted_same c c' :
  accounted c -> o_log c'.2 = o_log c.2 -> h_fd c'.1 = h_fd c.1 -> h_pid c'.1 = h_pid c.1 ->
  h_reaped c'.1 = h_reaped c.1 -> accounted c'.
Proof. intros [F K W X O] Hl Hf Hp Hr. split; unfold held; by rewrite ?Hl, ?Hf, ?Hp, ?Hr. Qed.

#[export] Instance keeps_buf b : Keeps (putH (set_err_buf b)).
Proof. intros c Hc _. split; [|done]. by apply (accounted_same c). Qed.
#[export] Instance keeps_read s n : Keeps (sys_read s n).
Proof.
  intros [h o] Hc _. unfold sys_read. destruct (_ <? _); [done|]. destruct (read_fd _ _).
  split; [|done]. by apply (accounted_same (h, o)).
Qed.
#[export] Instance keeps_write s b : Keeps (sys_write s b).
Proof.
  intros [h o] Hc _. unfold sys_write. destruct (_ <? _); [done|].
  destruct (write_fd _ _). split; [|done]. by apply (accounted_same (h, o)).
Qed.
#[export] Instance keeps_check : Keeps CHECK_FOR_INTERRUPTS.
Proof.
  intros [h o] Hc _. unfold CHECK_FOR_INTERRUPTS.
  destruct (o_interrupts o) as [|[] l]; (split; [|done]); by apply (accounted_same (h, o)).
Qed.

#[export] Instance keeps_wait_fd s : Keeps (wait_fd s).
Proof.
  intros [h o] [F K W X O] _. split; [|done]. split; cbn; [..|by apply kills_ours_snoc|done];
    unfold opened, closed_fds, forked, waited; by rewrite !bind_snoc, !app_nil_r.
Qed.

#[export] Instance keeps_reap : Keeps reap.
Proof.
  intros [h o] Hc Hp. unfold reap. destruct (h_reaped h) eqn:Hr; [done|].
  destruct Hc as [F K W X O]. destruct (waitpid_loop _) as [failed waits]. cbn in *.
  rewrite Hr in W. split; [|done].
  split; cbn; [..|by apply kills_ours_snoc|done]; unfold opened, closed_fds, forked, waited in *;
    rewrite !bind_snoc, ?app_nil_r; [done|done|by rewrite W].
Qed.

(** Closing moves a descriptor from those held to those closed. *)
Lemma held_close h s :
  0 <= h_fd h s ->
  held h ≡ₚ h_fd h s :: held (set_fds (<[s := -1]> (h_fd h)) h).
Proof.
  intros Hfd. unfold held, slots. cbn [map h_fd set_fds].
  destruct s; rewrite ?fn_lookup_insert, ?fn_lookup_insert_ne by done;
    rewrite !filter_cons; repeat (case_decide; [|try lia]); try lia;
    cbn; try done; solve_Permutation.
Qed.

Lemma close_accounted s c : accounted c -> accounted (close_fd s c).2.
Proof.
  destruct c as [h o]. intros [F K W X O]. unfold close_fd, mbind, stateful_bind, getH. cbn.
  destruct (Z.leb_spec 0 (h_fd h s)); [|by split].
  split; cbn in *; [..|by apply kills_ours_snoc|done]; unfold opened, closed_fds, forked, waited in *;
    rewrite !bind_snoc, ?app_nil_r; try done.
  rewrite F, (held_close h s), <- app_assoc by done. done.
Qed.

Lemma close_slot s c :
  h_fd (close_fd s c).2.1 s < 0 /\
  (forall s', h_fd c.1 s' < 0 -> h_fd (close_fd s c).2.1 s' < 0) /\
  h_pid (close_fd s c).2.1 = h_pid c.1 /\ h_reaped (close_fd s c).2.1 = h_reaped c.1 /\
  (close_fd s c).1 = Ok tt.
Proof.
  destruct c as [h o]. unfold close_fd, mbind, stateful_bind, getH. cbn.
  destruct (Z.leb_spec 0 (h_fd h s)); cbn; [|done].
  split; [by rewrite fn_lookup_insert|]. split; [|done].
  intros s' Hs'. destruct (decide (s' = s)) as [->|]; [by rewrite fn_lookup_insert|].
  by rewrite fn_lookup_insert_ne.
Qed.

#[export] Instance keeps_close s : Keeps (close_fd s).
Proof. intros c Hc _. split; [by apply close_accounted|apply close_slot]. Qed.

(** ** The operations *)

Lemma keeps_fuel {A} (f : channel -> nat) (m : nat -> H A) :
  (forall n, Keeps (m n)) -> Keeps (fun c => m (f c) c).
Proof. intros Hm c. apply Hm. Qed.

#[export] Instance keeps_drain_err : Keeps drain_err.
Proof.
  unfold drain_err. apply (keeps_fuel (fun c => S (S (pending err c))) drain_err_loop).
  intros n. induction n as [|n IH]; cbn [drain_err_loop]; [apply _|].
  apply keeps_bind; [apply _|]. intros h. apply keeps_if; [apply _|].
  apply keeps_bind; [apply _|]. intros [b| |[]]; apply _.
Qed.

#[export] Instance keeps_drain_and_reap : Keeps drain_and_reap.
Proof.
  unfold drain_and_reap.
  apply (keeps_fuel (fun c => S (S (pending err c))) drain_and_reap_loop).
  intros n. induction n as [|n IH]; cbn [drain_and_reap_loop]; apply _.
Qed.

Section operations.
Context (utf8_cliplen : bytes -> nat) (strerror : errno -> bytes).

#[export] Instance keeps_report {A} what :
  Keeps (A := A) (report_helper utf8_cliplen strerror what).
Proof. unfold report_helper, helper_error. apply _. Qed.

#[export] Instance keeps_write_all s p : Keeps (write_all s p).
Proof.
  unfold write_all.
  apply (keeps_fuel (fun c => S (length p + length (o_out c.2 s))) (fun n => write_all_loop n s p)).
  intros n. revert p. induction n as [|n IH]; intros p; cbn [write_all_loop]; [apply _|].
  destruct p; [apply _|]. apply keeps_bind; [apply _|]. intros _.
  apply keeps_bind; [apply _|]. intros [[]|]; apply _.
Qed.

#[export] Instance keeps_recv len : Keeps (chdb_helper_recv utf8_cliplen strerror len).
Proof.
  unfold chdb_helper_recv.
  apply (keeps_fuel (fun c => S (S (pending data c)))
    (fun n => recv_loop utf8_cliplen strerror n len)).
  intros n. induction n as [|n IH]; cbn [recv_loop]; [apply _|].
  apply keeps_bind; [apply _|]. intros _.
  apply keeps_bind; [apply _|]. intros [b| |[]]; apply _.
Qed.

#[export] Instance keeps_helper_write p : Keeps (chdb_helper_write utf8_cliplen strerror p).
Proof.
  unfold chdb_helper_write. apply keeps_bind; [apply _|]. intros [e|]; apply _.
Qed.

#[export] Instance keeps_finish : Keeps (chdb_helper_finish utf8_cliplen strerror).
Proof. unfold chdb_helper_finish. apply _. Qed.

#[export] Instance keeps_write_setup p : Keeps (write_setup utf8_cliplen strerror p).
Proof.
  unfold write_setup. apply keeps_bind; [apply _|]. intros [e|]; apply _.
Qed.

End operations.

(** ** From the struct's first moment to its last *)

Section life.
Context (utf8_cliplen : bytes -> nat) (strerror : errno -> bytes).

(** Opening fills two empty slots. *)
Lemma held_open h first second a b :
  first <> second -> h_fd h first < 0 -> h_fd h second < 0 -> 0 <= a -> 0 <= b ->
  held (set_fds (<[second := b]> (<[first := a]> (h_fd h))) h) ≡ₚ a :: b :: held h.
Proof.
  intros Hne H1 H2 Ha Hb. unfold held, slots. cbn [map h_fd set_fds].
  destruct first, second; try done;
    rewrite ?fn_lookup_insert, ?fn_lookup_insert_ne by done;
    rewrite ?fn_lookup_insert, ?fn_lookup_insert_ne by done;
    rewrite !filter_cons; repeat (case_decide; [|try lia]); try lia;
    cbn; try done; solve_Permutation.
Qed.

(** [m] run on [c] keeps the accounts, and [Q] holds of the channel a result
    leaves. *)
Definition keeps_to {A} (m : H A) (c : channel) (Q : channel -> Prop) : Prop :=
  accounted (m c).2 /\ forall a, (m c).1 = Ok a -> Q (m c).2.

Lemma keeps_to_bind {A B} (m : H A) (f : A -> H B) c P Q :
  keeps_to m c P -> (forall a c', P c' -> accounted c' -> keeps_to (f a) c' Q) ->
  keeps_to (m ≫= f) c Q.
Proof.
  intros [Ha Hp] Hf. unfold keeps_to, mbind, stateful_bind in *.
  destruct (m c) as [[a|e|] c'] eqn:Hm; cbn in *; [|done|done].
  apply Hf; [by eapply Hp|done].
Qed.

Lemma keeps_to_keeps {A} (m : H A) c :
  Keeps m -> accounted c -> 0 < h_pid c.1 -> keeps_to m c (fun c' => 0 < h_pid c'.1).
Proof. intros Hm Hc Hp. destruct (Hm c Hc Hp) as [? Heq]. split; [done|]. by rewrite Heq. Qed.

(** A fork gives a positive number. *)
Definition forks (o : os) : Prop := forall pid, o_fork o = inr pid -> 0 < pid.

(** The slots a channel has yet to open, and a kernel that gives descriptors. *)
Definition free (ss : list slot) (c : channel) : Prop :=
  Forall (fun s => h_fd c.1 s < 0) ss /\ fds_valid c.2 /\ h_pid c.1 = -1 /\
  h_reaped c.1 = false /\ forks c.2.

Lemma open_keeps_to first second ss c :
  accounted c -> free (first :: second :: ss) c -> NoDup (first :: second :: ss) ->
  keeps_to (open_channel strerror first second) c (free ss).
Proof.
  intros [F K W X O] (Hfd & Hv & Hpid & Hr & Hfork) Hnd. destruct c as [h o]. cbn in *.
  apply Forall_cons in Hfd as [H1 Hfd]. apply Forall_cons in Hfd as [H2 Hfd].
  apply NoDup_cons in Hnd as [Hn1 Hnd]. apply NoDup_cons in Hnd as [Hn2 Hnd].
  unfold keeps_to, open_channel, mbind, stateful_bind, sys_open. unfold fds_valid in Hv.
  destruct (o_opens o) as [|[e|[a b]] l] eqn:Ho; [by split; [split|]..|].
  apply Forall_cons in Hv as [[Ha Hb] Hl]. cbn. split.
  - split; cbn [fst snd o_log log set_opens]; [| | |by apply kills_ours_snoc|done];
      unfold opened, closed_fds, forked, waited in *; rewrite !bind_snoc, ?app_nil_r; try done.
    rewrite held_open by (done || set_solver). rewrite F. solve_Permutation.
  - intros _ _. split; [|done]. cbn. apply Forall_forall. intros s Hs.
    rewrite Forall_forall in Hfd. rewrite !fn_lookup_insert_ne by set_solver. auto.
Qed.

(** Setting a flag is not in the accounts. *)
Lemma accounted_flag h o fd f : accounted (h, o) -> accounted (h, log (SysSetFlag fd f) o).
Proof.
  intros [F K W X O]. split; cbn; [..|by apply kills_ours_snoc|done];
    unfold opened, closed_fds, forked, waited; by rewrite !bind_snoc, !app_nil_r.
Qed.

Lemma set_flag_free s f c :
  accounted c -> free [] c -> keeps_to (set_flag strerror s f) c (free []).
Proof.
  intros Hc Hfree. destruct c as [h o]. unfold keeps_to, set_flag, mbind, stateful_bind, sys_fcntl.
  assert (Hset : forall l, accounted (h, set_fcntls l o))
    by (intros l; by apply (accounted_same (h, o))).
  destruct (o_fcntls o) as [|[e|] l] eqn:Ho; [rewrite Ho| |].
  - split; [by apply accounted_flag|done].
  - split; [apply Hset|done].
  - cbn. destruct l as [|[e|] l]; (split; [|done]); first [apply Hset|apply accounted_flag, Hset].
Qed.

Lemma start_accounted little pkglib tz ctx query params o :
  fds_valid o -> forks o -> o_log o = [] ->
  let start := chdb_helper_start utf8_cliplen strerror little pkglib tz ctx query params o in
  accounted start.2 /\ (start.1 = Ok tt -> 0 < h_pid start.2.1).
Proof.
  intros Hv Hfork Hlog. unfold chdb_helper_start.
  cut (keeps_to (start_helper utf8_cliplen strerror little pkglib tz ctx query params)
    (fresh_helper query, o) (fun c => 0 < h_pid c.1)).
  { intros [Ha Hp]. split; [done|]. apply Hp. }
  unfold start_helper.
  assert (Hc : accounted (fresh_helper query, o)).
  { split; cbn; rewrite ?Hlog; try done. intros [] ? ? ?; discriminate. }
  apply (keeps_to_bind _ _ _ (fun c => c = (fresh_helper query, o))).
  { unfold keeps_to. by destruct (o_access _). }
  intros _ c -> _. apply (keeps_to_bind _ _ _ (fun c => c = (fresh_helper query, o))).
  { by split. }
  intros payload c -> _.
  assert (H0 : free [data; data_peer; err; err_peer; setup_peer; setup] (fresh_helper query, o)).
  { split; [|done]. repeat constructor. }
  assert (Hnd : NoDup [data; data_peer; err; err_peer; setup_peer; setup])
    by (apply (bool_decide_unpack _); by vm_compute).
  eapply keeps_to_bind; [by apply (open_keeps_to _ _ [err; err_peer; setup_peer; setup])|].
  intros _ c1 H1 Hc1. do 2 (apply NoDup_cons in Hnd as [_ Hnd]).
  eapply keeps_to_bind; [by apply (open_keeps_to _ _ [setup_peer; setup])|].
  intros _ c2 H2 Hc2. do 2 (apply NoDup_cons in Hnd as [_ Hnd]).
  eapply keeps_to_bind; [by apply (open_keeps_to _ _ [])|].
  intros _ c3 H3 Hc3.
  do 6 (eapply keeps_to_bind; [by apply set_flag_free|]; clear dependent c3; intros _ c3 H3 Hc3).
  eapply (keeps_to_bind _ _ _ (fun c => 0 < h_pid c.1)).
  { destruct H3 as (_ & _ & Hpid & Hr & Hf). destruct c3 as [h3 o3]. cbn in *.
    unfold keeps_to. cbn. destruct (o_fork o3) as [e|pid] eqn:Hpid'; [done|].
    apply Hf in Hpid'. split; [|done]. destruct Hc3 as [F K W X O]. cbn in *.
    rewrite Hpid in K. rewrite Hr in W.
    split; cbn; [..|by apply kills_ours_snoc|done]; unfold opened, closed_fds, forked, waited in *;
      rewrite !bind_snoc, ?app_nil_r; [done| |by rewrite Hr].
    rewrite K. by destruct (Z.ltb_spec 0 pid); [|lia]. }
  intros _ c4 Hp4 Hc4. by apply keeps_to_keeps; [apply _| |].
Qed.

(** What the owner of a channel does with it. *)
Inductive op : Type :=
| Recv (len : Z)
| Write (p : bytes)
| Finish.

Definition run_op (x : op) : H unit :=
  match x with
  | Recv len => chdb_helper_recv utf8_cliplen strerror len ;; mret tt
  | Write p => chdb_helper_write utf8_cliplen strerror p
  | Finish => chdb_helper_finish utf8_cliplen strerror
  end.

Fixpoint run_ops (xs : list op) : H unit :=
  match xs with
  | [] => mret tt
  | x :: xs => run_op x ;; run_ops xs
  end.

#[export] Instance keeps_run_ops xs : Keeps (run_ops xs).
Proof.
  induction xs as [|x xs IH]; cbn [run_ops]; [apply _|].
  apply keeps_bind; [|done]. destruct x; cbn [run_op]; apply _.
Qed.

(** A start, what follows it when it succeeds, and the cleanup that follows
    either way. *)
Definition life little pkglib tz ctx query params (xs : list op) (o : os) : channel :=
  let start := chdb_helper_start utf8_cliplen strerror little pkglib tz ctx query params o in
  let c := match start with (Ok _, c) => (run_ops xs c).2 | (_, c) => c end in
  (stop_helper c).2.

(** Closing each of [ss], in order. *)
Fixpoint close_all (ss : list slot) (k : H unit) : H unit :=
  match ss with
  | [] => k
  | s :: ss => close_fd s ;; close_all ss k
  end.

Lemma close_all_run ss k c :
  accounted c ->
  exists c', close_all ss k c = k c' /\ accounted c' /\
    (forall s, s ∈ ss \/ h_fd c.1 s < 0 -> h_fd c'.1 s < 0) /\
    h_pid c'.1 = h_pid c.1 /\ h_reaped c'.1 = h_reaped c.1.
Proof.
  revert c. induction ss as [|s ss IH]; intros c Hc.
  { exists c. split; [done|]. split; [done|]. split; [set_solver|done]. }
  pose proof (close_slot s c) as (Hs & Hkeep & Hpid & Hr & Hok).
  pose proof (close_accounted s c Hc) as Hc1.
  cbn [close_all]. unfold mbind at 1, stateful_bind at 1. destruct (close_fd s c) as [r c1]. cbn in *. subst r.
  destruct (IH c1 Hc1) as (c' & Hrun & Hc' & Hfd & Hpid' & Hr'). exists c'.
  split; [done|]. split; [done|]. split; [|by rewrite Hpid', Hr'].
  intros s' [Hin|Hneg]; [|by apply Hfd; right; apply Hkeep].
  apply elem_of_cons in Hin as [->|Hin]; [by apply Hfd; right|by apply Hfd; left].
Qed.

(** What the cleanup leaves: nothing held, and a process, if there was one,
    waited for. *)
Lemma stop_helper_done c :
  accounted c ->
  let c' := (stop_helper c).2 in
  accounted c' /\ held c'.1 = [] /\ (0 < h_pid c'.1 -> h_reaped c'.1 = true) /\
  h_pid c'.1 = h_pid c.1.
Proof.
  intros Hc. 
  change (stop_helper c) with (close_all slots (h ← getH;
    if (0 <? h_pid h) && negb (h_reaped h) then logH (SysKill (h_pid h)) ;; reap ;; mret tt
    else mret tt) c).
  destruct (close_all_run slots (h ← getH;
    if (0 <? h_pid h) && negb (h_reaped h) then logH (SysKill (h_pid h)) ;; reap ;; mret tt
    else mret tt) c Hc) as ([h o] & -> & Hc1 & Hfd & Hpid & Hr).
  assert (Hheld : forall h', h_fd h' = h_fd h -> held h' = []).
  { intros h' Heq. unfold held, slots. cbn [map]. rewrite Heq, !filter_cons.
    cbn in Hfd. repeat (rewrite decide_False by (apply Z.lt_nge, Hfd; left; set_solver)). done. }
  unfold mbind, stateful_bind, getH, getsS. cbn [fst snd]. cbn in Hpid, Hr.
  destruct (Z.ltb_spec 0 (h_pid h)) as [Hp|Hp]; cbn [andb].
  2: { split; [done|]. split; [by apply Hheld|]. cbn. split; [lia|done]. }
  destruct (h_reaped h) eqn:Hre; cbn [negb andb].
  { split; [done|]. split; [by apply Hheld|]. done. }
  assert (Hkill : accounted (h, log (SysKill (h_pid h)) o)).
  { destruct Hc1 as [F K W X O]. cbn in *. rewrite Hre in W.
    destruct (Z.ltb_spec 0 (h_pid h)); [|lia].
    split; cbn; [unfold opened, closed_fds in *; by rewrite !bind_snoc, !app_nil_r| | | |done].
    - unfold forked in *. rewrite bind_snoc, app_nil_r, K. by destruct (Z.ltb_spec 0 (h_pid h)); [|lia].
    - unfold waited in *. by rewrite bind_snoc, app_nil_r, Hre.
    - apply kills_ours_snoc; [done|]. by intros pid [= <-]. }
  unfold logH, modifyS. cbn [fst snd]. pose proof (proj1 (keeps_reap _ Hkill Hp)) as Hreap. revert Hreap.
  unfold reap. rewrite Hre. destruct (waitpid_loop _) as [failed waits]. cbn. intros Hreap.
  split; [done|]. split; [by apply Hheld|]. done.
Qed.

(** C25. No descriptor and no process outlives its channel: whatever happens,
    from a start that fails half-way to operations that raise, once
    [stop_helper] has run every descriptor that was opened has been closed,
    exactly once; a process that was forked was waited for, exactly once, so
    that none is left as a zombie; and none is signalled after that. *)
Theorem no_leak little pkglib tz ctx query params xs o :
  fds_valid o -> forks o -> o_log o = [] ->
  let l := o_log (life little pkglib tz ctx query params xs o).2 in
  closed_fds l ≡ₚ opened l /\ waited l = forked l /\ kills_ours l.
Proof.
  intros Hv Hf Hl. unfold life.
  pose proof (start_accounted little pkglib tz ctx query params o Hv Hf Hl) as [Hs Hp].
  set (start := chdb_helper_start _ _ _ _ _ _ _ _ o) in *. destruct start as [r c]. cbn in Hs, Hp.
  assert (Hc : accounted (match r with Ok _ => (run_ops xs c).2 | _ => c end)).
  { destruct r as [[]| |]; [|done|done]. by apply keeps_run_ops, Hp. }
  cbv zeta. revert Hc. generalize (match r with Ok _ => (run_ops xs c).2 | _ => c end).
  intros c' Hc. destruct (stop_helper_done c' Hc) as ([F K W X O] & Hh & Hr & _).
  split; [by rewrite F, Hh, app_nil_r|]. split; [|done].
  rewrite K, W. destruct (Z.ltb_spec 0 (h_pid (stop_helper c').2.1)) as [Hpos|Hneg].
  - by rewrite Hr.
  - destruct (h_reaped (stop_helper c').2.1) eqn:Hre; [|done]. specialize (O eq_refl). lia.
Qed.
End life.

(** ** Examples *)

Definition sample_command : chdbHelperContext := HelperContext CHDB_CMD_SELECT 4096 0 0.

Lemma sample_fds_valid : fds_valid sample_os.
Proof. unfold fds_valid. cbn. repeat constructor; lia. Qed.

Lemma start_spec_witness :
  exists c, chdb_helper_start length (fun _ => []) true (b8 "/usr/lib") (b8 "UTC")
    sample_command (b8 "SELECT 1") [] sample_os = (Ok tt, c) /\
    exists pid payload, started sample_os pid (b8 "SELECT 1") payload c /\
      zlen payload = 28.
Proof.
  pose proof (start_spec length (fun _ => []) true (b8 "/usr/lib") (b8 "UTC") sample_command
    (b8 "SELECT 1") [] sample_os sample_fds_valid) as Hs.
  assert (H : exists c, chdb_helper_start length (fun _ => []) true (b8 "/usr/lib") (b8 "UTC")
    sample_command (b8 "SELECT 1") [] sample_os = (Ok tt, c)) by (eexists; vm_compute; reflexivity).
  destruct H as [c H]. exists c. split; [exact H|]. rewrite H in Hs.
  destruct Hs as (pid & payload & _ & Hb & Hstarted). exists pid, payload.
  split; [exact Hstarted|]. vm_compute in Hb. injection Hb as <-. reflexivity.
Defined.

Lemma no_leak_witness :
  let l := o_log (life length (fun _ => []) true (b8 "/usr/lib") (b8 "UTC") sample_command
    (b8 "SELECT 1") [] [Write (b8 "rows"); Recv 100; Finish; Write (b8 "more")] sample_os).2 in
  closed_fds l ≡ₚ opened l /\ waited l = [99] /\ kills_ours l.
Proof.
  intros l. 
  pose proof (no_leak length (fun _ => []) true (b8 "/usr/lib") (b8 "UTC") sample_command
    (b8 "SELECT 1") [] [Write (b8 "rows"); Recv 100; Finish; Write (b8 "more")] sample_os
    sample_fds_valid ltac:(intros pid [= <-]; lia) eq_refl) as (Hc & Hw & Hk).
  split; [exact Hc|]. split; [|exact Hk]. vm_compute. reflexivity.
Defined.
