(* ===== verification/Exec.v ===== *)
(** * Exec: the descriptors the helper starts with

    [exec_helper] of src/helper.c, between the fork and the exec: the table of
    descriptors the child inherits, and how the helper's ends get to standard
    input, output, error and the setup descriptor, even when the backend was
    started with some of those closed. *)

From stdpp Require Import prelude gmap.
From S2P Require Import Prelude Setup.
Local Open Scope Z_scope.

(** What a descriptor refers to. *)
Inductive file : Type :=
| DataPeer | ErrPeer | SetupPeer    (** the helper's ends of its channels *)
| DevNull
| Backend (n : Z).                  (** anything of the backend's own *)

#[export] Instance file_eq_decision : EqDecision file.
Proof. solve_decision. Defined.

(** The table: a file and whether it closes on exec. *)
Abbreviation fdtable := (gmap Z (file * bool)).

(** The kernel's choice of a descriptor at or above a number, or -1. *)
Class Kernel (pick : fdtable -> Z -> Z) : Prop :=
  pick_free t n : pick t n = -1 \/ n <= pick t n /\ t !! pick t n = None.

Definition STDIN_FILENO : Z := 0.
Definition STDOUT_FILENO : Z := 1.
Definition STDERR_FILENO : Z := 2.
Definition CHDB_SETUP_FD : Z := 3.

Section exec.
Context (pick : fdtable -> Z -> Z).

(** [open("/dev/null", O_RDWR)]. *)
Definition open_null (t : fdtable) : Z * fdtable :=
  let fd := pick t 0 in
  if fd <? 0 then (-1, t) else (fd, <[fd := (DevNull, false)]> t).

(** [fcntl(fd, F_DUPFD, low)]. *)
Definition dupfd (t : fdtable) (fd low : Z) : Z * fdtable :=
  match t !! fd with
  | Some (f, _) =>
      let high := pick t low in
      if high <? 0 then (-1, t) else (high, <[high := (f, false)]> t)
  | None => (-1, t)
  end.

Definition reserve_fd (t : fdtable) (fd : Z) : Z * fdtable :=
  if CHDB_SETUP_FD <? fd then (fd, t)
  else let '(high, t) := dupfd t fd 10 in (high, delete fd t).

(** [dup2]; and [fcntl(fd, F_SETFD, 0)], which fails for a closed descriptor. *)
Definition place_fd (t : fdtable) (fd target : Z) : bool * fdtable :=
  match t !! fd with
  | Some (f, _) => (true, <[target := (f, false)]> t)
  | None => (false, t)
  end.

(** The peers' numbers in the struct. *)
Record peers : Type := Peers {
  p_data : Z;
  p_err : Z;
  p_setup : Z;
}.

(** [None] is [_exit(126)]; otherwise the table at the exec. *)
Definition exec_helper (cmd : Z) (p : peers) (t : fdtable) : option fdtable :=
  let '(null, t) := open_null t in
  let '(data_peer, t) := reserve_fd t (p_data p) in
  let '(err_peer, t) := reserve_fd t (p_err p) in
  let '(setup_peer, t) := reserve_fd t (p_setup p) in
  let '(null, t) := reserve_fd t null in
  let insert := bool_decide (cmd = CHDB_CMD_INSERT) in
  let '(ok, t) := place_fd t (if insert then data_peer else null) STDIN_FILENO in
  if negb ok then None else
  let '(ok, t) := place_fd t (if insert then null else data_peer) STDOUT_FILENO in
  if negb ok then None else
  let '(ok, t) := place_fd t err_peer STDERR_FILENO in
  if negb ok then None else
  let '(ok, t) := place_fd t setup_peer CHDB_SETUP_FD in
  if negb ok then None else Some t.

(** [execv] closes what is to be closed. *)
Definition after_exec (t : fdtable) : gmap Z file :=
  fst <$> filter (fun e => e.2.2 = false) t.

(** ** What each step keeps *)

Context `{!Kernel pick}.

(** [ours fd f t]: the descriptor [fd], clear of those the helper takes, is [f]. *)
Definition ours (t : fdtable) (fd : Z) (f : file) : Prop :=
  CHDB_SETUP_FD < fd /\ exists b, t !! fd = Some (f, b).

(** A number that is not open stays unusable until it is given out. *)
Definition reserved (t : fdtable) (fd : Z) (f : file) : Prop := fd = -1 \/ ours t fd f.

Lemma dupfd_spec t fd low f b :
  t !! fd = Some (f, b) ->
  let '(high, t') := dupfd t fd low in
  (high = -1 /\ t' = t) \/
  (low <= high /\ t !! high = None /\ high <> fd /\ t' = <[high := (f, false)]> t).
Proof.
  intros Hfd. unfold dupfd. rewrite Hfd.
  destruct (Z.ltb_spec (pick t low) 0) as [|Hp]; [by left|right].
  destruct (pick_free t low) as [|[Hl Hn]]; [lia|]. split_and!; [done|done|congruence|done].
Qed.

(** Reserving leaves the file at a high number, and every other number as it
    was but for the one it came from and the one it went to. *)
Lemma reserve_fd_spec t fd f b :
  t !! fd = Some (f, b) ->
  let '(high, t') := reserve_fd t fd in
  reserved t' high f /\
  (forall n, n <> fd -> n <> high -> t' !! n = t !! n) /\
  (high = fd \/ t !! high = None \/ high = -1).
Proof.
  intros Hfd. unfold reserve_fd. destruct (Z.ltb_spec CHDB_SETUP_FD fd) as [Hlt|Hle].
  - split; [right; split; [done|eauto]|]. split; [done|by left].
  - pose proof (dupfd_spec t fd 10 f b Hfd) as Hd. destruct (dupfd t fd 10) as [high t'].
    destruct Hd as [[-> ->]|(Hl & Hn & Hne & ->)].
    + split; [by left|]. split; [|by right; right]. intros n Hn _. by rewrite lookup_delete_ne.
    + unfold CHDB_SETUP_FD in *. split.
      * right. split; [unfold CHDB_SETUP_FD; lia|]. exists false.
        rewrite lookup_delete_ne, lookup_insert_eq by lia. done.
      * split; [|by right; left]. intros n H1 H2.
        by rewrite lookup_delete_ne, lookup_insert_ne.
Qed.

(** Descriptors are not negative. *)
Definition nonneg (t : fdtable) : Prop := forall n, n < 0 -> t !! n = None.

(** The files a table may hold when it started from [t]. *)
Definition grown (t t' : fdtable) : Prop :=
  forall n f b, t' !! n = Some (f, b) ->
    t !! n = Some (f, b) \/ (b = false /\ f ∈ [DataPeer; ErrPeer; SetupPeer; DevNull]).

Lemma grown_insert t t' n f :
  f ∈ [DataPeer; ErrPeer; SetupPeer; DevNull] -> grown t t' -> grown t (<[n := (f, false)]> t').
Proof.
  intros Hf Hg m g b [[-> [= <- <-]]|[Hne Hm]]%lookup_insert_Some; [by right|by apply Hg].
Qed.

(** One more descriptor reserved: [high] holds the file, clear of the standard
    ones, and no other descriptor changed hands. *)
Lemma reserve_step t0 t fd f b :
  f ∈ [DataPeer; ErrPeer; SetupPeer; DevNull] -> nonneg t -> grown t0 t ->
  t !! fd = Some (f, b) ->
  let '(high, t') := reserve_fd t fd in
  nonneg t' /\ grown t0 t' /\ reserved t' high f /\
  (forall n x, n <> fd -> t !! n = Some x -> t' !! n = Some x /\ n <> high).
Proof.
  intros Hf Hnn Hg Hfd. pose proof (reserve_fd_spec t fd f b Hfd) as Hspec.
  assert (0 <= fd) as Hpos.
  { destruct (Z.ltb_spec fd 0) as [Hlt|]; [|done]. rewrite (Hnn fd Hlt) in Hfd. done. }
  destruct (reserve_fd t fd) as [high t'] eqn:Hres. destruct Hspec as (Hr & Hother & Hhigh).
  assert (Hg' : grown t0 t' /\ nonneg t').
  { unfold reserve_fd, dupfd in Hres. rewrite Hfd in Hres.
    destruct (CHDB_SETUP_FD <? fd); [by injection Hres as <- <-|].
    destruct (Z.ltb_spec (pick t 10) 0); injection Hres as <- <-.
    - split; [|intros n Hn; rewrite lookup_delete_None; auto].
      intros n g b' [_ Hn]%lookup_delete_Some. by apply Hg.
    - split.
      + intros n g b' [_ Hn]%lookup_delete_Some.
        by apply (grown_insert t0 t (pick t 10) f Hf Hg) in Hn.
      + intros n Hn. rewrite lookup_delete_None. right. rewrite lookup_insert_ne by lia. auto. }
  split; [apply Hg'|]. split; [apply Hg'|]. split; [done|].
  intros n x Hne Hn. assert (n <> high) as Hnh.
  { intros ->. destruct Hhigh as [->|[Hnone| ->]]; [done|congruence|].
    rewrite (Hnn (-1)) in Hn by lia. done. }
  split; [|done]. by rewrite Hother.
Qed.

(** Placing a reserved file succeeds only when there is one. *)
Lemma place_step t0 t fd f target :
  f ∈ [DataPeer; ErrPeer; SetupPeer; DevNull] -> 0 <= target <= CHDB_SETUP_FD ->
  nonneg t -> grown t0 t -> reserved t fd f ->
  let '(ok, t') := place_fd t fd target in
  ok = true ->
  t' = <[target := (f, false)]> t /\ nonneg t' /\ grown t0 t' /\ ours t fd f.
Proof.
  intros Hf Ht Hnn Hg [->|Ho]; unfold place_fd.
  - rewrite (Hnn (-1)) by lia. done.
  - destruct Ho as [Hlt [b Hfd]]. rewrite Hfd. intros _. split; [done|]. split.
    + intros n Hn. rewrite lookup_insert_ne by lia. auto.
    + split; [by apply grown_insert|]. split; [done|eauto].
Qed.

Lemma reserved_insert t fd f target x :
  target <= CHDB_SETUP_FD -> reserved t fd f -> reserved (<[target := x]> t) fd f.
Proof.
  intros Ht [->|[Hlt [b Hfd]]]; [by left|right]. split; [done|]. exists b.
  by rewrite lookup_insert_ne by lia.
Qed.

(** A reserved file is not touched by a step that keeps open descriptors. *)
Lemma reserved_kept t t' fd high f :
  (forall n x, n <> fd -> t !! n = Some x -> t' !! n = Some x /\ n <> high) ->
  forall n, n <> fd -> reserved t n f -> reserved t' n f.
Proof.
  intros Hk n Hn [->|[Hlt [b Hb]]]; [by left|right]. split; [done|].
  exists b. by apply (Hk n (f, b)).
Qed.

(** The files of the standard descriptors, for a command. *)
Definition stdio (cmd : Z) : list file :=
  if bool_decide (cmd = CHDB_CMD_INSERT) then [DataPeer; DevNull; ErrPeer; SetupPeer]
  else [DevNull; DataPeer; ErrPeer; SetupPeer].

(** The four reservations: every number is the file's or unusable, and no two
    meet. *)
Lemma reservations p t :
  nonneg t -> NoDup [p_data p; p_err p; p_setup p] ->
  t !! p_data p = Some (DataPeer, false) -> t !! p_err p = Some (ErrPeer, false) ->
  t !! p_setup p = Some (SetupPeer, false) ->
  let '(null, t1) := open_null t in
  let '(d, t2) := reserve_fd t1 (p_data p) in
  let '(e, t3) := reserve_fd t2 (p_err p) in
  let '(s, t4) := reserve_fd t3 (p_setup p) in
  let '(n, t5) := reserve_fd t4 null in
  nonneg t5 /\ grown t t5 /\ reserved t5 d DataPeer /\ reserved t5 e ErrPeer /\
  reserved t5 s SetupPeer /\ reserved t5 n DevNull.
Proof.
  intros Hnn Hnd Hd He Hs.
  assert (p_data p <> p_err p /\ p_data p <> p_setup p /\ p_err p <> p_setup p) as (N1 & N2 & N3).
  { repeat apply NoDup_cons in Hnd as [? Hnd]. set_solver. }
  assert (Hg : grown t t) by (intros n f b; by left).
  (* /dev/null: a number of its own, or none *)
  assert (Hnull : let '(null, t1) := open_null t in
    nonneg t1 /\ grown t t1 /\ (null = -1 \/ t1 !! null = Some (DevNull, false) /\ t !! null = None) /\
    (forall n x, t !! n = Some x -> t1 !! n = Some x /\ n <> null)).
  { unfold open_null. destruct (Z.ltb_spec (pick t 0) 0).
    - split; [done|]. split; [done|]. split; [by left|]. intros n x Hn. split; [done|].
      intros ->. rewrite Hnn in Hn by lia. done.
    - destruct (pick_free t 0) as [|[_ Hfree]]; [lia|]. split.
      { intros n Hn. rewrite lookup_insert_ne by lia. auto. }
      split; [apply grown_insert; [set_solver|done]|]. split.
      { right. by rewrite lookup_insert_eq. }
      intros n x Hn. assert (n <> pick t 0) by congruence. by rewrite lookup_insert_ne. }
  destruct (open_null t) as [null t1]. destruct Hnull as (Hnn1 & Hg1 & Hnull & Hk0).
  assert (Hne : forall n x, t !! n = Some x -> n <> null) by (intros n x Hn; by apply (Hk0 n x)).
  pose proof (Hne _ _ Hd) as M1. pose proof (Hne _ _ He) as M2. pose proof (Hne _ _ Hs) as M3.
  apply Hk0 in Hd as [Hd _], He as [He _], Hs as [Hs _].
  pose proof (reserve_step t t1 _ DataPeer false ltac:(set_solver) Hnn1 Hg1 Hd) as Hr1.
  destruct (reserve_fd t1 (p_data p)) as [d t2]. destruct Hr1 as (Hnn2 & Hg2 & Rd & Hk1).
  destruct (Hk1 _ _ (not_eq_sym N1) He) as [He1 Hed], (Hk1 _ _ (not_eq_sym N2) Hs) as [Hs1 Hsd].
  pose proof (reserve_step t t2 _ ErrPeer false ltac:(set_solver) Hnn2 Hg2 He1) as Hr2.
  destruct (reserve_fd t2 (p_err p)) as [e t3]. destruct Hr2 as (Hnn3 & Hg3 & Re & Hk2).
  destruct (Hk2 _ _ (not_eq_sym N3) Hs1) as [Hs2 Hse].
  pose proof (reserve_step t t3 _ SetupPeer false ltac:(set_solver) Hnn3 Hg3 Hs2) as Hr3.
  destruct (reserve_fd t3 (p_setup p)) as [s t4]. destruct Hr3 as (Hnn4 & Hg4 & Rs & Hk3).
  assert (Rd4 : reserved t4 d DataPeer)
    by (eapply reserved_kept; [exact Hk3|done|]; eapply reserved_kept; [exact Hk2|done|done]).
  assert (Re4 : reserved t4 e ErrPeer) by (eapply reserved_kept; [exact Hk3|done|done]).
  destruct Hnull as [->|[Hnull _]].
  { (* no /dev/null *)
    unfold reserve_fd, dupfd. cbn. rewrite (Hnn4 (-1)) by lia.
    rewrite delete_id by (apply Hnn4; lia). split_and!; try done. by left. }
  destruct (Hk1 _ _ (not_eq_sym M1) Hnull) as [Hn2 Hnd2].
  destruct (Hk2 _ _ (not_eq_sym M2) Hn2) as [Hn3 Hne3].
  destruct (Hk3 _ _ (not_eq_sym M3) Hn3) as [Hn4 Hns4].
  pose proof (reserve_step t t4 _ DevNull false ltac:(set_solver) Hnn4 Hg4 Hn4) as Hr4.
  destruct (reserve_fd t4 null) as [n t5]. destruct Hr4 as (Hnn5 & Hg5 & Rn & Hk4).
  split_and!; try done; (eapply reserved_kept; [exact Hk4|done|done]).
Qed.
(** Four files placed in turn. *)
Lemma placed t0 t a b c d fa fb fc fd t' :
  (forall f, f ∈ [fa; fb; fc; fd] -> f ∈ [DataPeer; ErrPeer; SetupPeer; DevNull]) ->
  nonneg t -> grown t0 t ->
  reserved t a fa -> reserved t b fb -> reserved t c fc -> reserved t d fd ->
  (let '(ok, t) := place_fd t a STDIN_FILENO in
   if negb ok then None else
   let '(ok, t) := place_fd t b STDOUT_FILENO in
   if negb ok then None else
   let '(ok, t) := place_fd t c STDERR_FILENO in
   if negb ok then None else
   let '(ok, t) := place_fd t d CHDB_SETUP_FD in
   if negb ok then None else Some t) = Some t' ->
  grown t0 t' /\
  forall i f, [fa; fb; fc; fd] !! i = Some f -> t' !! Z.of_nat i = Some (f, false).
Proof.
  intros HF Hnn Hg Ra Rb Rc Rd.
  unfold STDIN_FILENO, STDOUT_FILENO, STDERR_FILENO, CHDB_SETUP_FD.
  pose proof (place_step t0 t a fa 0 (HF fa ltac:(set_solver)) ltac:(done) Hnn Hg Ra) as P1.
  destruct (place_fd t a 0) as [[] t1]; cbn [negb]; [|done].
  destruct (P1 eq_refl) as (E1 & Hnn1 & Hg1 & _).
  assert (reserved t1 b fb /\ reserved t1 c fc /\ reserved t1 d fd) as (Rb1 & Rc1 & Rd1)
    by (subst t1; split_and!; by apply reserved_insert).
  pose proof (place_step t0 t1 b fb 1 (HF fb ltac:(set_solver)) ltac:(done) Hnn1 Hg1 Rb1) as P2.
  destruct (place_fd t1 b 1) as [[] t2]; cbn [negb]; [|done].
  destruct (P2 eq_refl) as (E2 & Hnn2 & Hg2 & _).
  assert (reserved t2 c fc /\ reserved t2 d fd) as (Rc2 & Rd2)
    by (subst t2; split_and!; by apply reserved_insert).
  pose proof (place_step t0 t2 c fc 2 (HF fc ltac:(set_solver)) ltac:(done) Hnn2 Hg2 Rc2) as P3.
  destruct (place_fd t2 c 2) as [[] t3]; cbn [negb]; [|done].
  destruct (P3 eq_refl) as (E3 & Hnn3 & Hg3 & _).
  assert (Rd3 : reserved t3 d fd) by (subst t3; by apply reserved_insert).
  pose proof (place_step t0 t3 d fd 3 (HF fd ltac:(set_solver)) ltac:(done) Hnn3 Hg3 Rd3) as P4.
  destruct (place_fd t3 d 3) as [[] t4]; cbn [negb]; [|done].
  destruct (P4 eq_refl) as (E4 & _ & Hg4 & _). intros [= <-]. split; [done|].
  intros [|[|[|[|[]]]]] f [= <-]; subst t4 t3 t2 t1; cbn;
    repeat (rewrite lookup_insert_eq || rewrite lookup_insert_ne by done); done.
Qed.

Lemma after_exec_Some t n f : after_exec t !! n = Some f <-> t !! n = Some (f, false).
Proof.
  unfold after_exec. rewrite lookup_fmap, fmap_Some. split.
  - intros ([g b] & [Hn Hb]%map_lookup_filter_Some & ->). cbn in *. by subst b.
  - intros Hn. exists (f, false). split; [|done]. by apply map_lookup_filter_Some.
Qed.

(** C31. When the child reaches the exec at all, its standard input, output,
    error and the setup descriptor are the ends meant for the command, whatever
    numbers the channels had been given, the standard ones included; and the
    program it becomes holds nothing else of the backend than what the backend
    itself leaves open across an exec, none of it on those four numbers. *)
Theorem exec_table cmd p t t' :
  nonneg t -> NoDup [p_data p; p_err p; p_setup p] ->
  t !! p_data p = Some (DataPeer, false) -> t !! p_err p = Some (ErrPeer, false) ->
  t !! p_setup p = Some (SetupPeer, false) ->
  exec_helper cmd p t = Some t' ->
  (forall i f, stdio cmd !! i = Some f -> after_exec t' !! Z.of_nat i = Some f) /\
  (forall n k, after_exec t' !! n = Some (Backend k) -> CHDB_SETUP_FD < n) /\
  (forall n k, after_exec t' !! n = Some (Backend k) -> after_exec t !! n = Some (Backend k)).
Proof.
  intros Hnn Hnd Hd He Hs. pose proof (reservations p t Hnn Hnd Hd He Hs) as HR.
  unfold exec_helper. destruct (open_null t) as [null t1].
  destruct (reserve_fd t1 (p_data p)) as [d t2], (reserve_fd t2 (p_err p)) as [e t3],
    (reserve_fd t3 (p_setup p)) as [s t4], (reserve_fd t4 null) as [n t5].
  destruct HR as (Hnn5 & Hg5 & Rd & Re & Rs & Rn). intros Hplace.
  assert (Hall : grown t t' /\
    forall i f, stdio cmd !! i = Some f -> t' !! Z.of_nat i = Some (f, false)).
  { unfold stdio. destruct (bool_decide (cmd = CHDB_CMD_INSERT)).
    - by apply (placed t t5 d n e s DataPeer DevNull ErrPeer SetupPeer t'); [set_solver|..].
    - by apply (placed t t5 n d e s DevNull DataPeer ErrPeer SetupPeer t'); [set_solver|..]. }
  destruct Hall as [Hg Hstd]. split; [|split].
  - intros i f Hi. apply after_exec_Some. auto.
  - intros m k Hm%after_exec_Some. destruct (Z.ltb_spec CHDB_SETUP_FD m) as [|Hle]; [done|].
    destruct (Z.ltb_spec m 0) as [Hneg|Hpos]; exfalso.
    { destruct (Hg _ _ _ Hm) as [Ht|[_ Hin]]; [|set_solver]. by rewrite (Hnn m Hneg) in Ht. }
    destruct (lookup_lt_is_Some_2 (stdio cmd) (Z.to_nat m)) as [f Hf].
    { unfold stdio, CHDB_SETUP_FD in *. destruct (bool_decide _); cbn; lia. }
    pose proof (Hstd _ _ Hf) as Hm'. rewrite Z2Nat.id, Hm in Hm' by done. injection Hm' as <-.
    apply list_elem_of_lookup_2 in Hf. revert Hf. unfold stdio.
    destruct (bool_decide _); set_solver.
  - intros m k Hm%after_exec_Some. apply after_exec_Some.
    destruct (Hg _ _ _ Hm) as [|[_ Hin]]; [done|]. set_solver.
Qed.
End exec.

(** ** A concrete run *)

(** The lowest free number, as POSIX says. *)
Fixpoint lowest (fuel : nat) (t : fdtable) (n : Z) : Z :=
  match fuel with
  | O => -1
  | S fuel => match t !! n with None => n | Some _ => lowest fuel t (n + 1) end
  end.

Definition posix_pick (t : fdtable) (n : Z) : Z := lowest 64 t (Z.max 0 n).

#[export] Instance posix_kernel : Kernel posix_pick.
Proof.
  assert (Hl : forall fuel t m, lowest fuel t m = -1 \/
    m <= lowest fuel t m /\ t !! lowest fuel t m = None).
  { induction fuel as [|fuel IH]; intros t m; cbn; [by left|].
    destruct (t !! m) eqn:Hm; [|right; split; [lia|done]].
    destruct (IH t (m + 1)) as [|[]]; [by left|right; split; [lia|done]]. }
  intros t n. unfold posix_pick. destruct (Hl 64%nat t (Z.max 0 n)) as [|[]]; [by left|].
  right. split; [lia|done].
Qed.

(** A backend whose standard input and output were closed at the start, so that
    the data channel's two ends took their numbers. *)
Definition closed_stdio : fdtable :=
  <[0 := (Backend 0, true)]> (<[1 := (DataPeer, false)]> (<[2 := (Backend 2, false)]> (
  <[3 := (Backend 3, true)]> (<[4 := (ErrPeer, false)]> (<[5 := (Backend 5, true)]> (
  <[6 := (SetupPeer, false)]> (<[9 := (Backend 9, false)]> ∅))))))).

Definition closed_peers : peers := Peers 1 4 6.

(** The table the helper's program starts with there, where there is one. *)
Definition closed_run : option (gmap Z file) :=
  after_exec <$> exec_helper posix_pick CHDB_CMD_SELECT closed_peers closed_stdio.

Example closed_run_table :
  closed_run =
  Some (<[0 := DevNull]> (<[1 := DataPeer]> (<[2 := ErrPeer]> (<[3 := SetupPeer]> (
    <[4 := ErrPeer]> (<[6 := SetupPeer]> (<[7 := DevNull]> (<[9 := Backend 9]> (
    <[10 := DataPeer]> ∅))))))))).
Proof. vm_compute. reflexivity. Qed.

Lemma exec_table_witness :
  exists t', exec_helper posix_pick CHDB_CMD_SELECT closed_peers closed_stdio = Some t' /\
  forall i f, stdio CHDB_CMD_SELECT !! i = Some f -> after_exec t' !! Z.of_nat i = Some f.
Proof.
  destruct (exec_helper posix_pick CHDB_CMD_SELECT closed_peers closed_stdio) as [t'|] eqn:Hrun;
    [|vm_compute in Hrun; discriminate Hrun].
  exists t'. split; [reflexivity|].
  assert (Hnn : nonneg closed_stdio).
  { intros n Hn. unfold closed_stdio. by repeat (rewrite lookup_insert_ne by lia). }
  refine (proj1 (exec_table posix_pick CHDB_CMD_SELECT closed_peers closed_stdio t'
    Hnn _ _ _ _ Hrun)); [|reflexivity..].
  apply (bool_decide_unpack _). vm_compute. exact I.
Defined.
