(* ===== verification/Chdb.v ===== *)
(** * Chdb: what the helper program asks of libchdb and the kernel

    The surroundings of src/helper/chdb_helper.c. libchdb is not modelled: what
    it answers is part of the state, in the order the answers are given, and
    arbitrary. What is kept track of is the life of its objects, so that a use
    or a second destruction of a destroyed object is undefined behaviour, and
    the calls that make it do something, as a list. *)

From stdpp Require Import prelude gmap.
From S2P Require Import Prelude Stateful Pipe.
Local Open Scope Z_scope.

(** A result's error, if it is one, and its buffer. *)
Abbreviation answer := (option bytes * bytes)%type.

Inductive object : Type :=
| Connection
| Result (a : answer)
| InsertStream (error : option bytes).

Abbreviation params := (list (bytes * bytes)).

Inductive call : Type :=
| CallQuery (sql : bytes)
| CallQueryWithParams (sql : bytes) (ps : params)
| CallStreamQuery (sql : bytes) (ps : params)
| CallStreamInsert (sql : bytes) (ps : params)
| CallAppend (b : bytes)
| CallDone
| CallCancelQuery
| CallCancelInsert.

#[export] Instance call_eq_decision : EqDecision call.
Proof. solve_decision. Defined.

Record proc : Type := Proc {
  pr_setup : pipe;                       (** CHDB_SETUP_FD *)
  pr_stdin : pipe;
  pr_writes : list wstep;                (** how writes to stdout go *)
  pr_stdout : bytes;                     (** what they delivered *)
  pr_stderr : bytes;
  pr_connects : bool;                    (** chdb_connect gives a connection *)
  pr_answers : list answer;              (** the results, in order; then empty ones *)
  pr_insert : option bytes;              (** the error of the insert stream *)
  pr_appends : list (option (option bytes)); (** failed appends, with their errors *)
  pr_objects : gmap nat object;          (** those alive *)
  pr_calls : list call;
}.

Definition set_setup (v : pipe) (s : proc) : proc :=
  Proc v (pr_stdin s) (pr_writes s) (pr_stdout s) (pr_stderr s) (pr_connects s) (pr_answers s)
    (pr_insert s) (pr_appends s) (pr_objects s) (pr_calls s).
Definition set_stdin (v : pipe) (s : proc) : proc :=
  Proc (pr_setup s) v (pr_writes s) (pr_stdout s) (pr_stderr s) (pr_connects s) (pr_answers s)
    (pr_insert s) (pr_appends s) (pr_objects s) (pr_calls s).
Definition set_stdout (l : list wstep) (v : bytes) (s : proc) : proc :=
  Proc (pr_setup s) (pr_stdin s) l v (pr_stderr s) (pr_connects s) (pr_answers s)
    (pr_insert s) (pr_appends s) (pr_objects s) (pr_calls s).
Definition set_stderr (v : bytes) (s : proc) : proc :=
  Proc (pr_setup s) (pr_stdin s) (pr_writes s) (pr_stdout s) v (pr_connects s) (pr_answers s)
    (pr_insert s) (pr_appends s) (pr_objects s) (pr_calls s).
Definition set_answers (v : list answer) (s : proc) : proc :=
  Proc (pr_setup s) (pr_stdin s) (pr_writes s) (pr_stdout s) (pr_stderr s) (pr_connects s) v
    (pr_insert s) (pr_appends s) (pr_objects s) (pr_calls s).
Definition set_appends (v : list (option (option bytes))) (s : proc) : proc :=
  Proc (pr_setup s) (pr_stdin s) (pr_writes s) (pr_stdout s) (pr_stderr s) (pr_connects s)
    (pr_answers s) (pr_insert s) v (pr_objects s) (pr_calls s).
Definition set_objects (v : gmap nat object) (s : proc) : proc :=
  Proc (pr_setup s) (pr_stdin s) (pr_writes s) (pr_stdout s) (pr_stderr s) (pr_connects s)
    (pr_answers s) (pr_insert s) (pr_appends s) v (pr_calls s).
Definition add_call (c : call) (s : proc) : proc :=
  Proc (pr_setup s) (pr_stdin s) (pr_writes s) (pr_stdout s) (pr_stderr s) (pr_connects s)
    (pr_answers s) (pr_insert s) (pr_appends s) (pr_objects s) (pr_calls s ++ [c]).

(** A run that fails has exited, with a status. *)
Abbreviation P := (stateful proc Z).

(** ** Objects *)

Definition create (o : object) : P nat := fun s =>
  let id := fresh (dom (pr_objects s)) in (Ok id, set_objects (<[id := o]> (pr_objects s)) s).

(** What is alive under a handle. *)
Definition object_of (id : nat) : P object := fun s =>
  (or_ub (pr_objects s !! id), s).

Definition destroy (id : nat) : P unit :=
  object_of id ;; modifyS (fun s => set_objects (delete id (pr_objects s)) s).

(** ** libchdb *)

(** A result, with the next answer. *)
Definition next_result (c : call) : P nat :=
  modifyS (add_call c) ;;
  a ← getsS (fun s => default (None, []) (head (pr_answers s)));
  modifyS (fun s => set_answers (tail (pr_answers s)) s) ;;
  create (Result a).

Definition the_connection (conn : nat) : P unit :=
  o ← object_of conn;
  match o with Connection => mret tt | _ => liftS UB end.

Definition the_result (id : nat) : P answer :=
  o ← object_of id;
  match o with Result a => mret a | _ => liftS UB end.

Definition the_insert (id : nat) : P (option bytes) :=
  o ← object_of id;
  match o with InsertStream e => mret e | _ => liftS UB end.

Definition chdb_connect : P (option nat) :=
  ok ← getsS pr_connects;
  if (ok : bool) then id ← create Connection; mret (Some id) else mret None.
Definition chdb_close_conn (conn : nat) : P unit := the_connection conn ;; destroy conn.

Definition chdb_query (conn : nat) (sql : bytes) : P nat :=
  the_connection conn ;; next_result (CallQuery sql).
Definition chdb_query_with_params_n (conn : nat) (sql : bytes) (ps : params) : P nat :=
  the_connection conn ;; next_result (CallQueryWithParams sql ps).
Definition chdb_stream_query_with_params_n (conn : nat) (sql : bytes) (ps : params) : P nat :=
  the_connection conn ;; next_result (CallStreamQuery sql ps).

(** Fetching is not recorded: the answers tell. *)
Definition chdb_stream_fetch_result (conn stream : nat) : P nat :=
  the_connection conn ;; the_result stream ;;
  a ← getsS (fun s => default (None, []) (head (pr_answers s)));
  modifyS (fun s => set_answers (tail (pr_answers s)) s) ;;
  create (Result a).
Definition chdb_stream_cancel_query (conn stream : nat) : P unit :=
  the_connection conn ;; the_result stream ;; modifyS (add_call CallCancelQuery).

Definition chdb_result_error (id : nat) : P (option bytes) := a ← the_result id; mret a.1.
Definition chdb_result_buffer (id : nat) : P bytes := a ← the_result id; mret a.2.
Definition chdb_result_length (id : nat) : P Z := a ← the_result id; mret (zlen a.2).
Definition chdb_destroy_query_result (id : nat) : P unit := the_result id ;; destroy id.

Definition chdb_stream_insert_with_params_n (conn : nat) (sql : bytes) (ps : params) : P nat :=
  the_connection conn ;;
  modifyS (add_call (CallStreamInsert sql ps)) ;;
  e ← getsS pr_insert;
  create (InsertStream e).
Definition chdb_stream_insert_error (id : nat) : P (option bytes) := the_insert id.

(** [true] is CHDBSuccess. *)
Definition chdb_stream_append (id : nat) (b : bytes) : P bool :=
  the_insert id ;;
  modifyS (add_call (CallAppend b)) ;;
  a ← getsS (fun s => default None (head (pr_appends s)));
  modifyS (fun s => set_appends (tail (pr_appends s)) s) ;;
  match a with
  | None => mret true
  | Some e => modifyS (fun s => set_objects (<[id := InsertStream e]> (pr_objects s)) s) ;; mret false
  end.
Definition chdb_stream_done (id : nat) : P nat := the_insert id ;; next_result CallDone.
Definition chdb_stream_cancel_insert (id : nat) : P unit :=
  the_insert id ;; modifyS (add_call CallCancelInsert).
Definition chdb_destroy_insert_stream (id : nat) : P unit := the_insert id ;; destroy id.

(** ** The kernel *)

Definition read_stdin (n : Z) : P sysread := fun s =>
  let '(r, p) := read_fd (pr_stdin s) n in (Ok r, set_stdin p s).

Definition write_stdout (b : bytes) : P (errno + nat) := fun s =>
  let '(r, l) := write_fd (pr_writes s) b in
  let sent := match r with inl _ => [] | inr n => take n b end in
  (Ok r, set_stdout l (pr_stdout s ++ sent) s).

(** A line on stderr: [fprintf(stderr, "%s\n", what)]. *)
Definition eprint (what : bytes) : P unit :=
  modifyS (fun s => set_stderr (pr_stderr s ++ what ++ [NEWLINE]) s).
