(* ===== verification/HelperProc.v ===== *)
(** * HelperProc: the helper program

    src/helper/chdb_helper.c from [write_all] on, over the surroundings of
    Chdb. The reading of the setup payload is in Setup and SetupReader. *)

From stdpp Require Import prelude gmap.
From S2P Require Import Prelude Words CString Stateful Pipe Setup SetupReader Chdb.
Local Open Scope Z_scope.

Definition CHDB_HELPER_IO_BYTES : Z := 256 * 1024.
Definition EXIT_SUCCESS : Z := 0.
Definition EXIT_FAILURE : Z := 1.

Definition fail {A} (what : bytes) : P A := eprint what ;; liftS (Raise 1).

(** A step that may [fail]. *)
Definition checked {A} (r : res bytes A) : P A :=
  match r with Ok a => mret a | Raise what => fail what | UB => liftS UB end.

(** ** Output *)

Fixpoint write_all_loop (fuel : nat) (p : bytes) : P bool :=
  match fuel with
  | O => liftS UB
  | S fuel =>
      match p with
      | [] => mret true
      | _ =>
          put ← write_stdout p;
          match put with
          | inr n => write_all_loop fuel (drop n p)
          | inl EINTR => write_all_loop fuel p
          | inl _ => mret false
          end
      end
  end.

(** [false] once the backend has gone. *)
Definition write_all (p : bytes) : P bool := fun s =>
  write_all_loop (S (length p + length (pr_writes s))) p s.

(** ** COPY FROM *)

Fixpoint select_loop (fuel : nat) (conn stream : nat) : P Z :=
  match fuel with
  | O => liftS UB
  | S fuel =>
      chunk ← chdb_stream_fetch_result conn stream;
      chunk_error ← chdb_result_error chunk;
      match chunk_error with
      | Some e =>
          eprint e ;; chdb_destroy_query_result chunk ;; mret EXIT_FAILURE
      | None =>
          len ← chdb_result_length chunk;
          if 0 <? len then
            buffer ← chdb_result_buffer chunk;
            ok ← write_all buffer;
            if (ok : bool) then
              chdb_destroy_query_result chunk ;; select_loop fuel conn stream
            else
              chdb_destroy_query_result chunk ;; mret CHDB_HELPER_LOST_BACKEND
          else chdb_destroy_query_result chunk ;; mret EXIT_SUCCESS
      end
  end.

Definition run_select (conn : nat) (query : bytes) (par : params) : P Z :=
  stream ← chdb_stream_query_with_params_n conn query par;
  error ← chdb_result_error stream;
  match error with
  | Some e => eprint e ;; chdb_destroy_query_result stream ;; mret EXIT_FAILURE
  | None =>
      status ← (fun s => select_loop (S (length (pr_answers s))) conn stream s);
      (if status =? 0 then mret tt else chdb_stream_cancel_query conn stream) ;;
      chdb_destroy_query_result stream ;;
      mret status
  end.

(** ** DESCRIBE *)

Definition run_query (conn : nat) (query : bytes) (par : params) : P Z :=
  result ← chdb_query_with_params_n conn query par;
  error ← chdb_result_error result;
  status ← match error with
           | Some e => eprint e ;; mret 1
           | None =>
               len ← chdb_result_length result;
               if 0 <? len then
                 buffer ← chdb_result_buffer result;
                 ok ← write_all buffer;
                 mret (if (ok : bool) then 0 else CHDB_HELPER_LOST_BACKEND)
               else mret 0
           end;
  chdb_destroy_query_result result ;;
  mret status.

(** ** COPY TO *)

(** The loop: [None] is the end of the input, otherwise the status it returns
    with. *)
Fixpoint insert_loop (fuel : nat) (stream : nat) : P (option Z) :=
  match fuel with
  | O => liftS UB
  | S fuel =>
      got ← read_stdin CHDB_HELPER_IO_BYTES;
      match got with
      | REof => mret None
      | RError EINTR => insert_loop fuel stream
      | RError _ =>
          chdb_stream_cancel_insert stream ;;
          chdb_destroy_insert_stream stream ;;
          mret (Some CHDB_HELPER_LOST_BACKEND)
      | RBytes b =>
          ok ← chdb_stream_append stream b;
          if (ok : bool) then insert_loop fuel stream
          else
            error ← chdb_stream_insert_error stream;
            eprint (default (b8 "chdb: append failed") error) ;;
            chdb_stream_cancel_insert stream ;;
            chdb_destroy_insert_stream stream ;;
            mret (Some 1)
      end
  end.

(** ** The program *)

Definition session_format (max_mem max_threads max_parsers : Z) (timezone : bytes) : bytes :=
  b8 "SET allow_experimental_nullable_tuple_type,"
  ++ b8 "output_format_json_quote_denormals,"
  ++ b8 "output_format_native_write_json_as_string,"
  ++ b8 "output_format_native_encode_types_in_binary_format=0,"
  ++ b8 "date_time_output_format='iso',"
  ++ b8 "max_threads=" ++ fmt_d max_threads ++ b8 ",max_parsing_threads=" ++ fmt_d max_parsers
  ++ b8 ",max_memory_usage=" ++ fmt_d (u64 (u64 (max_mem * 1024) * 1024))
  ++ b8 ",session_timezone='" ++ cstr timezone ++ b8 "'".

(** [snprintf(settings, 1024, ...)]. *)
Definition session_settings (max_mem max_threads max_parsers : Z) (timezone : bytes) : bytes :=
  take (Z.to_nat 1023) (session_format max_mem max_threads max_parsers timezone).

Definition setup_session (conn : nat) (max_mem max_threads max_parsers : Z) (timezone : bytes)
    : P Z :=
  res ← chdb_query conn (session_settings max_mem max_threads max_parsers timezone);
  err ← chdb_result_error res;
  match err with
  | Some e => eprint e ;; chdb_destroy_query_result res ;; mret EXIT_FAILURE
  | None => chdb_destroy_query_result res ;; mret EXIT_SUCCESS
  end.

Section main.
Context (little : bool) (alloc : Z -> bool).

Definition run_insert (conn : nat) (query : bytes) (par : params) : P Z :=
  stream ← chdb_stream_insert_with_params_n conn query par;
  error ← chdb_stream_insert_error stream;
  match error with
  | Some e => eprint e ;; chdb_destroy_insert_stream stream ;; mret 1
  | None =>
      checked (not_null alloc CHDB_HELPER_IO_BYTES) ;;
      returned ← (fun s => insert_loop (S (pipe_size (pr_stdin s))) stream s);
      match returned with
      | Some status => mret status
      | None =>
          done ← chdb_stream_done stream;
          error ← chdb_result_error done;
          match error with Some e => eprint e | None => mret tt end ;;
          chdb_destroy_query_result done ;;
          chdb_destroy_insert_stream stream ;;
          mret (match error with Some _ => EXIT_FAILURE | None => EXIT_SUCCESS end)
      end
  end.

(** [read_setup] off CHDB_SETUP_FD. *)
Definition setup_bytes : P bytes := fun s =>
  match read_setup alloc (S (pipe_size (pr_setup s))) (pr_setup s) with
  | Some (Ok (buf, p)) => (Ok buf, set_setup p s)
  | Some (Raise what) => fail what s
  | Some UB | None => (UB, s)
  end.

(** The command's runner. *)
Definition run_command (conn : nat) (cmd_type : Z) (query : bytes) (par : params) : P Z :=
  if cmd_type =? CHDB_CMD_SELECT then run_select conn query par
  else if cmd_type =? CHDB_CMD_INSERT then run_insert conn query par
  else if cmd_type =? CHDB_CMD_DESCRIBE then run_query conn query par
  else fail (b8 "chdb: unknown command type").

Definition main : P Z :=
  setup ← setup_bytes;
  '(cmd_type, cur) ← checked (take1 setup);
  '(max_mem, cur) ← checked (take2 little cur);
  '(max_threads, cur) ← checked (take2 little cur);
  '(max_parsers, cur) ← checked (take2 little cur);
  '(timezone, cur) ← checked (take_str little cur);
  '(query, cur) ← checked (take_str little cur);
  '(npar, cur) ← checked (take2 little cur);
  let nalloc := if npar =? 0 then 1 else npar in
  checked (not_null alloc (nalloc * 8)) ;;
  checked (not_null alloc (nalloc * 8)) ;;
  checked (not_null alloc (nalloc * 8)) ;;
  checked (not_null alloc (nalloc * 8)) ;;
  '(par, _) ← checked (take_params little (Z.to_nat npar) cur);
  connected ← chdb_connect;
  match connected with
  | None => fail (b8 "chdb: unable to connect to chDB")
  | Some conn =>
      status ← setup_session conn max_mem max_threads max_parsers timezone;
      status ← (if status =? 0 then run_command conn cmd_type query par else mret status);
      chdb_close_conn conn ;;
      mret status
  end.
End main.
