(* ===== verification/HelperProps.v ===== *)
(** * HelperProps: what the helper's runners do

    One lemma per call of Chdb and per function of HelperProc, up to the three
    runners. What a run amounts to is [ran]: the calls it made of libchdb, what
    it wrote to stdout and to stderr, and no object more or less than before. *)

From stdpp Require Import prelude gmap.
From S2P Require Import Prelude Words CString Stateful Pipe Setup SetupReader Chdb HelperProc.
Local Open Scope Z_scope.

Definition line (what : bytes) : bytes := what ++ [NEWLINE].

(** The answer [next_result] gives. *)
Definition next (rs : list answer) : answer := default (None, []) (head rs).

(** ** Rules for the calls *)

Section objects.
Context {s : proc} {R : Z -> proc -> Prop}.

Lemma create_wp o (Q : nat -> proc -> Prop) :
  (forall id, pr_objects s !! id = None -> Q id (set_objects (<[id := o]> (pr_objects s)) s)) ->
  wpS (create o) Q R s.
Proof. intros HQ. apply HQ. apply not_elem_of_dom, is_fresh. Qed.

Lemma object_of_wp id o (Q : object -> proc -> Prop) :
  pr_objects s !! id = Some o -> Q o s -> wpS (object_of id) Q R s.
Proof. intros Ho HQ. unfold wpS, object_of. by rewrite Ho. Qed.

Lemma the_connection_wp conn (Q : unit -> proc -> Prop) :
  pr_objects s !! conn = Some Connection -> Q tt s -> wpS (the_connection conn) Q R s.
Proof. intros Ho HQ. unfold the_connection. s_step. by eapply object_of_wp. Qed.

Lemma the_result_wp id a (Q : answer -> proc -> Prop) :
  pr_objects s !! id = Some (Result a) -> Q a s -> wpS (the_result id) Q R s.
Proof. intros Ho HQ. unfold the_result. s_step. by eapply object_of_wp. Qed.

Lemma the_insert_wp id e (Q : option bytes -> proc -> Prop) :
  pr_objects s !! id = Some (InsertStream e) -> Q e s -> wpS (the_insert id) Q R s.
Proof. intros Ho HQ. unfold the_insert. s_step. by eapply object_of_wp. Qed.

Lemma destroy_wp id o (Q : unit -> proc -> Prop) :
  pr_objects s !! id = Some o ->
  Q tt (set_objects (delete id (pr_objects s)) s) -> wpS (destroy id) Q R s.
Proof. intros Ho HQ. unfold destroy. s_step. by eapply object_of_wp. Qed.

End objects.

Section calls.
Context {s : proc} {R : Z -> proc -> Prop}.

Lemma result_error_wp id a (Q : option bytes -> proc -> Prop) :
  pr_objects s !! id = Some (Result a) -> Q a.1 s -> wpS (chdb_result_error id) Q R s.
Proof. intros. unfold chdb_result_error. s_step. by eapply the_result_wp. Qed.

Lemma result_length_wp id a (Q : Z -> proc -> Prop) :
  pr_objects s !! id = Some (Result a) -> Q (zlen a.2) s -> wpS (chdb_result_length id) Q R s.
Proof. intros. unfold chdb_result_length. s_step. by eapply the_result_wp. Qed.

Lemma result_buffer_wp id a (Q : bytes -> proc -> Prop) :
  pr_objects s !! id = Some (Result a) -> Q a.2 s -> wpS (chdb_result_buffer id) Q R s.
Proof. intros. unfold chdb_result_buffer. s_step. by eapply the_result_wp. Qed.

Lemma destroy_result_wp id a (Q : unit -> proc -> Prop) :
  pr_objects s !! id = Some (Result a) ->
  Q tt (set_objects (delete id (pr_objects s)) s) ->
  wpS (chdb_destroy_query_result id) Q R s.
Proof.
  intros Ho HQ. unfold chdb_destroy_query_result. s_step. eapply the_result_wp; [done|].
  by eapply destroy_wp.
Qed.

Lemma destroy_insert_wp id e (Q : unit -> proc -> Prop) :
  pr_objects s !! id = Some (InsertStream e) ->
  Q tt (set_objects (delete id (pr_objects s)) s) ->
  wpS (chdb_destroy_insert_stream id) Q R s.
Proof.
  intros Ho HQ. unfold chdb_destroy_insert_stream. s_step. eapply the_insert_wp; [done|].
  by eapply destroy_wp.
Qed.

Lemma eprint_wp what (Q : unit -> proc -> Prop) :
  Q tt (set_stderr (pr_stderr s ++ line what) s) -> wpS (eprint what) Q R s.
Proof. done. Qed.
End calls.

(** The state in which a new result is alive. *)
Definition with_result (c : list call) (id : nat) (s : proc) : proc :=
  set_objects (<[id := Result (next (pr_answers s))]> (pr_objects s))
    (set_answers (tail (pr_answers s)) (foldr add_call s c)).

Lemma next_result_wp c s R (Q : nat -> proc -> Prop) :
  (forall id, pr_objects s !! id = None -> Q id (with_result [c] id s)) ->
  wpS (next_result c) Q R s.
Proof.
  intros HQ. unfold next_result. do 2 s_step. do 2 s_step. do 2 s_step. by apply create_wp.
Qed.

Lemma fetch_wp conn stream a s R (Q : nat -> proc -> Prop) :
  pr_objects s !! conn = Some Connection -> pr_objects s !! stream = Some (Result a) ->
  (forall id, pr_objects s !! id = None -> Q id (with_result [] id s)) ->
  wpS (chdb_stream_fetch_result conn stream) Q R s.
Proof.
  intros Hc Hs HQ. unfold chdb_stream_fetch_result. s_step. apply the_connection_wp; [done|].
  s_step. eapply the_result_wp; [done|]. do 2 s_step. do 2 s_step. by apply create_wp.
Qed.
(** ** What a run did *)

Record ran (cs : list call) (out err : bytes) (s s' : proc) : Prop := Ran {
  ran_objects : pr_objects s' = pr_objects s;
  ran_calls : pr_calls s' = pr_calls s ++ cs;
  ran_out : pr_stdout s' = pr_stdout s ++ out;
  ran_err : pr_stderr s' = pr_stderr s ++ err;
}.

Lemma ran_trans cs1 out1 err1 cs2 out2 err2 s1 s2 s3 :
  ran cs1 out1 err1 s1 s2 -> ran cs2 out2 err2 s2 s3 ->
  ran (cs1 ++ cs2) (out1 ++ out2) (err1 ++ err2) s1 s3.
Proof. intros [O1 C1 U1 E1] [O2 C2 U2 E2]. split; rewrite ?app_assoc; congruence. Qed.

(** A write that cannot be gone on with. *)
Definition failing (l : list wstep) : Prop := exists e, e <> EINTR /\ Fails e ∈ l.

Lemma failing_mono l l' : l ⊆ l' -> failing l -> failing l'.
Proof. intros Hl (e & He & Hin). exists e. auto. Qed.

Lemma output_loop_wp fuel p s Q R :
  (length p + length (pr_writes s) < fuel)%nat ->
  (forall l, l ⊆ pr_writes s -> Q true (set_stdout l (pr_stdout s ++ p) s)) ->
  (forall l head, l ⊆ pr_writes s -> failing (pr_writes s) -> head `prefix_of` p ->
     Q false (set_stdout l (pr_stdout s ++ head) s)) ->
  wpS (write_all_loop fuel p) Q R s.
Proof.
  revert p s. induction fuel as [|fuel IH]; intros p s Hf HT HF; [lia|]. cbn [write_all_loop].
  destruct p as [|x p].
  { s_step. specialize (HT (pr_writes s) ltac:(done)). rewrite app_nil_r in HT.
    by destruct s. }
  remember (x :: p) as xp eqn:Hxp. assert (Hlen : (0 < length xp)%nat) by (subst; cbn; lia).
  clear x p Hxp. s_step. unfold wpS at 1, write_stdout.
  destruct (write_fd_spec (pr_writes s) xp Hlen) as [n l Hn Hl Hsub|e l Hl Hsub Hin].
  - apply IH.
    + rewrite length_drop. cbn. lia.
    + intros l' Hl'. cbn in *. rewrite <- app_assoc, take_drop. apply HT. set_solver.
    + intros l' head Hl' Hfail Hpre. cbn in *. rewrite <- app_assoc. apply HF.
      * set_solver.
      * by apply (failing_mono l).
      * rewrite <- (take_drop n xp) at 2. by apply prefix_app.
  - rewrite app_nil_r.
    assert (Hstop : e <> EINTR -> wpS (mret false) Q R (set_stdout l (pr_stdout s) s)).
    { intros He. s_step. rewrite <- (app_nil_r (pr_stdout s)). apply HF; [done| |by apply prefix_nil].
      by exists e. }
    destruct e; try (by apply Hstop). apply IH.
    + cbn. lia.
    + intros l' Hl'. apply HT. cbn in *. set_solver.
    + intros l' head Hl' Hfail Hpre. apply HF; cbn in *; [set_solver|by apply (failing_mono l)|done].
Qed.

Lemma output_wp p s Q R :
  (forall l, l ⊆ pr_writes s -> Q true (set_stdout l (pr_stdout s ++ p) s)) ->
  (forall l head, l ⊆ pr_writes s -> failing (pr_writes s) -> head `prefix_of` p ->
     Q false (set_stdout l (pr_stdout s ++ head) s)) ->
  wpS (write_all p) Q R s.
Proof. intros HT HF. apply output_loop_wp; [lia|done|done]. Qed.

(** ** COPY FROM *)

(** What a stream gives: its blocks up to the end, an empty one, and the error
    that cut it short, if one did. *)
Fixpoint stream_content (rs : list answer) : bytes * option bytes :=
  match rs with
  | (Some e, _) :: _ => ([], Some e)
  | (None, x :: b) :: rs => let '(c, e) := stream_content rs in ((x :: b) ++ c, e)
  | (None, []) :: _ | [] => ([], None)
  end.

(** The outcomes of the loop over such a stream: the status, what went out and
    what was said. *)
Inductive streamed (c : bytes * option bytes) (w : list wstep) : Z -> bytes -> bytes -> Prop :=
| streamed_whole : c.2 = None -> streamed c w EXIT_SUCCESS c.1 []
| streamed_broken e : c.2 = Some e -> streamed c w EXIT_FAILURE c.1 (line e)
| streamed_lost head : failing w -> head `prefix_of` c.1 ->
    streamed c w CHDB_HELPER_LOST_BACKEND head [].

Lemma select_loop_wp fuel conn stream a s R :
  (length (pr_answers s) < fuel)%nat ->
  pr_objects s !! conn = Some Connection -> pr_objects s !! stream = Some (Result a) ->
  wpS (select_loop fuel conn stream)
    (fun status s' => exists out err, ran [] out err s s' /\
       streamed (stream_content (pr_answers s)) (pr_writes s) status out err) R s.
Proof.
  revert s. induction fuel as [|fuel IH]; intros s Hf Hc Hs; [lia|]. cbn [select_loop].
  s_step. eapply fetch_wp; [done..|]. intros id Hid. unfold with_result. cbn [foldr].
  set (s1 := set_objects _ _).
  assert (Hr : pr_objects s1 !! id = Some (Result (next (pr_answers s))))
    by (unfold s1; cbn; by rewrite lookup_insert_eq).
  assert (Hback : delete id (pr_objects s1) = pr_objects s)
    by (unfold s1; cbn; by apply delete_insert_id).
  s_step. eapply result_error_wp; [done|].
  destruct (next (pr_answers s)) as [[e|] b] eqn:Hnext; cbn [fst].
  - s_step. apply eprint_wp. s_step. eapply destroy_result_wp; [done|]. s_step.
    exists [], (line e). split.
    + split; cbn; rewrite ?app_nil_r; [exact Hback|done..].
    + unfold next in Hnext. destruct (pr_answers s) as [|[e' b'] rs]; [done|].
      cbn in Hnext. injection Hnext as -> ->. by apply (streamed_broken ([], Some e)).
  - s_step. eapply result_length_wp; [done|]. cbn [snd]. destruct (Z.ltb_spec 0 (zlen b)) as [Hb|Hb].
    + assert (exists rs, pr_answers s = (None, b) :: rs) as [rs Hrs].
      { unfold next in Hnext. destruct (pr_answers s) as [|? rs]; [by injection Hnext as <-|].
        cbn in Hnext. subst. by eexists. }
      assert (Hcont : stream_content (pr_answers s)
        = (b ++ (stream_content rs).1, (stream_content rs).2)).
      { rewrite Hrs. cbn. destruct b; [done|]. by destruct (stream_content rs). }
      s_step. eapply result_buffer_wp; [done|]. cbn [snd]. s_step. apply output_wp.
      * intros l Hl. s_step. eapply destroy_result_wp; [done|].
        eapply wpS_mono; [apply IH| |done].
        -- cbn. rewrite Hrs in *. cbn in *. lia.
        -- cbn. by rewrite lookup_delete_ne, lookup_insert_ne by congruence.
        -- cbn. by rewrite lookup_delete_ne, lookup_insert_ne by congruence.
        -- intros status s' (out & err & [Ho Hcs Hout Herr] & Hst). cbn in *.
           exists (b ++ out), err. split.
           ++ split; [by rewrite Ho|done|by rewrite Hout, app_assoc|done].
           ++ rewrite Hcont. rewrite Hrs in Hst. cbn in Hst. inversion Hst as [E|e E|head E1 E2]; subst.
              ** by apply (streamed_whole (_, _)).
              ** by apply (streamed_broken (_, _)).
              ** apply streamed_lost; [by eapply failing_mono|by apply prefix_app].
      * intros l head Hl Hfail Hpre. s_step. eapply destroy_result_wp; [done|]. s_step.
        exists head, []. split.
        -- split; cbn; rewrite ?app_nil_r; [exact Hback|done..].
        -- rewrite Hcont. apply streamed_lost; [done|]. cbn. by apply prefix_app_r.
    + s_step. eapply destroy_result_wp; [done|]. s_step. exists [], []. split.
      * split; cbn; rewrite ?app_nil_r; [exact Hback|done..].
      * destruct b; [|cbn in Hb; lia]. unfold next in Hnext.
        destruct (pr_answers s) as [|? rs]; [by apply (streamed_whole ([], None))|].
        cbn in Hnext. subst. by apply (streamed_whole ([], None)).
Qed.

(** The outcomes of [run_select], from the answers to come: the status, the
    calls, what went out and what was said. *)
Inductive selected (q : bytes) (ps : params) (rs : list answer) (w : list wstep)
    : Z -> list call -> bytes -> bytes -> Prop :=
| selected_refused e : (next rs).1 = Some e ->
    selected q ps rs w EXIT_FAILURE [CallStreamQuery q ps] [] (line e)
| selected_streamed status out err :
    (next rs).1 = None -> streamed (stream_content (tail rs)) w status out err ->
    selected q ps rs w status
      (CallStreamQuery q ps :: if status =? 0 then [] else [CallCancelQuery]) out err.

(** A new object, and the old ones. *)
Lemma kept_alive (m : gmap nat object) id conn o x :
  m !! id = None -> m !! conn = Some o -> <[id := x]> m !! conn = Some o.
Proof. intros Hid Hc. rewrite lookup_insert_ne; [done|congruence]. Qed.

Lemma run_select_wp conn q ps s R :
  pr_objects s !! conn = Some Connection ->
  wpS (run_select conn q ps)
    (fun status s' => exists cs out err, ran cs out err s s' /\
       selected q ps (pr_answers s) (pr_writes s) status cs out err) R s.
Proof.
  intros Hc. unfold run_select, chdb_stream_query_with_params_n. s_step. s_step.
  apply the_connection_wp; [done|]. apply next_result_wp. intros id Hid.
  set (s1 := with_result _ id s).
  assert (Hr : pr_objects s1 !! id = Some (Result (next (pr_answers s))))
    by (unfold s1; cbn; by rewrite lookup_insert_eq).
  assert (Hc1 : pr_objects s1 !! conn = Some Connection) by by apply kept_alive.
  assert (Hback : delete id (pr_objects s1) = pr_objects s) by by apply delete_insert_id.
  s_step. eapply result_error_wp; [done|]. destruct (next (pr_answers s)).1 as [e|] eqn:He.
  - s_step. apply eprint_wp. s_step. eapply destroy_result_wp; [done|]. s_step.
    exists [CallStreamQuery q ps], [], (line e). split; [|by apply selected_refused].
    split; cbn; rewrite ?app_nil_r; [exact Hback|done..].
  - s_step. apply (wpS_fuel (fun s => S (length (pr_answers s))) (fun n => select_loop n conn id)).
    eapply wpS_mono; [by eapply select_loop_wp; [apply Nat.lt_succ_diag_r| |]| |done].
    intros status s2 (out & err & [Ho Hcs Hout Herr] & Hst). rewrite <- Ho in Hr, Hc1.
    assert (Hsel := selected_streamed q ps (pr_answers s) (pr_writes s) status out err He Hst).
    destruct (status =? 0).
    + s_step. s_step. s_step. eapply destroy_result_wp; [done|]. s_step.
      exists [CallStreamQuery q ps], out, err. split; [|exact Hsel].
      split; cbn; [by rewrite Ho|by rewrite Hcs, app_nil_r|done..].
    + s_step. unfold chdb_stream_cancel_query. s_step. apply the_connection_wp; [done|].
      s_step. eapply the_result_wp; [done|]. s_step. s_step.
      eapply destroy_result_wp; [done|]. s_step.
      exists [CallStreamQuery q ps; CallCancelQuery], out, err. split; [|exact Hsel].
      split; cbn; [by rewrite Ho|by rewrite Hcs, app_nil_r; cbn; rewrite <- app_assoc|done..].
Qed.

(** ** DESCRIBE *)

Inductive described (q : bytes) (ps : params) (rs : list answer) (w : list wstep)
    : Z -> list call -> bytes -> bytes -> Prop :=
| described_refused e : (next rs).1 = Some e ->
    described q ps rs w 1 [CallQueryWithParams q ps] [] (line e)
| described_whole : (next rs).1 = None ->
    described q ps rs w 0 [CallQueryWithParams q ps] (next rs).2 []
| described_lost head : (next rs).1 = None -> failing w -> head `prefix_of` (next rs).2 ->
    described q ps rs w CHDB_HELPER_LOST_BACKEND [CallQueryWithParams q ps] head [].

Lemma run_query_wp conn q ps s R :
  pr_objects s !! conn = Some Connection ->
  wpS (run_query conn q ps)
    (fun status s' => exists cs out err, ran cs out err s s' /\
       described q ps (pr_answers s) (pr_writes s) status cs out err) R s.
Proof.
  intros Hc. unfold run_query, chdb_query_with_params_n. s_step. s_step.
  apply the_connection_wp; [done|]. apply next_result_wp. intros id Hid.
  set (s1 := with_result _ id s).
  assert (Hr : pr_objects s1 !! id = Some (Result (next (pr_answers s))))
    by (unfold s1; cbn; by rewrite lookup_insert_eq).
  assert (Hback : delete id (pr_objects s1) = pr_objects s) by by apply delete_insert_id.
  s_step. eapply result_error_wp; [done|]. destruct (next (pr_answers s)).1 as [e|] eqn:He.
  - s_step. s_step. apply eprint_wp. s_step. s_step. eapply destroy_result_wp; [done|]. s_step.
    exists [CallQueryWithParams q ps], [], (line e). split; [|by apply described_refused].
    split; cbn; rewrite ?app_nil_r; [exact Hback|done..].
  - s_step. s_step. eapply result_length_wp; [done|].
    destruct (Z.ltb_spec 0 (zlen (next (pr_answers s)).2)) as [Hlen|Hlen].
    + s_step. eapply result_buffer_wp; [done|]. s_step. apply output_wp.
      * intros l Hl. s_step. s_step. eapply destroy_result_wp; [done|]. s_step.
        exists [CallQueryWithParams q ps], (next (pr_answers s)).2, [].
        split; [|by apply described_whole].
        split; cbn; rewrite ?app_nil_r; [exact Hback|done..].
      * intros l head Hl Hfail Hpre. s_step. s_step. eapply destroy_result_wp; [done|]. s_step.
        exists [CallQueryWithParams q ps], head, [].
        split; [|by apply described_lost].
        split; cbn; rewrite ?app_nil_r; [exact Hback|done..].
    + s_step. s_step. eapply destroy_result_wp; [done|]. s_step.
      exists [CallQueryWithParams q ps], [], []. split.
      * split; cbn; rewrite ?app_nil_r; [exact Hback|done..].
      * replace [] with (next (pr_answers s)).2 at 1; [by apply described_whole|].
        destruct (next (pr_answers s)).2; [done|cbn in Hlen; lia].
Qed.

(** ** COPY TO *)

Lemma append_wp id e b s R (Q : bool -> proc -> Prop) :
  pr_objects s !! id = Some (InsertStream e) ->
  (head (pr_appends s) = None \/ head (pr_appends s) = Some None ->
   Q true (set_appends (tail (pr_appends s)) (add_call (CallAppend b) s))) ->
  (forall e', head (pr_appends s) = Some (Some e') ->
   Q false (set_objects (<[id := InsertStream e']> (pr_objects s))
     (set_appends (tail (pr_appends s)) (add_call (CallAppend b) s)))) ->
  wpS (chdb_stream_append id b) Q R s.
Proof.
  intros Ho HT HF. unfold chdb_stream_append. s_step. eapply the_insert_wp; [done|].
  do 2 s_step. do 2 s_step. do 2 s_step. cbn [pr_appends add_call].
  destruct (head (pr_appends s)) as [[e'|]|] eqn:Hh; cbn [from_option Datatypes.id].
  - do 2 s_step. s_step. by apply HF.
  - s_step. apply HT. by right.
  - s_step. apply HT. by left.
Qed.

(** The outcomes of the loop: what it returns, the calls and what was said. *)
Inductive fed (input : pipe) (appends : list (option (option bytes)))
    : option Z -> list call -> bytes -> Prop :=
| fed_whole bs : concat bs = content input -> clean input ->
    fed input appends None (map CallAppend bs) []
| fed_unread bs : concat bs `prefix_of` content input -> ~ clean input ->
    fed input appends (Some CHDB_HELPER_LOST_BACKEND) (map CallAppend bs ++ [CallCancelInsert]) []
| fed_rejected bs e : concat bs `prefix_of` content input -> Some e ∈ appends ->
    fed input appends (Some 1) (map CallAppend bs ++ [CallCancelInsert])
      (line (default (b8 "chdb: append failed") e)).

(** More input in front, and an interrupted read. *)
Lemma fed_more b input input' appends appends' r cs err :
  content input = b ++ content input' -> errors input' = errors input -> appends' ⊆ appends ->
  fed input' appends' r cs err -> fed input appends r (CallAppend b :: cs) err.
Proof.
  unfold clean. intros Hc He Ha Hf. assert (clean input <-> clean input') as Hclean
    by (unfold clean; by rewrite He).
  inversion Hf as [bs H1 H2|bs H1 H2|bs e H1 H2]; subst; clear Hf.
  - apply (fed_whole input appends (b :: bs)); [by rewrite Hc, <- H1|by apply Hclean].
  - apply (fed_unread input appends (b :: bs)); [rewrite Hc; by apply prefix_app|tauto].
  - apply (fed_rejected input appends (b :: bs)); [rewrite Hc; by apply prefix_app|by apply Ha].
Qed.

Lemma fed_interrupted input input' appends r cs err :
  content input = content input' -> errors input = EINTR :: errors input' ->
  fed input' appends r cs err -> fed input appends r cs err.
Proof.
  intros Hc He Hf. assert (clean input <-> clean input') as Hclean.
  { unfold clean. rewrite He, Forall_cons. tauto. }
  inversion Hf as [bs H1 H2|bs H1 H2|bs e H1 H2]; subst; clear Hf.
  - apply fed_whole; [by rewrite Hc|by apply Hclean].
  - apply fed_unread; [by rewrite Hc|tauto].
  - apply fed_rejected; [by rewrite Hc|done].
Qed.

(** What the loop leaves: the stream alive at the end of the input only. *)
Record inserted (stream : nat) (r : option Z) (cs : list call) (err : bytes) (s s' : proc)
    : Prop := Inserted {
  ins_objects : pr_objects s' =
    match r with Some _ => delete stream (pr_objects s) | None => pr_objects s end;
  ins_calls : pr_calls s' = pr_calls s ++ cs;
  ins_out : pr_stdout s' = pr_stdout s;
  ins_err : pr_stderr s' = pr_stderr s ++ err;
  ins_answers : pr_answers s' = pr_answers s;
}.

Lemma insert_loop_wp fuel stream e s R :
  (pipe_size (pr_stdin s) < fuel)%nat -> pr_objects s !! stream = Some (InsertStream e) ->
  wpS (insert_loop fuel stream)
    (fun r s' => exists cs err, inserted stream r cs err s s' /\
       fed (pr_stdin s) (pr_appends s) r cs err) R s.
Proof.
  revert s. induction fuel as [|fuel IH]; intros s Hf Ho; [lia|]. cbn [insert_loop].
  s_step. unfold wpS at 1, read_stdin.
  destruct (read_fd_spec (pr_stdin s) CHDB_HELPER_IO_BYTES ltac:(done))
    as [Hc He|b p Hne Hl Hc He Hp|er p Hc He Hp].
  - s_step. exists [], []. split; [split; cbn; by rewrite ?app_nil_r|].
    apply (fed_whole _ _ []); [by rewrite Hc|]. unfold clean. rewrite He. constructor.
  - s_step. eapply append_wp; [done| |].
    + intros Hok. eapply wpS_mono; [by apply IH; [change (pipe_size p < fuel)%nat; lia|]| |done].
      intros r s' (cs & err & [Ho' Hcs Hout Herr Ha] & Hfed). cbn in *.
      exists (CallAppend b :: cs), err. split.
      * split; cbn; [done|by rewrite Hcs, <- app_assoc|done..].
      * eapply fed_more; [done|done| |done]. destruct (pr_appends s); [done|]. cbn. set_solver.
    + intros e' Hfail. s_step. eapply the_insert_wp; [cbn; by rewrite lookup_insert_eq|].
      s_step. apply eprint_wp. s_step. unfold chdb_stream_cancel_insert. s_step.
      eapply the_insert_wp; [cbn; by rewrite lookup_insert_eq|]. s_step. s_step.
      eapply destroy_insert_wp; [cbn; by rewrite lookup_insert_eq|]. s_step.
      exists (map CallAppend [b] ++ [CallCancelInsert]), (line (default (b8 "chdb: append failed") e')).
      split.
      * split; cbn; [by rewrite delete_insert_eq|by rewrite <- app_assoc|done..].
      * apply fed_rejected; [rewrite Hc; cbn; by rewrite app_nil_r; apply prefix_app_r|].
        cbn in Hfail. destruct (pr_appends s); [done|]. injection Hfail as ->. set_solver.
  - destruct er; [|..].
    { eapply wpS_mono; [by apply IH; [change (pipe_size p < fuel)%nat; lia|]| |done].
      intros r s' (cs & err & [Ho' Hcs Hout Herr Ha] & Hfed). exists cs, err.
      split; [by split|]. by eapply fed_interrupted. }
    all: s_step; unfold chdb_stream_cancel_insert; s_step; (eapply the_insert_wp; [done|]); s_step;
      s_step; (eapply destroy_insert_wp; [done|]); s_step;
      exists (map CallAppend [] ++ [CallCancelInsert]), [];
      (split; [split; cbn; by rewrite ?app_nil_r|]);
      (apply fed_unread; [by apply prefix_nil|]);
      unfold clean; rewrite He, Forall_cons; by intros [].
Qed.

(** The outcomes of [run_insert]. *)
Inductive loaded (q : bytes) (ps : params) (input : pipe) (appends : list (option (option bytes)))
    (stream : option bytes) (rs : list answer) : Z -> list call -> bytes -> Prop :=
| loaded_refused e : stream = Some e ->
    loaded q ps input appends stream rs 1 [CallStreamInsert q ps] (line e)
| loaded_stopped status cs err : stream = None -> fed input appends (Some status) cs err ->
    loaded q ps input appends stream rs status (CallStreamInsert q ps :: cs) err
| loaded_whole cs err : stream = None -> fed input appends None cs err -> (next rs).1 = None ->
    loaded q ps input appends stream rs EXIT_SUCCESS (CallStreamInsert q ps :: cs ++ [CallDone]) err
| loaded_failed cs err e : stream = None -> fed input appends None cs err ->
    (next rs).1 = Some e ->
    loaded q ps input appends stream rs EXIT_FAILURE (CallStreamInsert q ps :: cs ++ [CallDone])
      (err ++ line e).

(** The program exits from [fail], with its word on stderr. *)
Definition exited (what : bytes) (s : proc) (status : Z) (s' : proc) : Prop :=
  status = 1 /\ pr_stderr s' = pr_stderr s ++ line what.

Lemma fail_wp {A} what s (Q : A -> proc -> Prop) (R : Z -> proc -> Prop) :
  R 1 (set_stderr (pr_stderr s ++ line what) s) -> wpS (fail what) Q R s.
Proof. intros HR. unfold fail. s_step. apply eprint_wp. by s_step. Qed.

(** A new insert stream. *)
Lemma insert_stream_wp conn q ps s R (Q : nat -> proc -> Prop) :
  pr_objects s !! conn = Some Connection ->
  (forall id, pr_objects s !! id = None ->
     Q id (set_objects (<[id := InsertStream (pr_insert s)]> (pr_objects s))
       (add_call (CallStreamInsert q ps) s))) ->
  wpS (chdb_stream_insert_with_params_n conn q ps) Q R s.
Proof.
  intros Hc HQ. unfold chdb_stream_insert_with_params_n. s_step. apply the_connection_wp; [done|].
  do 2 s_step. do 2 s_step. by apply create_wp.
Qed.

(** The whole input was appended: what chdb_stream_done says ends it. *)
Lemma insert_done_wp id q ps s s2 cs err R :
  pr_objects s2 !! id = Some (InsertStream None) -> delete id (pr_objects s2) = pr_objects s ->
  pr_calls s2 = pr_calls s ++ CallStreamInsert q ps :: cs -> pr_stdout s2 = pr_stdout s ->
  pr_stderr s2 = pr_stderr s ++ err -> pr_answers s2 = pr_answers s ->
  fed (pr_stdin s) (pr_appends s) None cs err ->
  wpS (done ← chdb_stream_done id;
       error ← chdb_result_error done;
       (match error with Some e => eprint e | None => mret tt end) ;;
       chdb_destroy_query_result done ;;
       chdb_destroy_insert_stream id ;;
       mret (match error with Some _ => EXIT_FAILURE | None => EXIT_SUCCESS end))
    (fun status s' => exists cs err, ran cs [] err s s' /\
       loaded q ps (pr_stdin s) (pr_appends s) None (pr_answers s) status cs err) R s2.
Proof.
  intros Hi Hback Hcs Hout Herr Ha Hfed. unfold chdb_stream_done. s_step. s_step.
  eapply the_insert_wp; [done|].
  apply next_result_wp. intros done Hdone. set (s3 := with_result _ done s2).
  assert (Hr : pr_objects s3 !! done = Some (Result (next (pr_answers s))))
    by (unfold s3; cbn; by rewrite lookup_insert_eq, Ha).
  assert (Hback3 : delete done (pr_objects s3) = pr_objects s2) by by apply delete_insert_id.
  assert (Hend : forall s4 status cs err, pr_objects s4 = pr_objects s3 ->
    pr_calls s4 = pr_calls s ++ cs -> pr_stdout s4 = pr_stdout s ->
    pr_stderr s4 = pr_stderr s ++ err ->
    loaded q ps (pr_stdin s) (pr_appends s) None (pr_answers s) status cs err ->
    wpS (chdb_destroy_query_result done ;; chdb_destroy_insert_stream id ;; mret status)
      (fun status s' => exists cs err, ran cs [] err s s' /\
         loaded q ps (pr_stdin s) (pr_appends s) None (pr_answers s) status cs err) R s4).
  { intros s4 status cs4 err4 Ho4 Hc4 Hout4 Herr4 Hl. rewrite <- Ho4 in Hr, Hback3.
    s_step. eapply destroy_result_wp; [done|]. s_step.
    eapply destroy_insert_wp; [cbn; by rewrite Hback3|]. s_step.
    exists cs4, err4. split; [|done]. split; cbn; [|done|by rewrite app_nil_r|done].
    by rewrite Hback3. }
  s_step. eapply result_error_wp; [done|].
  destruct (next (pr_answers s)).1 as [e|] eqn:Hn; s_step.
  - apply eprint_wp. apply (Hend _ _ (CallStreamInsert q ps :: cs ++ [CallDone]) (err ++ line e));
      [done|cbn; by rewrite Hcs, <- !app_assoc|done|cbn; by rewrite Herr, app_assoc|].
    by apply loaded_failed.
  - s_step. apply (Hend _ _ (CallStreamInsert q ps :: cs ++ [CallDone]) err);
      [done|cbn; by rewrite Hcs, <- !app_assoc|done|done|].
    by apply loaded_whole.
Qed.

Lemma run_insert_wp alloc conn q ps s :
  pr_objects s !! conn = Some Connection ->
  wpS (run_insert alloc conn q ps)
    (fun status s' => exists cs err, ran cs [] err s s' /\
       loaded q ps (pr_stdin s) (pr_appends s) (pr_insert s) (pr_answers s) status cs err)
    (fun status s' => exited out_of_memory s status s' /\ alloc CHDB_HELPER_IO_BYTES = false) s.
Proof.
  intros Hc. unfold run_insert. s_step. apply insert_stream_wp; [done|]. intros id Hid.
  set (s1 := set_objects _ _).
  assert (Hi : pr_objects s1 !! id = Some (InsertStream (pr_insert s)))
    by (unfold s1; cbn; by rewrite lookup_insert_eq).
  assert (Hback : delete id (pr_objects s1) = pr_objects s) by by apply delete_insert_id.
  s_step. eapply the_insert_wp; [done|]. destruct (pr_insert s) as [e|] eqn:He.
  { s_step. apply eprint_wp. s_step. eapply destroy_insert_wp; [done|]. s_step.
    exists [CallStreamInsert q ps], (line e). split; [|by apply loaded_refused].
    split; cbn; rewrite ?app_nil_r; [exact Hback|done..]. }
  s_step. unfold not_null. destruct (alloc CHDB_HELPER_IO_BYTES) eqn:Halloc; cbn [checked].
  2: { apply fail_wp. split; [|done]. split; [done|]. done. }
  s_step. s_step. apply (wpS_fuel (fun s => S (pipe_size (pr_stdin s))) (fun n => insert_loop n id)).
  eapply wpS_mono;
    [by eapply (insert_loop_wp _ _ _ _ (fun _ _ => False)); [apply Nat.lt_succ_diag_r|]| |done].
  intros [status|] s2 (cs & err & [Ho Hcs Hout Herr Ha] & Hfed); cbv beta iota in Ho;
    change (pr_calls s1) with (pr_calls s ++ [CallStreamInsert q ps]) in Hcs;
    change (pr_stdout s1) with (pr_stdout s) in Hout;
    change (pr_stderr s1) with (pr_stderr s) in Herr;
    change (pr_answers s1) with (pr_answers s) in Ha.
  { s_step. exists (CallStreamInsert q ps :: cs), err. split; [|by apply loaded_stopped].
    split; [by rewrite Ho|by rewrite Hcs, <- app_assoc|by rewrite Hout, app_nil_r|done]. }
  rewrite <- Ho in Hi, Hback. apply (insert_done_wp id q ps s s2 cs err); try done.
  by rewrite Hcs, <- app_assoc.
Qed.

(** ** The session *)

(** What the surroundings have yet to give. *)
Record same_rest (s s' : proc) : Prop := SameRest {
  rest_stdin : pr_stdin s' = pr_stdin s;
  rest_writes : pr_writes s' = pr_writes s;
  rest_insert : pr_insert s' = pr_insert s;
  rest_appends : pr_appends s' = pr_appends s;
}.

Lemma setup_session_wp conn mem threads parsers tz s R :
  pr_objects s !! conn = Some Connection ->
  wpS (setup_session conn mem threads parsers tz)
    (fun status s' => exists err,
       ran [CallQuery (session_settings mem threads parsers tz)] [] err s s' /\
       same_rest s s' /\ pr_answers s' = tail (pr_answers s) /\
       match (next (pr_answers s)).1 with
       | Some e => status = EXIT_FAILURE /\ err = line e
       | None => status = EXIT_SUCCESS /\ err = []
       end) R s.
Proof.
  intros Hc. unfold setup_session, chdb_query. s_step. s_step.
  apply the_connection_wp; [done|]. apply next_result_wp. intros id Hid.
  set (s1 := with_result _ id s).
  assert (Hr : pr_objects s1 !! id = Some (Result (next (pr_answers s))))
    by (unfold s1; cbn; by rewrite lookup_insert_eq).
  assert (Hback : delete id (pr_objects s1) = pr_objects s) by by apply delete_insert_id.
  s_step. eapply result_error_wp; [done|]. destruct (next (pr_answers s)).1 as [e|].
  - s_step. apply eprint_wp. s_step. eapply destroy_result_wp; [done|]. s_step.
    exists (line e). split_and!; try done. split; cbn; rewrite ?app_nil_r; [exact Hback|done..].
  - s_step. eapply destroy_result_wp; [done|]. s_step.
    exists []. split_and!; try done. split; cbn; rewrite ?app_nil_r; [exact Hback|done..].
Qed.
