(* ===== verification/HelperTheorems.v ===== *)
(** * HelperTheorems: the properties of the helper program *)

From stdpp Require Import prelude gmap.
From Stdlib Require Import Strings.Byte.
From S2P Require Import Prelude Words CString Stateful Pipe Setup SetupReader Chdb HelperProc.
From S2P Require Import HelperProps.
Local Open Scope Z_scope.

(** ** The program *)

(** The outcomes of a command, from what its surroundings have to give. *)
Definition commanded (cmd : Z) (q : bytes) (ps : params) (s : proc)
    (status : Z) (cs : list call) (out err : bytes) : Prop :=
  (cmd = CHDB_CMD_SELECT /\ selected q ps (pr_answers s) (pr_writes s) status cs out err) \/
  (cmd = CHDB_CMD_INSERT /\ out = [] /\
     loaded q ps (pr_stdin s) (pr_appends s) (pr_insert s) (pr_answers s) status cs err) \/
  (cmd = CHDB_CMD_DESCRIBE /\ described q ps (pr_answers s) (pr_writes s) status cs out err).

Definition commands : list Z := [CHDB_CMD_SELECT; CHDB_CMD_INSERT; CHDB_CMD_DESCRIBE].

Section main.
Context (little : bool) (alloc : Z -> bool).

Lemma run_command_wp conn cmd q ps s :
  cmd ∈ commands -> pr_objects s !! conn = Some Connection ->
  wpS (run_command alloc conn cmd q ps)
    (fun status s' => exists cs out err, ran cs out err s s' /\
       commanded cmd q ps s status cs out err)
    (fun status s' => exited out_of_memory s status s' /\ alloc CHDB_HELPER_IO_BYTES = false) s.
Proof.
  intros Hcmd Hc. unfold run_command, commanded.
  apply elem_of_cons in Hcmd as [->|Hcmd]; [|apply elem_of_cons in Hcmd as [->|Hcmd];
    [|apply elem_of_cons in Hcmd as [->|Hcmd]; [|by apply elem_of_nil in Hcmd]]]; cbn [Z.eqb].
  - eapply wpS_mono; [by apply (run_select_wp conn q ps s (fun _ _ => False))| |done].
    intros st s' (cs & out & err & Hr & Hs). exists cs, out, err. auto.
  - eapply wpS_mono; [by apply run_insert_wp| |done].
    intros st s' (cs & err & Hr & Hs). exists cs, [], err. auto 6.
  - eapply wpS_mono; [by apply (run_query_wp conn q ps s (fun _ _ => False))| |done].
    intros st s' (cs & out & err & Hr & Hs). exists cs, out, err. auto 6.
Qed.

(** The bytes a run handed to the insert. *)
Definition appended (cs : list call) : bytes :=
  cs ≫= (fun c => match c with CallAppend b => b | _ => [] end).

Lemma appended_map bs rest : appended (map CallAppend bs ++ rest) = concat bs ++ appended rest.
Proof. induction bs as [|b bs IH]; [done|]. cbn. by rewrite <- app_assoc, <- IH. Qed.

(** C40. The helper's exit status tells the backend what became of its command.
    On 0 everything crossed and nothing was said: a SELECT's whole stream went
    out in order, a DESCRIBE's whole answer did, an INSERT was given every byte
    of the input and accepted it. On 1 the reason is on stderr. On 2 it is the
    channel to the backend that broke, and nothing was said. There is no other
    status, and every object libchdb gave was destroyed, once. *)
Theorem exit_status_spec conn cmd q ps s :
  alloc CHDB_HELPER_IO_BYTES = true -> cmd ∈ commands -> pr_objects s !! conn = Some Connection ->
  wpS (run_command alloc conn cmd q ps)
    (fun status s' => exists cs, pr_calls s' = pr_calls s ++ cs /\
       pr_objects s' = pr_objects s /\
       ((status = EXIT_SUCCESS /\ pr_stderr s' = pr_stderr s /\
         (cmd = CHDB_CMD_SELECT ->
            let stream := stream_content (tail (pr_answers s)) in
            (next (pr_answers s)).1 = None /\ stream.2 = None /\
            pr_stdout s' = pr_stdout s ++ stream.1) /\
         (cmd = CHDB_CMD_DESCRIBE -> pr_stdout s' = pr_stdout s ++ (next (pr_answers s)).2) /\
         (cmd = CHDB_CMD_INSERT -> appended cs = content (pr_stdin s) /\ clean (pr_stdin s) /\
            last cs = Some CallDone /\ (next (pr_answers s)).1 = None)) \/
        (status = EXIT_FAILURE /\ exists what, pr_stderr s' = pr_stderr s ++ line what) \/
        (status = CHDB_HELPER_LOST_BACKEND /\ pr_stderr s' = pr_stderr s /\
           (failing (pr_writes s) \/ ~ clean (pr_stdin s)))))
    (fun _ _ => False) s.
Proof.
  intros Ha Hcmd Hc. eapply wpS_mono; [by apply run_command_wp| |intros e s' [_ Hf]; congruence].
  intros status s' (cs & out & err & [Ho Hcs Hout Herr] & Hrun). exists cs.
  split; [done|]. split; [done|]. destruct Hrun as [[-> Hsel]|[(-> & -> & Hload)|[-> Hdesc]]].
  - destruct Hsel as [e He|status out err He Hst]; [right; left; eauto|].
    destruct Hst as [Hw|e Hw|head Hf Hp]; [left|right; left; eauto|right; right].
    + rewrite app_nil_r in Herr. split_and!; done.
    + rewrite app_nil_r in Herr. auto.
  - destruct Hload as [e He|status cs err He Hfed|cs err He Hfed Hn|cs err e He Hfed Hn].
    + right; left; eauto.
    + inversion Hfed; subst; [|right; left; eauto]. rewrite app_nil_r in Herr. right; right; auto.
    + inversion Hfed as [bs H1 H2| |]; subst. rewrite app_nil_r in Herr. left.
      split_and!; try done. intros _. change (appended (CallStreamInsert q ps :: ?l)) with (appended l).
      rewrite appended_map, H1. cbn. rewrite app_nil_r. split_and!; try done.
      by rewrite app_comm_cons, last_snoc.
    + inversion Hfed; subst. right; left. eauto.
  - destruct Hdesc as [e He|He|head He Hf Hp].
    + right; left; eauto.
    + rewrite app_nil_r in Herr. left. split_and!; done.
    + rewrite app_nil_r in Herr. right; right; auto.
Qed.

(** A step of the decoding that succeeds. *)
Lemma checked_wp {A B} (r : res bytes A) a (f : A -> P B) Q R s :
  r = Ok a -> wpS (f a) Q R s -> wpS (x ← checked r; f x) Q R s.
Proof. intros -> Hf. s_step. cbn [checked]. by s_step. Qed.

Lemma main_wp ctx tz query ps buf s :
  build_setup little [] ctx tz query ps = Ok buf ->
  context_fits ctx -> string_fits tz -> string_fits query -> params_fit ps ->
  zlen buf < CHDB_SETUP_MAX -> content (pr_setup s) = buf -> clean (pr_setup s) ->
  (forall n, n <= CHDB_SETUP_MAX -> alloc n = true) ->
  pr_connects s = true -> pr_objects s = ∅ -> hc_cmd ctx ∈ commands ->
  wpS (main little alloc)
    (fun status s' => exists cs out err,
       ran (CallQuery (session_settings (hc_max_memory ctx) (hc_max_threads ctx)
              (hc_max_parsers ctx) tz) :: cs) out err s s' /\
       match (next (pr_answers s)).1 with
       | Some e => status = EXIT_FAILURE /\ cs = [] /\ out = [] /\ err = line e
       | None => commanded (hc_cmd ctx) query ps (set_answers (tail (pr_answers s)) s)
                   status cs out err
       end)
    (fun _ _ => False) s.
Proof.
  rewrite build_setup_wire. intros Hb (Hcmd & Hmem & Hthr & Hpar) Htz Hq [Hn Hps] Hlt Hin Hcl Hal Hconn Hobj Hc.
  case_match; [done|]. injection Hb as Hb.
  assert (Hsetup : setup_bytes alloc s = (Ok buf, set_setup [] s)).
  { unfold setup_bytes. rewrite (read_setup_spec alloc Hal) by (done || lia).
    unfold collected. rewrite Hin. by destruct (Z.leb_spec CHDB_SETUP_MAX (zlen buf)); [lia|]. }
  unfold main. s_step. eapply wpS_run; [exact Hsetup|]. cbv beta iota. rewrite <- Hb. unfold wire.
  eapply checked_wp; [apply take1_native|]. eapply checked_wp; [apply take2_native|].
  eapply checked_wp; [apply take2_native|]. eapply checked_wp; [apply take2_native|].
  eapply checked_wp; [by apply take_str_wire|]. eapply checked_wp; [by apply take_str_wire|].
  eapply checked_wp; [apply take2_native|].
  unfold u8, u16. rewrite !wrap_id by (try done; unfold fits; rewrite ?wrap_id by (unfold fits; lia); lia).
  cbv zeta. assert (Halloc : not_null alloc ((if zlen ps =? 0 then 1 else zlen ps) * 8) = Ok tt).
  { unfold not_null. rewrite Hal; [done|]. unfold CHDB_SETUP_MAX. destruct (_ =? _); lia. }
  do 4 (eapply checked_wp; [exact Halloc|]).
  eapply checked_wp.
  { rewrite Nat2Z.id. rewrite <- (app_nil_r (wire_params _ _)). by apply take_params_wire. }
  cbv beta iota. s_step. unfold chdb_connect. s_step. s_step.
  change (pr_connects (set_setup [] s)) with (pr_connects s). rewrite Hconn.
  s_step. apply create_wp. intros conn _. s_step. set (s1 := set_objects _ _).
  assert (Hs1 : pr_objects s1 = <[conn := Connection]> ∅) by (unfold s1; cbn; by rewrite Hobj).
  assert (Hc1 : pr_objects s1 !! conn = Some Connection) by (by rewrite Hs1, lookup_insert_eq).
  assert (Hclose : forall s2 cs out err status,
    ran cs out err s1 s2 -> wpS (chdb_close_conn conn ;; mret status : P Z)
      (fun st s' => st = status /\ ran cs out err s s') (fun (_ : Z) _ => False) s2).
  { intros s2 cs out err status [Ho Hcs Hout Herr]. rewrite <- Ho in Hc1. s_step.
    unfold chdb_close_conn. s_step. apply the_connection_wp; [done|].
    eapply destroy_wp; [done|]. s_step. split; [done|]. split; [|done..]. cbn.
    by rewrite Ho, Hs1, Hobj, delete_insert_id. }
  s_step. eapply wpS_mono; [by apply (setup_session_wp _ _ _ _ _ _ (fun _ _ => False))| |done].
  intros status s2 (err & Hran & Hrest & Hans & Hst). change (pr_answers s1) with (pr_answers s) in *.
  destruct (next (pr_answers s)).1 as [e|].
  - destruct Hst as [-> ->]. cbn [Z.eqb EXIT_FAILURE]. s_step. s_step.
    eapply wpS_mono; [by eapply Hclose| |done].
    intros st s' [-> Hr]. by exists [], [], (line e).
  - destruct Hst as [-> ->]. cbn [Z.eqb EXIT_SUCCESS]. s_step.
    assert (Hc2 : pr_objects s2 !! conn = Some Connection) by (by rewrite (ran_objects _ _ _ _ _ Hran)).
    eapply wpS_mono; [by apply run_command_wp| |].
    + intros st s3 (cs & out & err & Hr & Hcmd'). apply (ran_trans _ _ _ _ _ _ _ _ _ Hran) in Hr.
      eapply wpS_mono; [by eapply Hclose| |done]. intros st' s' [-> Hr']. exists cs, out, err.
      split; [done|]. destruct Hrest as [R1 R2 R3 R4]. unfold commanded in *.
      by rewrite Hans, R1, R2, R3, R4 in Hcmd'.
    + intros st s3 [_ Hf]. rewrite Hal in Hf; [done|]. by vm_compute.
Qed.

(** C39. The helper the backend started runs the command the backend asked for,
    with its settings first, and nothing else: given the payload [build_setup]
    made, in whatever pieces it comes, [main] decodes it, applies the session's
    settings in one query, and then runs the command's one query with exactly
    the text and the parameters that were sent; a session that is refused ends
    it with the reason on stderr. Whatever happens, every object libchdb gave
    is destroyed once and none is used after that, and every loop ends. *)
Theorem main_spec ctx tz query ps buf s :
  build_setup little [] ctx tz query ps = Ok buf ->
  context_fits ctx -> string_fits tz -> string_fits query -> params_fit ps ->
  zlen buf < CHDB_SETUP_MAX -> content (pr_setup s) = buf -> clean (pr_setup s) ->
  (forall n, n <= CHDB_SETUP_MAX -> alloc n = true) ->
  pr_connects s = true -> pr_objects s = ∅ -> hc_cmd ctx ∈ commands ->
  wpS (main little alloc)
    (fun status s' => exists cs out err,
       ran (CallQuery (session_settings (hc_max_memory ctx) (hc_max_threads ctx)
              (hc_max_parsers ctx) tz) :: cs) out err s s' /\
       match (next (pr_answers s)).1 with
       | Some e => status = EXIT_FAILURE /\ cs = [] /\ out = [] /\ err = line e
       | None => commanded (hc_cmd ctx) query ps (set_answers (tail (pr_answers s)) s)
                   status cs out err
       end)
    (fun _ _ => False) s.
Proof. apply main_wp. Qed.
End main.

(** ** The session's settings *)

Lemma length_b8 s : length (b8 s) = String.length s.
Proof.
  unfold b8, String.list_byte_of_string. rewrite length_map.
  induction s as [|c s IH]; [done|]. cbn. by rewrite IH.
Qed.

Lemma length_pretty_N_go k n s :
  (n < 10 ^ N.of_nat k)%N -> (String.length (pretty_N_go n s) <= k + String.length s)%nat.
Proof.
  revert n s. induction k as [|k IH]; intros n s Hn.
  - change (10 ^ N.of_nat 0)%N with 1%N in Hn. assert (n = 0%N) as -> by lia. done.
  - destruct (decide (n = 0%N)) as [->|]; [rewrite pretty_N_go_0; lia|].
    rewrite pretty_N_go_step by lia. etrans; [apply IH|cbn; lia].
    apply N.Div0.div_lt_upper_bound. rewrite Nat2N.inj_succ, N.pow_succ_r' in Hn. lia.
Qed.

(** A number below [10 ^ k] takes at most [k] digits. *)
Lemma length_fmt_d k z :
  (0 < k)%nat -> 0 <= z < 10 ^ Z.of_nat k -> (length (fmt_d z) <= k)%nat.
Proof.
  intros Hk [H0 Hz]. unfold fmt_d. rewrite length_b8.
  destruct z as [|p|p]; [cbn; lia| |lia].
  change (pretty (Z.pos p)) with (pretty_N_go (N.pos p) "").
  etrans; [apply (length_pretty_N_go k)|cbn; lia].
  apply N2Z.inj_lt. rewrite N2Z.inj_pow. by rewrite nat_N_Z.
Qed.

(** The query that sets up the session is never cut short by its buffer of
    1024 bytes, whatever the settings, for a time zone name no longer than
    Postgres allows (TZ_STRLEN_MAX); its memory limit is the setting's megabytes
    as bytes, with no overflow on the way; and the time zone stands in it as it
    is. *)
Theorem session_settings_spec mem threads parsers tz :
  fits 16 mem -> fits 16 threads -> fits 16 parsers -> zlen tz <= 255 -> x00 ∉ tz ->
  session_settings mem threads parsers tz =
  b8 "SET allow_experimental_nullable_tuple_type,"
  ++ b8 "output_format_json_quote_denormals,"
  ++ b8 "output_format_native_write_json_as_string,"
  ++ b8 "output_format_native_encode_types_in_binary_format=0,"
  ++ b8 "date_time_output_format='iso',"
  ++ b8 "max_threads=" ++ fmt_d threads ++ b8 ",max_parsing_threads=" ++ fmt_d parsers
  ++ b8 ",max_memory_usage=" ++ fmt_d (mem * 2 ^ 20)
  ++ b8 ",session_timezone='" ++ tz ++ b8 "'".
Proof.
  intros Hm Ht Hp Htz H0. unfold fits in *. unfold session_settings, session_format.
  rewrite cstr_id by done.
  replace (u64 (u64 (mem * 1024) * 1024)) with (mem * 2 ^ 20)
    by (unfold u64; rewrite !wrap_id; unfold fits; rewrite ?wrap_id; unfold fits; lia).
  apply take_ge. rewrite !length_app, !length_b8.
  pose proof (length_fmt_d 5 threads ltac:(lia) ltac:(lia)).
  pose proof (length_fmt_d 5 parsers ltac:(lia) ltac:(lia)).
  pose proof (length_fmt_d 11 (mem * 2 ^ 20) ltac:(lia) ltac:(lia)).
  apply Nat2Z.inj_le. rewrite Z2Nat.id by lia. rewrite !Nat2Z.inj_add. cbn [String.length].
  lia.
Qed.

(** ** Examples *)

Definition sample_context : chdbHelperContext := HelperContext CHDB_CMD_SELECT 4096 2 0.
Definition sample_params : params := [(b8 "path", b8 "/tmp/a.csv")].
Definition sample_payload : bytes :=
  wire true sample_context (b8 "UTC") (b8 "SELECT * FROM file({path:String})") sample_params.

(** The payload in two pieces, a stream of two blocks, and writes that take
    little or are interrupted. *)
Definition sample_proc : proc := {|
  pr_setup := [Data (take 9 sample_payload); Err EINTR; Data (drop 9 sample_payload)];
  pr_stdin := [];
  pr_writes := [Takes 1; Fails EINTR];
  pr_stdout := [];
  pr_stderr := [];
  pr_connects := true;
  pr_answers := [(None, []); (None, []); (None, b8 "ab"); (None, b8 "c")];
  pr_insert := None;
  pr_appends := [];
  pr_objects := ∅;
  pr_calls := [];
|}.

(** What a run ends with: its outcome, its calls and its output. *)
Definition observe (r : res Z Z * proc) : res Z Z * list call * bytes * bytes :=
  (r.1, pr_calls r.2, pr_stdout r.2, pr_stderr r.2).

Lemma main_spec_witness :
  exists s', main true (fun _ => true) sample_proc = (Ok EXIT_SUCCESS, s') /\
  pr_stdout s' = b8 "abc" /\ pr_objects s' = ∅ /\
  pr_calls s' = [CallQuery (session_settings 4096 2 0 (b8 "UTC"));
    CallStreamQuery (b8 "SELECT * FROM file({path:String})") sample_params].
Proof.
  assert (Hrun : observe (main true (fun _ => true) sample_proc)
    = (Ok EXIT_SUCCESS, [CallQuery (session_settings 4096 2 0 (b8 "UTC"));
        CallStreamQuery (b8 "SELECT * FROM file({path:String})") sample_params], b8 "abc", []))
    by (vm_compute; reflexivity).
  assert (Hspec := main_spec true (fun _ => true) sample_context (b8 "UTC")
    (b8 "SELECT * FROM file({path:String})") sample_params sample_payload sample_proc
    ltac:(concrete) ltac:(concrete) ltac:(concrete) ltac:(concrete) ltac:(concrete)
    ltac:(concrete) ltac:(concrete) ltac:(concrete) ltac:(reflexivity) eq_refl eq_refl
    ltac:(concrete)).
  unfold wpS in Hspec. destruct (main true (fun _ => true) sample_proc) as [r s'].
  unfold observe in Hrun. injection Hrun as Hr Hcs Hout _. cbn in Hr. subst r.
  destruct Hspec as (cs & out & err & Hran & _). exists s'.
  split; [reflexivity|]. split; [exact Hout|]. split; [|exact Hcs].
  rewrite (ran_objects _ _ _ _ _ Hran). reflexivity.
Defined.

(** A connection and an insert of three reads, the second cut short by a signal. *)
Definition sample_insert : proc :=
  set_objects {[7%nat := Connection]} (set_answers []
    (set_stdin [Data (b8 "ab"); Err EINTR; Data (b8 "cd")] sample_proc)).

Lemma exit_status_spec_witness :
  exists s', run_command (fun _ => true) 7 CHDB_CMD_INSERT (b8 "INSERT") [] sample_insert
    = (Ok EXIT_SUCCESS, s') /\
  pr_calls s' = [CallStreamInsert (b8 "INSERT") []; CallAppend (b8 "ab"); CallAppend (b8 "cd");
    CallDone] /\ pr_objects s' = {[7%nat := Connection]}.
Proof.
  assert (Hrun : observe (run_command (fun _ => true) 7 CHDB_CMD_INSERT (b8 "INSERT") [] sample_insert)
    = (Ok EXIT_SUCCESS, [CallStreamInsert (b8 "INSERT") []; CallAppend (b8 "ab");
        CallAppend (b8 "cd"); CallDone], [], [])) by (vm_compute; reflexivity).
  assert (Hspec := exit_status_spec (fun _ => true) 7 CHDB_CMD_INSERT (b8 "INSERT") []
    sample_insert eq_refl ltac:(concrete) eq_refl).
  unfold wpS in Hspec. destruct (run_command _ _ _ _ _ _) as [r s'].
  unfold observe in Hrun. injection Hrun as Hr Hcs _ _. cbn in Hr. subst r.
  destruct Hspec as (cs & _ & Ho & _). exists s'.
  split; [reflexivity|]. split; [exact Hcs|]. rewrite Ho. reflexivity.
Defined.

Lemma session_settings_spec_witness :
  exists head, session_settings 65535 0 4 (b8 "Europe/Paris")
  = head ++ b8 ",max_memory_usage=" ++ b8 "68718428160" ++ b8 ",session_timezone='"
    ++ b8 "Europe/Paris" ++ b8 "'".
Proof.
  rewrite (session_settings_spec 65535 0 4 (b8 "Europe/Paris") ltac:(concrete) ltac:(concrete)
    ltac:(concrete) ltac:(concrete) ltac:(concrete)).
  eexists (b8 "SET allow_experimental_nullable_tuple_type,output_format_json_quote_denormals,output_format_native_write_json_as_string,output_format_native_encode_types_in_binary_format=0,date_time_output_format='iso',max_threads=0,max_parsing_threads=4").
  reflexivity.
Defined.
