(* ===== verification/Fair.v ===== *)
(** * Fair: processes that take turns

    Several processes move one state; a schedule says who moves when, and is
    fair when nobody waits for ever. The rule that ends a run: in every state
    one process is helpful, whose move lowers a rank that no move raises, and
    it stays the helpful one until the rank falls. *)

From stdpp Require Import prelude.

Section fair.
Context {St C W : Type} `{!EqDecision W} (who : C -> W) (step : C -> St -> St).

Fixpoint run (sched : nat -> C) (n : nat) (s : St) : St :=
  match n with
  | O => s
  | S n => run (fun k => sched (S k)) n (step (sched 0) s)
  end.

Definition fair (sched : nat -> C) : Prop := forall w n, exists m, n <= m /\ who (sched m) = w.

Lemma fair_tail sched : fair sched -> fair (fun k => sched (S k)).
Proof.
  intros H w n. destruct (H w (S n)) as ([|m] & Hm & Hw); [lia|]. exists m. split; [lia|done].
Qed.

Lemma run_S sched n s : run sched (S n) s = step (sched n) (run sched n s).
Proof. revert sched s. induction n as [|n IH]; intros; [done|]. exact (IH (fun k => sched (S k)) _). Qed.

Record ends (ok over : St -> Prop) (rank : St -> nat) (helpful : St -> W) : Prop := Ends {
  ends_ok : forall c s, ok s -> ok (step c s);
  ends_rank : forall c s, ok s -> rank (step c s) <= rank s;
  ends_helps : forall c s, ok s -> ~ over s -> who c = helpful s -> rank (step c s) < rank s;
  ends_kept : forall c s, ok s -> rank (step c s) = rank s ->
    helpful (step c s) = helpful s;
}.

Context {ok over : St -> Prop} `{over_dec : !forall s, Decision (over s)}.
Context {rank : St -> nat} {helpful : St -> W} (He : ends ok over rank helpful).

(** The helpful process moves at time [m], or the rank fell before. *)
Lemma helped m sched s :
  ok s -> who (sched m) = helpful s ->
  exists n, n <= m /\ (over (run sched n s) \/ rank (run sched (S n) s) < rank s).
Proof using over_dec He.
  revert sched s. induction m as [|m IH]; intros sched s Hok Hm.
  - exists 0. split; [done|]. destruct (decide (over s)) as [|Hn]; [by left|right].
    by apply (ends_helps _ _ _ _ He).
  - set (s' := step (sched 0) s). pose proof (ends_rank _ _ _ _ He (sched 0) s Hok) as Hle.
    destruct (decide (rank s' = rank s)) as [Heq|Hne].
    + destruct (IH (fun k => sched (S k)) s') as (n & Hn & Hend).
      * by apply (ends_ok _ _ _ _ He).
      * unfold s'. by rewrite (ends_kept _ _ _ _ He _ _ Hok Heq).
      * exists (S n). split; [lia|]. rewrite <- Heq. exact Hend.
    + exists 0. split; [lia|right]. cbn. unfold s' in *. lia.
Qed.

Lemma ok_run sched n s : ok s -> ok (run sched n s).
Proof using He.
  revert sched s. induction n as [|n IH]; intros sched s Hok; [done|].
  cbn. apply IH. by apply (ends_ok _ _ _ _ He).
Qed.

Lemma run_add sched n m s :
  run sched (n + m) s = run (fun k => sched (n + k)) m (run sched n s).
Proof. revert sched s. induction n as [|n IH]; intros; [done|]. exact (IH (fun k => sched (S k)) _). Qed.

Lemma fair_drop sched n : fair sched -> fair (fun k => sched (n + k)).
Proof.
  intros H w k. destruct (H w (n + k)) as (m & Hm & Hw). exists (m - n). split; [lia|].
  by replace (n + (m - n)) with m by lia.
Qed.

Lemma fair_ends sched s : fair sched -> ok s -> exists n, over (run sched n s).
Proof using over_dec He.
  remember (rank s) as r eqn:Hr. revert sched s Hr.
  induction r as [r IH] using lt_wf_ind. intros sched s Hr Hf Hok.
  destruct (Hf (helpful s) 0) as (m & _ & Hm).
  destruct (helped m sched s Hok Hm) as (n & _ & [Hend|Hlt]); [by exists n|].
  destruct (IH _ ltac:(rewrite Hr; exact Hlt) (fun k => sched (S n + k)) _ eq_refl) as [k Hk].
  - by apply fair_drop.
  - by apply ok_run.
  - exists (S n + k). by rewrite run_add.
Qed.
End fair.
