(* ===== verification/Duplex.v ===== *)
(** * Duplex: the backend and its helper, running at the same time

    Channel and HelperProc give each side of the channel by itself, with the
    kernel's answers in its state. Here both sides move in turns over the ducts
    between them, which hold only so much: the loops of src/helper.c that move
    bytes, one system call a step, against a helper program that reads, writes
    and says what it likes. A call that would block leaves the state as it is;
    a call that meets a signal is a turn not taken. Interrupts, which end the
    backend's side at once (Lifecycle), are left out. *)

From stdpp Require Import prelude.
From S2P Require Import Prelude Channel Fair.

(** ** Ducts *)

(** One direction of a pipe or a socket, with its two ends. *)
Record duct : Type := Duct {
  d_cap : nat;
  d_held : bytes;
  d_writer : bool;
  d_reader : bool;
}.

Definition space (d : duct) : nat := d_cap d - length (d_held d).
Definition push (p : bytes) (d : duct) : duct :=
  Duct (d_cap d) (d_held d ++ p) (d_writer d) (d_reader d).
Definition pull (k : nat) (d : duct) : duct :=
  Duct (d_cap d) (drop k (d_held d)) (d_writer d) (d_reader d).
Definition shut_writer (d : duct) : duct := Duct (d_cap d) (d_held d) false (d_reader d).
(** What was not read is gone. *)
Definition shut_reader (d : duct) : duct := Duct (d_cap d) [] (d_writer d) false.

(** A call moves as much as it may, or less: [n] more than one byte. *)
Definition portion (n most : nat) : nat := S n `min` most.

Inductive wrote : Type := Wrote (k : nat) | Full | Broken.
Definition try_write (n : nat) (p : bytes) (d : duct) : wrote :=
  if d_reader d then
    if decide (space d = 0) then Full else Wrote (portion n (length p `min` space d))
  else Broken.

Inductive taken : Type := Took (k : nat) | Empty | Ended.
Definition try_read (n : nat) (len : nat) (d : duct) : taken :=
  match d_held d with
  | [] => if d_writer d then Empty else Ended
  | _ => Took (portion n (len `min` length (d_held d)))
  end.

(** ** The two sides *)

(** What the backend is busy with: writing the setup payload, then either the
    COPY's data, in writes of [chdb_helper_write], or receiving until the end;
    then [drain_and_reap]. *)
Inductive work : Type :=
| Setup (p : bytes)
| Data (p : bytes) (ps : list bytes)
| Recv
| Fin.

(** Where its loop is: at its own system call, in [drain_err], or in [wait_fd];
    then in [waitpid], and past it. *)
Inductive point : Type :=
| At (w : work)
| Drain (w : work)
| Wait (w : work)
| Reap
| Over.

#[export] Instance work_eq_decision : EqDecision work.
Proof. solve_decision. Defined.
#[export] Instance point_eq_decision : EqDecision point.
Proof. solve_decision. Defined.

Inductive job : Type := Send (ps : list bytes) | Receive.

(** [b_drained] is all that was read from the error channel. *)
Record backend : Type := Backend {
  b_point : point;
  b_failed : bool;
  b_got : bytes;
  b_err_buf : bytes;
  b_drained : bytes;
}.

(** What the helper's program does to its channels: it reads its setup to the
    end, reads its input once or to the end, writes its output, and says
    something on its standard error. Then it exits. *)
Inductive action : Type :=
| TakeSetup
| Take
| TakeAll
| Out (p : bytes)
| Say (p : bytes).

Record helper : Type := Helper {
  a_prog : list action;
  a_exited : bool;
  a_setup : bytes;
  a_input : bytes;
}.

Record ducts : Type := Ducts {
  to_setup : duct;
  to_helper : duct;
  from_helper : duct;
  from_err : duct;
}.

Record sys : Type := Sys { y_b : backend; y_a : helper; y_d : ducts }.

Definition set_point (pt : point) (b : backend) : backend :=
  Backend pt (b_failed b) (b_got b) (b_err_buf b) (b_drained b).
Definition set_failed (b : backend) : backend :=
  Backend (b_point b) true (b_got b) (b_err_buf b) (b_drained b).
Definition take_got (p : bytes) (b : backend) : backend :=
  Backend (b_point b) (b_failed b) (b_got b ++ p) (b_err_buf b) (b_drained b).
Definition set_to_setup (d : duct) (y : ducts) : ducts :=
  Ducts d (to_helper y) (from_helper y) (from_err y).
Definition set_to_helper (d : duct) (y : ducts) : ducts :=
  Ducts (to_setup y) d (from_helper y) (from_err y).
Definition set_from_helper (d : duct) (y : ducts) : ducts :=
  Ducts (to_setup y) (to_helper y) d (from_err y).
Definition set_from_err (d : duct) (y : ducts) : ducts :=
  Ducts (to_setup y) (to_helper y) (from_helper y) d.

(** [close_fd(&h->data)]: both directions. *)
Definition close_data (y : ducts) : ducts :=
  Ducts (to_setup y) (shut_writer (to_helper y)) (shut_reader (from_helper y)) (from_err y).

Definition go (pt : point) (y : sys) : sys := Sys (set_point pt (y_b y)) (y_a y) (y_d y).

(** ** The backend's steps *)

(** [write_all]'s loop has written all of its bytes, and what comes next. *)
Definition job_work (j : job) : work :=
  match j with Send ps => Data [] ps | Receive => Recv end.

(** One [write] of [write_all]: [report_helper] follows a broken channel. *)
Definition write_step (n : nat) (w : work) (p : bytes) (d : duct) (set : duct -> ducts -> ducts)
    (rest : bytes -> work) (y : sys) : sys :=
  match try_write n p d with
  | Wrote k => Sys (set_point (At (rest (drop k p))) (y_b y)) (y_a y)
                 (set (push (take k p) d) (y_d y))
  | Full => go (Drain w) y
  | Broken => Sys (set_point (At Fin) (set_failed (y_b y))) (y_a y) (y_d y)
  end.

(** One [read] of [chdb_helper_recv]. *)
Definition recv_step (n : nat) (y : sys) : sys :=
  let d := from_helper (y_d y) in
  match try_read n (length (d_held d)) d with
  | Took k => Sys (take_got (take k (d_held d)) (y_b y)) (y_a y) (set_from_helper (pull k d) (y_d y))
  | Empty => go (Drain Recv) y
  | Ended => Sys (set_point (At Fin) (y_b y)) (y_a y) (close_data (y_d y))
  end.

(** One [read] of [drain_err]: past the room of [err_buf] it goes to the sink. *)
Definition err_room : nat := Z.to_nat (CHDB_HELPER_ERR_MAX - 1).
Definition drain_len (b : backend) : nat :=
  let room := err_room - length (b_err_buf b) in
  if decide (room = 0) then S err_room else room.
Definition take_err (p : bytes) (b : backend) : backend :=
  Backend (b_point b) (b_failed b) (b_got b)
    (if decide (err_room - length (b_err_buf b) = 0) then b_err_buf b else b_err_buf b ++ p)
    (b_drained b ++ p).

Definition drain_step (n : nat) (w : work) (y : sys) : sys :=
  let d := from_err (y_d y) in
  if d_reader d then
    match try_read n (drain_len (y_b y)) d with
    | Took k => Sys (take_err (take k (d_held d)) (y_b y)) (y_a y) (set_from_err (pull k d) (y_d y))
    | Empty => go (Wait w) y
    | Ended => Sys (set_point (if decide (w = Fin) then At Fin else Wait w) (y_b y)) (y_a y)
                 (set_from_err (shut_reader d) (y_d y))
    end
  else go (Wait w) y.

(** [drain_and_reap]'s loop condition. *)
Definition fin_step (y : sys) : sys :=
  go (if d_reader (from_err (y_d y)) then Drain Fin else Reap) y.

(** [waitpid] returns once the helper has exited. *)
Definition reap_step (y : sys) : sys := if a_exited (y_a y) then go Over y else y.

Section system.
Context (j : job).

Definition at_step (n : nat) (w : work) (y : sys) : sys :=
  match w with
  | Setup [] => Sys (set_point (At (job_work j)) (y_b y)) (y_a y)
                  (set_to_setup (shut_writer (to_setup (y_d y))) (y_d y))
  | Setup p => write_step n w p (to_setup (y_d y)) set_to_setup Setup y
  | Data [] [] => Sys (set_point (At Fin) (y_b y)) (y_a y) (close_data (y_d y))
  | Data [] (p :: ps) => go (At (Data p ps)) y
  | Data p ps => write_step n w p (to_helper (y_d y)) set_to_helper (fun p => Data p ps) y
  | Recv => recv_step n y
  | Fin => fin_step y
  end.

(** [wait_fd] returns when the descriptor is ready or the time is up. *)
Definition backend_step (n : nat) (y : sys) : sys :=
  match b_point (y_b y) with
  | At w => at_step n w y
  | Drain w => drain_step n w y
  | Wait w => go (At w) y
  | Reap => reap_step y
  | Over => y
  end.

(** ** The helper's steps *)

Definition set_prog (prog : list action) (a : helper) : helper :=
  Helper prog (a_exited a) (a_setup a) (a_input a).

(** Its descriptors close. *)
Definition exit_step (y : sys) : sys :=
  let d := y_d y in
  Sys (y_b y) (Helper [] true (a_setup (y_a y)) (a_input (y_a y)))
    (Ducts (shut_reader (to_setup d)) (shut_reader (to_helper d)) (shut_writer (from_helper d))
       (shut_writer (from_err d))).

(** One [read] of [read_setup]. *)
Definition setup_step (n : nat) (prog : list action) (y : sys) : sys :=
  let d := to_setup (y_d y) in
  let a := y_a y in
  match try_read n (length (d_held d)) d with
  | Took k => Sys (y_b y) (Helper (a_prog a) (a_exited a) (a_setup a ++ take k (d_held d)) (a_input a))
                (set_to_setup (pull k d) (y_d y))
  | Empty => y
  | Ended => Sys (y_b y) (set_prog prog a) (y_d y)
  end.

(** One [read] of its standard input; [next] is left after a piece, [prog]
    after the end. *)
Definition take_step (n : nat) (next prog : list action) (y : sys) : sys :=
  let d := to_helper (y_d y) in
  let a := y_a y in
  match try_read n (length (d_held d)) d with
  | Took k => Sys (y_b y) (Helper next (a_exited a) (a_setup a) (a_input a ++ take k (d_held d)))
                (set_to_helper (pull k d) (y_d y))
  | Empty => y
  | Ended => Sys (y_b y) (set_prog prog a) (y_d y)
  end.

(** One [write] to its standard output; without a backend it gives up. *)
Definition out_step (n : nat) (p : bytes) (prog : list action) (y : sys) : sys :=
  let d := from_helper (y_d y) in
  match try_write n p d with
  | Wrote k => Sys (y_b y) (set_prog (Out (drop k p) :: prog) (y_a y))
                 (set_from_helper (push (take k p) d) (y_d y))
  | Full => y
  | Broken => Sys (y_b y) (set_prog [] (y_a y)) (y_d y)
  end.

(** One [write] to its standard error, whose failure it does not look at. *)
Definition say_step (n : nat) (p : bytes) (prog : list action) (y : sys) : sys :=
  let d := from_err (y_d y) in
  match try_write n p d with
  | Wrote k => Sys (y_b y) (set_prog (Say (drop k p) :: prog) (y_a y))
                 (set_from_err (push (take k p) d) (y_d y))
  | Full => y
  | Broken => Sys (y_b y) (set_prog prog (y_a y)) (y_d y)
  end.

Definition helper_step (n : nat) (y : sys) : sys :=
  if a_exited (y_a y) then y
  else
    match a_prog (y_a y) with
    | [] => exit_step y
    | TakeSetup :: prog => setup_step n prog y
    | Take :: prog => take_step n prog prog y
    | TakeAll :: prog => take_step n (TakeAll :: prog) prog y
    | Out [] :: prog | Say [] :: prog => Sys (y_b y) (set_prog prog (y_a y)) (y_d y)
    | Out p :: prog => out_step n p prog y
    | Say p :: prog => say_step n p prog y
    end.

(** ** The two together *)

Inductive side : Type := TheBackend | TheHelper.
#[export] Instance side_eq_decision : EqDecision side.
Proof. solve_decision. Defined.

(** A turn: who moves, and how much a call moves. *)
Definition turn : Type := side * nat.

Definition step (c : turn) (y : sys) : sys :=
  match c.1 with TheBackend => backend_step c.2 y | TheHelper => helper_step c.2 y end.

(** After the fork: every duct open and empty. *)
Definition start (caps : nat * nat * nat * nat) (payload : bytes) (prog : list action) : sys :=
  let '(c1, c2, c3, c4) := caps in
  Sys (Backend (At (Setup payload)) false [] [] [])
    (Helper prog false [] [])
    (Ducts (Duct c1 [] true true) (Duct c2 [] true true) (Duct c3 [] true true)
       (Duct c4 [] true true)).
End system.
