(* ===== verification/DuplexProps.v ===== *)
(** * DuplexProps: what the two sides have left to do

    A weight that every call that moves something lowers, and which calls do
    not move anything: those that go round a loop without one. *)

From stdpp Require Import prelude.
From S2P Require Import Prelude Channel Fair Duplex.

Section props.
Context (j : job).

(** ** Weights: a byte weighs two before it is written and one in its duct *)

Definition work_weight (w : work) : nat :=
  match w with
  | Setup p =>
      2 * length p + 4
      + match j with Send ps => foldr (fun p n => S (2 * length p + n)) 0 ps | Receive => 0 end
  | Data p ps => 2 * length p + 3 + foldr (fun p n => S (2 * length p + n)) 0 ps
  | Recv => 3
  | Fin => 2
  end.

Definition point_weight (pt : point) : nat :=
  match pt with At w | Drain w | Wait w => work_weight w | Reap => 1 | Over => 0 end.

Definition action_weight (a : action) : nat :=
  match a with Out p | Say p => S (2 * length p) | _ => 1 end.

Definition prog_weight (prog : list action) : nat :=
  foldr (fun a n => action_weight a + n) 0 prog.

Definition held_weight (d : ducts) : nat :=
  length (d_held (to_setup d)) + length (d_held (to_helper d))
  + length (d_held (from_helper d)) + length (d_held (from_err d)).

Definition weight (y : sys) : nat :=
  point_weight (b_point (y_b y)) + (if d_reader (from_err (y_d y)) then 1 else 0)
  + prog_weight (a_prog (y_a y)) + (if a_exited (y_a y) then 0 else 1)
  + held_weight (y_d y).

(** ** Calls that move something *)

Definition can_write (d : duct) : bool := negb (d_reader d) || bool_decide (space d <> 0).
Definition can_read (d : duct) : bool := bool_decide (d_held d <> []) || negb (d_writer d).

Definition at_moves (w : work) (d : ducts) : bool :=
  match w with
  | Setup [] => true
  | Setup _ => can_write (to_setup d)
  | Data [] _ => true
  | Data _ _ => can_write (to_helper d)
  | Recv => can_read (from_helper d)
  | Fin => negb (d_reader (from_err d))
  end.

Definition drain_moves (d : ducts) : bool := d_reader (from_err d) && can_read (from_err d).

Definition backend_moves (y : sys) : bool :=
  match b_point (y_b y) with
  | At w => at_moves w (y_d y)
  | Drain w => drain_moves (y_d y)
  | Reap => a_exited (y_a y)
  | Wait _ | Over => false
  end.

Definition helper_moves (y : sys) : bool :=
  negb (a_exited (y_a y)) &&
  match a_prog (y_a y) with
  | [] | Out [] :: _ | Say [] :: _ => true
  | TakeSetup :: _ => can_read (to_setup (y_d y))
  | (Take | TakeAll) :: _ => can_read (to_helper (y_d y))
  | Out _ :: _ => can_write (from_helper (y_d y))
  | Say _ :: _ => can_write (from_err (y_d y))
  end.

(** Round the loop without moving anything. *)
Definition next (pt : point) : point :=
  match pt with At w => Drain w | Drain w => Wait w | Wait w => At w | Reap => Reap | Over => Over end.

(** *** The calls *)

Lemma try_write_cases n p d :
  p <> [] ->
  match try_write n p d with
  | Wrote k => can_write d = true /\ 0 < k <= length p
  | Full => can_write d = false
  | Broken => can_write d = true
  end.
Proof.
  intros Hp. unfold try_write, can_write, portion. destruct (d_reader d); [|done]. cbn [negb orb].
  destruct (decide (space d = 0)) as [Hs|Hs].
  - rewrite bool_decide_eq_false_2; [done|lia].
  - rewrite bool_decide_eq_true_2 by done. split; [done|].
    destruct p; [done|]. cbn [length]. lia.
Qed.

Lemma try_read_cases n len d :
  0 < len \/ len = length (d_held d) ->
  match try_read n len d with
  | Took k => can_read d = true /\ 0 < k <= length (d_held d) /\ k <= len
  | Empty => can_read d = false
  | Ended => can_read d = true /\ d_held d = [] /\ d_writer d = false
  end.
Proof.
  intros Hlen. unfold try_read, can_read, portion. destruct (d_held d) as [|b h] eqn:Hh.
  - rewrite bool_decide_eq_false_2 by naive_solver. by destruct (d_writer d).
  - rewrite bool_decide_eq_true_2 by done. cbn [length] in *. split; [done|]. lia.
Qed.

Lemma full_duct d : 0 < d_cap d -> can_write d = false -> d_reader d = true /\ d_held d <> [].
Proof.
  unfold can_write, space. intros Hd Hw. destruct (d_reader d); [|done]. cbn [negb orb] in Hw.
  apply bool_decide_eq_false in Hw. split; [done|]. intros E. rewrite E in Hw. cbn in Hw. lia.
Qed.

Lemma empty_duct d : can_read d = false -> d_held d = [] /\ d_writer d = true.
Proof.
  unfold can_read. intros [He Hw]%orb_false_elim. apply bool_decide_eq_false in He.
  split; [destruct (d_held d); [done|by destruct He]|by destruct (d_writer d)].
Qed.

Lemma roomy_duct d : 0 < d_cap d -> d_held d = [] -> can_write d = true.
Proof.
  unfold can_write, space. intros Hd ->. apply orb_true_iff. right.
  apply bool_decide_eq_true. cbn. lia.
Qed.

Lemma held_duct d : d_held d <> [] -> can_read d = true.
Proof. intros H. unfold can_read. by rewrite bool_decide_eq_true_2. Qed.

Lemma try_write_Broken n p d : try_write n p d = Broken -> d_reader d = false.
Proof. unfold try_write. destruct (d_reader d); [|done]. by case_decide. Qed.

Lemma try_read_Ended n len d : try_read n len d = Ended -> d_held d = [] /\ d_writer d = false.
Proof. unfold try_read. destruct (d_held d); [|done]. by destruct (d_writer d). Qed.

Lemma try_read_Took n len d k : try_read n len d = Took k -> k <= len.
Proof.
  unfold try_read. destruct (d_held d) as [|b h]; [by destruct (d_writer d)|]. intros Ht.
  assert (k = portion n (len `min` length (b :: h))) as -> by congruence. unfold portion. lia.
Qed.

(** A call that would block leaves only the turn; any other lowers the weight. *)
Definition moved (moves : bool) (y y' stuck : sys) : Prop :=
  if moves then weight y' < weight y else y' = stuck.

Ltac weigh :=
  unfold weight, held_weight, push, pull in *;
  cbn [y_b y_a y_d b_point set_point go take_got take_err set_failed a_prog a_exited set_prog
       to_setup to_helper from_helper from_err set_to_setup set_to_helper set_from_helper
       set_from_err close_data shut_writer shut_reader d_held d_reader d_writer
       point_weight work_weight prog_weight action_weight foldr length] in *;
  rewrite ?length_app, ?length_drop, ?length_take;
  repeat match goal with
         | H : b_point _ = _ |- _ => rewrite H; clear H
         | H : a_prog _ = _ |- _ => rewrite H; clear H
         | H : a_exited _ = _ |- _ => rewrite H; clear H
         | H : d_reader _ = _ |- _ => rewrite H; clear H
         end;
  unfold prog_weight; cbn [point_weight work_weight action_weight foldr length];
  rewrite ?length_drop;
  repeat (case_match; cbn [point_weight work_weight foldr length] in *); try discriminate; lia.

Lemma write_step_moved n w p d set rest y :
  p <> [] -> b_point (y_b y) = At w ->
  (forall q, q <> [] -> length q <= length p ->
     held_weight (set (push q d) (y_d y)) = held_weight (y_d y) + length q) ->
  (forall q, from_err (set (push q d) (y_d y)) = from_err (y_d y)) ->
  (forall k, k <= length p -> work_weight w = work_weight (rest (drop k p)) + 2 * k) ->
  2 < work_weight w ->
  moved (can_write d) y (write_step n w p d set rest y) (go (Drain w) y).
Proof.
  intros Hp Hpt Hset Herr Hrest Hw. unfold write_step. pose proof (try_write_cases n p d Hp) as Ht.
  destruct (try_write n p d) as [k| |].
  - destruct Ht as [-> Hk]. specialize (Hrest k ltac:(lia)).
    assert (length (take k p) = k) as Hlen by (rewrite length_take; lia).
    specialize (Hset (take k p)). rewrite Hlen in Hset.
    assert (take k p <> []) as Hne by (intros E; rewrite E in Hlen; cbn in Hlen; lia).
    specialize (Hset Hne ltac:(lia)). cbn. unfold weight. cbn [y_b y_a y_d b_point set_point].
    rewrite Herr, Hset, Hpt. cbn [point_weight]. lia.
  - by rewrite Ht.
  - rewrite Ht. cbn. unfold weight. cbn [y_b y_a y_d b_point set_point set_failed].
    rewrite Hpt. cbn [point_weight]. change (work_weight Fin) with 2. lia.
Qed.

(** A read that takes all it can, and a write, case by case. *)
Ltac by_read n d :=
  let Ht := fresh in
  pose proof (try_read_cases n (length (d_held d)) d ltac:(by right)) as Ht;
  destruct (try_read n _ d); [destruct Ht as (-> & ? & _)|by rewrite Ht|destruct Ht as (-> & _)];
  cbn [moved]; weigh.
Ltac by_write n p d :=
  let Ht := fresh in
  pose proof (try_write_cases n p d ltac:(done)) as Ht;
  destruct (try_write n _ d); [destruct Ht as (-> & ?)|by rewrite Ht|rewrite Ht];
  cbn [moved]; weigh.

Lemma recv_step_moved n y :
  b_point (y_b y) = At Recv ->
  moved (can_read (from_helper (y_d y))) y (recv_step n y) (go (Drain Recv) y).
Proof.
  intros Hpt. unfold recv_step. by_read n (from_helper (y_d y)).
Qed.

Lemma drain_step_moved n w y :
  b_point (y_b y) = Drain w ->
  moved (drain_moves (y_d y)) y (drain_step n w y) (go (Wait w) y).
Proof.
  intros Hpt. unfold drain_step, drain_moves. set (d := from_err (y_d y)).
  destruct (d_reader d) eqn:Hr; [|done].
  assert (0 < drain_len (y_b y)) as Hlen by (unfold drain_len; case_decide; lia).
  pose proof (try_read_cases n (drain_len (y_b y)) d ltac:(by left)) as Ht.
  destruct (try_read n _ d) as [k| |]; [destruct Ht as (-> & Hk & _)|by rewrite Ht|destruct Ht as (-> & _)];
    cbn [moved andb]; unfold d in *; [weigh|].
  assert (point_weight (if decide (w = Fin) then At Fin else Wait w) = point_weight (Drain w)) as Hw
    by (case_decide; by subst).
  unfold weight, held_weight. cbn [y_b y_a y_d b_point set_point to_setup to_helper from_helper
    from_err set_from_err shut_reader d_held d_reader].
  rewrite Hw, Hr, Hpt. cbn [length]. lia.
Qed.

Lemma backend_moved n y :
  moved (backend_moves y) y (backend_step j n y) (go (next (b_point (y_b y))) y).
Proof.
  unfold backend_moves, backend_step. destruct (b_point (y_b y)) as [w|w|w| |] eqn:Hpt; cbn [next].
  - destruct w as [[|b p]|[|b p] ps| |]; cbn [at_step at_moves].
    + cbn [moved]. unfold job_work. weigh.
    + apply write_step_moved; try done; intros; unfold held_weight; cbn; rewrite ?length_app, ?length_drop; cbn in *; lia.
    + destruct ps; cbn [moved]; weigh.
    + apply write_step_moved; try done; intros; unfold held_weight; cbn; rewrite ?length_app, ?length_drop; cbn in *; lia.
    + by apply recv_step_moved.
    + unfold fin_step. destruct (d_reader (from_err (y_d y))) eqn:Hr; cbn [negb moved]; [done|weigh].
  - by apply drain_step_moved.
  - done.
  - unfold reap_step. destruct (a_exited (y_a y)) eqn:He; cbn [moved]; [weigh|].
    destruct y as [[] ? ?]. cbn in Hpt. by subst.
  - cbn. destruct y as [[] ? ?]. cbn in Hpt. by subst.
Qed.

Lemma helper_moved n y : moved (helper_moves y) y (helper_step n y) y.
Proof.
  unfold helper_moves, helper_step. destruct (a_exited (y_a y)) eqn:He; cbn [negb andb]; [done|].
  destruct (a_prog (y_a y)) as [|[| | |[|b p]|[|b p]] prog] eqn:Hp; unfold exit_step; try (cbn [moved]; weigh).
  - unfold setup_step. by_read n (to_setup (y_d y)).
  - unfold take_step. by_read n (to_helper (y_d y)).
  - unfold take_step. by_read n (to_helper (y_d y)).
  - unfold out_step. by_write n (b :: p) (from_helper (y_d y)).
  - unfold say_step. by_write n (b :: p) (from_err (y_d y)).
Qed.
End props.
