(* ===== verification/DuplexTheorems.v ===== *)
(** * DuplexTheorems: the two sides never wait for each other for ever

    Who holds which end in every reachable state, why a helper that cannot move
    always leaves the backend something to do, and what has crossed when both
    are done. *)

From stdpp Require Import prelude.
From S2P Require Import Prelude Channel Fair Duplex DuplexProps.

(** ** Helper programs *)

Fixpoint outs (prog : list action) : bytes :=
  match prog with
  | [] => []
  | Out p :: prog => p ++ outs prog
  | _ :: prog => outs prog
  end.

Fixpoint says (prog : list action) : bytes :=
  match prog with
  | [] => []
  | Say p :: prog => p ++ says prog
  | _ :: prog => says prog
  end.

Fixpoint takes_setup (prog : list action) : bool :=
  match prog with
  | [] => false
  | TakeSetup :: _ => true
  | _ :: prog => takes_setup prog
  end.

Fixpoint takes_all (prog : list action) : bool :=
  match prog with
  | [] => false
  | TakeAll :: _ => true
  | _ :: prog => takes_all prog
  end.

(** Until it has its setup, a program only speaks on its standard error. *)
Fixpoint early (prog : list action) : Prop :=
  match prog with
  | [] => True
  | TakeSetup :: _ => True
  | Say _ :: prog => early prog
  | _ => False
  end.

(** A program for a COPY TO writes nothing to its standard output, and one for a
    COPY FROM or a DESCRIBE reads nothing from its standard input. *)
Fixpoint suits (j : job) (prog : list action) : Prop :=
  match prog with
  | [] => True
  | a :: prog =>
      match j, a with
      | Send _, Out _ | Receive, (Take | TakeAll) => False
      | _, _ => True
      end /\ suits j prog
  end.

Definition sent (j : job) : bytes := match j with Send ps => concat ps | Receive => [] end.

(** ** Who holds what *)

Definition working (pt : point) : option work :=
  match pt with At w | Drain w | Wait w => Some w | Reap | Over => None end.
Definition in_setup (pt : point) : bool :=
  match working pt with Some (Setup _) => true | _ => false end.
Definition late (pt : point) : bool :=
  match working pt with Some Fin | None => true | _ => false end.
Definition busy_with (j : job) (pt : point) : Prop :=
  match working pt, j with
  | Some (Data _ _), Receive | Some Recv, Send _ => False
  | _, _ => True
  end.

Section tied.
Context (j : job).

Record tied (y : sys) : Prop := Tied {
  t_caps : 0 < d_cap (to_setup (y_d y)) /\ 0 < d_cap (to_helper (y_d y)) /\
           0 < d_cap (from_helper (y_d y)) /\ 0 < d_cap (from_err (y_d y));
  t_setup_r : d_reader (to_setup (y_d y)) = negb (a_exited (y_a y));
  t_to_r : d_reader (to_helper (y_d y)) = negb (a_exited (y_a y));
  t_from_w : d_writer (from_helper (y_d y)) = negb (a_exited (y_a y));
  t_err_w : d_writer (from_err (y_d y)) = negb (a_exited (y_a y));
  t_prog : a_exited (y_a y) = true -> a_prog (y_a y) = [];
  t_setup_w : d_writer (to_setup (y_d y)) = true ->
              in_setup (b_point (y_b y)) = true \/ a_exited (y_a y) = true;
  t_in_setup : in_setup (b_point (y_b y)) = true -> d_writer (to_setup (y_d y)) = true;
  t_to_w : late (b_point (y_b y)) = false -> d_writer (to_helper (y_d y)) = true;
  t_late : late (b_point (y_b y)) = true ->
           a_exited (y_a y) = true \/ d_writer (to_helper (y_d y)) = false /\ j <> Receive;
  t_from_r : late (b_point (y_b y)) = false -> d_reader (from_helper (y_d y)) = true;
  t_err_r : d_reader (from_err (y_d y)) = false -> a_exited (y_a y) = true;
  t_reap : working (b_point (y_b y)) = None -> d_reader (from_err (y_d y)) = false;
  t_job : busy_with j (b_point (y_b y));
  t_suits : suits j (a_prog (y_a y));
  t_early : d_writer (to_setup (y_d y)) = true -> early (a_prog (y_a y));
}.

(** The backend has something to do, at its own call or while it drains the
    error channel. *)
Definition can_go_on (y : sys) : Prop :=
  match working (b_point (y_b y)) with
  | Some w => at_moves w (y_d y) = true \/ drain_moves (y_d y) = true
  | None => b_point (y_b y) = Reap -> a_exited (y_a y) = true
  end.

Lemma exited_goes_on y : tied y -> a_exited (y_a y) = true -> can_go_on y.
Proof.
  intros Ht Hx. unfold can_go_on. destruct (working (b_point (y_b y))) as [w|]; [|done].
  unfold drain_moves, can_read. rewrite (t_err_w _ Ht), Hx, orb_true_r.
  destruct (d_reader (from_err (y_d y))) eqn:Hr; [by right|left].
  destruct w as [[|]|[|] ps| |]; cbn [at_moves]; unfold can_write, can_read;
    rewrite ?(t_setup_r _ Ht), ?(t_to_r _ Ht), ?(t_from_w _ Ht), ?Hr, ?Hx, ?orb_true_r; done.
Qed.

(** What a helper that runs can wait for, and what the backend does about it. *)
Lemma waits_setup y :
  tied y -> a_exited (y_a y) = false -> can_read (to_setup (y_d y)) = false -> can_go_on y.
Proof.
  intros Ht Hx [E1 E2]%empty_duct. unfold can_go_on.
  destruct (t_setup_w _ Ht E2) as [Hs|]; [|congruence]. unfold in_setup in Hs.
  destruct (working (b_point (y_b y))) as [[[|]| | |]|]; try done; left; [done|].
  apply roomy_duct; [apply (t_caps _ Ht)|done].
Qed.

Lemma waits_input y prog :
  tied y -> a_exited (y_a y) = false -> a_prog (y_a y) = Take :: prog \/ a_prog (y_a y) = TakeAll :: prog ->
  can_read (to_helper (y_d y)) = false -> can_go_on y.
Proof.
  intros Ht Hx Hp [E1 E2]%empty_duct. pose proof (t_suits _ Ht) as Hs. pose proof (t_early _ Ht) as He.
  assert (j <> Receive) as Hj by (intros E; rewrite E in Hs; destruct Hp as [Hp|Hp]; rewrite Hp in Hs; by destruct Hs).
  assert (d_writer (to_setup (y_d y)) <> true) as Hw
    by (intros E; specialize (He E); destruct Hp as [Hp|Hp]; by rewrite Hp in He).
  pose proof (t_late _ Ht) as Hl. pose proof (t_in_setup _ Ht) as Hi. pose proof (t_job _ Ht) as Hb.
  unfold can_go_on, late, in_setup, busy_with in *.
  destruct (working (b_point (y_b y))) as [[p|[|b p] ps| |]|].
  - by destruct (Hw (Hi eq_refl)).
  - by left.
  - left. apply roomy_duct; [apply (t_caps _ Ht)|done].
  - by destruct j.
  - destruct (Hl eq_refl) as [|[]]; congruence.
  - destruct (Hl eq_refl) as [|[]]; congruence.
Qed.

Lemma waits_output y p prog :
  tied y -> a_exited (y_a y) = false -> a_prog (y_a y) = Out p :: prog ->
  can_write (from_helper (y_d y)) = false -> can_go_on y.
Proof.
  intros Ht Hx Hp Hf. destruct (full_duct (from_helper (y_d y))) as [Hr Hh]; [apply (t_caps _ Ht)|done|].
  pose proof (t_suits _ Ht) as Hs. rewrite Hp in Hs.
  assert (j = Receive) as Hj by (destruct j; [by destruct Hs|done]).
  pose proof (t_early _ Ht) as He. rewrite Hp in He.
  pose proof (t_late _ Ht) as Hl. pose proof (t_in_setup _ Ht) as Hi. pose proof (t_job _ Ht) as Hb.
  unfold can_go_on, late, in_setup, busy_with in *.
  destruct (working (b_point (y_b y))) as [[q|q ps| |]|].
  - by destruct (He (Hi eq_refl)).
  - by rewrite Hj in Hb.
  - left. by apply held_duct.
  - destruct (Hl eq_refl) as [|[]]; congruence.
  - destruct (Hl eq_refl) as [|[]]; congruence.
Qed.

Lemma waits_words y :
  tied y -> a_exited (y_a y) = false -> can_write (from_err (y_d y)) = false -> can_go_on y.
Proof.
  intros Ht Hx Hf. destruct (full_duct (from_err (y_d y))) as [Hr Hh]; [apply (t_caps _ Ht)|done|].
  unfold can_go_on. destruct (working (b_point (y_b y))) eqn:Hw.
  - right. unfold drain_moves. by rewrite Hr, held_duct.
  - rewrite (t_reap _ Ht Hw) in Hr. done.
Qed.

Lemma blocked_goes_on y : tied y -> helper_moves y = false -> can_go_on y.
Proof.
  intros Ht Hb. destruct (a_exited (y_a y)) eqn:Hx; [by apply exited_goes_on|].
  unfold helper_moves in Hb. rewrite Hx in Hb. cbn [negb andb] in Hb.
  destruct (a_prog (y_a y)) as [|[| | |[|]|[|]] prog] eqn:Hp; try done.
  - by apply waits_setup.
  - eapply waits_input; eauto.
  - eapply waits_input; eauto.
  - eapply waits_output; eauto.
  - by apply waits_words.
Qed.
End tied.

(** A state in its parts, and what a step makes of it. *)
Ltac open_sys y :=
  destruct y as [[pt failed got err_buf drained] [prog exited a_setup a_input]
    [[c1 h1 w1 r1] [c2 h2 w2 r2] [c3 h3 w3 r3] [c4 h4 w4 r4]]].

(** The cases of a step, with what a call that failed or ended says of its duct. *)
Ltac step_cases :=
  cbn [at_step go set_point];
  unfold write_step, recv_step, drain_step, fin_step, reap_step, exit_step, setup_step, take_step,
    out_step, say_step, job_work;
  cbn [y_b y_a y_d to_setup to_helper from_helper from_err d_held d_reader d_writer a_exited a_prog];
  repeat split_match;
  repeat match goal with
  | H : try_write _ _ _ = Broken |- _ => apply try_write_Broken in H
  | H : try_read _ _ _ = Ended |- _ => apply try_read_Ended in H as [? ?]
  end.

Lemma tied_backend j n y : tied j y -> tied j (backend_step j n y).
Proof.
  open_sys y. intros []. unfold in_setup, late, busy_with in *. cbn in *.
  unfold backend_step. cbn [y_b b_point].
  destruct pt as [[[|b p]|[|b p] ps| |]|w|w| |]; step_cases;
    constructor; cbn in *; try assumption; try done;
    try (intuition congruence); try (destruct exited; cbn in *; intuition congruence);
    destruct j; intuition congruence.
Qed.

Lemma tied_helper j n y : tied j y -> tied j (helper_step n y).
Proof.
  open_sys y. intros []. unfold in_setup, late, busy_with in *. cbn in *.
  unfold helper_step. cbn [y_a a_exited a_prog].
  destruct exited; [by constructor|].
  destruct prog as [|[| | |[|b p]|[|b p]] prog]; step_cases;
    constructor; cbn in *; try assumption; try done;
    try (intuition congruence).
Qed.

Lemma tied_step j c y : tied j y -> tied j (step j c y).
Proof. unfold step. destruct c.1; [apply tied_backend|apply tied_helper]. Qed.

(** ** Termination *)

Section progress.
Context (j : job).

(** How many of its own steps the backend is from one that moves something, while
    the helper cannot move. *)
Definition detour (y : sys) : nat :=
  match b_point (y_b y) with
  | At w => if at_moves w (y_d y) then 0 else 1
  | Drain w => if drain_moves (y_d y) then 0 else 2
  | Wait w => if at_moves w (y_d y) then 1 else 2
  | Reap | Over => 0
  end.

Definition rank (y : sys) : nat :=
  3 * weight j y + (if helper_moves y then 2 else detour y).
Definition helpful (y : sys) : side := if helper_moves y then TheHelper else TheBackend.
Definition over (y : sys) : Prop := b_point (y_b y) = Over.

#[export] Instance over_dec y : Decision (over y).
Proof. unfold over. apply _. Defined.

Lemma detour_le y : detour y <= 2.
Proof. unfold detour. repeat case_match; lia. Qed.

Lemma weight_lowers_rank y y' : weight j y' < weight j y -> rank y' < rank y.
Proof. pose proof (detour_le y'). unfold rank. intros. repeat case_match; lia. Qed.

Lemma helper_moves_go pt y : helper_moves (go pt y) = helper_moves y.
Proof. done. Qed.

Lemma weight_go y : weight j (go (next (b_point (y_b y))) y) = weight j y.
Proof. unfold weight. cbn. by destruct (b_point (y_b y)). Qed.

(** Once round the loop, the backend is nearer to a step that moves something. *)
Lemma detour_go y :
  can_go_on y -> backend_moves y = false -> ~ over y ->
  detour (go (next (b_point (y_b y))) y) < detour y.
Proof.
  unfold can_go_on, backend_moves, detour, over. cbn [y_b y_d go b_point set_point].
  destruct (b_point (y_b y)) as [w|w|w| |]; cbn [working next]; intros H1 H2 H3; try done.
  - rewrite H2 in *. destruct H1 as [|H1]; [done|]. rewrite H1. lia.
  - rewrite H2 in *. destruct H1 as [H1|]; [|done]. rewrite H1. lia.
  - destruct (at_moves w (y_d y)); lia.
  - by rewrite (H1 eq_refl) in H2.
Qed.

Lemma backend_rank n y :
  tied j y -> helper_moves y = false -> ~ over y -> rank (backend_step j n y) < rank y.
Proof.
  intros Ht Hb Hn. pose proof (backend_moved j n y) as Hm.
  destruct (backend_moves y) eqn:Hbm; cbn [moved] in Hm; [by apply weight_lowers_rank|].
  rewrite Hm. unfold rank. rewrite weight_go, helper_moves_go, Hb.
  pose proof (detour_go y (blocked_goes_on j y Ht Hb) Hbm Hn). lia.
Qed.

Lemma backend_idle n y :
  rank (backend_step j n y) < rank y \/
  weight j (backend_step j n y) = weight j y /\ helper_moves (backend_step j n y) = helper_moves y.
Proof.
  pose proof (backend_moved j n y) as Hm.
  destruct (backend_moves y); cbn [moved] in Hm; [left; by apply weight_lowers_rank|right].
  by rewrite Hm, weight_go, helper_moves_go.
Qed.

Lemma over_stays n y : over y -> backend_step j n y = y.
Proof. unfold over, backend_step. by intros ->. Qed.

Lemma step_rank c y : tied j y -> rank (step j c y) <= rank y.
Proof.
  intros Ht. unfold step. destruct c as [[] n]; cbn [fst snd].
  - destruct (decide (over y)) as [Ho|Hn]; [by rewrite over_stays|].
    destruct (helper_moves y) eqn:Hb; [|by apply Nat.lt_le_incl, backend_rank].
    destruct (backend_idle n y) as [|[Hw Hm]]; [lia|]. unfold rank. rewrite Hw, Hm, Hb. lia.
  - pose proof (helper_moved j n y) as Hm. destruct (helper_moves y); cbn [moved] in Hm; [|by rewrite Hm].
    by apply Nat.lt_le_incl, weight_lowers_rank.
Qed.

Lemma duplex_ends : ends fst (step j) (tied j) over rank helpful.
Proof.
  constructor.
  - intros c y. apply tied_step.
  - intros c y. apply step_rank.
  - intros [w n] y Ht Hn. cbn [fst]. unfold helpful, step. intros ->. cbn [fst snd].
    pose proof (helper_moved j n y) as Hm.
    destruct (helper_moves y) eqn:Hb; cbn [fst snd moved] in *; [by apply weight_lowers_rank|].
    by apply backend_rank.
  - intros [[] n] y Ht Heq; unfold step, helpful in *; cbn [fst snd] in *.
    + destruct (backend_idle n y) as [|[_ ->]]; [lia|done].
    + pose proof (helper_moved j n y) as Hm.
      destruct (helper_moves y) eqn:Hb; cbn [moved] in Hm; [|by rewrite Hm, Hb].
      apply weight_lowers_rank in Hm. lia.
Qed.
End progress.

(** ** What crosses *)

Section flows.
Context (j : job) (payload : bytes) (prog0 : list action).

Definition unsent_setup (pt : point) : bytes :=
  match working pt with Some (Setup p) => p | _ => [] end.
Definition unsent (pt : point) : bytes :=
  match working pt with
  | Some (Setup _) => sent j
  | Some (Data p ps) => p ++ concat ps
  | _ => []
  end.

Record flows (y : sys) : Prop := Flows {
  f_setup : a_exited (y_a y) = false ->
    a_setup (y_a y) ++ d_held (to_setup (y_d y)) ++ unsent_setup (b_point (y_b y)) = payload;
  f_setup_read : takes_setup prog0 = true ->
    takes_setup (a_prog (y_a y)) = true \/
    d_writer (to_setup (y_d y)) = false /\ a_setup (y_a y) = payload;
  f_input : a_exited (y_a y) = false ->
    a_input (y_a y) ++ d_held (to_helper (y_d y)) ++ unsent (b_point (y_b y)) = sent j;
  f_input_read : takes_all prog0 = true ->
    takes_all (a_prog (y_a y)) = true \/
    d_writer (to_helper (y_d y)) = false /\ a_input (y_a y) = sent j;
  f_failed : b_failed (y_b y) = true -> takes_setup prog0 = true ->
    j <> Receive /\ takes_all prog0 = false;
  f_got : b_got (y_b y) ++ d_held (from_helper (y_d y)) ++ outs (a_prog (y_a y)) = outs prog0;
  f_quiet : d_writer (to_setup (y_d y)) = true \/ late (b_point (y_b y)) = true \/ j <> Receive ->
    d_held (from_helper (y_d y)) = [];
  f_words : b_drained (y_b y) ++ d_held (from_err (y_d y)) ++ says (a_prog (y_a y)) = says prog0;
  f_err_buf : b_err_buf (y_b y) = take err_room (b_drained (y_b y));
  f_err_over : d_reader (from_err (y_d y)) = false -> d_held (from_err (y_d y)) = [];
}.
End flows.

(** The buffer keeps the head of all that was drained. *)
Lemma take_err_buf b p :
  b_err_buf b = take err_room (b_drained b) -> length p <= drain_len b ->
  b_err_buf (take_err p b) = take err_room (b_drained (take_err p b)).
Proof.
  unfold drain_len, take_err. intros Hb. cbn [b_err_buf b_drained].
  pose proof (f_equal length Hb) as Hl. rewrite length_take in Hl.
  case_decide as Hr; intros Hp.
  - rewrite Hb, take_app_le; [done|lia].
  - rewrite Hb, (take_ge (b_drained b)) by lia. rewrite take_ge; [done|].
    rewrite length_app. lia.
Qed.

(** Bytes moved from one place to the next are still the same bytes. *)
Ltac glue :=
  intros; rewrite <- ?app_assoc; rewrite ?(app_assoc (take _ _) (drop _ _)), ?take_drop; auto.

Ltac after_exit prog exited :=
  destruct exited; cbn in *; [|congruence];
  assert (prog = []) by auto; subst prog; cbn in *.

Lemma flows_backend j payload prog0 n y :
  tied j y -> flows j payload prog0 y -> flows j payload prog0 (backend_step j n y).
Proof.
  open_sys y. intros [] []. unfold unsent_setup, unsent, in_setup, late, busy_with in *. cbn in *.
  unfold backend_step. cbn [y_b b_point].
  destruct pt as [[[|b p]|[|b p] ps| |]|w|w| |]; step_cases;
    constructor; cbn in *; try assumption; try done;
    try (intuition congruence); try (solve [glue]);
    try (destruct exited; cbn in *; intuition congruence).
  - after_exit prog exited. intuition congruence.
  - rewrite f_quiet0 in f_got0; [done|]. destruct j; intuition congruence.
  - after_exit prog exited. destruct j, (takes_all prog0); intuition congruence.
  - intros _. apply f_quiet0. destruct j; intuition congruence.
  - intros Hq. by rewrite (f_quiet0 Hq), drop_nil.
  - by subst h3.
  - apply (take_err_buf (Backend (Drain w) failed got err_buf drained)); [done|].
    rewrite length_take. cbn in *.
    match goal with H : try_read _ _ _ = Took _ |- _ => apply try_read_Took in H end. lia.
  - subst w. auto.
  - by subst h4.
  - by subst h4.
Qed.

(** A helper that runs with output to write has a backend that receives. *)
Lemma out_received j y p prog :
  tied j y -> a_exited (y_a y) = false -> a_prog (y_a y) = Out p :: prog ->
  j = Receive /\ late (b_point (y_b y)) = false /\ d_writer (to_setup (y_d y)) = false.
Proof.
  intros Ht Hx Hp. pose proof (t_suits _ _ Ht) as Hs. rewrite Hp in Hs.
  assert (j = Receive) as -> by (destruct j; [by destruct Hs|done]).
  split; [done|]. split.
  - destruct (late (b_point (y_b y))) eqn:Hl; [|done].
    destruct (t_late _ _ Ht Hl) as [|[]]; congruence.
  - destruct (d_writer (to_setup (y_d y))) eqn:Hw; [|done].
    pose proof (t_early _ _ Ht Hw) as He. by rewrite Hp in He.
Qed.

Lemma app_same (a b : bytes) : a ++ b = a -> b = [].
Proof. intros H. apply (app_inv_head a). by rewrite app_nil_r. Qed.

Lemma flows_helper j payload prog0 n y :
  tied j y -> flows j payload prog0 y -> flows j payload prog0 (helper_step n y).
Proof.
  intros Ht. pose proof (fun p prog => out_received j y p prog Ht) as Hout. revert Ht Hout.
  open_sys y. intros [] Hout []. unfold unsent_setup, unsent, in_setup, late, busy_with in *. cbn in *.
  unfold helper_step. cbn [y_a a_exited a_prog].
  destruct exited; [by constructor|].
  destruct prog as [|[| | |[|b p]|[|b p]] prog]; step_cases;
    try (destruct (Hout _ _ eq_refl eq_refl) as (-> & Hl & ->); rewrite t_from_r0 in * by done; try congruence);
    constructor; cbn in *; try assumption; try done;
    try (intuition congruence); try (solve [glue]).
  - intros _. right. split; [done|]. rewrite <- (f_setup0 eq_refl). subst h1.
    destruct (working pt) as [[]|]; rewrite ?app_nil_r; try done. specialize (t_in_setup0 eq_refl). congruence.
  - intros Hall. destruct (f_input_read0 Hall) as [|[Hw Hi]]; [by left|right]. split; [done|].
    specialize (f_input0 eq_refl). rewrite <- Hi in f_input0. apply app_same, app_nil in f_input0 as [-> _].
    by rewrite take_nil, app_nil_r.
  - intros _. right. split; [done|]. rewrite <- (f_input0 eq_refl). subst h2.
    destruct (working pt) as [[]|]; rewrite ?app_nil_r; try done; specialize (t_to_w0 eq_refl); congruence.
Qed.

Lemma flows_step j payload prog0 c y :
  tied j y -> flows j payload prog0 y -> flows j payload prog0 (step j c y).
Proof. unfold step. destruct c.1; [apply flows_backend|apply flows_helper]. Qed.

Lemma tied_start j c1 c2 c3 c4 payload prog :
  0 < c1 -> 0 < c2 -> 0 < c3 -> 0 < c4 -> early prog -> suits j prog ->
  tied j (start (c1, c2, c3, c4) payload prog).
Proof. intros. constructor; cbn; auto; done. Qed.

Lemma flows_start j caps payload prog : flows j payload prog (start caps payload prog).
Proof. destruct caps as [[[c1 c2] c3] c4]. constructor; cbn; auto; done. Qed.

Lemma flows_run j payload prog sched n y :
  tied j y -> flows j payload prog y -> flows j payload prog (run (step j) sched n y).
Proof.
  intros Ht Hf. induction n as [|n IH]; [done|]. rewrite run_S.
  apply flows_step; [|done]. by apply (ok_run fst (step j) (duplex_ends j)).
Qed.

(** What there is when the backend has seen its helper exit. *)
Record crossed (j : job) (payload : bytes) (prog : list action) (y : sys) : Prop := Crossed {
  x_exited : a_exited (y_a y) = true;
  x_got : b_got (y_b y) = outs prog;
  x_words : b_err_buf (y_b y) = take err_room (says prog);
  x_setup : takes_setup prog = true -> a_setup (y_a y) = payload;
  x_input : takes_all prog = true -> a_input (y_a y) = sent j;
  x_failed : takes_setup prog = true -> j = Receive \/ takes_all prog = true ->
             b_failed (y_b y) = false;
}.

Lemma over_crossed j payload prog y :
  tied j y -> flows j payload prog y -> over y -> crossed j payload prog y.
Proof.
  intros Ht Hf Ho. assert (working (b_point (y_b y)) = None) as Hw by (by rewrite Ho).
  pose proof (t_reap _ _ Ht Hw) as Hr. pose proof (t_err_r _ _ Ht Hr) as Hx.
  pose proof (t_prog _ _ Ht Hx) as Hp. destruct Hf. rewrite Hp in *. cbn in *.
  rewrite (f_err_over0 Hr), app_nil_r in f_words0. rewrite app_nil_r in *.
  rewrite f_quiet0, app_nil_r in f_got0 by (right; left; unfold late; by rewrite Hw).
  constructor; try done.
  - by rewrite f_err_buf0, f_words0.
  - intros H. by destruct (f_setup_read0 H) as [|[]].
  - intros H. by destruct (f_input_read0 H) as [|[]].
  - intros H1 H2. destruct (b_failed (y_b y)); [|done]. destruct (f_failed0 eq_refl H1) as [? E].
    rewrite E in H2. by destruct H2.
Qed.

(** C11. The backend and its helper never wait for each other for ever: whatever
    the ducts between them hold, however little each call moves, whatever the
    helper says on its standard error meanwhile and whoever runs first, when
    both keep getting turns the backend sees its helper exit. By then the
    helper has had the whole setup, and the whole input if it reads it to the
    end, the backend has had the whole output and the head of all that was
    said, and no write failed that the helper meant to read. *)
Theorem transfer_ends j c1 c2 c3 c4 payload prog sched :
  0 < c1 -> 0 < c2 -> 0 < c3 -> 0 < c4 -> early prog -> suits j prog -> fair fst sched ->
  exists n, let y := run (step j) sched n (start (c1, c2, c3, c4) payload prog) in
    over y /\ crossed j payload prog y.
Proof.
  intros H1 H2 H3 H4 He Hs Hfair.
  pose proof (tied_start j c1 c2 c3 c4 payload prog H1 H2 H3 H4 He Hs) as Ht.
  destruct (fair_ends fst (step j) (duplex_ends j) sched _ Hfair Ht) as [n Hn].
  exists n. split; [exact Hn|]. apply over_crossed; [|by apply flows_run, flows_start|exact Hn].
  by apply (ok_run fst (step j) (duplex_ends j)).
Qed.

(** ** Examples *)

(** Strict turns, one byte more in every third call. *)
Definition turns (n : nat) : turn :=
  (if Nat.even n then TheBackend else TheHelper, n mod 3).

Lemma turns_fair : fair fst turns.
Proof.
  intros [] n; unfold turns; cbn [fst].
  - destruct (Nat.even n) eqn:He; [by exists n; rewrite He|]. exists (S n).
    rewrite Nat.even_succ, <- Nat.negb_even, He. split; [lia|done].
  - destruct (Nat.even n) eqn:He; [|by exists n; rewrite He]. exists (S n).
    rewrite Nat.even_succ, <- Nat.negb_even, He. split; [lia|done].
Qed.

(** A COPY TO through ducts of one byte, whose helper speaks in between. *)
Definition sample_job : job := Send [b8 "ab"; b8 "cde"].
Definition sample_prog : list action :=
  [TakeSetup; Say (b8 "hello"); Take; Say (b8 "there"); TakeAll; Say (b8 "done")].

Lemma transfer_ends_witness :
  early sample_prog /\ suits sample_job sample_prog /\ fair fst turns /\
  exists n, let y := run (step sample_job) turns n (start (1, 1, 1, 1) (b8 "query") sample_prog) in
    over y /\ crossed sample_job (b8 "query") sample_prog y.
Proof.
  split; [exact I|]. split; [cbn; tauto|]. split; [exact turns_fair|].
  apply (transfer_ends sample_job 1 1 1 1 (b8 "query") sample_prog turns);
    [lia|lia|lia|lia|exact I|cbn; tauto|exact turns_fair].
Defined.

Example sample_transfer :
  let y := run (step sample_job) turns 200 (start (1, 1, 1, 1) (b8 "query") sample_prog) in
  b_point (y_b y) = Over /\ a_setup (y_a y) = b8 "query" /\ a_input (y_a y) = b8 "abcde".
Proof. vm_compute. auto. Qed.
