(* ===== verification/Wire.v ===== *)
(** * Wire: what the Native layer asks of the helper channel

    src/native.c sends and receives through chdb_helper_write and
    chdb_helper_recv alone. [Wire] is what it relies on, as a class: the client
    (Sink, Send) is proved against it, and ChannelWire shows that the channel of
    src/helper.c implements it. *)

From stdpp Require Import prelude.
From S2P Require Import Prelude Stateful.

Class Wire (S : Type) : Type := {
  wire_write : bytes -> stateful S error unit;      (** chdb_helper_write *)
  wire_check : stateful S error unit;               (** CHECK_FOR_INTERRUPTS *)
  wire_sent : S -> bytes;                           (** what was delivered *)
  wire_ready : S -> Prop;
  wire_later : S -> S -> Prop;
  wire_fails : S -> error -> Prop;                  (** the errors a state may yet raise *)
}.

(** What a write promises: all of it or an error, with a head of it. *)
Class WireLaws (S : Type) `{Wire S} : Prop := {
  wire_later_preorder :: PreOrder wire_later;
  wire_fails_later s s' e : wire_later s s' -> wire_fails s' e -> wire_fails s e;
  wire_write_spec p s :
    wire_ready s ->
    wpS (wire_write p)
      (fun _ s' => wire_ready s' /\ wire_later s s' /\ wire_sent s' = wire_sent s ++ p)
      (fun e s' => wire_fails s e /\
         exists head, head `prefix_of` p /\ wire_sent s' = wire_sent s ++ head) s;
  wire_check_spec s :
    wire_ready s ->
    wpS wire_check
      (fun _ s' => wire_ready s' /\ wire_later s s' /\ wire_sent s' = wire_sent s)
      (fun e s' => wire_fails s e /\ wire_sent s' = wire_sent s) s;
}.

Section wire.
Context {S : Type} `{WireLaws S}.

(** [s'] comes after [s], with [p] delivered in between. *)
Record wired (p : bytes) (s s' : S) : Prop := Wired {
  wired_ready : wire_ready s';
  wired_later : wire_later s s';
  wired_sent : wire_sent s' = wire_sent s ++ p;
}.

(** A failure with a head of [p] delivered. *)
Definition cut (p : bytes) (s : S) (e : error) (s' : S) : Prop :=
  wire_fails s e /\ exists head, head `prefix_of` p /\ wire_sent s' = wire_sent s ++ head.

Lemma wired_refl s : wire_ready s -> wired [] s s.
Proof. split; [done|reflexivity|by rewrite app_nil_r]. Qed.

Lemma wired_trans p q s1 s2 s3 : wired p s1 s2 -> wired q s2 s3 -> wired (p ++ q) s1 s3.
Proof.
  intros [R1 L1 S1] [R2 L2 S2]. split; [done|by etrans|]. by rewrite S2, S1, app_assoc.
Qed.

Lemma cut_after p q s1 s2 e s3 : wired p s1 s2 -> cut q s2 e s3 -> cut (p ++ q) s1 e s3.
Proof.
  intros [R1 L1 S1] (He & head & Hp & Hs). split; [by eapply wire_fails_later|].
  exists (p ++ head). split; [by apply prefix_app|]. by rewrite Hs, S1, app_assoc.
Qed.

Lemma cut_mono p q s e s' : cut p s e s' -> cut (p ++ q) s e s'.
Proof. intros (He & head & Hp & Hs). split; [done|]. exists head. split; [|done]. by apply prefix_app_r. Qed.

Lemma wire_write_wp p s :
  wire_ready s -> wpS (wire_write p) (fun _ => wired p s) (cut p s) s.
Proof.
  intros Hr. eapply wpS_mono; [by apply wire_write_spec| |done].
  by intros [] s' (? & ? & ?).
Qed.

Lemma wire_check_wp s :
  wire_ready s -> wpS wire_check (fun _ => wired [] s) (cut [] s) s.
Proof.
  intros Hr. eapply wpS_mono; [by apply wire_check_spec| |].
  - intros [] s' (? & ? & Hs). split; [done..|]. by rewrite app_nil_r.
  - intros e s' [He Hs]. split; [done|]. exists []. by rewrite app_nil_r.
Qed.
End wire.
