(* ===== verification/Sink.v ===== *)
(** * Sink: the buffer between the Native encoder and the helper

    [nativeSink] of src/native.c and its operations, over any [Wire]. The
    abstract sink is a byte stream: what was delivered, then what is buffered.
    Every write appends to it, and [sink_flush] empties the buffer. *)

From stdpp Require Import prelude.
From S2P Require Import Prelude Stateful Wire.
Local Open Scope Z_scope.

Definition CHDB_NATIVE_SINK_BYTES : Z := 256 * 1024.
Definition CHDB_NATIVE_SINK_DIRECT : Z := 16 * 1024.

(** The first [len] bytes of [buf]. *)
Record nativeSink : Type := NativeSink { sink_buf : bytes }.

Section sink.
Context {S : Type} `{Wire S}.

Definition sink_flush (s : nativeSink) : stateful S error nativeSink :=
  if 0 <? zlen (sink_buf s) then
    wire_write (sink_buf s) ;;
    mret (NativeSink [])
  else mret s.

(** [memcpy] past the end of [buf] would be undefined behaviour. *)
Definition sink_write (s : nativeSink) (p : bytes) : stateful S error nativeSink :=
  if CHDB_NATIVE_SINK_DIRECT <=? zlen p then
    s ← sink_flush s;
    wire_write p ;;
    mret s
  else
    s ← (if CHDB_NATIVE_SINK_BYTES <? zlen (sink_buf s) + zlen p then sink_flush s else mret s);
    if CHDB_NATIVE_SINK_BYTES <? zlen (sink_buf s) + zlen p then liftS UB
    else mret (NativeSink (sink_buf s ++ p)).

Definition sink_for : nativeSink := NativeSink [].

(** The encoder's writes, one after another. *)
Fixpoint sink_writes (s : nativeSink) (ps : list bytes) : stateful S error nativeSink :=
  match ps with
  | [] => mret s
  | p :: ps => s ← sink_write s p; sink_writes s ps
  end.

(** ** The refinement *)

Definition sink_ok (s : nativeSink) : Prop := zlen (sink_buf s) <= CHDB_NATIVE_SINK_BYTES.

(** The abstract stream. *)
Definition stream (s : nativeSink) (w : S) : bytes := wire_sent w ++ sink_buf s.

(** A step that appends [p] to the stream. *)
Record appends (p : bytes) (s : nativeSink) (w : S) (s' : nativeSink) (w' : S) : Prop := Appends {
  appends_ok : sink_ok s';
  appends_ready : wire_ready w';
  appends_later : wire_later w w';
  appends_stream : stream s' w' = stream s w ++ p;
}.

(** A failure, with no more delivered than a head of the stream and [p]. *)
Definition breaks (p : bytes) (s : nativeSink) (w : S) (e : error) (w' : S) : Prop :=
  wire_fails w e /\ wire_sent w `prefix_of` wire_sent w' /\ wire_sent w' `prefix_of` stream s w ++ p.

Context `{!WireLaws S}.

Lemma appends_refl s w : sink_ok s -> wire_ready w -> appends [] s w s w.
Proof. split; [done..|reflexivity|by rewrite app_nil_r]. Qed.

Lemma appends_trans p q s1 w1 s2 w2 s3 w3 :
  appends p s1 w1 s2 w2 -> appends q s2 w2 s3 w3 -> appends (p ++ q) s1 w1 s3 w3.
Proof.
  intros [O1 R1 L1 S1] [O2 R2 L2 S2]. split; [done..|by etrans|]. by rewrite S2, S1, app_assoc.
Qed.

Lemma breaks_after p q s1 w1 s2 w2 e w3 :
  appends p s1 w1 s2 w2 -> wire_sent w1 `prefix_of` wire_sent w2 -> breaks q s2 w2 e w3 ->
  breaks (p ++ q) s1 w1 e w3.
Proof.
  intros [O1 R1 L1 S1] Hp (He & Hsent & Hstream). split; [by eapply wire_fails_later|].
  split; [by etrans|]. by rewrite app_assoc, <- S1.
Qed.

Lemma breaks_more p q s w e w' : breaks p s w e w' -> breaks (p ++ q) s w e w'.
Proof. intros (He & H1 & H2). split_and!; [done..|]. rewrite app_assoc. by apply prefix_app_r. Qed.

Lemma sink_flush_wp s w :
  sink_ok s -> wire_ready w ->
  wpS (sink_flush s)
    (fun s' w' => appends [] s w s' w' /\ sink_buf s' = [] /\
       wire_sent w `prefix_of` wire_sent w')
    (breaks [] s w) w.
Proof.
  intros Ho Hr. unfold sink_flush. destruct (Z.ltb_spec 0 (zlen (sink_buf s))) as [Hb|Hb].
  - s_step. eapply wpS_mono; [by apply wire_write_wp| |].
    + intros [] w' [Hr' Hl Hs]. s_step. split; [|split; [done|rewrite Hs; by apply prefix_app_r]].
      split; [unfold sink_ok; cbn; unfold CHDB_NATIVE_SINK_BYTES; lia|done..|].
      unfold stream. cbn. by rewrite Hs, !app_nil_r.
    + intros e w' (He & head & Hp & Hs). split; [done|]. unfold stream.
      rewrite Hs, app_nil_r. split; [by apply prefix_app_r|by apply prefix_app].
  - s_step. destruct s as [[|x b]]; [|cbn in Hb; lia]. split; [by apply appends_refl|done].
Qed.

(** One write of the encoder. *)
Lemma sink_write_wp s p w :
  sink_ok s -> wire_ready w ->
  wpS (sink_write s p)
    (fun s' w' => appends p s w s' w' /\ wire_sent w `prefix_of` wire_sent w') (breaks p s w) w.
Proof.
  intros Ho Hr. unfold sink_write.
  destruct (Z.leb_spec CHDB_NATIVE_SINK_DIRECT (zlen p)) as [Hd|Hd].
  - s_step. eapply wpS_mono; [by apply sink_flush_wp| |].
    2: { intros e w'. apply (breaks_more []). }
    intros s1 w1 (H1 & Hb1 & Hp1). s_step. eapply wpS_mono; [by apply wire_write_wp, H1| |].
    + intros [] w2 [Hr2 Hl2 Hs2]. s_step. destruct H1 as [O1 R1 L1 S1]. split.
      * split; [done..|by etrans|]. rewrite app_nil_r in S1. rewrite <- S1.
        unfold stream. by rewrite Hb1, Hs2, !app_nil_r.
      * rewrite Hs2. etrans; [exact Hp1|]. by apply prefix_app_r.
    + intros e w2 (He & head & Hp & Hs). apply (breaks_after [] _ _ _ s1 w1); [done..|].
      split; [done|]. unfold stream. rewrite Hs, Hb1, app_nil_r.
      split; [by apply prefix_app_r|by apply prefix_app].
  - s_step.
    assert (Hroom : wpS (if CHDB_NATIVE_SINK_BYTES <? zlen (sink_buf s) + zlen p
        then sink_flush s else mret s)
      (fun s' w' => appends [] s w s' w' /\ zlen (sink_buf s') + zlen p <= CHDB_NATIVE_SINK_BYTES /\
         wire_sent w `prefix_of` wire_sent w') (breaks p s w) w).
    { destruct (Z.ltb_spec CHDB_NATIVE_SINK_BYTES (zlen (sink_buf s) + zlen p)).
      - eapply wpS_mono; [by apply sink_flush_wp| |].
        + intros s1 w1 (H1 & Hb1 & Hp1). split; [done|]. split; [|done]. rewrite Hb1.
          unfold CHDB_NATIVE_SINK_BYTES, CHDB_NATIVE_SINK_DIRECT in *. cbn. lia.
        + intros e w'. apply (breaks_more []).
      - s_step. split; [by apply appends_refl|]. split; [lia|done]. }
    eapply wpS_mono; [exact Hroom| |done]. intros s1 w1 ([O1 R1 L1 S1] & Hfit & Hp1).
    destruct (Z.ltb_spec CHDB_NATIVE_SINK_BYTES (zlen (sink_buf s1) + zlen p)); [lia|].
    s_step. split; [|done]. split; [unfold sink_ok; cbn; rewrite length_app; lia|done..|].
    rewrite app_nil_r in S1. rewrite <- S1. unfold stream. cbn. by rewrite app_assoc.
Qed.

Lemma sink_writes_wp ps s w :
  sink_ok s -> wire_ready w ->
  wpS (sink_writes s ps)
    (fun s' w' => appends (concat ps) s w s' w' /\ wire_sent w `prefix_of` wire_sent w')
    (breaks (concat ps) s w) w.
Proof.
  revert s w. induction ps as [|p ps IH]; intros s w Ho Hr; cbn [sink_writes concat].
  - s_step. split; [by apply appends_refl|done].
  - s_step. eapply wpS_mono; [by apply sink_write_wp| |].
    + intros s1 w1 (H1 & Hp1). pose proof H1 as [O1 R1 L1 S1].
      eapply wpS_mono; [by apply IH| |].
      * intros s2 w2 (H2 & Hp2). split; [by eapply appends_trans|by etrans].
      * intros e w2. by apply (breaks_after p (concat ps) s w s1 w1 e w2).
    + intros e w'. apply breaks_more.
Qed.

(** C19. However the encoder cuts its output into writes, the sink passes it on
    as one stream: nothing is lost, repeated or reordered between the buffer and
    the direct path, a flush leaves the buffer empty, the buffer never
    overflows, and a failure leaves a head of the stream delivered. *)
Theorem sink_refines ps s w :
  sink_ok s -> wire_ready w ->
  wpS (s' ← sink_writes s ps; sink_flush s')
    (fun s' w' => sink_buf s' = [] /\ wire_ready w' /\ wire_later w w' /\
       wire_sent w' = wire_sent w ++ sink_buf s ++ concat ps)
    (breaks (concat ps) s w) w.
Proof.
  intros Ho Hr. s_step. eapply wpS_mono; [by apply sink_writes_wp| |done].
  intros s1 w1 (H1 & Hp1). pose proof H1 as [O1 R1 L1 S1].
  eapply wpS_mono; [by apply sink_flush_wp| |].
  - intros s2 w2 ([O2 R2 L2 S2] & Hb & _). split_and!; [done..|by etrans|].
    rewrite app_nil_r, S1 in S2. unfold stream in S2. by rewrite Hb, app_nil_r, <- app_assoc in S2.
  - intros e w2 Hbr. rewrite <- (app_nil_r (concat ps)).
    by apply (breaks_after (concat ps) [] s w s1 w1 e w2).
Qed.
End sink.
