(* ===== verification/Send.v ===== *)
(** * Send: COPY TO, from a scan to Native blocks

    [chdb_copy_send] of src/native.c and what it calls: the writer over the
    declared columns ([writer_for]), a row's values ([append_slot]), a block
    ([send_block]) and the loop over the scan. The encoder of pg-clickhouse-c
    is a parameter with the laws the code relies on ([WriterLaws]); the channel
    is any [Wire]. *)

From stdpp Require Import prelude.
From S2P Require Import Prelude Stateful Logic Words Catalog Structure Port Setup Query Backend.
From S2P Require Import Wire Sink.
Local Open Scope Z_scope.

Definition CHDB_NATIVE_BLOCK_BYTES : Z := 8 * 1024 * 1024.

(** A value as the encoder takes it, with its type. *)
Abbreviation typed := (Datum * Z * bool)%type.

(** ** pg-clickhouse-c's encoder *)

Class Encoder (pg : PgClickhouse) : Type := {
  chc_type_n_children : chc_type pg -> nat;
  chc_type_tuple_field_name : chc_type pg -> nat -> option bytes;
  chc_type_child : chc_type pg -> nat -> chc_type pg;
  pgch_writer : Type;
  chc_block : Type;
  pgch_writer_new : list (bytes * chc_type pg) -> pgch_writer;
  pgch_writer_set_null_array : pgch_writer -> pgch_writer;  (** PGCH_NULL_ARRAY_EMPTY *)
  pgch_append_datum : pgch_writer -> nat -> Datum -> Z -> bool -> res error pgch_writer;
  pgch_writer_bytes : pgch_writer -> Z;
  pgch_writer_rows : pgch_writer -> Z;
  pgch_writer_build : pgch_writer -> res error chc_block;
  pgch_writer_reset : pgch_writer -> pgch_writer;
  (** The writes it makes, and the error it ends with, if it does. *)
  chc_block_write : chc_block -> list bytes * option (chc_err pg);
}.

Section send.
Context (pg : PgClickhouse) `{Encoder pg}.

Abbreviation pgch_col := (bytes * chc_type pg)%type.

Definition err_unnamed (i : nat) : error :=
  ereport ERRCODE_INVALID_PARAMETER_VALUE
    (b8 "chdb: structure column " ++ fmt_d (Z.of_nat i + 1) ++ b8 " has no name").
Definition err_ncols (ncols nattrs : nat) : error :=
  ereport ERRCODE_INVALID_PARAMETER_VALUE
    (b8 "chdb: structure declares " ++ fmt_d (Z.of_nat ncols) ++ b8 " columns, copy has "
     ++ fmt_d (Z.of_nat nattrs)).

(** The loop over the fields. *)
Fixpoint writer_cols (type : chc_type pg) (fields : list nat) : res error (list pgch_col) :=
  match fields with
  | [] => Ok []
  | i :: fields =>
      match chc_type_tuple_field_name type i with
      | None => Raise (err_unnamed i)
      | Some name =>
          cols ← writer_cols type fields;
          Ok ((name, chc_type_child type i) :: cols)
      end
  end.

Definition writer_for (structure : bytes) (nattrs : nat) : res error pgch_writer :=
  match chc_type_parse pg (b8 "Tuple(" ++ structure ++ b8 ")") with
  | inr err =>
      Raise (pgch_raise pg err ERRCODE_INVALID_PARAMETER_VALUE (Some (b8 "structure: ")) None)
  | inl type =>
      let ncols := chc_type_n_children type in
      cols ← writer_cols type (seq 0 ncols);
      if decide (ncols = nattrs) then Ok (pgch_writer_new cols)
      else Raise (err_ncols ncols nattrs)
  end.

(** [slot->tts_values[i]] and [slot->tts_isnull[i]], for [i] one less than the
    attribute's number. *)
Definition slot_at (slot : list cell) (attnum : nat) : res error cell :=
  match attnum with
  | O => UB
  | S i => or_ub (slot !! i)
  end.

Fixpoint append_slot_from (col : nat) (w : pgch_writer) (desc : list attribute)
    (slot : list cell) (attnums : list nat) : res error pgch_writer :=
  match attnums with
  | [] => Ok w
  | n :: attnums =>
      v ← slot_at slot n;
      attr ← TupleDescAttr desc n;
      w ← pgch_append_datum w col v.1 (atttypid attr) v.2;
      append_slot_from (S col) w desc slot attnums
  end.

Definition append_slot (w : pgch_writer) (desc : list attribute) (slot : list cell)
    (attnums : list nat) : res error pgch_writer :=
  append_slot_from 0 w desc slot attnums.

Section wire.
Context {W : Type} `{Wire W}.

Definition send_block (w : pgch_writer) (sink : nativeSink)
    : stateful W error (pgch_writer * nativeSink) :=
  block ← liftS (pgch_writer_build w);
  sink ← sink_writes sink (chc_block_write block).1;
  match (chc_block_write block).2 with
  | Some err =>
      liftS (Raise (pgch_raise pg err ERRCODE_EXTERNAL_ROUTINE_EXCEPTION
        (Some (b8 "block write: ")) None))
  | None =>
      sink ← sink_flush sink;
      mret (pgch_writer_reset w, sink)
  end.

(** The loop, over what the scan gives: a tuple or an error. *)
Fixpoint send_loop (desc : list attribute) (attnums : list nat) (scan : list (res error (list cell)))
    (w : pgch_writer) (sink : nativeSink) (rows : Z)
    : stateful W error (pgch_writer * nativeSink * Z) :=
  match scan with
  | [] => mret (w, sink, rows)
  | next :: scan =>
      slot ← liftS next;
      wire_check ;;
      w ← liftS (append_slot w desc slot attnums);
      let rows := u64 (rows + 1) in
      if CHDB_NATIVE_BLOCK_BYTES <=? pgch_writer_bytes w then
        '(w, sink) ← send_block w sink;
        send_loop desc attnums scan w sink rows
      else send_loop desc attnums scan w sink rows
  end.

Definition chdb_copy_send (desc : list attribute) (scan : list (res error (list cell)))
    (structure : bytes) (attnums : list nat) : stateful W error Z :=
  w ← liftS (writer_for structure (length attnums));
  let sink := sink_for in
  let w := pgch_writer_set_null_array w in
  '(w, sink, rows) ← send_loop desc attnums scan w sink 0;
  (if 0 <? pgch_writer_rows w then send_block w sink ;; mret tt else mret tt) ;;
  mret rows.
End wire.

(** ** What the code relies on *)

(** The values of one row, in the order of the copied columns. *)
Fixpoint append_row (col : nat) (w : pgch_writer) (row : list typed) : res error pgch_writer :=
  match row with
  | [] => Ok w
  | v :: row => w ← pgch_append_datum w col v.1.1 v.1.2 v.2; append_row (S col) w row
  end.

(** A writer holds whole rows; a value for each column makes one more; a block
    holds them, in the encoding of its columns; a reset leaves none. *)
Class WriterLaws : Type := {
  writer_holds : list pgch_col -> pgch_writer -> list (list typed) -> Prop;
  block_bytes : list pgch_col -> list (list typed) -> bytes;
  writer_new_holds cols : writer_holds cols (pgch_writer_set_null_array (pgch_writer_new cols)) [];
  append_holds cols w w' rows row :
    writer_holds cols w rows -> length row = length cols -> row <> [] ->
    append_row 0 w row = Ok w' ->
    writer_holds cols w' (rows ++ [row]);
  append_defined w col v typ isnull : pgch_append_datum w col v typ isnull <> UB;
  rows_held cols w rows : writer_holds cols w rows -> pgch_writer_rows w = zlen rows;
  build_held cols w rows block ws :
    writer_holds cols w rows -> pgch_writer_build w = Ok block ->
    chc_block_write block = (ws, None) -> concat ws = block_bytes cols rows;
  build_defined w : pgch_writer_build w <> UB;
  reset_holds cols w rows : writer_holds cols w rows -> writer_holds cols (pgch_writer_reset w) [];
}.
End send.

Arguments writer_holds {pg _ _}.
Arguments block_bytes {pg _ _}.
