(* ===== verification/SendProps.v ===== *)
(** * SendProps: what COPY TO puts on the wire *)

From stdpp Require Import prelude.
From Stdlib Require Import Strings.Byte.
From S2P Require Import Prelude Stateful Logic Words Catalog Structure Port Setup Query Backend.
From S2P Require Import Wire Sink Send Options Surroundings.
Local Open Scope Z_scope.

(** ** The declared columns *)

Section columns.
Context (pg : PgClickhouse) `{!Encoder pg}.

(** The column a field declares. *)
Definition declares (type : chc_type pg) (i : nat) (c : bytes * chc_type pg) : Prop :=
  chc_type_tuple_field_name type i = Some c.1 /\ c.2 = chc_type_child type i.

(** The columns of the fields, up to the first that has no name. *)
Lemma writer_cols_spec type fields :
  match writer_cols pg type fields with
  | Ok cols => Forall2 (declares type) fields cols
  | Raise e => exists i, i ∈ fields /\ chc_type_tuple_field_name type i = None /\ e = err_unnamed i
  | UB => False
  end.
Proof.
  induction fields as [|i fields IH]; cbn; [constructor|].
  destruct (chc_type_tuple_field_name type i) as [name|] eqn:Hn; [|exists i; set_solver].
  destruct (writer_cols pg type fields) as [cols|e|]; cbn; [by constructor|set_solver|done].
Qed.

(** The writer has the columns the structure declares, by name and type and
    in their order, as many as there are values in a row. A structure that does
    not parse, that declares a column without a name or another number of
    columns is refused before anything is sent. *)
Theorem writer_for_spec structure nattrs :
  match writer_for pg structure nattrs with
  | Ok w => exists type cols,
      chc_type_parse pg (b8 "Tuple(" ++ structure ++ b8 ")") = inl type /\
      w = pgch_writer_new cols /\ length cols = nattrs /\
      Forall2 (declares type) (seq 0 (chc_type_n_children type)) cols
  | Raise e =>
      (exists err, chc_type_parse pg (b8 "Tuple(" ++ structure ++ b8 ")") = inr err /\
         e = pgch_raise pg err ERRCODE_INVALID_PARAMETER_VALUE (Some (b8 "structure: ")) None) \/
      (exists type, chc_type_parse pg (b8 "Tuple(" ++ structure ++ b8 ")") = inl type /\
         ((exists i, (i < chc_type_n_children type)%nat /\
             chc_type_tuple_field_name type i = None /\ e = err_unnamed i) \/
          (chc_type_n_children type <> nattrs /\ e = err_ncols (chc_type_n_children type) nattrs)))
  | UB => False
  end.
Proof.
  unfold writer_for. destruct (chc_type_parse _ _) as [type|err]; [|left; eauto].
  pose proof (writer_cols_spec type (seq 0 (chc_type_n_children type))) as Hcols.
  destruct (writer_cols pg type _) as [cols|e|]; cbn; [| |done].
  - pose proof (Forall2_length _ _ _ Hcols) as Hlen. rewrite length_seq in Hlen.
    case_decide as Hn; [|right; eauto]. exists type, cols. by rewrite <- Hlen.
  - destruct Hcols as (i & Hi & Hname & ->). right. exists type. split; [done|]. left.
    exists i. split; [|done]. apply elem_of_seq in Hi. lia.
Qed.
End columns.

(** ** The rows *)

Section rows.
Context {pg : PgClickhouse} `{!Encoder pg}.

(** The values of a tuple's copied columns. *)
Fixpoint copied (desc : list attribute) (slot : list cell) (attnums : list nat)
    : res error (list typed) :=
  match attnums with
  | [] => Ok []
  | n :: attnums =>
      v ← slot_at slot n;
      attr ← TupleDescAttr desc n;
      row ← copied desc slot attnums;
      Ok ((v.1, atttypid attr, v.2) :: row)
  end.

(** A tuple holds a value for each of the copied columns. *)
Definition tuple_fits (desc : list attribute) (attnums : list nat) (slot : list cell) : Prop :=
  length slot = length desc /\ Forall (fun n => (0 < n <= length desc)%nat) attnums.

Lemma copied_length desc slot attnums row :
  copied desc slot attnums = Ok row -> length row = length attnums.
Proof.
  revert row. induction attnums as [|n attnums IH]; intros row; cbn; [by intros [= <-]|].
  intros (v & _ & H)%bind_Ok. apply bind_Ok in H as (attr & _ & H).
  apply bind_Ok in H as (row' & Hrow & [= <-]). cbn. f_equal. by apply IH.
Qed.

Lemma copied_fits desc slot attnums :
  tuple_fits desc attnums slot -> exists row, copied desc slot attnums = Ok row.
Proof.
  intros [Hl Hn]. induction Hn as [|n attnums [H0 Hn] _ [row IH]]; cbn; [by eexists|].
  destruct n as [|i]; [lia|]. cbn.
  destruct (lookup_lt_is_Some_2 slot i) as [v ->]; [lia|].
  destruct (lookup_lt_is_Some_2 desc i) as [attr ->]; [lia|]. cbn. rewrite IH. by eexists.
Qed.

(** Appending a tuple is appending its copied values. *)
Lemma append_slot_copied col w desc slot attnums row :
  copied desc slot attnums = Ok row ->
  append_slot_from pg col w desc slot attnums = append_row pg col w row.
Proof.
  revert col w row. induction attnums as [|n attnums IH]; intros col w row; cbn; [by intros [= <-]|].
  intros (v & -> & H)%bind_Ok. apply bind_Ok in H as (attr & -> & H).
  apply bind_Ok in H as (row' & Hrow & [= <-]). cbn.
  destruct (pgch_append_datum _ _ _ _ _) as [w'| |]; cbn; [|done|done]. by apply IH.
Qed.

Context `{!WriterLaws pg}.

Lemma append_row_defined col w row : append_row pg col w row <> UB.
Proof.
  revert col w. induction row as [|v row IH]; intros col w; cbn; [done|].
  intros [Hu|(w' & _ & Hu)]%bind_UB; [by eapply append_defined|by eapply IH].
Qed.

(** One row more, or an error of the encoder's. *)
Lemma append_slot_step cols w rows desc slot attnums :
  writer_holds cols w rows -> tuple_fits desc attnums slot -> length attnums = length cols ->
  attnums <> [] ->
  exists row, copied desc slot attnums = Ok row /\
  append_slot pg w desc slot attnums = append_row pg 0 w row /\
  match append_slot pg w desc slot attnums with
  | Ok w' => writer_holds cols w' (rows ++ [row])
  | Raise _ => True
  | UB => False
  end.
Proof.
  intros Hw Hfit Hlen Hne. destruct (copied_fits desc slot attnums Hfit) as [row Hrow].
  exists row. split; [done|]. unfold append_slot. rewrite (append_slot_copied _ _ _ _ _ row) by done.
  split; [done|].
  destruct (append_row pg 0 w row) as [w'| |] eqn:Ha; [|done|by eapply append_row_defined].
  pose proof (copied_length _ _ _ _ Hrow) as Hl.
  eapply append_holds; [done|congruence| |done]. intros ->. by destruct attnums.
Qed.

Section wire.
Context {W : Type} `{WireLaws W}.

(** A block sent is its rows' encoding on the wire, and nothing is held back. *)
Lemma send_block_wp cols w rows sink s :
  writer_holds cols w rows -> sink_buf sink = [] -> wire_ready s ->
  wpS (send_block pg w sink)
    (fun r s' => r.1 = pgch_writer_reset w /\ writer_holds cols r.1 [] /\ sink_buf r.2 = [] /\
       wired (block_bytes cols rows) s s') (fun _ _ => True) s.
Proof.
  intros Hw Hb Hr. unfold send_block. s_step. s_step.
  destruct (pgch_writer_build w) as [block|e|] eqn:Hbuild;
    [|done|exfalso; by eapply build_defined].
  assert (Hok : sink_ok sink) by (unfold sink_ok, CHDB_NATIVE_SINK_BYTES; rewrite Hb; cbn; lia).
  destruct (chc_block_write block) as [ws failed] eqn:Hws. cbn [fst snd].
  s_step. eapply wpS_mono; [by apply sink_writes_wp| |done].
  intros s1 w1 ([O1 R1 L1 S1] & _). destruct failed as [err|]; [by s_step|].
  s_step. eapply wpS_mono; [by apply sink_flush_wp| |done].
  intros s2 w2 ([O2 R2 L2 S2] & Hb2 & _). s_step. cbn [fst snd].
  split; [done|]. split; [by eapply reset_holds|]. split; [done|]. split; [done|by etrans|].
  unfold stream in S1, S2. rewrite <- (build_held _ cols w rows block ws Hw Hbuild Hws).
  by rewrite Hb2, S1, Hb, !app_nil_r in S2.
Qed.

(** *** Where blocks end *)

(** A writer that was given rows. *)
Fixpoint append_rows (w : pgch_writer) (rows : list (list typed)) : res error pgch_writer :=
  match rows with
  | [] => Ok w
  | row :: rows => w ← append_row pg 0 w row; append_rows w rows
  end.

(** With none of them, the first on, does it reach the limit. *)
Definition below (w : pgch_writer) (rows : list (list typed)) : Prop :=
  forall p, p `prefix_of` rows -> p <> [] ->
    exists w', append_rows w p = Ok w' /\ pgch_writer_bytes w' < CHDB_NATIVE_BLOCK_BYTES.

(** Blocks cut at the first row that reaches the limit, each in the writer the
    one before left, and the rows after them, which do not reach it. *)
Inductive cut : pgch_writer -> list (list (list typed)) -> list (list typed) -> Prop :=
| cut_rest w rest : below w rest -> cut w [] rest
| cut_block w block row w' blocks rest :
    below w block -> append_rows w (block ++ [row]) = Ok w' ->
    CHDB_NATIVE_BLOCK_BYTES <= pgch_writer_bytes w' -> cut (pgch_writer_reset w') blocks rest ->
    cut w ((block ++ [row]) :: blocks) rest.

Lemma append_rows_snoc w rows row :
  append_rows w (rows ++ [row]) = (w' ← append_rows w rows; append_row pg 0 w' row).
Proof.
  revert w. induction rows as [|r rows IH]; intros w; cbn.
  - by destruct (append_row pg 0 w row).
  - destruct (append_row pg 0 w r); cbn; [apply IH|done..].
Qed.

Lemma below_nil w : below w [].
Proof. by intros p ->%prefix_nil_inv ?. Qed.

Lemma below_snoc w rows row w' :
  below w rows -> append_rows w (rows ++ [row]) = Ok w' ->
  pgch_writer_bytes w' < CHDB_NATIVE_BLOCK_BYTES -> below w (rows ++ [row]).
Proof.
  intros Hb Hw Hl p [k Hp] Hne. destruct k as [|x k _] using rev_ind.
  - rewrite app_nil_r in Hp. subst. eauto.
  - rewrite app_assoc in Hp. apply app_inj_tail in Hp as [-> _]. apply Hb; [by eexists|done].
Qed.

(** The last block, when there are rows for it. *)
Definition rest_block (rest : list (list typed)) : list (list (list typed)) :=
  match rest with [] => [] | _ => [rest] end.

Lemma rest_block_rows rest : concat (rest_block rest) = rest.
Proof. destruct rest; [done|]. apply app_nil_r. Qed.

(** The rows the scan gave. *)
Definition scanned (desc : list attribute) (attnums : list nat) (scan : list (res error (list cell)))
    (rows : list (list typed)) : Prop :=
  Forall2 (fun next row => exists slot, next = Ok slot /\ copied desc slot attnums = Ok row) scan rows.

(** A scan of a relation gives tuples of its descriptor, or errors. *)
Definition scan_fits (desc : list attribute) (attnums : list nat) (scan : list (res error (list cell)))
    : Prop :=
  Forall (fun next => match next with Ok slot => tuple_fits desc attnums slot | Raise _ => True
                      | UB => False end) scan.

(** What the loop leaves: full blocks on the wire, and the rows after them in
    the writer; [w0] is the writer as the first of them began. *)
Definition sending (cols : list (bytes * chc_type pg)) (w0 : pgch_writer) (held rows : list (list typed))
    (n : Z) (s : W) (r : pgch_writer * nativeSink * Z) (s' : W) : Prop :=
  exists blocks rest,
    held ++ rows = concat blocks ++ rest /\ cut w0 blocks rest /\
    writer_holds cols r.1.1 rest /\ sink_buf r.1.2 = [] /\
    wired (concat (map (block_bytes cols) blocks)) s s' /\ r.2 = u64 (n + zlen rows).

Lemma u64_step n k : u64 (u64 (n + 1) + k) = u64 (n + (1 + k)).
Proof. unfold u64, wrap. rewrite Z.add_mod_idemp_l by lia. f_equal. lia. Qed.

Lemma send_loop_wp cols desc attnums scan w0 w sink n held s :
  scan_fits desc attnums scan -> length attnums = length cols -> attnums <> [] ->
  append_rows w0 held = Ok w -> below w0 held ->
  writer_holds cols w held -> sink_buf sink = [] -> wire_ready s -> fits 64 n ->
  wpS (send_loop pg desc attnums scan w sink n)
    (fun r s' => exists rows, scanned desc attnums scan rows /\
       sending cols w0 held rows n s r s') (fun _ _ => True) s.
Proof.
  intros Hscan Hlen Hne. revert w0 w sink n held s.
  induction Hscan as [|next scan Hnext _ IH]; intros w0 w sink n held s Hw0 Hbelow Hw Hb Hr Hn; cbn [send_loop].
  { s_step. exists []. split; [constructor|]. exists [], held. rewrite app_nil_r. cbn [fst snd].
    split_and!; [done|by constructor|done..|by apply wired_refl|].
    cbn. rewrite Z.add_0_r. unfold u64. by rewrite wrap_id. }
  s_step. s_step. destruct next as [slot|e|]; [|done|done].
  s_step. eapply wpS_mono; [by apply wire_check_wp| |done]. intros [] s1 [R1 L1 S1].
  destruct (append_slot_step cols w held desc slot attnums Hw Hnext Hlen Hne) as (row & Hrow & Happ & Hstep).
  s_step. s_step. destruct (append_slot pg w desc slot attnums) as [w'|e|]; [|done|done].
  cbv zeta. assert (Hn1 : fits 64 (u64 (n + 1))) by (apply wrap_fits; lia).
  assert (Hw1 : append_rows w0 (held ++ [row]) = Ok w') by (rewrite append_rows_snoc, Hw0; done).
  destruct (Z.leb_spec CHDB_NATIVE_BLOCK_BYTES (pgch_writer_bytes w')) as [Hfull|Hsmall].
  - s_step. eapply wpS_mono; [by apply (send_block_wp cols w' (held ++ [row]))| |done].
    intros [w2 sink2] s2 (Hreset & Hw2 & Hb2 & Hs2). cbn [fst snd] in *. subst w2.
    eapply wpS_mono.
    { apply (IH (pgch_writer_reset w') (pgch_writer_reset w') sink2 (u64 (n + 1)) []);
        [done|apply below_nil|done|done|apply Hs2|done]. }
    2: done.
    intros r s3 (rows & Hrows & blocks & rest & Heq & Hcut & Hh & Hsb & Hwd & Hc).
    exists (row :: rows). split; [constructor; [by eexists|done]|].
    exists ((held ++ [row]) :: blocks), rest. cbn [concat map]. split_and!.
    + cbn [app] in Heq. rewrite Heq. by rewrite <- !app_assoc.
    + by eapply cut_block.
    + done.
    + done.
    + apply (wired_trans [] _ s s1 s3); [split; [done..|by rewrite app_nil_r in *]|].
      by eapply wired_trans.
    + rewrite Hc, u64_step. cbn [length]. f_equal. lia.
  - eapply wpS_mono.
    { apply (IH w0 w' sink (u64 (n + 1)) (held ++ [row])); [done|by eapply below_snoc|done..]. }
    2: done.
    intros r s3 (rows & Hrows & blocks & rest & Heq & Hcut & Hh & Hsb & Hwd & Hc).
    exists (row :: rows). split; [constructor; [by eexists|done]|].
    exists blocks, rest. split_and!; [|done..| |].
    + by rewrite <- Heq, <- app_assoc.
    + apply (wired_trans [] _ s s1 s3); [by split|done].
    + rewrite Hc, u64_step. cbn [length]. f_equal. lia.
Qed.

Lemma copy_send_wp desc scan structure attnums s :
  scan_fits desc attnums scan -> attnums <> [] -> wire_ready s ->
  wpS (chdb_copy_send pg desc scan structure attnums)
    (fun n s' => exists type cols rows blocks rest,
       chc_type_parse pg (b8 "Tuple(" ++ structure ++ b8 ")") = inl type /\
       Forall2 (declares pg type) (seq 0 (chc_type_n_children type)) cols /\
       length cols = length attnums /\
       scanned desc attnums scan rows /\
       rows = concat blocks ++ rest /\
       cut (pgch_writer_set_null_array (pgch_writer_new cols)) blocks rest /\
       wired (concat (map (block_bytes cols) (blocks ++ rest_block rest))) s s' /\ n = u64 (zlen scan))
    (fun _ _ => True) s.
Proof.
  intros Hscan Hne Hr. unfold chdb_copy_send. s_step. s_step.
  pose proof (writer_for_spec pg structure (length attnums)) as Hfor.
  destruct (writer_for pg structure (length attnums)) as [w|e|]; [|done|done].
  destruct Hfor as (type & cols & Hparse & -> & Hlen & Hcols). cbv zeta. s_step.
  eapply wpS_mono; [apply (send_loop_wp cols desc attnums scan (pgch_writer_set_null_array (pgch_writer_new cols)) _ _ 0 [])| |done];
    [done|done|done|reflexivity|apply below_nil|apply writer_new_holds|done|done|done|].
  intros [[w sink] n] s1 (rows & Hrows & blocks & rest & Heq & Hcut & Hh & Hb & Hwd & Hc).
  cbn [fst snd app] in *. pose proof (Forall2_length _ _ _ Hrows) as Hnum.
  rewrite Z.add_0_l in Hc. rewrite <- Hnum in Hc.
  rewrite (rows_held _ cols w rest Hh). destruct (Z.ltb_spec 0 (zlen rest)) as [Hrest|Hrest].
  - s_step. s_step. eapply wpS_mono; [apply (send_block_wp cols w rest); [done|done|apply Hwd]| |done].
    intros r s2 (_ & _ & _ & Hw2). s_step. s_step.
    exists type, cols, rows, blocks, rest. split_and!; try done.
    destruct rest; [done|]. cbn [rest_block]. rewrite map_app, concat_app. cbn [map concat].
    rewrite app_nil_r. by eapply wired_trans.
  - s_step. s_step. destruct rest; [|cbn in Hrest; lia].
    exists type, cols, rows, blocks, []. cbn [rest_block]. by rewrite (app_nil_r blocks).
Qed.

(** C16. COPY TO puts every row the scan gives on the wire, in order and once,
    as Native blocks over the declared columns: a block is cut at the first row
    with which the writer's bytes reach 8 MB, and not before, the rows after the
    last cut make one more block when there are any, nothing is left in a
    buffer, and the count returned is the number of rows. *)
Theorem chdb_copy_send_spec desc scan structure attnums s :
  scan_fits desc attnums scan -> attnums <> [] -> wire_ready s ->
  wpS (chdb_copy_send pg desc scan structure attnums)
    (fun n s' => exists type cols rows blocks rest,
       chc_type_parse pg (b8 "Tuple(" ++ structure ++ b8 ")") = inl type /\
       Forall2 (declares pg type) (seq 0 (chc_type_n_children type)) cols /\
       length cols = length attnums /\
       scanned desc attnums scan rows /\
       rows = concat blocks ++ rest /\
       cut (pgch_writer_set_null_array (pgch_writer_new cols)) blocks rest /\
       wired (concat (map (block_bytes cols) (blocks ++ rest_block rest))) s s' /\ n = u64 (zlen scan))
    (fun _ _ => True) s.
Proof. apply copy_send_wp. Qed.
End wire.
End rows.

(** ** Examples *)

(** A wire that takes everything. *)
#[export] Instance loopback : Wire bytes := {
  wire_write := fun p s => (Ok tt, s ++ p);
  wire_check := fun s => (Ok tt, s);
  wire_sent := fun s => s;
  wire_ready := fun _ => True;
  wire_later := fun _ _ => True;
  wire_fails := fun _ _ => True;
}.

#[export] Instance loopback_laws : WireLaws bytes.
Proof.
  split; [by split|done| |].
  - by intros p s _.
  - by intros s _.
Qed.

(** An encoder that writes a byte per value. A structure's columns are as many
    as its commas and one, all of them called [c]. *)
Record sample_writer : Type := SampleWriter {
  sw_ncols : nat;
  sw_rows : list (list typed);
  sw_row : list typed;
}.

#[export] Instance sample_encoder : Encoder sample_pgch := {
  chc_type_n_children := fun t : bytes => S (length (filter (.= COMMA) t));
  chc_type_tuple_field_name := fun _ _ => Some (b8 "c");
  chc_type_child := fun t _ => t;
  pgch_writer := sample_writer;
  chc_block := list (list typed);
  pgch_writer_new := fun cols => SampleWriter (length cols) [] [];
  pgch_writer_set_null_array := fun w => w;
  pgch_append_datum := fun w _ v typ isnull =>
    let row := sw_row w ++ [(v, typ, isnull)] in
    Ok (if decide (length row = sw_ncols w) then SampleWriter (sw_ncols w) (sw_rows w ++ [row]) []
        else SampleWriter (sw_ncols w) (sw_rows w) row);
  pgch_writer_bytes := fun w => zlen (sw_rows w) * 3 * 1024 * 1024;
  pgch_writer_rows := fun w => zlen (sw_rows w);
  pgch_writer_build := fun w => Ok (sw_rows w);
  pgch_writer_reset := fun w => SampleWriter (sw_ncols w) [] [];
  chc_block_write := fun b => (map (map (fun v : typed => byte_of_Z v.1.1)) b, None);
}.

Lemma sample_append_row col w row :
  (length (sw_row w ++ row) = sw_ncols w)%nat -> row <> [] ->
  append_row sample_pgch col w row =
  Ok (SampleWriter (sw_ncols w) (sw_rows w ++ [sw_row w ++ row]) []).
Proof.
  revert col w. induction row as [|v row IH]; intros col w Hl Hne; [done|].
  destruct w as [n rows part]; destruct v as [[v typ] isnull]; cbn in *.
  rewrite length_app in Hl. cbn in Hl. rewrite length_app. cbn. destruct row as [|v' row].
  - rewrite decide_True; [done|]. cbn in Hl. lia.
  - rewrite decide_False by (cbn in Hl; lia). rewrite IH; [|cbn; rewrite !length_app; cbn in *; lia|done].
    cbn. by rewrite <- app_assoc.
Qed.

#[export] Instance sample_laws : WriterLaws sample_pgch.
Proof.
  refine {|
    writer_holds := fun cols w rows => w = SampleWriter (length cols) rows [];
    block_bytes := fun _ rows => concat (map (map (fun v : typed => byte_of_Z v.1.1)) rows);
  |}; cbn; try done.
  - intros cols w w' rows row -> Hl Hne Hw. rewrite sample_append_row in Hw by done.
    by injection Hw as <-.
  - by intros cols w rows ->.
  - by intros cols w rows block ws -> [= <-] [= <-].
  - by intros cols w rows ->.
Qed.

Definition sample_tuple (a b : Z) : res error (list cell) := Ok [(a, false); (b, false)].

(** Four rows of an id and a name, three of which fill a block. *)
Definition sample_scan : list (res error (list cell)) :=
  [sample_tuple 1 2; sample_tuple 3 4; sample_tuple 5 6; sample_tuple 7 8].

Lemma sink_refines_witness :
  exists s, (s' ← sink_writes (NativeSink (b8 "a")) [b8 "bc"; []; b8 "d"]; sink_flush s') (b8 "x")
    = (Ok s, b8 "xabcd") /\ sink_buf s = [].
Proof.
  pose proof (sink_refines [b8 "bc"; []; b8 "d"] (NativeSink (b8 "a")) (b8 "x")
    ltac:(unfold sink_ok; vm_compute; discriminate) I) as Hs.
  assert (Hrun : (s' ← sink_writes (NativeSink (b8 "a")) [b8 "bc"; []; b8 "d"]; sink_flush s') (b8 "x")
    = (Ok (NativeSink []), b8 "xabcd")) by (vm_compute; reflexivity).
  exists (NativeSink []). split; [exact Hrun|].
  exact (proj1 (wpS_Ok _ _ _ _ _ _ Hrun Hs)).
Defined.

Lemma chdb_copy_send_spec_witness :
  exists s, chdb_copy_send sample_pgch (rel_desc sample_relation) sample_scan (b8 "id UUID, name String")
      [1; 2]%nat [] = (Ok 4, s) /\
    exists cols rows blocks rest,
      scanned (rel_desc sample_relation) [1; 2]%nat sample_scan rows /\
      rows = concat blocks ++ rest /\
      cut (pgch_writer_set_null_array (pgch_writer_new cols)) blocks rest /\
      s = concat (map (block_bytes cols) (blocks ++ rest_block rest)).
Proof.
  pose proof (chdb_copy_send_spec (rel_desc sample_relation) sample_scan (b8 "id UUID, name String")
    [1; 2]%nat [] ltac:(repeat constructor) ltac:(done) I) as Hs.
  assert (Hrun : chdb_copy_send sample_pgch (rel_desc sample_relation) sample_scan
    (b8 "id UUID, name String") [1; 2]%nat [] = (Ok 4, [x01; x02; x03; x04; x05; x06; x07; x08]))
    by (vm_compute; reflexivity).
  exists [x01; x02; x03; x04; x05; x06; x07; x08]. split; [exact Hrun|].
  apply (wpS_Ok _ _ _ _ _ _ Hrun) in Hs.
  destruct Hs as (type & cols & rows & blocks & rest & _ & _ & _ & Hrows & Heq & Hcut & Hw & _).
  exists cols, rows, blocks, rest. split; [exact Hrows|]. split; [exact Heq|]. split; [exact Hcut|].
  exact (wired_sent _ _ _ Hw).
Defined.
