(* ===== verification/Source.v ===== *)
(** * Source: Native blocks from the helper's output

    [nativeSource] of src/native.c, which pg-clickhouse-c's reader asks for
    blocks. The decoder of clickhouse-c calls back for input: it is given as the
    tree of its reads ([reading]), which the source answers from the channel,
    looking for interrupts first. What the source promises is an abstract
    decoder: the blocks of the bytes the helper wrote, however they arrive. *)

From stdpp Require Import prelude.
From S2P Require Import Prelude Stateful Backend.
Local Open Scope Z_scope.

Definition CHDB_NATIVE_SOURCE_BYTES : Z := 256 * 1024.

(** ** What the source asks of the channel *)

Class RecvWire (S : Type) : Type := {
  wire_recv : Z -> stateful S error bytes;          (** chdb_helper_recv *)
  wire_interrupts : stateful S error unit;          (** CHECK_FOR_INTERRUPTS *)
  wire_rest : S -> bytes;                           (** what is still to come *)
  wire_listens : S -> Prop;
  wire_ended : S -> S -> Prop;                      (** the end came, and all was well *)
  wire_raises : S -> error -> Prop;
}.

(** A receive gives the next bytes or, when there are none, the end. *)
Class RecvLaws (S : Type) `{RecvWire S} : Prop := {
  recv_spec len s :
    0 < len -> wire_listens s ->
    wpS (wire_recv len)
      (fun b s' =>
         (b <> [] /\ zlen b <= len /\ wire_listens s' /\ wire_rest s = b ++ wire_rest s' /\
          (forall e, wire_raises s' e -> wire_raises s e) /\
          (forall s2, wire_ended s' s2 -> wire_ended s s2)) \/
         (b = [] /\ wire_rest s = [] /\ wire_ended s s'))
      (fun e _ => wire_raises s e) s;
  interrupts_spec s :
    wire_listens s ->
    wpS wire_interrupts
      (fun _ s' => wire_listens s' /\ wire_rest s' = wire_rest s /\
         (forall e, wire_raises s' e -> wire_raises s e) /\
         (forall s2, wire_ended s' s2 -> wire_ended s s2))
      (fun e _ => wire_raises s e) s;
}.

(** ** clickhouse-c's decoder *)

(** Reads of at most [len] bytes, and what comes of them. *)
Inductive reading (R : Type) : Type :=
| Done (r : R)
| More (len : Z) (next : bytes -> reading R).
Arguments Done {R} _.
Arguments More {R} _ _.

Class BlockDecoder (pg : PgClickhouse) : Type := {
  chc_in : Type;
  native_block : Type;
  chc_in_init : Z -> chc_in + chc_err pg;
  (** No block is the end of the stream. *)
  chc_block_read : chc_in -> reading (chc_in * (option native_block + chc_err pg));
  chc_err_msg : chc_err pg -> bytes;
}.

Section source.
Context (pg : PgClickhouse) `{BlockDecoder pg}.

Abbreviation read_result := (option native_block + chc_err pg)%type.

Record nativeSource : Type := NativeSource {
  ns_in : chc_in;
  ns_error : option bytes;
}.

Definition source_for : res error nativeSource :=
  match chc_in_init CHDB_NATIVE_SOURCE_BYTES with
  | inr err =>
      Raise (pgch_raise pg err ERRCODE_EXTERNAL_ROUTINE_EXCEPTION (Some (b8 "reader init: ")) None)
  | inl i => Ok (NativeSource i None)
  end.

Definition source_error (s : nativeSource) : option bytes := ns_error s.

Section wire.
Context {W : Type} `{RecvWire W}.

Definition source_read (len : Z) : stateful W error bytes := wire_recv len.
Definition source_cancelled : stateful W error unit := wire_interrupts.

(** The decoder's reads, answered. *)
Fixpoint run_reading {R} (t : reading R) : stateful W error R :=
  match t with
  | Done r => mret r
  | More len next =>
      source_cancelled ;;
      b ← source_read len;
      run_reading (next b)
  end.

Definition source_next (s : nativeSource) : stateful W error (option native_block * nativeSource) :=
  if decide (ns_error s <> None) then mret (None, s)
  else
    '(i, r) ← run_reading (chc_block_read (ns_in s));
    match r with
    | inl block => mret (block, NativeSource i None)
    | inr err =>
        let msg := chc_err_msg err in
        mret (None, NativeSource i
          (Some (if decide (msg = []) then b8 "chDB block could not be read" else msg)))
    end.

(** A reader that takes block after block until there is none: the blocks, and
    [source_error] then, or the error raised. *)
Fixpoint take_blocks (fuel : nat) (ns : nativeSource) (w : W)
    : list native_block * res error (option bytes) * W :=
  match fuel with
  | O => ([], UB, w)
  | S fuel =>
      match source_next ns w with
      | (Ok (Some block, ns), w) =>
          let r := take_blocks fuel ns w in (block :: r.1.1, r.1.2, r.2)
      | (Ok (None, ns), w) => ([], Ok (source_error ns), w)
      | (Raise e, w) => ([], Raise e, w)
      | (UB, w) => ([], UB, w)
      end
  end.

(** The source as it is then. *)
Fixpoint source_after (fuel : nat) (ns : nativeSource) (w : W) : nativeSource :=
  match fuel with
  | O => ns
  | S fuel =>
      match source_next ns w with
      | (Ok (Some _, ns), w) => source_after fuel ns w
      | (Ok (None, ns), _) => ns
      | _ => ns
      end
  end.
End wire.

(** ** What the code relies on *)

(** How a decoder reads: positive amounts, nothing after the end of the input,
    and then it has no block; it reports the end of the stream only there. *)
Inductive well_read : reading (chc_in * read_result) -> Prop :=
| wr_done r : r.2 <> inl None -> well_read (Done r)
| wr_more len next i r :
    0 < len -> next [] = Done (i, r) -> (forall b, r <> inl (Some b)) ->
    (forall b, b <> [] -> zlen b <= len -> well_read (next b)) ->
    well_read (More len next).

(** What it comes to on an input, cut in any way. *)
Inductive feeds {R} : reading R -> bytes -> R -> bytes -> Prop :=
| feeds_done r input : feeds (Done r) input r input
| feeds_end len next r : next [] = Done r -> feeds (More len next) [] r []
| feeds_more len next b input r rest :
    b <> [] -> zlen b <= len -> feeds (next b) input r rest ->
    feeds (More len next) (b ++ input) r rest.

(** It takes the next block of its input, which it may buffer, whatever the
    cuts. *)
Class DecoderLaws : Type := {
  in_pending : chc_in -> bytes;
  next_of : bytes -> read_result * bytes;
  next_shorter input block rest :
    next_of input = (inl (Some block), rest) -> (length rest < length input)%nat;
  init_pending n i : chc_in_init n = inl i -> in_pending i = [];
  block_read_well i : well_read (chc_block_read i);
  block_read_spec i input i' r rest :
    feeds (chc_block_read i) input (i', r) rest ->
    next_of (in_pending i ++ input) = (r, in_pending i' ++ rest);
}.

(** ** The abstract decoder *)

Section spec.
Context `{!DecoderLaws}.

Definition message (err : chc_err pg) : bytes :=
  if decide (chc_err_msg err = []) then b8 "chDB block could not be read" else chc_err_msg err.

(** The blocks of an input, and the error they end with, if they do. *)
Fixpoint decode (fuel : nat) (input : bytes) : list native_block * option bytes :=
  match fuel with
  | O => ([], None)
  | S fuel =>
      match next_of input with
      | (inl None, _) => ([], None)
      | (inl (Some block), rest) => let r := decode fuel rest in (block :: r.1, r.2)
      | (inr err, _) => ([], Some (message err))
      end
  end.

Definition decoded (input : bytes) : list native_block * option bytes :=
  decode (S (length input)) input.

Lemma decode_fuel f1 f2 input :
  (length input < f1)%nat -> (length input < f2)%nat -> decode f1 input = decode f2 input.
Proof.
  revert f2 input. induction f1 as [|f1 IH]; intros [|f2] input H1 H2; [lia..|]. cbn.
  destruct (next_of input) as [[[block|]|err] rest] eqn:Hn; [|done|done].
  apply next_shorter in Hn. by rewrite (IH f2) by lia.
Qed.

Section wire.
Context {W : Type} `{RecvLaws W}.

(** [s'] is [s] further on, still listening. *)
Record carries (s s' : W) : Prop := Carries {
  carries_listens : wire_listens s';
  carries_raises e : wire_raises s' e -> wire_raises s e;
  carries_ended s2 : wire_ended s' s2 -> wire_ended s s2;
}.

Lemma carries_trans s1 s2 s3 : carries s1 s2 -> carries s2 s3 -> carries s1 s3.
Proof. intros [L1 R1 E1] [L2 R2 E2]. split; auto. Qed.

(** A reading ends with the input further on, or at its end with no block. *)
Lemma run_reading_wp t s :
  well_read t -> wire_listens s ->
  wpS (run_reading t)
    (fun r s' => exists rest, feeds t (wire_rest s) r rest /\
       ((carries s s' /\ wire_rest s' = rest /\ r.2 <> inl None) \/
        (rest = [] /\ wire_ended s s' /\ forall b, r.2 <> inl (Some b))))
    (fun e _ => wire_raises s e) s.
Proof.
  intros Hw. revert s. induction Hw as [r Hr|len next i r Hl Hend Hno _ IH]; intros s Hs;
    cbn [run_reading].
  { s_step. exists (wire_rest s). split; [constructor|]. left. by split; [split|]. }
  unfold source_cancelled, source_read. s_step. eapply wpS_mono; [by apply interrupts_spec| |done].
  intros [] s1 (Hs1 & Hr1 & He1 & Hf1).
  s_step. eapply wpS_mono; [by apply recv_spec| |by auto].
  intros b s2 [(Hne & Hlen & Hs2 & Hr2 & He2 & Hf2)|(-> & Hr2 & Hf)].
  - eapply wpS_mono; [by apply IH| |by auto]. intros res s3 (rest & Hfeed & Hcase).
    exists rest. rewrite <- Hr1, Hr2. split; [by constructor|].
    destruct Hcase as [([L R E] & ? & ?)|(? & ? & ?)]; [left|right; auto].
    split; [split|]; auto.
  - rewrite Hend. cbn [run_reading]. s_step. exists []. rewrite <- Hr1, Hr2. split; [by constructor|]. right. auto.
Qed.

(** *** One block, and all of them *)

Lemma source_next_wp ns s :
  ns_error ns = None -> wire_listens s ->
  wpS (source_next ns)
    (fun r s' =>
       match next_of (in_pending (ns_in ns) ++ wire_rest s) with
       | (inl (Some block), rest) =>
           r.1 = Some block /\ ns_error r.2 = None /\ carries s s' /\
           in_pending (ns_in r.2) ++ wire_rest s' = rest
       | (inl None, _) => r.1 = None /\ ns_error r.2 = None /\ wire_ended s s'
       | (inr err, _) => r.1 = None /\ ns_error r.2 = Some (message err)
       end)
    (fun e _ => wire_raises s e) s.
Proof.
  intros Hn Hs. unfold source_next. rewrite Hn, decide_False by auto. s_step.
  eapply wpS_mono; [apply run_reading_wp; [apply block_read_well|done]| |done].
  intros [i r] s' (rest & Hfeed & Hcase). rewrite (block_read_spec _ _ _ _ _ Hfeed).
  cbn [fst snd] in *. destruct r as [[block|]|err]; cbv zeta; s_step; cbn [fst snd].
  - destruct Hcase as [(? & -> & _)|(_ & _ & Hx)]; [done|by destruct (Hx block)].
  - by destruct Hcase as [(_ & _ & Hx)|(_ & ? & _)].
  - done.
Qed.

(** What a source hands out, against the output [input]. *)
Definition handed (fuel : nat) (input : bytes) (s : W)
    (r : list native_block * res error (option bytes) * W) : Prop :=
  match r.1.2 with
  | Ok err => (r.1.1, err) = decode fuel input /\ (err = None -> wire_ended s r.2)
  | Raise e => r.1.1 `prefix_of` (decode fuel input).1 /\ wire_raises s e
  | UB => False
  end.

Lemma take_blocks_handed fuel ns s :
  ns_error ns = None -> wire_listens s ->
  (length (in_pending (ns_in ns) ++ wire_rest s) < fuel)%nat ->
  handed fuel (in_pending (ns_in ns) ++ wire_rest s) s (take_blocks fuel ns s).
Proof.
  revert ns s. induction fuel as [|fuel IH]; intros ns s Hn Hs Hf; [lia|].
  pose proof (source_next_wp ns s Hn Hs) as Hnext. unfold wpS in Hnext. cbn [take_blocks].
  destruct (source_next ns s) as [[[blk ns1]|e|] s1]; [|split; [apply prefix_nil|done]|done].
  unfold handed. cbn [decode fst snd] in *. destruct (next_of _) as [[[block|]|err] rest] eqn:Hno.
  - destruct Hnext as (-> & Hn1 & Hc & Hr). apply next_shorter in Hno.
    assert (Hl : (length (in_pending (ns_in ns1) ++ wire_rest s1) < fuel)%nat) by (rewrite Hr; lia).
    specialize (IH ns1 s1 Hn1 (carries_listens _ _ Hc) Hl). unfold handed in IH. cbn [fst snd].
    rewrite Hr in IH. destruct (take_blocks fuel ns1 s1) as [[bs [err|e|]] s2]; cbn in *; [| |done].
    + destruct IH as [<- He]. split; [done|]. intros Hnone. by apply Hc, He.
    + destruct IH as [Hp He]. split; [by apply prefix_cons|by apply Hc].
  - destruct Hnext as (-> & Hn1 & He). unfold source_error. by rewrite Hn1.
  - destruct Hnext as (-> & Hn1). unfold source_error. by rewrite Hn1.
Qed.

(** An error sticks: once there is one, the source reads nothing more. *)
Lemma source_next_sticks ns s :
  ns_error ns <> None -> source_next ns s = (Ok (None, ns), s).
Proof. intros Hn. unfold source_next. by rewrite decide_True. Qed.

Lemma source_after_error fuel ns s err :
  (take_blocks fuel ns s).1.2 = Ok err -> source_error (source_after fuel ns s) = err.
Proof.
  revert ns s. induction fuel as [|fuel IH]; intros ns s; cbn [take_blocks source_after]; [done|].
  destruct (source_next ns s) as [[[[block|] ns1]|e|] s1]; cbn; [apply IH|by intros [= ->]|done..].
Qed.

(** C18. Whatever pieces the helper's output arrives in, the source hands the
    reader the blocks of the whole output, in order, then the end or the error
    the output has, and keeps to that error: asked again, it says the same
    without touching the channel. The end comes without an error only when the
    channel says that the helper ended well. When the channel raises, what was
    handed out until then is a head of those blocks. *)
Theorem source_refines i s :
  chc_in_init CHDB_NATIVE_SOURCE_BYTES = inl i -> wire_listens s ->
  exists ns, source_for = Ok ns /\
    let r := take_blocks (S (length (wire_rest s))) ns s in
    match r.1.2 with
    | Ok err => (r.1.1, err) = decoded (wire_rest s) /\ (err = None -> wire_ended s r.2) /\
        forall msg, err = Some msg ->
          let ns' := source_after (S (length (wire_rest s))) ns s in
          source_error ns' = Some msg /\ source_next ns' r.2 = (Ok (None, ns'), r.2)
    | Raise e => r.1.1 `prefix_of` (decoded (wire_rest s)).1 /\ wire_raises s e
    | UB => False
    end.
Proof.
  intros Hi Hs. exists (NativeSource i None). unfold source_for. rewrite Hi. split; [done|].
  pose proof (init_pending _ _ Hi) as Hp.
  pose proof (take_blocks_handed (S (length (wire_rest s))) (NativeSource i None) s eq_refl Hs) as Ht.
  cbn [ns_in] in Ht. rewrite Hp in Ht. cbn [app] in Ht. specialize (Ht ltac:(lia)). unfold handed in Ht.
  pose proof (source_after_error (S (length (wire_rest s))) (NativeSource i None) s) as Hafter.
  cbv zeta. destruct (take_blocks _ _ s).1.2 as [err|e|]; [|done..].
  destruct Ht as [Hd He]. split; [done|]. split; [done|]. intros msg ->.
  specialize (Hafter (Some msg) eq_refl). split; [done|]. apply source_next_sticks.
  unfold source_error in Hafter. by rewrite Hafter.
Qed.
End wire.
End spec.
End source.
