(* ===== verification/ChannelWire.v ===== *)
(** * ChannelWire: the helper channel is a wire

    The channel of src/helper.c implements what src/native.c asks of it, for
    sending and for receiving. *)

From stdpp Require Import prelude functions.
From S2P Require Import Prelude Words CString Stateful Pipe Setup Os Channel ChannelLogic.
From S2P Require Import ChannelProps ChannelTheorems Backend Wire Source.
Local Open Scope Z_scope.

Section wire.
Context (utf8_cliplen : bytes -> nat) (strerror : errno -> bytes).

#[export] Instance channel_wire : Wire channel := {
  wire_write := chdb_helper_write utf8_cliplen strerror;
  wire_check := CHECK_FOR_INTERRUPTS;
  wire_sent := fun c => o_sent c.2 data;
  wire_ready := running;
  wire_later := heard;
  wire_fails := fun c e => failed utf8_cliplen strerror c e c;
}.

(** Hearing more of the error output leaves a running helper audible. *)
Lemma running_heard c c' :
  running c -> heard c c' -> h_reaped c'.1 = h_reaped c.1 -> running c'.
Proof.
  intros [Hb He Hr] Hh Hreap. split; [by eapply heard_buffer| |congruence].
  destruct (heard_end _ _ Hh) as [Hfd|[_ Hu]]; [|by right].
  destruct He as [He|He]; [left; by rewrite Hfd|right].
  destruct (heard_text _ _ Hh) as (got & Hg & _). rewrite He in Hg. symmetry in Hg.
  by apply app_eq_nil in Hg as [_ ->].
Qed.

#[export] Instance channel_wire_laws : WireLaws channel.
Proof.
  split; cbn.
  - apply _.
  - intros c c' e Hh Hf. by apply (failed_after _ _ c c') in Hf.
  - intros p c Hc. eapply wpS_mono; [apply helper_write_wp, Hc| |].
    + intros [] c' Hd. split; [|split; [apply Hd|by apply (delivered_sent _ _ _ _ Hd)]].
      by apply (running_heard c); [|apply Hd|apply (delivered_reaped _ _ _ _ Hd)].
    + intros e c' [Hf Hs]. split; [exact Hf|exact Hs].
  - intros c Hc. apply check_wp.
    + intros c' Hq Hh _. split; [|split; [apply Hq|by rewrite (quiet_sent _ _ Hq)]].
      apply (running_heard c); [done|apply Hq|by rewrite Hh].
    + intros e c' [Hi Hq] _. split; [by left|by rewrite (quiet_sent _ _ Hq)].
Qed.

#[export] Instance channel_recv : RecvWire channel := {
  wire_recv := chdb_helper_recv utf8_cliplen strerror;
  wire_interrupts := CHECK_FOR_INTERRUPTS;
  wire_rest := fun c => content (o_in c.2 data);
  wire_listens := running;
  wire_ended := fun c c' => o_exit c.2 = 0 /\ h_reaped c'.1 = true /\ h_fd c'.1 data < 0;
  wire_raises := fun c e => failed utf8_cliplen strerror c e c;
}.

#[export] Instance channel_recv_laws : RecvLaws channel.
Proof.
  split; cbn.
  - intros len c Hl Hc. eapply wpS_mono; [apply recv_wp; [done|apply Hc]| |intros e c' Hf; exact Hf].
    intros b c' [(Hne & Hlen & Hr & Hre & _)|(-> & Hd & [_ [Hre _] [Hdc _] Hx])].
    + left. pose proof (received_heard _ _ _ Hr) as Hh. split_and!; [done|done|by eapply running_heard| | |].
      * apply (received_data _ _ _ Hr).
      * intros e Hf. by apply (failed_after _ _ c c') in Hf.
      * by rewrite (heard_exit _ _ Hh).
    + right. split; [done|]. split; [done|]. split; [by apply Hx, Hc|done].
  - intros c Hc. apply check_wp.
    + intros c' Hq Hh Hin. assert (Hhd : heard c c') by apply Hq.
      split; [apply (running_heard c); [done|done|by rewrite Hh]|].
      split; [by rewrite (quiet_in _ _ Hq)|].
      split; [intros e Hf; by apply (failed_after _ _ c c') in Hf|].
      by rewrite (heard_exit _ _ Hhd).
    + intros e c' [Hi Hq] _. by left.
Qed.
End wire.
