(* ===== verification/Insert.v ===== *)
(** * Insert: rows on their way into a relation

    [nativeInsert] of src/native.c and its operations, between the loop that
    reads rows (Receive) and Postgres's executor. Every call into the executor
    is an event of the trace; what it answers may depend on all that happened
    before. A slot is the tuple it holds; [slots] is the used part of the array,
    and [created] counts the slots it has, used or not. *)

From stdpp Require Import prelude.
From S2P Require Import Prelude Stateful Logic Words Catalog.
Local Open Scope Z_scope.

Definition CHDB_MAX_BUFFERED_TUPLES : Z := 1000.
Definition CHDB_MAX_BUFFERED_BYTES : Z := 64 * 1024.

(** ** The executor's data *)

Record TriggerDesc : Type := MkTriggerDesc {
  trig_insert_before_row : bool;
  trig_insert_instead_row : bool;
}.

(** Which of its optional callbacks a foreign-data wrapper has. *)
Record FdwRoutine : Type := MkFdwRoutine {
  BeginForeignInsert : bool;
  EndForeignInsert : bool;
}.

Record TupleConstr : Type := MkTupleConstr { has_generated_stored : bool }.

(** A ResultRelInfo: a relation rows may go to. *)
Record ResultRelInfo : Type := MkResultRelInfo {
  ri_relid : Z;
  ri_NumIndices : Z;
  ri_TrigDesc : option TriggerDesc;
  ri_FdwRoutine : option FdwRoutine;
  ri_constr : option TupleConstr;      (** [ri_RelationDesc->rd_att->constr] *)
  ri_relispartition : bool;            (** [ri_RelationDesc->rd_rel->relispartition] *)
}.

#[export] Instance TriggerDesc_eq_decision : EqDecision TriggerDesc.
Proof. solve_decision. Defined.
#[export] Instance FdwRoutine_eq_decision : EqDecision FdwRoutine.
Proof. solve_decision. Defined.
#[export] Instance TupleConstr_eq_decision : EqDecision TupleConstr.
Proof. solve_decision. Defined.
#[export] Instance ResultRelInfo_eq_decision : EqDecision ResultRelInfo.
Proof. solve_decision. Defined.

Definition before_row_of (rri : ResultRelInfo) : bool :=
  match ri_TrigDesc rri with Some t => trig_insert_before_row t | None => false end.
Definition instead_row_of (rri : ResultRelInfo) : bool :=
  match ri_TrigDesc rri with Some t => trig_insert_instead_row t | None => false end.
Definition generated_of (rri : ResultRelInfo) : bool :=
  match ri_constr rri with Some c => has_generated_stored c | None => false end.

(** The tuple a slot holds. *)
Record tuple : Type := Tuple {
  tts_cells : list cell;
  tts_tableOid : Z;
}.

Definition set_tableOid (oid : Z) (t : tuple) : tuple := Tuple (tts_cells t) oid.

(** [tcs_original_insert_tuple]: none, the tuple in another slot, or the very
    slot that is inserted, whatever it holds by then. *)
Inductive original : Type :=
| NoOriginal
| RootTuple (t : tuple)
| SameTuple.

(** ** Calls into the executor *)

Inductive insert_event : Type :=
| EvRead
| EvCheckForInterrupts
| EvInitResultRelation (rt : RangeTable)
| EvCheckValidResultRel (rri : ResultRelInfo)
| EvOpenIndices (rri : ResultRelInfo)
| EvBeginForeignInsert (rri : ResultRelInfo)
| EvAfterTriggerBeginQuery
| EvSetupPartitionTupleRouting
| EvGetCurrentCommandId
| EvGetBulkInsertState
| EvCreateSlot (relid : Z)
| EvBSInsertTriggers (rri : ResultRelInfo)
| EvDefault (dest : nat)
| EvFindPartition (t : tuple)
| EvReleaseBulkInsertStatePin
| EvBRInsertTriggers (rri : ResultRelInfo) (t : tuple)
| EvIRInsertTriggers (rri : ResultRelInfo) (t : tuple)
| EvComputeStoredGenerated (rri : ResultRelInfo) (t : tuple)
| EvConstraints (rri : ResultRelInfo) (t : tuple)
| EvPartitionCheck (rri : ResultRelInfo) (t : tuple)
| EvMultiInsert (rri : ResultRelInfo) (ts : list tuple)
| EvTupleInsert (rri : ResultRelInfo) (t : tuple)
| EvForeignInsert (rri : ResultRelInfo) (t : tuple)
| EvInsertIndexTuples (rri : ResultRelInfo) (t : tuple)
| EvARInsertTriggers (rri : ResultRelInfo) (t : tuple) (recheck : list Z)
    (transition : option original)
| EvDropSlot
| EvFreeBulkInsertState
| EvFinishBulkInsert (relid : Z)
| EvASInsertTriggers (rri : ResultRelInfo) (transition : option original)
| EvAfterTriggerEndQuery
| EvResetTupleTable
| EvEndForeignInsert (rri : ResultRelInfo)
| EvCleanupTupleRouting
| EvCloseRelations.

Abbreviation trace := (list insert_event).

(** What the executor answers. [ex_do] is for the calls that only succeed or
    raise. *)
Record Executor : Type := MkExecutor {
  ex_expr : Type;
  ex_do : trace -> insert_event -> res error unit;
  ex_result_relation : trace -> RangeTable -> res error ResultRelInfo;
  ex_transition : trace -> bool;   (** MakeTransitionCaptureState gives one *)
  build_column_default : nat -> res error (option ex_expr);
  ex_eval : trace -> ex_expr -> res error cell;
  ex_find_partition : trace -> tuple -> res error ResultRelInfo;
  ex_root_to_child : ResultRelInfo -> option (tuple -> tuple);
  ex_br_triggers : trace -> ResultRelInfo -> tuple -> res error (option tuple);
  ex_generated : trace -> ResultRelInfo -> tuple -> res error tuple;
  ex_foreign_insert : trace -> ResultRelInfo -> tuple -> res error (option tuple);
  ex_recheck : trace -> ResultRelInfo -> tuple -> res error (list Z);
  heap_compute_data_size : tuple -> Z;
}.

(** ** Rows on their way in *)

Record nativeInsert : Type := NativeInsert {
  ni_target : ResultRelInfo;
  ni_transition : option original;
  ni_buffered : bool;
  ni_bytes : Z;
  ni_slots : list tuple;
  ni_created : nat;
}.

Definition set_transition (t : option original) (ins : nativeInsert) : nativeInsert :=
  NativeInsert (ni_target ins) t (ni_buffered ins) (ni_bytes ins) (ni_slots ins) (ni_created ins).
Definition set_buffer (size : Z) (slots : list tuple) (ins : nativeInsert) : nativeInsert :=
  NativeInsert (ni_target ins) (ni_transition ins) (ni_buffered ins) size slots (ni_created ins).
Definition set_created (n : nat) (ins : nativeInsert) : nativeInsert :=
  NativeInsert (ni_target ins) (ni_transition ins) (ni_buffered ins) (ni_bytes ins) (ni_slots ins) n.

Section insert.
Context (ex : Executor).

(** A call that only succeeds or raises. *)
Definition perform (ev : insert_event) : runs insert_event unit :=
  call ev (fun tr => ex_do ex tr ev).

Definition insert_index_tuples (rri : ResultRelInfo) (slot : tuple)
    : runs insert_event (list Z) :=
  call (EvInsertIndexTuples rri slot) (fun tr => ex_recheck ex tr rri slot).

Definition after_insert (ins : nativeInsert) (rri : ResultRelInfo) (slot : tuple)
    : runs insert_event unit :=
  recheck ← (if 0 <? ri_NumIndices rri then insert_index_tuples rri slot else mret []);
  perform (EvARInsertTriggers rri slot recheck (ni_transition ins)).

Fixpoint after_inserts (ins : nativeInsert) (slots : list tuple) : runs insert_event unit :=
  match slots with
  | [] => mret tt
  | slot :: slots => after_insert ins (ni_target ins) slot ;; after_inserts ins slots
  end.

Definition flush_buffer (ins : nativeInsert) : runs insert_event nativeInsert :=
  match ni_slots ins with
  | [] => mret ins
  | slots =>
      perform (EvMultiInsert (ni_target ins) slots) ;;
      after_inserts ins slots ;;
      mret (set_buffer 0 [] ins)
  end.

(** The slot is [slots[nused]]; past the array it would be undefined behaviour. *)
Definition buffer_slot (ins : nativeInsert) : runs insert_event nativeInsert :=
  if CHDB_MAX_BUFFERED_TUPLES <=? zlen (ni_slots ins) then lift UB
  else if decide (ni_created ins <= length (ni_slots ins))%nat then
    perform (EvCreateSlot (ri_relid (ni_target ins))) ;;
    mret (set_created (S (length (ni_slots ins))) ins)
  else mret ins.

Definition buffer_store (ins : nativeInsert) (slot : tuple) : runs insert_event nativeInsert :=
  let size := u64 (ni_bytes ins + heap_compute_data_size ex slot) in
  let slots := ni_slots ins ++ [slot] in
  let ins := set_buffer size slots ins in
  if (CHDB_MAX_BUFFERED_TUPLES <=? zlen slots) || (CHDB_MAX_BUFFERED_BYTES <=? size)
  then flush_buffer ins
  else mret ins.

Definition insert_row (ins : nativeInsert) (rri : ResultRelInfo) (slot : tuple)
    : runs insert_event bool :=
  if decide (ri_FdwRoutine rri <> None) then
    answer ← call (EvForeignInsert rri slot) (fun tr => ex_foreign_insert ex tr rri slot);
    match answer with
    | None => mret false
    | Some slot =>
        let slot := set_tableOid (ri_relid rri) slot in
        perform (EvARInsertTriggers rri slot [] (ni_transition ins)) ;;
        mret true
    end
  else
    perform (EvTupleInsert rri slot) ;;
    after_insert ins rri slot ;;
    mret true.
End insert.
