(* ===== verification/Receive.v ===== *)
(** * Receive: COPY FROM, from Native blocks to the relation

    [chdb_copy_receive] of src/native.c and what it calls: the defaults of the
    columns the COPY leaves out, and the loop that takes a row from the reader
    through routing, triggers, generated columns and checks to the insert
    (Insert). pg-clickhouse-c's reader is given by what it yields. *)

From stdpp Require Import prelude.
From S2P Require Import Prelude Stateful Logic Words Catalog Structure Insert.
Local Open Scope Z_scope.

(** ** pg-clickhouse-c's reader

    [rd_row] is a row of a block, before its values are converted, and
    [rd_state] the conversion state of a column. [pgch_reader_fill] gives the
    values of a row, and [pgch_reader_fill_map] puts them, converted, into the
    cells it is given, where [dest] says. *)

Class RowReader : Type := {
  rd_row : Type;
  rd_state : Type;
  pgch_reader_convert_init : Z -> nat -> Z -> Z -> res error rd_state;
  pgch_reader_fill : Z -> rd_row -> res error (list cell);
  pgch_reader_fill_map :
    Z -> rd_row -> list rd_state -> list nat -> list cell -> res error (list cell);
}.

(** A reader over the helper's output: what [source_for] and [pgch_reader_init]
    come to ([reader.error], if no error is raised, there or by the
    [pgch_reader_columns] that follows), the number of columns, the answers of
    [pgch_reader_next] up to the one that says there are no more, and
    [reader.error] then. *)
Record pgch_reader `{RowReader} : Type := MkReader {
  rd_open : res error (option bytes);
  rd_columns : Z;
  rd_rows : list (res error rd_row);
  rd_error : option bytes;
}.

Definition report_reader_error (error : bytes) : Prelude.error :=
  with_detail error
    (ereport ERRCODE_EXTERNAL_ROUTINE_EXCEPTION (b8 "chdb: error fetching chDB query result")).

(** [if (reader.error) report_reader_error(reader.error)]. *)
Definition check_reader (error : option bytes) : res Prelude.error unit :=
  match error with Some e => Raise (report_reader_error e) | None => Ok tt end.

Definition err_received (columns expected : Z) : error :=
  ereport ERRCODE_BAD_COPY_FILE_FORMAT
    (b8 "chdb: chDB returned " ++ fmt_d columns ++ b8 " columns, expected " ++ fmt_d expected).

Section receive.
Context `{RowReader} (ex : Executor).

(** The conversion states of the columns, from the [i]th on. *)
Fixpoint convert_states (desc : list attribute) (encoding_check : Z) (i : nat)
    (attnums : list nat) : res error (list rd_state) :=
  match attnums with
  | [] => Ok []
  | n :: attnums =>
      attr ← TupleDescAttr desc n;
      state ← pgch_reader_convert_init encoding_check i (atttypid attr) (atttypmod attr);
      states ← convert_states desc encoding_check (S i) attnums;
      Ok (state :: states)
  end.

(** ** Defaults *)

Definition nativeDefaults : Type := list (nat * ex_expr ex).

(** The loop over the attributes, from number [attnum] on. *)
Fixpoint defaults_from (attnum : nat) (desc : list attribute) (attnums : list nat)
    : res error nativeDefaults :=
  match desc with
  | [] => Ok []
  | attr :: desc =>
      if attisdropped attr || attgenerated attr || bool_decide (attnum ∈ attnums)
      then defaults_from (S attnum) desc attnums
      else
        expr ← build_column_default ex attnum;
        match expr with
        | None => defaults_from (S attnum) desc attnums
        | Some expr =>
            rest ← defaults_from (S attnum) desc attnums;
            Ok ((pred attnum, expr) :: rest)
        end
  end.

Definition defaults_for (desc : list attribute) (attnums : list nat)
    : res error nativeDefaults :=
  defaults_from 1 desc attnums.

Fixpoint fill_defaults (defaults : nativeDefaults) (cells : list cell)
    : runs insert_event (list cell) :=
  match defaults with
  | [] => mret cells
  | (dest, expr) :: defaults =>
      v ← call (EvDefault dest) (fun tr => ex_eval ex tr expr);
      if decide (dest < length cells)%nat then fill_defaults defaults (<[dest := v]> cells)
      else lift UB
  end.

(** ** The loop *)

(** What the loop carries from row to row. *)
Record receiving : Type := Receiving {
  rc_ins : nativeInsert;
  rc_routed : option ResultRelInfo;
  rc_before_row : bool;
  rc_instead_row : bool;
  rc_rows : Z;
}.

Definition set_ins (ins : nativeInsert) (st : receiving) : receiving :=
  Receiving ins (rc_routed st) (rc_before_row st) (rc_instead_row st) (rc_rows st).
Definition set_routed (rri : ResultRelInfo) (st : receiving) : receiving :=
  Receiving (rc_ins st) (Some rri) (before_row_of rri) (instead_row_of rri) (rc_rows st).
Definition count_row (st : receiving) : receiving :=
  Receiving (rc_ins st) (rc_routed st) (rc_before_row st) (rc_instead_row st)
    (u64 (rc_rows st + 1)).

(** What does not change: whether rows are routed, where values go, and the
    defaults. *)
Record plan : Type := Plan {
  pl_rel : Relation;
  pl_proute : bool;
  pl_encoding_check : Z;
  pl_dest : list nat;
  pl_states : list rd_state;
  pl_defaults : nativeDefaults;
}.

Context (pl : plan).

(** All columns null, [pgch_reader_fill_map], [fill_defaults] and
    [ExecStoreVirtualTuple]. *)
Definition fill_row (raw : rd_row) : runs insert_event tuple :=
  let cells := replicate (length (rel_desc (pl_rel pl))) (0, true) in
  cells ← lift (pgch_reader_fill_map (pl_encoding_check pl) raw (pl_states pl) (pl_dest pl) cells);
  cells ← fill_defaults (pl_defaults pl) cells;
  mret (Tuple cells (rel_id (pl_rel pl))).

(** [slot] is the root's; what [tcs_original_insert_tuple] is set to when [map]
    converts it stays behind in that slot. *)
Definition set_original (before_row : bool) (map : option (tuple -> tuple)) (slot : tuple)
    (ins : nativeInsert) : nativeInsert :=
  match ni_transition ins with
  | None => ins
  | Some _ =>
      set_transition
        (Some (if before_row then NoOriginal
               else match map with Some _ => RootTuple slot | None => SameTuple end)) ins
  end.

Definition route_row (slot : tuple) (st : receiving)
    : runs insert_event (ResultRelInfo * tuple * receiving) :=
  if pl_proute pl then
    rri ← call (EvFindPartition slot) (fun tr => ex_find_partition ex tr slot);
    st ← (if decide (rc_routed st = Some rri) then mret st
          else
            perform ex EvReleaseBulkInsertStatePin ;;
            mret (set_routed rri st));
    let map := ex_root_to_child ex rri in
    let st := set_ins (set_original (rc_before_row st) map slot (rc_ins st)) st in
    let slot := match map with Some f => f slot | None => slot end in
    mret (rri, set_tableOid (ri_relid rri) slot, st)
  else mret (ni_target (rc_ins st), slot, st).

(** Generated columns, constraints and the partition constraint. *)
Definition check_row (rri : ResultRelInfo) (slot : tuple) (before_row : bool)
    : runs insert_event tuple :=
  slot ← (if generated_of rri then
            call (EvComputeStoredGenerated rri slot) (fun tr => ex_generated ex tr rri slot)
          else mret slot);
  (if decide (ri_FdwRoutine rri = None /\ ri_constr rri <> None)
   then perform ex (EvConstraints rri slot) else mret tt) ;;
  (if ri_relispartition rri && (negb (pl_proute pl) || before_row)
   then perform ex (EvPartitionCheck rri slot) else mret tt) ;;
  mret slot.

Definition store_row (rri : ResultRelInfo) (slot : tuple) (st : receiving)
    : runs insert_event receiving :=
  if ni_buffered (rc_ins st) then
    ins ← buffer_store ex (rc_ins st) slot;
    mret (count_row (set_ins ins st))
  else
    stored ← insert_row ex (rc_ins st) rri slot;
    mret (if (stored : bool) then count_row st else st).

(** One round of the loop once the reader has given a row. *)
Definition receive_row (raw : rd_row) (st : receiving) : runs insert_event receiving :=
  slot ← fill_row raw;
  '(rri, slot, st) ← route_row slot st;
  answer ← (if rc_before_row st then
              call (EvBRInsertTriggers rri slot) (fun tr => ex_br_triggers ex tr rri slot)
            else mret (Some slot));
  match answer with
  | None => mret st
  | Some slot =>
      if rc_instead_row st then
        perform ex (EvIRInsertTriggers rri slot) ;;
        mret (count_row st)
      else
        slot ← check_row rri slot (rc_before_row st);
        store_row rri slot st
  end.

(** A round's beginning: interrupts, and a slot for the row. *)
Definition next_slot (st : receiving) : runs insert_event receiving :=
  perform ex EvCheckForInterrupts ;;
  if ni_buffered (rc_ins st) then
    ins ← buffer_slot ex (rc_ins st);
    mret (set_ins ins st)
  else mret st.

Fixpoint receive_loop (rows : list (res error rd_row)) (st : receiving)
    : runs insert_event receiving :=
  st ← next_slot st;
  match rows with
  | [] => emit EvRead ;; mret st
  | next :: rows =>
      raw ← call EvRead (fun _ => next);
      st ← receive_row raw st;
      receive_loop rows st
  end.
End receive.

(** ** The whole function *)

Section copy_receive.
Context `{RowReader} (ex : Executor).

Abbreviation perform := (perform ex).

Fixpoint drop_slots (n : nat) : runs insert_event unit :=
  match n with
  | O => mret tt
  | S n => perform EvDropSlot ;; drop_slots n
  end.

(** What CopyFrom does before its loop. *)
Definition begin_insert (rel : Relation) (rt : RangeTable)
    : runs insert_event (bool * receiving) :=
  target ← call (EvInitResultRelation rt) (fun tr => ex_result_relation ex tr rt);
  perform (EvCheckValidResultRel target) ;;
  perform (EvOpenIndices target) ;;
  (match ri_FdwRoutine target with
   | Some fdw => if BeginForeignInsert fdw then perform (EvBeginForeignInsert target) else mret tt
   | None => mret tt
   end) ;;
  perform EvAfterTriggerBeginQuery ;;
  transition ← getsS (ex_transition ex);
  let proute := bool_decide (rel_kind rel = RELKIND_PARTITIONED_TABLE) in
  (if proute then perform EvSetupPartitionTupleRouting else mret tt) ;;
  let before_row := before_row_of target in
  let instead_row := instead_row_of target in
  let buffered := negb proute && bool_decide (ri_FdwRoutine target = None)
                  && negb before_row && negb instead_row in
  let ins := NativeInsert target (if (transition : bool) then Some NoOriginal else None)
               buffered 0 [] 0 in
  perform EvGetCurrentCommandId ;;
  perform EvGetBulkInsertState ;;
  perform (EvCreateSlot (rel_id rel)) ;;
  perform (EvBSInsertTriggers target) ;;
  mret (proute, Receiving ins None before_row instead_row 0).

(** What it does after it. *)
Definition end_insert (rel : Relation) (proute : bool) (ins : nativeInsert)
    : runs insert_event unit :=
  let target := ni_target ins in
  ins ← flush_buffer ex ins;
  drop_slots (ni_created ins) ;;
  perform EvFreeBulkInsertState ;;
  (if ni_buffered ins then perform (EvFinishBulkInsert (rel_id rel)) else mret tt) ;;
  perform (EvASInsertTriggers target (ni_transition ins)) ;;
  perform EvAfterTriggerEndQuery ;;
  perform EvResetTupleTable ;;
  (match ri_FdwRoutine target with
   | Some fdw => if EndForeignInsert fdw then perform (EvEndForeignInsert target) else mret tt
   | None => mret tt
   end) ;;
  (if proute then perform EvCleanupTupleRouting else mret tt) ;;
  perform EvCloseRelations.

Definition chdb_copy_receive (rel : Relation) (attnums : list nat) (rt : RangeTable)
    (encoding_check : Z) (reader : pgch_reader) : runs insert_event Z :=
  error ← lift (rd_open reader);
  lift (check_reader error) ;;
  if rd_columns reader =? 0 then mret 0
  else
    lift (raise_if (negb (rd_columns reader =? zlen attnums))
      (err_received (rd_columns reader) (zlen attnums))) ;;
    states ← lift (convert_states (rel_desc rel) encoding_check 0 attnums);
    defaults ← lift (defaults_for ex (rel_desc rel) attnums);
    '(proute, st) ← begin_insert rel rt;
    let pl := Plan ex rel proute encoding_check (map pred attnums) states defaults in
    st ← receive_loop ex pl (rd_rows reader) st;
    lift (check_reader (rd_error reader)) ;;
    end_insert rel proute (rc_ins st) ;;
    mret (rc_rows st).
End copy_receive.
