(* ===== verification/ReceiveProps.v ===== *)
(** * ReceiveProps: how a received row reaches its relation

    What every call into the executor may rely on ([insert_guard]), and the
    invariant of the loop that shows it. *)

From stdpp Require Import prelude.
From S2P Require Import Prelude Stateful Logic Total Words Catalog Structure Insert Receive.
Local Open Scope Z_scope.

(** ** What a trace did *)

Abbreviation landing := (ResultRelInfo * tuple)%type.

Definition writes (ev : insert_event) : list landing :=
  match ev with
  | EvMultiInsert rri ts => map (pair rri) ts
  | EvTupleInsert rri t => [(rri, t)]
  | _ => []
  end.
Definition after_triggers (ev : insert_event) : list landing :=
  match ev with EvARInsertTriggers rri t _ _ => [(rri, t)] | _ => [] end.
Definition index_entries (ev : insert_event) : list landing :=
  match ev with EvInsertIndexTuples rri t => [(rri, t)] | _ => [] end.
Definition instead_triggers (ev : insert_event) : list landing :=
  match ev with EvIRInsertTriggers rri t => [(rri, t)] | _ => [] end.
Definition slot_creations (ev : insert_event) : list unit :=
  match ev with EvCreateSlot _ => [tt] | _ => [] end.
Definition slot_drops (ev : insert_event) : list unit :=
  match ev with EvDropSlot => [tt] | _ => [] end.
Definition row_reads (ev : insert_event) : list unit :=
  match ev with EvRead => [tt] | _ => [] end.

(** The rows written to a table, those whose AFTER ROW triggers were queued,
    those that got index entries, those INSTEAD OF triggers took, the slots made
    and dropped, and how often the reader was asked for a row. *)
Definition written (tr : trace) : list landing := tr ≫= writes.
Definition afters (tr : trace) : list landing := tr ≫= after_triggers.
Definition indexed (tr : trace) : list landing := tr ≫= index_entries.
Definition insteads (tr : trace) : list landing := tr ≫= instead_triggers.
Definition created (tr : trace) : nat := length (tr ≫= slot_creations).
Definition dropped (tr : trace) : nat := length (tr ≫= slot_drops).
Definition reads (tr : trace) : nat := length (tr ≫= row_reads).

(** Anywhere in a trace, and in the round of the row read as the [n]th. *)
Definition anywhere (pre : trace) : Prop := True.
Definition in_round (n : nat) (pre : trace) : Prop := reads pre = n.

(** Rows of tables, not of foreign-data wrappers. *)
Definition in_table (p : landing) : Prop := ri_FdwRoutine p.1 = None.
Definition has_indices (p : landing) : Prop := 0 < ri_NumIndices p.1.

#[export] Instance in_table_dec p : Decision (in_table p).
Proof. unfold in_table. apply _. Defined.
#[export] Instance has_indices_dec p : Decision (has_indices p).
Proof. unfold has_indices. apply _. Defined.

(** Every row written has its index entries and its AFTER ROW triggers, once
    and in order. *)
Record balanced (tr : trace) : Prop := Balanced {
  balanced_afters : filter in_table (afters tr) = written tr;
  balanced_indexed : indexed tr = filter has_indices (written tr);
}.

(** [tr'] continues [tr]: [ws] were written, [ps] had their triggers and index
    entries, and [js] went to INSTEAD OF triggers. *)
Record stepped (ws ps js : list landing) (tr tr' : trace) : Prop := Stepped {
  stepped_prefix : tr `prefix_of` tr';
  stepped_written : written tr' = written tr ++ ws;
  stepped_afters : afters tr' = afters tr ++ ps;
  stepped_indexed : indexed tr' = indexed tr ++ filter has_indices (filter in_table ps);
  stepped_insteads : insteads tr' = insteads tr ++ js;
  stepped_created : created tr' = created tr;
  stepped_dropped : dropped tr' = dropped tr;
  stepped_reads : reads tr' = reads tr;
}.

Lemma stepped_refl tr : stepped [] [] [] tr tr.
Proof. by split; rewrite ?app_nil_r. Qed.

Lemma stepped_trans ws1 ps1 js1 ws2 ps2 js2 tr1 tr2 tr3 :
  stepped ws1 ps1 js1 tr1 tr2 -> stepped ws2 ps2 js2 tr2 tr3 ->
  stepped (ws1 ++ ws2) (ps1 ++ ps2) (js1 ++ js2) tr1 tr3.
Proof.
  intros [P1 W1 A1 I1 S1 C1 D1 N1] [P2 W2 A2 I2 S2 C2 D2 N2].
  split; [by etrans|..|congruence|congruence|congruence];
    rewrite ?W2, ?W1, ?A2, ?A1, ?I2, ?I1, ?S2, ?S1, ?filter_app, <- ?app_assoc; done.
Qed.

(** Rows landed: whatever was written is balanced. *)
Abbreviation landed ps js := (stepped (filter in_table ps%list) ps%list js).

Lemma landed_trans ps1 js1 ps2 js2 tr1 tr2 tr3 :
  landed ps1 js1 tr1 tr2 -> landed ps2 js2 tr2 tr3 -> landed (ps1 ++ ps2) (js1 ++ js2) tr1 tr3.
Proof. rewrite filter_app. apply stepped_trans. Qed.

Lemma landed_balanced ps js tr tr' : landed ps js tr tr' -> balanced tr -> balanced tr'.
Proof.
  intros [P W A I S C D N] [Ba Bi]. split.
  - by rewrite A, W, filter_app, Ba.
  - by rewrite I, W, Bi, filter_app.
Qed.

(** An event that moves no row. *)
Definition still (ev : insert_event) : Prop :=
  writes ev = [] /\ after_triggers ev = [] /\ index_entries ev = [] /\ instead_triggers ev = [] /\
  slot_creations ev = [] /\ slot_drops ev = [] /\ row_reads ev = [].

Ltac tally :=
  unfold written, afters, indexed, insteads, created, dropped, reads in *; rewrite !bind_snoc; cbn;
  rewrite ?app_nil_r, ?length_app; cbn.

Lemma stepped_still tr ev : still ev -> stepped [] [] [] tr (tr ++ [ev]).
Proof.
  intros (H1 & H2 & H3 & H4 & H5 & H6 & H7).
  split; [by eexists|..]; tally; by rewrite ?H1, ?H2, ?H3, ?H4, ?H5, ?H6, ?H7, ?app_nil_r, ?Nat.add_0_r.
Qed.

Lemma stepped_instead tr rri t : stepped [] [] [(rri, t)] tr (tr ++ [EvIRInsertTriggers rri t]).
Proof. split; [by eexists|..]; by tally. Qed.

Lemma stepped_multi tr rri ts : stepped (map (pair rri) ts) [] [] tr (tr ++ [EvMultiInsert rri ts]).
Proof. split; [by eexists|..]; by tally. Qed.

Lemma stepped_tuple tr rri t : stepped [(rri, t)] [] [] tr (tr ++ [EvTupleInsert rri t]).
Proof. split; [by eexists|..]; by tally. Qed.

Lemma tally_create tr relid :
  let tr' := tr ++ [EvCreateSlot relid] in
  tr `prefix_of` tr' /\ written tr' = written tr /\ afters tr' = afters tr /\
  indexed tr' = indexed tr /\ insteads tr' = insteads tr /\ created tr' = S (created tr) /\
  dropped tr' = dropped tr /\ reads tr' = reads tr.
Proof. cbv zeta. split; [by eexists|]. split_and!; tally; rewrite ?Nat.add_0_r; try done. lia. Qed.

Lemma tally_drop tr :
  let tr' := tr ++ [EvDropSlot] in
  tr `prefix_of` tr' /\ written tr' = written tr /\ afters tr' = afters tr /\
  indexed tr' = indexed tr /\ insteads tr' = insteads tr /\ created tr' = created tr /\
  dropped tr' = S (dropped tr) /\ reads tr' = reads tr.
Proof. cbv zeta. split; [by eexists|]. split_and!; tally; rewrite ?Nat.add_0_r; try done. lia. Qed.

Lemma passed_prefix (tr tr' : trace) ev ok : tr `prefix_of` tr' -> passed tr ev ok -> passed tr' ev ok.
Proof. intros [k ->]. apply passed_app. Qed.

Lemma elem_of_prefix {A} (x : A) l l' : l `prefix_of` l' -> x ∈ l -> x ∈ l'.
Proof. intros [k ->]. rewrite elem_of_app. auto. Qed.
#[export] Hint Resolve passed_prefix elem_of_prefix stepped_prefix : chdb.

(** ** What the executor and the reader are relied on for *)

Class ExecutorLaws (ex : Executor) : Prop := {
  do_defined tr ev : ex_do ex tr ev <> UB;
  result_relation_defined tr rt : ex_result_relation ex tr rt <> UB;
  column_default_defined n : build_column_default ex n <> UB;
  eval_defined tr e : ex_eval ex tr e <> UB;
  find_partition_defined tr t : ex_find_partition ex tr t <> UB;
  br_triggers_defined tr rri t : ex_br_triggers ex tr rri t <> UB;
  generated_defined tr rri t : ex_generated ex tr rri t <> UB;
  foreign_insert_defined tr rri t : ex_foreign_insert ex tr rri t <> UB;
  recheck_defined tr rri t : ex_recheck ex tr rri t <> UB;
  data_size_bounds t : 0 <= heap_compute_data_size ex t < 2 ^ 62;
}.

(** Values put where [dest] says: the one of column [i] goes to [dest[i]]. *)
Fixpoint place (dest : list nat) (values : list cell) (cells : list cell)
    : res error (list cell) :=
  match dest, values with
  | d :: dest, v :: values =>
      if decide (d < length cells)%nat then place dest values (<[d := v]> cells) else UB
  | [], [] => Ok cells
  | _, _ => UB
  end.

Lemma place_length dest values cells cells' :
  place dest values cells = Ok cells' -> length cells' = length cells.
Proof.
  revert values cells. induction dest as [|d dest IH]; intros [|v values] cells; cbn; try done.
  - by intros [= <-].
  - case_decide; [|done]. intros ->%IH. by rewrite length_insert.
Qed.

(** [rd_values] are the values of a row, converted by the columns' states; there
    are [rd_width] of them. *)
Class RowReaderLaws `{RowReader} : Type := {
  rd_width : rd_row -> nat;
  convert_init_defined enc i typid typmod : pgch_reader_convert_init enc i typid typmod <> UB;
  rd_values : Z -> rd_row -> list rd_state -> res error (list cell);
  values_defined enc raw states : rd_values enc raw states <> UB;
  values_width enc raw states values :
    rd_values enc raw states = Ok values -> length values = rd_width raw;
  fill_map_spec enc raw states dest cells :
    pgch_reader_fill_map enc raw states dest cells
    = (values ← rd_values enc raw states; place dest values cells);
}.

(** Every row has as many values as the stream has columns. *)
Definition rows_fit `{RowReaderLaws} (ncols : nat) (rows : list (res error rd_row)) : Prop :=
  Forall (fun next => match next with
                      | Ok raw => rd_width raw = ncols
                      | Raise _ => True
                      | UB => False
                      end) rows.

(** The events that say which relation is the target. *)
Definition is_target (ex : Executor) (rt : RangeTable) (tr : trace) (rri : ResultRelInfo) : Prop :=
  passed tr (EvInitResultRelation rt) (fun pre => ex_result_relation ex pre rt = Ok rri).

(** A target whose rows are buffered, when it is not partitioned. *)
Record plain (target : ResultRelInfo) : Prop := Plain {
  plain_fdw : ri_FdwRoutine target = None;
  plain_before : before_row_of target = false;
  plain_instead : instead_row_of target = false;
}.

(** ** Where a row comes from

    [own] says which calls are the row's: those of its round, or any. *)

Section provenance.
Context `{RowReaderLaws} (ex : Executor) (pl : plan ex) (rt : RangeTable).
Context (own : trace -> Prop) (rows : list (res error rd_row)).

(** One of its calls, and how it was answered. *)
Definition called (tr : trace) (ev : insert_event) (ok : trace -> Prop) : Prop :=
  passed tr ev (fun pre => own pre /\ ok pre).

(** The root tuple made of a row of the stream: its values where the column list
    says, defaults where it leaves a column with one out, nulls elsewhere. *)
Definition filled (tr : trace) (raw : rd_row) (t : tuple) : Prop :=
  tts_tableOid t = rel_id (pl_rel ex pl) /\
  exists values cells,
    rd_values (pl_encoding_check ex pl) raw (pl_states ex pl) = Ok values /\
    place (pl_dest ex pl) values (replicate (length (rel_desc (pl_rel ex pl))) (0, true)) = Ok cells /\
    forall i,
      (exists e v, (i, e) ∈ pl_defaults ex pl /\ tts_cells t !! i = Some v /\
         called tr (EvDefault i) (fun pre => ex_eval ex pre e = Ok v)) \/
      ((forall e, (i, e) ∉ pl_defaults ex pl) /\ tts_cells t !! i = cells !! i).

Definition root_row (tr : trace) (t : tuple) : Prop :=
  exists raw, Ok raw ∈ rows /\ filled tr raw t.

Definition to_child (rri : ResultRelInfo) (t : tuple) : tuple :=
  set_tableOid (ri_relid rri) (match ex_root_to_child ex rri with Some f => f t | None => t end).

(** As the relation it is for sees it: the target, or the partition found for
    it. *)
Definition routed (tr : trace) (rri : ResultRelInfo) (t : tuple) : Prop :=
  exists root, root_row tr root /\
    if pl_proute ex pl then
      called tr (EvFindPartition root) (fun pre => ex_find_partition ex pre root = Ok rri) /\
      t = to_child rri root
    else is_target ex rt tr rri /\ t = root.

(** As BEFORE ROW triggers left it, which did not suppress it. *)
Definition arrived (tr : trace) (rri : ResultRelInfo) (t : tuple) : Prop :=
  if before_row_of rri then
    exists t0, routed tr rri t0 /\
      called tr (EvBRInsertTriggers rri t0) (fun pre => ex_br_triggers ex pre rri t0 = Ok (Some t))
  else routed tr rri t.

(** With its generated columns. *)
Definition completed (tr : trace) (rri : ResultRelInfo) (t : tuple) : Prop :=
  if generated_of rri then
    exists t0, arrived tr rri t0 /\
      called tr (EvComputeStoredGenerated rri t0) (fun pre => ex_generated ex pre rri t0 = Ok t)
  else arrived tr rri t.

(** And checked as it is: against the constraints, and against the partition's
    unless routing proved it for this very tuple. *)
Record admitted (tr : trace) (rri : ResultRelInfo) (t : tuple) : Prop := Admit {
  admitted_completed : completed tr rri t;
  admitted_constraints :
    ri_FdwRoutine rri = None -> ri_constr rri <> None -> called tr (EvConstraints rri t) anywhere;
  admitted_partition :
    ri_relispartition rri = true -> (pl_proute ex pl = false \/ before_row_of rri = true) ->
    called tr (EvPartitionCheck rri t) anywhere;
}.

(** A relation rows may be buffered for. *)
Definition buffers (rri : ResultRelInfo) : Prop :=
  pl_proute ex pl = false /\ ri_FdwRoutine rri = None /\
  before_row_of rri = false /\ instead_row_of rri = false.

Definition sizes (ts : list tuple) : Z := foldr (fun t n => heap_compute_data_size ex t + n) 0 ts.

(** A batch that has reached a limit. *)
Definition full (ts : list tuple) : Prop :=
  CHDB_MAX_BUFFERED_TUPLES <= zlen ts \/ CHDB_MAX_BUFFERED_BYTES <= sizes ts.

End provenance.

(** *** All of it stays true *)

Section mono.
Context `{RowReaderLaws} (ex : Executor) (pl : plan ex) (rt : RangeTable).
Context (own own' : trace -> Prop) (rows rows' : list (res error rd_row)) (tr tr' : trace).
Context (Hown : forall pre, own pre -> own' pre) (Hrows : forall next, next ∈ rows -> next ∈ rows').
Context (Hp : tr `prefix_of` tr').

Lemma is_target_mono rri : is_target ex rt tr rri -> is_target ex rt tr' rri.
Proof. apply passed_prefix, Hp. Qed.

Lemma called_mono ev ok : called own tr ev ok -> called own' tr' ev ok.
Proof.
  intros (p & q & -> & Ho & Hk). eapply passed_prefix; [exact Hp|]. exists p, q. auto.
Qed.

Lemma filled_mono raw t : filled ex pl own tr raw t -> filled ex pl own' tr' raw t.
Proof.
  intros (? & values & cells & ? & ? & Hi). split; [done|]. exists values, cells.
  split_and!; [done..|]. intros i. destruct (Hi i) as [(e & v & ? & ? & ?)|?]; [|by right].
  left. exists e, v. eauto using called_mono.
Qed.

Lemma routed_mono rri t : routed ex pl rt own rows tr rri t -> routed ex pl rt own' rows' tr' rri t.
Proof.
  intros (root & (raw & ? & ?) & Hr). exists root. split; [exists raw; eauto using filled_mono|].
  destruct (pl_proute ex pl); destruct Hr; eauto using is_target_mono, called_mono.
Qed.

Lemma arrived_mono rri t : arrived ex pl rt own rows tr rri t -> arrived ex pl rt own' rows' tr' rri t.
Proof.
  unfold arrived. destruct (before_row_of rri); [|apply routed_mono].
  intros (t0 & ? & ?). exists t0. eauto using routed_mono, called_mono.
Qed.

Lemma completed_mono rri t :
  completed ex pl rt own rows tr rri t -> completed ex pl rt own' rows' tr' rri t.
Proof.
  unfold completed. destruct (generated_of rri); [|apply arrived_mono].
  intros (t0 & ? & ?). exists t0. eauto using arrived_mono, called_mono.
Qed.

Lemma admitted_mono rri t :
  admitted ex pl rt own rows tr rri t -> admitted ex pl rt own' rows' tr' rri t.
Proof. intros [C K P]. split; eauto using completed_mono, called_mono. Qed.
End mono.

(** ** What may follow a trace *)

Section guard.
Context `{RowReaderLaws} (ex : Executor) (pl : plan ex) (rt : RangeTable).
Context (rows : list (res error rd_row)).

Abbreviation routed := (routed ex pl rt anywhere rows).
Abbreviation arrived := (arrived ex pl rt anywhere rows).
Abbreviation admitted := (admitted ex pl rt anywhere rows).

Definition insert_guard (tr : trace) (ev : insert_event) : Prop :=
  match ev with
  | EvInitResultRelation _ => tr = []
  | EvDefault _ =>
      exists rri, is_target ex rt tr rri /\
        (buffers ex pl rri -> written tr = [] \/ full ex (map snd (written tr)))
  | EvCreateSlot _ => created tr = 0%nat \/ exists rri, is_target ex rt tr rri /\ buffers ex pl rri
  | EvFinishBulkInsert _ => exists rri, is_target ex rt tr rri /\ buffers ex pl rri
  | EvBRInsertTriggers rri t => before_row_of rri = true /\ routed tr rri t
  | EvTupleInsert rri t =>
      ri_FdwRoutine rri = None /\ instead_row_of rri = false /\ admitted tr rri t
  | EvForeignInsert rri t =>
      ri_FdwRoutine rri <> None /\ instead_row_of rri = false /\ admitted tr rri t
  | EvMultiInsert rri ts =>
      is_target ex rt tr rri /\ buffers ex pl rri /\ Forall (admitted tr rri) ts /\
      0 < zlen ts <= CHDB_MAX_BUFFERED_TUPLES /\
      exists ts' t, ts = ts' ++ [t] /\ sizes ex ts' < CHDB_MAX_BUFFERED_BYTES
  | EvIRInsertTriggers rri t => instead_row_of rri = true /\ arrived tr rri t
  | EvInsertIndexTuples rri t =>
      indexed tr ++ [(rri, t)] `prefix_of` filter has_indices (written tr)
  | EvARInsertTriggers rri t _ _ =>
      if decide (ri_FdwRoutine rri = None) then
        filter in_table (afters tr) ++ [(rri, t)] `prefix_of` written tr
      else exists t0 t1, t = set_tableOid (ri_relid rri) t1 /\
        passed tr (EvForeignInsert rri t0) (fun pre => ex_foreign_insert ex pre rri t0 = Ok (Some t1))
  | _ => True
  end.
End guard.

(** ** What becomes of a row *)

(** It is stored in a table, taken by a foreign-data wrapper which gave it back
    as [t], taken by INSTEAD OF triggers, suppressed by BEFORE ROW triggers, or
    declined by a foreign-data wrapper. *)
Inductive fate : Type :=
| Stored (rri : ResultRelInfo) (t : tuple)
| Shipped (rri : ResultRelInfo) (t : tuple)
| Replaced (rri : ResultRelInfo) (t : tuple)
| Suppressed (rri : ResultRelInfo) (t : tuple)
| Declined (rri : ResultRelInfo) (t : tuple).

(** What the trace has of it: the tuple written, the tuple whose AFTER ROW
    triggers are queued, the tuple INSTEAD OF triggers were given; and whether it
    counts. *)
Definition fate_written (f : fate) : list landing :=
  match f with Stored rri t => [(rri, t)] | _ => [] end.
Definition fate_afters (f : fate) : list landing :=
  match f with Stored rri t | Shipped rri t => [(rri, t)] | _ => [] end.
Definition fate_insteads (f : fate) : list landing :=
  match f with Replaced rri t => [(rri, t)] | _ => [] end.
Definition fate_counts (f : fate) : bool :=
  match f with Stored _ _ | Shipped _ _ | Replaced _ _ => true | _ => false end.

Section fates.
Context `{RowReaderLaws} (ex : Executor) (pl : plan ex) (rt : RangeTable).

(** The row [raw], read as the [n]th, came to [f], in its own round. *)
Definition befell (n : nat) (tr : trace) (raw : rd_row) (f : fate) : Prop :=
  let routed := routed ex pl rt (in_round n) [Ok raw] tr in
  let arrived := arrived ex pl rt (in_round n) [Ok raw] tr in
  let admitted := admitted ex pl rt (in_round n) [Ok raw] tr in
  let called := called (in_round n) tr in
  match f with
  | Stored rri t =>
      ri_FdwRoutine rri = None /\ instead_row_of rri = false /\ admitted rri t
  | Shipped rri t =>
      ri_FdwRoutine rri <> None /\ instead_row_of rri = false /\
      exists t0 t1, admitted rri t0 /\ t = set_tableOid (ri_relid rri) t1 /\
        called (EvForeignInsert rri t0) (fun pre => ex_foreign_insert ex pre rri t0 = Ok (Some t1))
  | Replaced rri t =>
      instead_row_of rri = true /\ arrived rri t /\ called (EvIRInsertTriggers rri t) anywhere
  | Suppressed rri t =>
      before_row_of rri = true /\ routed rri t /\
      called (EvBRInsertTriggers rri t) (fun pre => ex_br_triggers ex pre rri t = Ok None)
  | Declined rri t =>
      ri_FdwRoutine rri <> None /\ instead_row_of rri = false /\ admitted rri t /\
      called (EvForeignInsert rri t) (fun pre => ex_foreign_insert ex pre rri t = Ok None)
  end.

Lemma befell_mono n tr tr' raw f : tr `prefix_of` tr' -> befell n tr raw f -> befell n tr' raw f.
Proof.
  intros Hp. destruct f; cbn; [|intros (? & ? & t0 & t1 & ?)|..];
    naive_solver eauto using routed_mono, arrived_mono, admitted_mono, called_mono.
Qed.

(** Each row of the stream has one fate. *)
Definition fated (tr : trace) (raws : list rd_row) (fates : list fate) : Prop :=
  length fates = length raws /\
  forall i raw f, raws !! i = Some raw -> fates !! i = Some f -> befell (S i) tr raw f.

Lemma fated_mono tr tr' raws fates : tr `prefix_of` tr' -> fated tr raws fates -> fated tr' raws fates.
Proof. intros Hp [Hl Hf]. split; [done|]. eauto using befell_mono. Qed.

Lemma fated_nil tr : fated tr [] [].
Proof. by split. Qed.

Lemma fated_snoc tr raws fates raw f :
  fated tr raws fates -> befell (S (length raws)) tr raw f -> fated tr (raws ++ [raw]) (fates ++ [f]).
Proof.
  intros [Hl Hf] Hb. split; [rewrite !length_app; cbn; lia|]. intros i raw' f' Hr Hf'.
  destruct (decide (i < length raws)%nat).
  - rewrite lookup_app_l in Hr by done. rewrite lookup_app_l in Hf' by lia. eauto.
  - assert (i = length raws) as ->.
    { apply lookup_lt_Some in Hr. rewrite length_app in Hr. cbn in Hr. lia. }
    rewrite list_lookup_middle in Hr by done. rewrite list_lookup_middle in Hf' by done.
    by injection Hr as <-; injection Hf' as <-.
Qed.
End fates.
