(* ===== verification/ReceiveLogic.v ===== *)
(** * ReceiveLogic: the steps of the receive loop, one by one *)

From stdpp Require Import prelude.
From S2P Require Import Prelude Stateful Logic Total Words Catalog Structure Insert Receive.
From S2P Require Import ReceiveProps.
Local Open Scope Z_scope.

Section steps.
Context `{RowReaderLaws} (ex : Executor) `{!ExecutorLaws ex}.
Context (pl : plan ex) (rt : RangeTable) (rows : list (res error rd_row)).

Abbreviation G := (insert_guard ex pl rt rows).

(** ** Calls *)

Lemma call_wp {A} ev (f : trace -> res error A) Q tr :
  still ev -> G tr ev -> f tr <> UB ->
  (forall a, stepped [] [] [] tr (tr ++ [ev]) ->
     called (in_round (reads tr)) (tr ++ [ev]) ev (fun pre => f pre = Ok a) -> Q a (tr ++ [ev])) ->
  twp G (call ev f) Q tr.
Proof.
  intros Hs HG Hf HQ. t_step; [done..|]. intros a Ha. apply HQ; [by apply stepped_still|].
  by apply passed_last.
Qed.

Lemma called_passed own tr ev ok : called own tr ev ok -> passed tr ev ok.
Proof. intros (p & q & -> & _ & ?). by exists p, q. Qed.

Lemma perform_wp ev Q tr :
  still ev -> G tr ev -> (stepped [] [] [] tr (tr ++ [ev]) -> Q tt (tr ++ [ev])) ->
  twp G (perform ex ev) Q tr.
Proof.
  intros Hs HG HQ. apply call_wp; [done..|apply do_defined|]. intros [] ? _. by apply HQ.
Qed.

Lemma called_last tr ev : called (in_round (reads tr)) (tr ++ [ev]) ev anywhere.
Proof. by apply passed_last. Qed.

(** A call the code makes only sometimes. *)
Lemma perform_if_wp (b : bool) ev Q tr :
  still ev -> (b = true -> G tr ev) ->
  (forall tr', stepped [] [] [] tr tr' ->
     (b = true -> called (in_round (reads tr)) tr' ev anywhere) -> Q tt tr') ->
  twp G (if b then perform ex ev else mret tt) Q tr.
Proof.
  intros Hs HG HQ. destruct b.
  - apply perform_wp; [done|by apply HG|]. intros Hst. apply HQ; [done|]. intros _. apply called_last.
  - t_step. apply HQ; [apply stepped_refl|done].
Qed.

(** ** Rows into their relation *)

(** The first row written whose triggers are not queued yet. *)
Lemma after_insert_wp ins rri t more tr :
  ri_FdwRoutine rri = None ->
  written tr = filter in_table (afters tr) ++ (rri, t) :: more ->
  indexed tr = filter has_indices (filter in_table (afters tr)) ->
  twp G (after_insert ex ins rri t) (fun _ => stepped [] [(rri, t)] [] tr) tr.
Proof.
  intros Hf Hw Hi. unfold after_insert. t_step.
  assert (Hin : filter in_table [(rri, t)] = [(rri, t)]) by by rewrite filter_cons_True.
  apply (twp_mono _ _ (fun _ tr' => tr `prefix_of` tr' /\ written tr' = written tr /\
    afters tr' = afters tr /\ indexed tr' = indexed tr ++ filter has_indices [(rri, t)] /\
    insteads tr' = insteads tr /\ created tr' = created tr /\ dropped tr' = dropped tr /\
    reads tr' = reads tr)).
  - destruct (Z.ltb_spec 0 (ri_NumIndices rri)) as [Hn|Hn].
    + rewrite filter_cons_True by done. unfold insert_index_tuples. t_step; [|apply recheck_defined|].
      * cbn. rewrite Hw, Hi, filter_app, filter_cons_True by done. exists (filter has_indices more).
        by rewrite <- app_assoc.
      * intros recheck _. split; [by eexists|]. split_and!; by tally.
    + t_step. rewrite filter_cons_False by (unfold has_indices; cbn; lia).
      by rewrite app_nil_r.
  - intros recheck tr' _ (Hp & Hw' & Ha & Hi' & Hs & Hc & Hd & Hn).
    unfold perform. t_step; [|apply do_defined|].
    + cbn. rewrite decide_True, Ha, Hw', Hw by done. exists more. by rewrite <- app_assoc.
    + intros [] _. split; rewrite ?Hin; [|tally; unfold written, afters, indexed, insteads, created,
        dropped, reads in *..].
      * etrans; [exact Hp|by eexists].
      * by rewrite Hw'.
      * by rewrite Ha.
      * done.
      * by rewrite Hs.
      * by rewrite Hc, ?Nat.add_0_r.
      * by rewrite Hd, ?Nat.add_0_r.
      * by rewrite Hn, ?Nat.add_0_r.
Qed.

Lemma after_inserts_wp ins slots tr :
  ri_FdwRoutine (ni_target ins) = None ->
  written tr = filter in_table (afters tr) ++ map (pair (ni_target ins)) slots ->
  indexed tr = filter has_indices (filter in_table (afters tr)) ->
  twp G (after_inserts ex ins slots)
    (fun _ => stepped [] (map (pair (ni_target ins)) slots) [] tr) tr.
Proof.
  intros Hf. revert tr. induction slots as [|t slots IH]; intros tr Hw Hi; cbn [after_inserts map].
  { t_step. apply stepped_refl. }
  t_step. eapply twp_mono; [by eapply after_insert_wp|].
  intros [] tr1 _ Hst. pose proof Hst as [P1 W1 A1 I1 S1 C1 D1 N1].
  eapply twp_mono; [apply IH|].
  - rewrite W1, A1, Hw, filter_app, app_nil_r, (filter_cons_True in_table) by done.
    by rewrite <- app_assoc.
  - by rewrite I1, A1, Hi, !filter_app.
  - intros [] tr2 _ Hst2. exact (stepped_trans [] [_] [] [] _ [] _ _ _ Hst Hst2).
Qed.

(** *** The buffer *)

(** What holds of the inserter between rows. *)
Record buffer_ok (ins : nativeInsert) : Prop := BufferOk {
  buffer_count : zlen (ni_slots ins) < CHDB_MAX_BUFFERED_TUPLES;
  buffer_bytes : ni_bytes ins = sizes ex (ni_slots ins);
  buffer_size : ni_bytes ins < CHDB_MAX_BUFFERED_BYTES;
  buffer_target :
    if ni_buffered ins then buffers ex pl (ni_target ins)
    else ni_slots ins = [] /\ ~ buffers ex pl (ni_target ins);
  buffer_created : (length (ni_slots ins) <= ni_created ins)%nat /\
    Z.of_nat (ni_created ins) <= CHDB_MAX_BUFFERED_TUPLES;
}.

Lemma sizes_app ts ts' : sizes ex (ts ++ ts') = sizes ex ts + sizes ex ts'.
Proof. induction ts as [|t ts IH]; cbn; [done|]. unfold sizes in *. lia. Qed.

Lemma sizes_nonneg ts : 0 <= sizes ex ts.
Proof.
  induction ts as [|t ts IH]; cbn; [done|]. unfold sizes in *.
  pose proof (data_size_bounds t). lia.
Qed.

(** [flush_buffer], with the last row past the limits or not. *)
Lemma flush_wp ins tr :
  is_target ex rt tr (ni_target ins) -> balanced tr ->
  (ni_slots ins <> [] -> buffers ex pl (ni_target ins)) ->
  Forall (admitted ex pl rt anywhere rows tr (ni_target ins)) (ni_slots ins) ->
  zlen (ni_slots ins) <= CHDB_MAX_BUFFERED_TUPLES ->
  (forall ts t, ni_slots ins = ts ++ [t] -> sizes ex ts < CHDB_MAX_BUFFERED_BYTES) ->
  twp G (flush_buffer ex ins)
    (fun ins' tr' => ni_slots ins' = [] /\
       ins' = (if decide (ni_slots ins = []) then ins else set_buffer 0 [] ins) /\
       landed (map (pair (ni_target ins)) (ni_slots ins)) [] tr tr') tr.
Proof.
  intros Ht [Ba Bi] Hb Had Hcount Hsize. unfold flush_buffer.
  destruct (ni_slots ins) as [|s0 slots0] eqn:Hslots.
  { t_step. split; [done|]. split; [done|apply stepped_refl]. }
  rewrite <- Hslots in *. assert (Hne : ni_slots ins <> []) by by rewrite Hslots.
  destruct (Hb Hne) as (Hpr & Hf & Hbr & Hir).
  assert (Hin : filter in_table (map (pair (ni_target ins)) (ni_slots ins))
                = map (pair (ni_target ins)) (ni_slots ins)).
  { apply filter_all, Forall_forall. intros p Hp. apply list_elem_of_fmap in Hp as (t & -> & _).
    exact Hf. }
  t_step. unfold perform. t_step; [|apply do_defined|].
  - cbn. split; [done|]. split; [by apply Hb|]. split; [done|]. split.
    + split; [rewrite Hslots; cbn; lia|done].
    + destruct (exists_last Hne) as (ts & t & Hts). eauto.
  - intros [] _. pose proof (stepped_multi tr (ni_target ins) (ni_slots ins)) as Hm.
    destruct Hm as [P1 W1 A1 I1 S1 C1 D1 N1]. rewrite !app_nil_r in *.
    t_step. eapply twp_mono; [apply after_inserts_wp; [done| |]|].
    + by rewrite W1, A1, Ba.
    + by rewrite I1, A1, Ba, Bi.
    + intros [] tr2 _ Hst. t_step. rewrite decide_False by done.
      split; [done|]. split; [done|]. rewrite Hin.
      rewrite <- (app_nil_r (map _ _)) at 1.
      exact (stepped_trans _ [] [] [] _ [] _ _ _ (stepped_multi _ _ _) Hst).
Qed.

(** ** One row

    The row [raw] of the stream, in the round that has read it as the [n]th. *)

Section row.
Context (raw : rd_row) (n : nat) (Hraw : Ok raw ∈ rows).

Abbreviation own := (in_round n).

Lemma own_rows next : next ∈ [Ok raw] -> next ∈ rows.
Proof. by intros ->%list_elem_of_singleton. Qed.

Lemma routed_any tr rri t : routed ex pl rt own [Ok raw] tr rri t -> routed ex pl rt anywhere rows tr rri t.
Proof. apply routed_mono; [done|apply own_rows|done]. Qed.
Lemma arrived_any tr rri t : arrived ex pl rt own [Ok raw] tr rri t -> arrived ex pl rt anywhere rows tr rri t.
Proof. apply arrived_mono; [done|apply own_rows|done]. Qed.
Lemma admitted_any tr rri t :
  admitted ex pl rt own [Ok raw] tr rri t -> admitted ex pl rt anywhere rows tr rri t.
Proof. apply admitted_mono; [done|apply own_rows|done]. Qed.

(** What was written of a row in a table has its triggers, and nothing else has. *)
Lemma befell_landed tr f : befell ex pl rt n tr raw f -> filter in_table (fate_afters f) = fate_written f.
Proof.
  destruct f; cbn [befell fate_afters fate_written]; intros Hf; [| |done..].
  - by rewrite filter_cons_True by apply Hf.
  - by rewrite filter_cons_False by (unfold in_table; apply Hf).
Qed.

(** A row that passed every check is stored, shipped or declined. *)
Lemma insert_row_wp ins rri t tr :
  reads tr = n -> balanced tr -> instead_row_of rri = false -> admitted ex pl rt own [Ok raw] tr rri t ->
  twp G (insert_row ex ins rri t)
    (fun stored tr' => exists f, befell ex pl rt n tr' raw f /\ landed (fate_afters f) [] tr tr' /\
       fate_insteads f = [] /\ fate_counts f = stored) tr.
Proof.
  intros Hn [Ba Bi] Hi Had. pose proof (admitted_any _ _ _ Had) as Hany.
  unfold insert_row. destruct (decide (ri_FdwRoutine rri <> None)) as [Hf|Hf].
  - t_step. apply call_wp; [repeat split|done|apply foreign_insert_defined|]. rewrite Hn.
    assert (Had' : admitted ex pl rt own [Ok raw] (tr ++ [EvForeignInsert rri t]) rri t)
      by (eapply admitted_mono; [done..|by eexists|done]).
    intros [t'|] Hst Hpass.
    + cbv zeta. t_step. unfold perform. t_step; [|apply do_defined|].
      { cbn. rewrite decide_False by done. eauto 6 using called_passed. }
      intros [] _. t_step. exists (Shipped rri (set_tableOid (ri_relid rri) t')).
      split_and!; [|cbn [fate_afters]|done|done].
      * eapply befell_mono; [by eexists|]. cbn. eauto 8.
      * assert (Hin : filter in_table [(rri, set_tableOid (ri_relid rri) t')] = [])
          by by rewrite filter_cons_False.
        rewrite Hin. apply (stepped_trans [] [] [] [] [_] [] _ _ _ Hst).
        split; [by eexists|..]; rewrite ?Hin; by tally.
    + t_step. exists (Declined rri t). by split_and!; cbn; auto.
  - assert (Hnone : ri_FdwRoutine rri = None) by (by destruct (ri_FdwRoutine rri); [destruct Hf|]).
    t_step. unfold perform. t_step; [done|apply do_defined|]. intros [] _.
    pose proof (stepped_tuple tr rri t) as Hm. pose proof Hm as [P1 W1 A1 I1 S1 C1 D1 N1].
    rewrite !app_nil_r in *. t_step. eapply twp_mono.
    { apply (after_insert_wp ins rri t []); [done| |]; by rewrite ?W1, ?I1, A1, Ba. }
    intros [] tr2 _ Hst. t_step.
    pose proof (stepped_trans [_] [] [] [] [_] [] _ _ _ Hm Hst) as Hst2.
    exists (Stored rri t). split_and!; [|cbn [fate_afters]|done|done].
    + cbn. split_and!; [done..|]. eapply admitted_mono; [done..| |exact Had]. apply Hst2.
    + by rewrite filter_cons_True.
Qed.
End row.

(** ** The loop's invariant *)

(** What the loop remembers of the relation's BEFORE and INSTEAD OF triggers. *)
Definition flags_ok (st : receiving) : Prop :=
  if pl_proute ex pl then
    match rc_routed st with
    | Some rri => rc_before_row st = before_row_of rri /\ rc_instead_row st = instead_row_of rri
    | None => True
    end
  else rc_before_row st = before_row_of (ni_target (rc_ins st)) /\
       rc_instead_row st = instead_row_of (ni_target (rc_ins st)).

(** A target that rows are buffered for has none of them yet, or a full batch. *)
Definition whole (target : ResultRelInfo) (tr : trace) : Prop :=
  buffers ex pl target -> written tr = [] \/ full ex (map snd (written tr)).

Lemma full_app ts ts' : full ex ts -> full ex (ts ++ ts').
Proof.
  unfold full. rewrite sizes_app, length_app. pose proof (sizes_nonneg ts'). lia.
Qed.

Lemma whole_same target tr tr' : written tr' = written tr -> whole target tr -> whole target tr'.
Proof. unfold whole. by intros ->. Qed.

(** Between rows: every row counted is in its relation, taken by an INSTEAD OF
    trigger, or waits in the buffer, checked. *)
Record holding (st : receiving) (tr : trace) : Prop := Holding {
  hd_target : is_target ex rt tr (ni_target (rc_ins st));
  hd_balanced : balanced tr;
  hd_rows : rc_rows st =
    u64 (zlen (afters tr) + zlen (ni_slots (rc_ins st)) + zlen (insteads tr));
  hd_admitted :
    Forall (admitted ex pl rt anywhere rows tr (ni_target (rc_ins st))) (ni_slots (rc_ins st));
  hd_buffer : buffer_ok (rc_ins st);
  hd_created : created tr = S (ni_created (rc_ins st));
  hd_dropped : dropped tr = 0%nat;
  hd_flags : flags_ok st;
  hd_whole : whole (ni_target (rc_ins st)) tr;
}.

(** There is a slot for the next row. *)
Definition has_slot (st : receiving) : Prop :=
  ni_buffered (rc_ins st) = true -> (length (ni_slots (rc_ins st)) < ni_created (rc_ins st))%nat.

Lemma admitted_later tr tr' rri ts :
  tr `prefix_of` tr' -> Forall (admitted ex pl rt anywhere rows tr rri) ts ->
  Forall (admitted ex pl rt anywhere rows tr' rri) ts.
Proof. intros Hp Hf. eapply Forall_impl; [exact Hf|]. intros t. by apply admitted_mono. Qed.

Lemma holding_still st tr tr' : holding st tr -> stepped [] [] [] tr tr' -> holding st tr'.
Proof.
  intros [T B R A U C D F W] Hst. pose proof Hst as [P W' A' I' S' C' D' N'].
  rewrite app_nil_r in *.
  split; [by eapply is_target_mono|by apply (landed_balanced [] [] tr)| | |done|congruence|congruence|done|].
  - by rewrite A', S'.
  - by eapply admitted_later.
  - by eapply whole_same.
Qed.

(** The reader's answer moves no row. *)
Lemma holding_read st tr : holding st tr -> holding st (tr ++ [EvRead]).
Proof.
  intros [T B R A U C D F W].
  assert (Hs : written (tr ++ [EvRead]) = written tr /\ afters (tr ++ [EvRead]) = afters tr /\
    indexed (tr ++ [EvRead]) = indexed tr /\ insteads (tr ++ [EvRead]) = insteads tr /\
    created (tr ++ [EvRead]) = created tr /\ dropped (tr ++ [EvRead]) = dropped tr)
    by (split_and!; tally; by rewrite ?Nat.add_0_r).
  destruct Hs as (W' & A' & I' & S' & C' & D'). destruct B as [Ba Bi].
  split; rewrite ?W', ?A', ?S', ?C', ?D'; try done.
  - eapply is_target_mono; [by eexists|done].
  - split; by rewrite ?W', ?A', ?I'.
  - eapply admitted_later; [by eexists|done].
  - by eapply whole_same.
Qed.

Lemma count_one a n : u64 (u64 a + n) = u64 (a + n).
Proof. unfold u64, wrap. by rewrite Z.add_mod_idemp_l. Qed.

Lemma u64_u64 a : u64 (u64 a) = u64 a.
Proof. apply wrap_id, wrap_fits. lia. Qed.

(** A row more that landed, and none waiting. *)
Lemma holding_landed st p tr tr' :
  holding st tr -> ni_buffered (rc_ins st) = false -> landed [p] [] tr tr' ->
  holding (count_row st) tr'.
Proof.
  intros [T B R A U C D F W] Hb Hst. pose proof Hst as [P W' A' I' S' C' D' N'].
  pose proof (buffer_target _ U) as Ht. rewrite Hb in Ht. destruct Ht as [Hs Hno].
  split; cbn; [by eapply is_target_mono|by eapply landed_balanced| | |done|congruence|congruence|done|by intros ?%Hno].
  - rewrite R, A', S', Hs, count_one, app_nil_r, length_app. cbn. f_equal. lia.
  - by rewrite Hs.
Qed.

Lemma holding_instead st rri t tr :
  holding st tr -> holding (count_row st) (tr ++ [EvIRInsertTriggers rri t]).
Proof.
  intros Hh. pose proof Hh as [T B R A U C D F W]. pose proof (stepped_instead tr rri t) as Hst.
  pose proof Hst as [P W' A' I' S' C' D' N']. rewrite app_nil_r in W'.
  split; cbn; [by eapply is_target_mono| | | |done|congruence|congruence|done|by eapply whole_same].
  - by apply (landed_balanced [] [(rri, t)] tr).
  - rewrite R, A', S', count_one, app_nil_r, length_app. cbn. f_equal. lia.
  - by eapply admitted_later.
Qed.

(** ** What a step adds

    Rows written, and those that wait to be. *)
Definition due (st : receiving) (l : list landing) : list landing :=
  l ++ map (pair (ni_target (rc_ins st))) (ni_slots (rc_ins st)).

(** How many rows of them count. *)
Definition counted (fs : list fate) : Z := zlen (List.filter fate_counts fs).

(** From [st] to [st'], rows had the fates [fs]. *)
Record advanced (fs : list fate) (st : receiving) (tr : trace) (st' : receiving) (tr' : trace)
    : Prop := Advanced {
  adv_prefix : tr `prefix_of` tr';
  adv_written : due st' (written tr') = due st (written tr) ++ (fs ≫= fate_written);
  adv_afters : due st' (afters tr') = due st (afters tr) ++ (fs ≫= fate_afters);
  adv_insteads : insteads tr' = insteads tr ++ (fs ≫= fate_insteads);
  adv_rows : u64 (rc_rows st') = u64 (rc_rows st + counted fs);
  adv_reads : reads tr' = reads tr;
}.

Lemma counted_app fs fs' : counted (fs ++ fs') = counted fs + counted fs'.
Proof. unfold counted. rewrite List.filter_app, length_app. lia. Qed.

Lemma advanced_trans fs1 fs2 st1 tr1 st2 tr2 st3 tr3 :
  advanced fs1 st1 tr1 st2 tr2 -> advanced fs2 st2 tr2 st3 tr3 ->
  advanced (fs1 ++ fs2) st1 tr1 st3 tr3.
Proof.
  intros [P1 W1 A1 I1 R1 N1] [P2 W2 A2 I2 R2 N2].
  split; [by etrans|..|congruence]; rewrite ?bind_app, ?app_assoc; [congruence..|].
  by rewrite counted_app, R2, <- count_one, R1, count_one, Z.add_assoc.
Qed.

Lemma advanced_still st tr tr' : stepped [] [] [] tr tr' -> advanced [] st tr st tr'.
Proof.
  intros [P W A I S C D N]. rewrite app_nil_r in *.
  split; cbn; rewrite ?app_nil_r; try done; by rewrite ?W, ?A, ?Z.add_0_r.
Qed.

(** A change of the inserter that keeps its rows. *)
Lemma advanced_same st st' tr :
  ni_target (rc_ins st') = ni_target (rc_ins st) -> ni_slots (rc_ins st') = ni_slots (rc_ins st) ->
  rc_rows st' = rc_rows st -> advanced [] st tr st' tr.
Proof.
  intros Ht Hs Hr. split; cbn; unfold due; rewrite ?Ht, ?Hs, ?Hr, ?app_nil_r, ?Z.add_0_r; done.
Qed.

(** *** A slot *)

Lemma next_slot_wp st tr :
  holding st tr ->
  twp G (next_slot ex st)
    (fun st' tr' => (holding st' tr' /\ has_slot st') /\ advanced [] st tr st' tr') tr.
Proof.
  intros Hh. unfold next_slot, has_slot. t_step. apply perform_wp; [repeat split|done|].
  intros Hst. apply (holding_still st) in Hst as Hh1; [|done]. apply (advanced_still st) in Hst.
  clear Hh. rename Hh1 into Hh. pose proof Hh as [T B R A [Un Ub Us Ut [Uc Ul]] C D F W].
  destruct (ni_buffered (rc_ins st)) eqn:Hb; [|t_step; split; [split; [done|congruence]|done]].
  t_step. unfold buffer_slot. destruct (Z.leb_spec CHDB_MAX_BUFFERED_TUPLES (zlen (ni_slots (rc_ins st))))
    as [?|_]; [lia|]. case_decide as Hn.
  - t_step. unfold perform. t_step; [right; eauto|apply do_defined|]. intros [] _. t_step. t_step. cbn.
    destruct (tally_create (tr ++ [EvCheckForInterrupts]) (ri_relid (ni_target (rc_ins st))))
      as (P & W' & A' & I' & S' & C' & D' & N').
    split; [split; [|lia]|].
    + destruct B as [Ba Bi].
      split; cbn; rewrite ?A', ?S', ?C', ?D', ?C;
        [by eapply is_target_mono|split|done| | |lia|done|done|by eapply whole_same].
      * by rewrite A', W'.
      * by rewrite I', W'.
      * by eapply admitted_later.
      * split; cbn; [done..|by rewrite Hb|lia].
    + apply (advanced_trans [] [] _ _ _ _ _ _ Hst).
      split; cbn; rewrite ?W', ?A', ?S', ?N', ?app_nil_r, ?Z.add_0_r; done.
  - t_step. t_step. cbn. split; [split; [by destruct st|lia]|]. by destruct st.
Qed.

(** *** The row's values *)

Lemma place_ok dest values cells :
  length dest = length values -> Forall (fun d => (d < length cells)%nat) dest ->
  exists cells', place dest values cells = Ok cells' /\ length cells' = length cells.
Proof.
  revert values cells. induction dest as [|d dest IH]; intros [|v values] cells Hl Hd; try done; cbn.
  - eauto.
  - apply Forall_cons in Hd as [Hd1 Hd]. rewrite decide_True by done.
    destruct (IH values (<[d := v]> cells)) as (cells' & Hc & Hlen).
    + cbn in Hl. lia.
    + by rewrite length_insert.
    + exists cells'. by rewrite Hlen, length_insert.
Qed.

(** The cells the defaults fill, and the others as they were. *)
Definition defaulted (own : trace -> Prop) (defaults : nativeDefaults ex) (tr : trace)
    (cells cells' : list cell) : Prop :=
  forall i,
    (exists e v, (i, e) ∈ defaults /\ cells' !! i = Some v /\
       called own tr (EvDefault i) (fun pre => ex_eval ex pre e = Ok v)) \/
    ((forall e, (i, e) ∉ defaults) /\ cells' !! i = cells !! i).

Lemma default_guard st tr i : holding st tr -> G tr (EvDefault i).
Proof. intros Hh. exists (ni_target (rc_ins st)). split; [apply Hh|apply (hd_whole _ _ Hh)]. Qed.

Lemma fill_defaults_wp n st defaults cells tr :
  reads tr = n -> holding st tr -> Forall (fun d => (d.1 < length cells)%nat) defaults ->
  twp G (fill_defaults ex defaults cells)
    (fun cells' tr' => stepped [] [] [] tr tr' /\ length cells' = length cells /\
       defaulted (in_round n) defaults tr' cells cells') tr.
Proof.
  intros Hn. revert cells tr Hn. induction defaults as [|[d e] defaults IH]; intros cells tr Hn Hh Hd;
    cbn [fill_defaults].
  { t_step. split; [apply stepped_refl|]. split; [done|]. intros i. right. split; [set_solver|done]. }
  apply Forall_cons in Hd as [Hd1 Hd]. cbn in Hd1. t_step.
  apply call_wp; [repeat split|by eapply default_guard|apply eval_defined|]. rewrite Hn. intros v Hst Hv.
  rewrite decide_True by done. eapply twp_mono.
  { apply IH; [by rewrite (stepped_reads _ _ _ _ _ Hst)|by eapply holding_still|by rewrite length_insert]. }
  intros cells' tr' _ (Hst' & Hlen & Hc). split; [by apply (stepped_trans [] [] [] [] [] [] tr _ _ Hst)|].
  rewrite length_insert in Hlen. split; [done|]. intros i.
  destruct (Hc i) as [(e' & v' & ? & ? & ?)|[Hi Hsame]]; [left; exists e', v'; set_solver|].
  destruct (decide (i = d)) as [->|Hne].
  - left. exists e, v. split; [set_solver|]. rewrite Hsame, list_lookup_insert_eq by done.
    split; [done|]. eapply called_mono; [done|apply Hst'|done].
  - right. rewrite Hsame, list_lookup_insert_ne by done. set_solver.
Qed.

(** Where values and defaults go exists, and each column has a state. *)
Record plan_ok : Prop := PlanOk {
  plan_dest : Forall (fun d => (d < length (rel_desc (pl_rel ex pl)))%nat) (pl_dest ex pl);
  plan_defaults :
    Forall (fun d => (d.1 < length (rel_desc (pl_rel ex pl)))%nat) (pl_defaults ex pl);
}.

Context (Hplan : plan_ok).

(** ** A round of the loop *)

Section round.
Context (raw : rd_row) (n : nat) (Hraw : Ok raw ∈ rows) (Hwidth : rd_width raw = length (pl_dest ex pl)).

Abbreviation own := (in_round n).

Lemma fill_row_wp st tr :
  reads tr = n -> holding st tr ->
  twp G (fill_row ex pl raw)
    (fun slot tr' => stepped [] [] [] tr tr' /\ root_row ex pl own [Ok raw] tr' slot) tr.
Proof.
  intros Hn Hh. destruct Hplan as [Hdest Hdef]. unfold fill_row. t_step.
  rewrite fill_map_spec. pose proof (values_defined (pl_encoding_check ex pl) raw (pl_states ex pl)) as Hdv.
  destruct (rd_values _ _ _) as [values|e|] eqn:Hv; [|by apply twp_lift|done]. cbn [mbind res_bind].
  pose proof (values_width _ _ _ _ Hv) as Hlv.
  destruct (place_ok (pl_dest ex pl) values
    (replicate (length (rel_desc (pl_rel ex pl))) (0, true))) as (cells & Hc & Hlc).
  { congruence. }
  { by rewrite length_replicate. }
  rewrite length_replicate in Hlc. rewrite Hc. t_step; [done|]. intros ? [= <-].
  t_step. eapply twp_mono; [by apply (fill_defaults_wp n st); [| |rewrite Hlc]|].
  intros cells' tr' _ (Hst & Hlen & Hd). t_step. split; [done|]. exists raw.
  split; [by apply list_elem_of_singleton|]. split; [done|]. by exists values, cells.
Qed.

(** *** The row's relation *)

(** What routing leaves: the row for its relation, and the flags of it. *)
Definition routing (rri : ResultRelInfo) (slot : tuple) (st : receiving) (tr : trace) : Prop :=
  holding st tr /\ has_slot st /\ routed ex pl rt own [Ok raw] tr rri slot /\
  rc_before_row st = before_row_of rri /\ rc_instead_row st = instead_row_of rri /\
  (ni_buffered (rc_ins st) = true -> rri = ni_target (rc_ins st)).

Lemma holding_original b map slot st tr :
  holding st tr -> holding (set_ins (set_original b map slot (rc_ins st)) st) tr.
Proof.
  intros [T B R A [Un Ub Us Ut Uc] C D F W]. unfold set_original.
  destruct (ni_transition (rc_ins st)); split; by cbn.
Qed.

Lemma holding_routed rri st tr :
  holding st tr -> pl_proute ex pl = true -> holding (set_routed rri st) tr.
Proof.
  intros [T B R A U C D F W] Hp. split; try done. unfold flags_ok. rewrite Hp. done.
Qed.

Lemma route_row_wp slot st tr :
  reads tr = n -> holding st tr -> has_slot st -> root_row ex pl own [Ok raw] tr slot ->
  twp G (route_row ex pl slot st)
    (fun r tr' => routing r.1.1 r.1.2 r.2 tr' /\ advanced [] st tr r.2 tr') tr.
Proof.
  intros Hn Hh Hs Hroot. unfold route_row. destruct (pl_proute ex pl) eqn:Hp.
  - t_step. apply call_wp; [repeat split|done|apply find_partition_defined|]. rewrite Hn.
    intros rri Hst Hpass.
    assert (Hnb : ni_buffered (rc_ins st) = true -> False).
    { intros Hb. pose proof (buffer_target _ (hd_buffer _ _ Hh)) as Ht. rewrite Hb in Ht.
      destruct Ht as [Ht _]. congruence. }
    apply (holding_still st) in Hst as Hh1; [|done]. t_step.
    apply (twp_mono _ _ (fun st1 tr1 => stepped [] [] [] tr tr1 /\ tr ++ [EvFindPartition slot] `prefix_of` tr1 /\
      holding st1 tr1 /\ rc_ins st1 = rc_ins st /\ rc_rows st1 = rc_rows st /\
      rc_before_row st1 = before_row_of rri /\ rc_instead_row st1 = instead_row_of rri)).
    + case_decide as Hr.
      * t_step. split_and!; try done; pose proof (hd_flags _ _ Hh1) as F; unfold flags_ok in F;
          rewrite Hp, Hr in F; apply F.
      * t_step. apply perform_wp; [repeat split|done|]. intros Hst1. t_step.
        split; [exact (stepped_trans [] [] [] [] [] [] _ _ _ Hst Hst1)|]. split; [by eexists|]. split; [|done].
        apply holding_routed; [|done]. by eapply holding_still.
    + intros st1 tr1 _ (Hst1 & P1 & Hh2 & Hi & Hrows & Hb & Hir). t_step. cbn [fst snd].
      split; [split; [by apply holding_original|]|].
      * unfold has_slot. cbn.
        split; [unfold set_original; rewrite Hi; by destruct (ni_transition _)|].
        split; [|split_and!; [done..|]].
        -- exists slot. split.
           ++ destruct Hroot as (raw' & ? & Hf). exists raw'. split; [done|].
              eapply filled_mono; [done|apply Hst1|done].
           ++ rewrite Hp. split; [by eapply called_mono|done].
        -- unfold set_original. rewrite Hi. by destruct (ni_transition _).
      * apply (advanced_trans [] [] _ _ st1 tr1).
        -- apply (advanced_trans [] [] _ _ st tr1); [by apply advanced_still|].
           apply advanced_same; by rewrite ?Hi.
        -- apply advanced_same; [..|done]; cbn; unfold set_original; by destruct (ni_transition (rc_ins st1)).
  - t_step. cbn [fst snd]. pose proof (hd_flags _ _ Hh) as F. unfold flags_ok in F. rewrite Hp in F.
    destruct F as [F1 F2]. split; [|apply advanced_still, stepped_refl].
    split; [done|]. split; [done|]. split; [|by split_and!].
    exists slot. split; [done|]. rewrite Hp. split; [apply Hh|done].
Qed.

(** *** Checks *)

Lemma check_row_wp rri slot before_row tr :
  reads tr = n -> before_row = before_row_of rri -> arrived ex pl rt own [Ok raw] tr rri slot ->
  twp G (check_row ex pl rri slot before_row)
    (fun slot' tr' => stepped [] [] [] tr tr' /\ admitted ex pl rt own [Ok raw] tr' rri slot') tr.
Proof.
  intros Hn -> Har. unfold check_row. t_step.
  apply (twp_mono _ _ (fun slot' tr' => stepped [] [] [] tr tr' /\
    completed ex pl rt own [Ok raw] tr' rri slot')).
  { unfold completed. destruct (generated_of rri).
    - apply call_wp; [repeat split|done|apply generated_defined|]. rewrite Hn. intros slot' Hst Hpass.
      split; [done|]. exists slot. split; [|done]. eapply arrived_mono; [done..|apply Hst|done].
    - t_step. split; [apply stepped_refl|done]. }
  intros slot' tr1 _ [Hst1 Hcomp]. t_step. pose proof (stepped_reads _ _ _ _ _ Hst1) as N1.
  apply (twp_mono _ _ (fun _ tr' => stepped [] [] [] tr1 tr' /\
    (ri_FdwRoutine rri = None -> ri_constr rri <> None -> called own tr' (EvConstraints rri slot') anywhere))).
  { case_decide.
    - apply perform_wp; [repeat split|done|]. intros Hst. split; [done|]. intros _ _.
      rewrite <- Hn, <- N1. apply called_last.
    - t_step. split; [apply stepped_refl|naive_solver]. }
  intros [] tr2 _ [Hst2 Hcon]. t_step. apply perform_if_wp; [repeat split|done|].
  rewrite (stepped_reads _ _ _ _ _ Hst2), N1, Hn. intros tr3 Hst3 Hpart. t_step.
  pose proof (stepped_trans [] [] [] [] [] [] _ _ _ Hst2 Hst3) as Hst23.
  split; [by apply (stepped_trans [] [] [] [] [] [] tr _ _ Hst1)|]. split.
  - eapply completed_mono; [done..|apply Hst23|done].
  - intros Hf Hc. eapply called_mono; [done|apply Hst3|auto].
  - intros Hp Hor. apply Hpart. rewrite Hp. destruct Hor as [->| ->]; [done|]. apply orb_true_r.
Qed.

(** *** Into the buffer, or the table *)

Lemma buffer_store_wp slot st tr :
  holding st tr -> has_slot st -> ni_buffered (rc_ins st) = true ->
  admitted ex pl rt anywhere rows tr (ni_target (rc_ins st)) slot ->
  twp G (buffer_store ex (rc_ins st) slot)
    (fun ins tr' => holding (count_row (set_ins ins st)) tr' /\
       advanced [Stored (ni_target (rc_ins st)) slot] st tr (count_row (set_ins ins st)) tr') tr.
Proof.
  intros Hh Hs Hb Had. pose proof Hh as [T B R A [Un Ub Us Ut [Uc Ul]] C D F W].
  rewrite Hb in Ut. specialize (Hs Hb). pose proof (sizes_nonneg (ni_slots (rc_ins st))) as Hnn.
  pose proof (data_size_bounds slot) as Hds.
  assert (Hsz : u64 (ni_bytes (rc_ins st) + heap_compute_data_size ex slot)
      = sizes ex (ni_slots (rc_ins st) ++ [slot])).
  { rewrite sizes_app, Ub. cbn. rewrite Z.add_0_r. unfold u64. apply wrap_id.
    unfold CHDB_MAX_BUFFERED_BYTES in *. unfold fits. lia. }
  unfold buffer_store. cbv zeta. rewrite Hsz.
  set (ins := set_buffer _ _ (rc_ins st)).
  assert (Hall : Forall (admitted ex pl rt anywhere rows tr (ni_target (rc_ins st))) (ni_slots ins))
    by (cbn; apply Forall_app_2; [done|by apply Forall_singleton]).
  destruct (_ || _) eqn:Hlimit.
  - assert (Hfull : full ex (ni_slots (rc_ins st) ++ [slot])).
    { apply orb_true_iff in Hlimit as [?%Z.leb_le|?%Z.leb_le]; [by left|by right]. }
    eapply twp_mono; [apply (flush_wp ins)|]; [done|done|done|done| | |].
    + cbn. rewrite length_app. cbn. lia.
    + cbn. intros ts t [<- _]%app_inj_tail. by rewrite <- Ub.
    + intros ins' tr' _ (Hnil & Hins & Hland). rewrite decide_False in Hins
        by (by intros [_ ?]%app_eq_nil).
      pose proof Hland as [P1 W1 A1 I1 S1 C1 D1 N1]. rewrite app_nil_r in S1. cbn in *. subst ins'.
      rewrite filter_all in W1.
      2:{ apply Forall_forall. intros p Hp. apply list_elem_of_fmap in Hp as (t & -> & _). apply Ut. }
      split.
      * split; cbn; [by eapply is_target_mono|by eapply landed_balanced| |constructor| |congruence|congruence|done|].
        -- rewrite R, S1, A1, count_one, !length_app, length_map, length_app. cbn. f_equal. lia.
        -- split; cbn; [done..| |by rewrite Hb|lia]. done.
        -- intros Hbuf. right. rewrite W1, map_app, map_map. cbn. rewrite map_id.
           destruct (W Hbuf) as [->|?]; [done|by apply full_app].
      * split; cbn; unfold due; cbn; rewrite ?app_nil_r; [done| | |done| |done].
        -- by rewrite W1, map_app, app_assoc.
        -- by rewrite A1, map_app, app_assoc.
        -- change (counted [Stored _ _]) with 1. by rewrite u64_u64.
  - apply orb_false_iff in Hlimit as [H1%Z.leb_gt H2%Z.leb_gt]. t_step. split.
    + split; cbn; [done|done| |done| |done|done|done|done].
      * rewrite R, count_one, length_app. cbn. f_equal. lia.
      * rewrite length_app in *. cbn in *. split; cbn; rewrite ?length_app; [done..|by rewrite Hb|cbn; lia].
    + split; cbn; unfold due; cbn; rewrite ?app_nil_r, ?map_app, ?app_assoc; try done.
      change (counted [Stored _ _]) with 1. by rewrite u64_u64.
Qed.

(** The row has a fate: what the rest of the round makes of it. *)
Abbreviation fares st tr :=
  (fun st' tr' => holding st' tr' /\
     exists f, befell ex pl rt n tr' raw f /\ advanced [f] st tr st' tr').

(** A row that passed every check is counted when it lands or is buffered. *)
Lemma store_row_wp rri slot st tr :
  reads tr = n -> holding st tr -> has_slot st ->
  (ni_buffered (rc_ins st) = true -> rri = ni_target (rc_ins st)) ->
  instead_row_of rri = false -> admitted ex pl rt own [Ok raw] tr rri slot ->
  twp G (store_row ex rri slot st) (fares st tr) tr.
Proof.
  intros Hn Hh Hs Hr Hi Had. unfold store_row. destruct (ni_buffered (rc_ins st)) eqn:Hb.
  - rewrite Hr in Had by done.
    assert (Hf : ri_FdwRoutine (ni_target (rc_ins st)) = None /\
      instead_row_of (ni_target (rc_ins st)) = false).
    { pose proof (buffer_target _ (hd_buffer _ _ Hh)) as Ht. rewrite Hb in Ht.
      destruct Ht as (_ & ? & _ & ?). done. }
    t_step. eapply twp_mono; [by apply buffer_store_wp; [..|by eapply admitted_any]|].
    intros ins tr' _ [Hh' Hadv]. t_step. split; [done|]. eexists; split; [|done].
    cbn. split; [apply Hf|]. split; [apply Hf|]. eapply admitted_mono; [done..| |done]. apply Hadv.
  - t_step. eapply twp_mono; [apply (insert_row_wp raw n); [done|done|apply Hh|done|done]|].
    intros stored tr' _ (f & Hf & Hst & Hj & Hc). pose proof (befell_landed _ _ _ _ Hf) as Hin.
    pose proof Hst as [P W A I S C D N].
    assert (Hadv : advanced [f] st tr (if stored then count_row st else st) tr').
    { pose proof (buffer_target _ (hd_buffer _ _ Hh)) as Ht. rewrite Hb in Ht. destruct Ht as [Hnil _].
      destruct stored; split; cbn; unfold due; cbn; rewrite ?Hnil; cbn; rewrite ?app_nil_r; try done;
        rewrite ?W, ?A, ?S, ?Hin, ?Hj; try done; unfold counted; cbn; rewrite Hc; cbn.
      - by rewrite u64_u64.
      - by rewrite Z.add_0_r. }
    assert (Hone : if stored then exists p, fate_afters f = [p] else fate_afters f = []).
    { destruct f; cbn in Hc; subst stored; cbn; try done; eauto. }
    destruct stored; t_step; (split; [|by exists f]).
    + destruct Hone as [p Hp]. rewrite Hp in Hst. by eapply holding_landed.
    + rewrite Hone in Hst. by eapply holding_still.
Qed.

Lemma receive_row_fate st tr :
  reads tr = n -> holding st tr -> has_slot st -> twp G (receive_row ex pl raw st) (fares st tr) tr.
Proof.
  intros Hn Hh Hs. unfold receive_row. t_step. eapply twp_mono; [by apply (fill_row_wp st)|].
  intros slot0 tr0 _ [Hst0 Hroot]. pose proof (advanced_still st _ _ Hst0) as Hadv0.
  pose proof (stepped_reads _ _ _ _ _ Hst0) as N0. apply (holding_still st) in Hst0; [|done].
  t_step. eapply twp_mono; [apply route_row_wp; [congruence|done..]|].
  intros [[rri slot] st1] tr1 _ [Hrt Hadv1]. cbn [fst snd] in Hrt, Hadv1.
  pose proof (advanced_trans [] [] _ _ _ _ _ _ Hadv0 Hadv1) as Hadv.
  pose proof (adv_reads _ _ _ _ _ Hadv) as N1. rewrite Hn in N1.
  pose proof Hrt as (Hh1 & Hs1 & Hr1 & Hb1 & Hi1 & Ht1). t_step.
  apply (twp_mono _ _ (fun answer tr' => holding st1 tr' /\ stepped [] [] [] tr1 tr' /\
    match answer with
    | Some slot' => arrived ex pl rt own [Ok raw] tr' rri slot'
    | None => befell ex pl rt n tr' raw (Suppressed rri slot)
    end)).
  { rewrite Hb1. unfold arrived. destruct (before_row_of rri) eqn:Hbr.
    - apply call_wp; [repeat split|split; [done|by eapply routed_any]|apply br_triggers_defined|].
      rewrite N1. intros answer Hst Hpass. split; [by eapply holding_still|]. split; [done|].
      assert (Hr2 : routed ex pl rt own [Ok raw] (tr1 ++ [EvBRInsertTriggers rri slot]) rri slot)
        by (eapply routed_mono; [done..|apply Hst|done]).
      destruct answer as [slot'|]; [|done]. by exists slot.
    - t_step. split; [done|]. split; [apply stepped_refl|done]. }
  intros [slot'|] tr2 _ (Hh2 & Hst2 & Harr).
  2:{ t_step. split; [done|]. eexists; split; [exact Harr|]. apply (advanced_trans [] [_] _ _ st1 tr1); [done|].
      pose proof (advanced_still st1 _ _ Hst2) as [P W A I R N]. by split. }
  rewrite Hi1. pose proof (stepped_reads _ _ _ _ _ Hst2) as N2. rewrite N1 in N2.
  pose proof (advanced_trans [] [] _ _ _ _ _ _ Hadv (advanced_still st1 _ _ Hst2)) as Hadv2.
  destruct (instead_row_of rri) eqn:Hir.
  - t_step. unfold perform. t_step; [split; [done|by eapply arrived_any]|apply do_defined|]. intros [] _. t_step.
    split; [by apply holding_instead|]. exists (Replaced rri slot'). split.
    + cbn. split; [done|]. split; [eapply arrived_mono; [done..|by eexists|done]|].
      rewrite <- N2. apply called_last.
    + apply (advanced_trans [] [_] _ _ st1 tr2); [done|].
      pose proof (stepped_instead tr2 rri slot') as [P W A I S C D N].
      split; cbn; unfold due; cbn; rewrite ?W, ?A, ?app_nil_r; try done.
      change (counted [Replaced _ _]) with 1. by rewrite u64_u64.
  - t_step. eapply twp_mono; [by apply check_row_wp|]. intros slot'' tr3 _ [Hst3 Had].
    pose proof (stepped_reads _ _ _ _ _ Hst3) as N3. rewrite N2 in N3.
    eapply twp_mono; [apply store_row_wp; [done|by eapply holding_still|done..]|].
    intros st' tr' _ [Hh' (f & Hf & Hadv')]. split; [done|]. exists f. split; [done|].
    apply (advanced_trans [] [f] _ _ st1 tr3); [|done].
    exact (advanced_trans [] [] _ _ _ _ _ _ Hadv2 (advanced_still st1 _ _ Hst3)).
Qed.
End round.

Lemma receive_row_wp raw st tr :
  Ok raw ∈ rows -> rd_width raw = length (pl_dest ex pl) -> holding st tr -> has_slot st ->
  twp G (receive_row ex pl raw st) holding tr.
Proof.
  intros Hraw Hw Hh Hs. eapply twp_mono; [by apply (receive_row_fate raw (reads tr))|].
  by intros st' tr' _ [? _].
Qed.

(** ** The loop *)

(** Rows read, and their fates. *)
Record logged (raws : list rd_row) (fates : list fate) (st : receiving) (tr : trace) : Prop := Logged {
  lg_fated : fated ex pl rt tr raws fates;
  lg_written : due st (written tr) = fates ≫= fate_written;
  lg_afters : due st (afters tr) = fates ≫= fate_afters;
  lg_insteads : insteads tr = fates ≫= fate_insteads;
  lg_rows : u64 (rc_rows st) = u64 (counted fates);
}.

Lemma logged_advanced raws fates st tr st' tr' :
  logged raws fates st tr -> advanced [] st tr st' tr' -> logged raws fates st' tr'.
Proof.
  intros [F W A I R] [P W' A' I' R' N']. cbn in *. rewrite app_nil_r in *. change (counted []) with 0 in *.
  rewrite Z.add_0_r in *. split; [by eapply fated_mono|congruence..].
Qed.

Lemma logged_read raws fates st tr : logged raws fates st tr -> logged raws fates st (tr ++ [EvRead]).
Proof.
  intros [F W A I R].
  assert (Hs : written (tr ++ [EvRead]) = written tr /\ afters (tr ++ [EvRead]) = afters tr /\
    insteads (tr ++ [EvRead]) = insteads tr) by (split_and!; by tally).
  destruct Hs as (W' & A' & S'). split; rewrite ?W', ?A', ?S'; try done.
  eapply fated_mono; [by eexists|done].
Qed.

Lemma reads_read tr : reads (tr ++ [EvRead]) = S (reads tr).
Proof. tally. lia. Qed.

Lemma logged_row raws fates raw f st tr st' tr' :
  logged raws fates st tr -> befell ex pl rt (S (length raws)) tr' raw f -> advanced [f] st tr st' tr' ->
  logged (raws ++ [raw]) (fates ++ [f]) st' tr'.
Proof.
  intros [F W A I R] Hf [P W' A' I' R' N']. cbn in *. rewrite app_nil_r in *.
  split; rewrite ?bind_app; cbn; rewrite ?app_nil_r; [|congruence..|].
  - apply fated_snoc; [by eapply fated_mono|done].
  - by rewrite R', counted_app, <- count_one, R, count_one.
Qed.

Lemma receive_loop_wp todo raws fates st tr :
  (forall next, next ∈ todo -> next ∈ rows) -> rows_fit (length (pl_dest ex pl)) todo ->
  holding st tr -> logged raws fates st tr -> reads tr = length raws ->
  twp G (receive_loop ex pl todo st)
    (fun st' tr' => holding st' tr' /\ exists raws' fates',
       todo = map Ok raws' /\ logged (raws ++ raws') (fates ++ fates') st' tr') tr.
Proof.
  intros Hsub Hfit. revert raws fates st tr Hsub.
  induction Hfit as [|next todo Hnext _ IH]; intros raws fates st tr Hsub Hh Hlog Hn;
    cbn [receive_loop]; (t_step; eapply twp_mono; [by apply next_slot_wp|]);
    intros st1 tr1 _ [[Hh1 Hs1] Hadv];
    pose proof (logged_advanced _ _ _ _ _ _ Hlog Hadv) as Hlog1;
    pose proof (adv_reads _ _ _ _ _ Hadv) as N1; rewrite Hn in N1.
  - t_step. t_step; [done|]. t_step. split; [by apply holding_read|]. exists [], [].
    rewrite !app_nil_r. split; [done|]. by apply logged_read.
  - t_step. t_step; [done|by destruct next|]. intros raw ->.
    t_step. eapply twp_mono.
    { apply (receive_row_fate raw (S (length raws)));
        [set_solver|done|by rewrite reads_read, N1|by apply holding_read|done]. }
    intros st2 tr2 _ (Hh2 & f & Hf & Hadv2).
    assert (N2 : reads tr2 = length (raws ++ [raw])).
    { rewrite (adv_reads _ _ _ _ _ Hadv2), reads_read, N1, length_app. cbn. lia. }
    pose proof (logged_row _ _ _ _ _ _ _ _ (logged_read _ _ _ _ Hlog1) Hf Hadv2) as Hlog2.
    eapply twp_mono; [by apply IH; [set_solver|..]|].
    intros st3 tr3 _ (Hh3 & raws' & fates' & -> & Hlog3). split; [done|].
    exists (raw :: raws'), (f :: fates'). by rewrite <- !app_assoc in Hlog3.
Qed.
End steps.
