(* ===== verification/ReceiveTheorems.v ===== *)
(** * ReceiveTheorems: the properties of COPY FROM's insert *)

From stdpp Require Import prelude.
From S2P Require Import Prelude Stateful Logic Total Words Catalog Structure Insert Receive.
From S2P Require Import ReceiveProps ReceiveLogic.
Local Open Scope Z_scope.

Section theorems.
Context `{RowReaderLaws} (ex : Executor) `{!ExecutorLaws ex}.

(** ** The plan *)

Lemma convert_states_length desc enc i attnums states :
  convert_states desc enc i attnums = Ok states -> length states = length attnums.
Proof.
  revert i states. induction attnums as [|n attnums IH]; intros i states Hs; cbn in Hs; inv_ok; [done|].
  cbn. f_equal. by eapply IH.
Qed.

Lemma convert_states_defined desc enc i attnums :
  Forall (fun n => (0 < n <= length desc)%nat) attnums -> convert_states desc enc i attnums <> UB.
Proof.
  intros Hn. revert i. induction Hn as [|n attnums Hn _ IH]; intros i; cbn; [done|].
  destruct n as [|k]; [lia|]. cbn.
  destruct (lookup_lt_is_Some_2 desc k) as [attr ->]; [lia|]. cbn.
  intros [Hu|(state & _ & Hu)]%bind_UB; [by eapply convert_init_defined|].
  apply bind_UB in Hu as [Hu|(? & _ & ?)]; [by eapply IH|done].
Qed.

(** A column takes part when it is there, is not generated, and the list leaves it
    out. *)
Definition left_out (attnums : list nat) (i : nat) (attr : attribute) : Prop :=
  attisdropped attr = false /\ attgenerated attr = false /\ S i ∉ attnums.

Lemma defaults_from_spec k desc attnums defaults :
  defaults_from ex (S k) desc attnums = Ok defaults ->
  forall i e, (i, e) ∈ defaults <->
    (k <= i)%nat /\ exists attr, desc !! (i - k)%nat = Some attr /\ left_out attnums i attr /\
      build_column_default ex (S i) = Ok (Some e).
Proof.
  revert k defaults. induction desc as [|attr desc IH]; intros k defaults Hd i e; cbn in Hd.
  { inv_ok. split; [set_solver|]. by intros (_ & attr & ? & _). }
  assert (Hskip : forall defaults',
    defaults_from ex (S (S k)) desc attnums = Ok defaults' ->
    (i, e) ∈ defaults' <-> (k < i)%nat /\ exists attr', (attr :: desc) !! (i - k)%nat = Some attr' /\
      left_out attnums i attr' /\ build_column_default ex (S i) = Ok (Some e)).
  { intros defaults' Hd'. rewrite (IH _ _ Hd'). split; intros (Hk & attr' & Ha & ?).
    - split; [lia|]. exists attr'. replace (i - k)%nat with (S (i - S k)) by lia. done.
    - split; [lia|]. exists attr'. replace (i - k)%nat with (S (i - S k)) in Ha by lia. done. }
  assert (Hcase : forall P : Prop, (k <= i)%nat /\ P <-> (k < i)%nat /\ P \/ i = k /\ P).
  { intros P. destruct (decide (i = k)) as [->|]; intuition lia. }
  rewrite Hcase. clear Hcase.
  destruct (_ || _) eqn:Hout.
  { rewrite (Hskip _ Hd). split; [by left|]. intros [?|(-> & attr' & Ha & (Hdr & Hge & Hin) & _)]; [done|].
    rewrite Nat.sub_diag in Ha. injection Ha as <-.
    rewrite Hdr, Hge, bool_decide_eq_false_2 in Hout by done. done. }
  apply orb_false_iff in Hout as [[Hdr Hge]%orb_false_iff Hin%bool_decide_eq_false].
  apply bind_Ok in Hd as ([expr|] & Hb & Hd).
  - apply bind_Ok in Hd as (rest & Hrest & [= <-]). rewrite elem_of_cons, (Hskip _ Hrest).
    split.
    + intros [[= -> ->]|?]; [right|by left]. rewrite Nat.sub_diag. split; [done|]. by exists attr.
    + intros [?|(-> & attr' & _ & _ & He)]; [by right|left]. congruence.
  - rewrite (Hskip _ Hd). split; [by left|]. intros [?|(-> & attr' & _ & _ & He)]; [done|congruence].
Qed.

Lemma defaults_from_defined k desc attnums : defaults_from ex k desc attnums <> UB.
Proof.
  revert k. induction desc as [|attr desc IH]; intros k; cbn; [done|]. destruct (_ || _); [done|].
  intros [Hu|([e|] & _ & Hu)]%bind_UB; [by eapply column_default_defined| |by eapply IH].
  apply bind_UB in Hu as [Hu|(? & _ & ?)]; [by eapply IH|done].
Qed.

Lemma plan_ready rel proute enc attnums states defaults :
  Forall (fun n => (0 < n <= length (rel_desc rel))%nat) attnums ->
  defaults_for ex (rel_desc rel) attnums = Ok defaults ->
  plan_ok ex (Plan ex rel proute enc (map pred attnums) states defaults).
Proof.
  intros Hn Hd. split; cbn.
  - apply Forall_map. eapply Forall_impl; [exact Hn|]. cbn. intros n ?. lia.
  - apply Forall_forall. intros [i e] Hi. apply (defaults_from_spec 0 _ _ _ Hd) in Hi as (_ & attr & Ha & _).
    rewrite Nat.sub_0_r in Ha. by apply lookup_lt_Some in Ha.
Qed.

(** ** Before and after the loop *)

Section ends.
Context (pl : plan ex) (rt : RangeTable) (rows : list (res error rd_row)).

Abbreviation G := (insert_guard ex pl rt rows).

(** A call after others, none of which moves a row. *)
Lemma perform_then tr0 ev Q tr :
  stepped [] [] [] tr0 tr -> still ev -> G tr ev ->
  (forall tr', stepped [] [] [] tr0 tr' -> Q tt tr') -> twp G (perform ex ev) Q tr.
Proof.
  intros Hst Hs HG HQ. apply perform_wp; [done..|]. intros Hst'. apply HQ.
  exact (stepped_trans [] [] [] [] [] [] _ _ _ Hst Hst').
Qed.

Lemma perform_if_then tr0 (b : bool) ev Q tr :
  stepped [] [] [] tr0 tr -> still ev -> (b = true -> G tr ev) ->
  (forall tr', stepped [] [] [] tr0 tr' -> Q tt tr') ->
  twp G (if b then perform ex ev else mret tt) Q tr.
Proof.
  intros Hst Hs HG HQ. destruct b; [by apply (perform_then tr0); auto|]. t_step. by apply HQ.
Qed.

Lemma perform_fdw_then tr0 (fdw : option FdwRoutine) (f : FdwRoutine -> bool) ev Q tr :
  stepped [] [] [] tr0 tr -> still ev -> G tr ev ->
  (forall tr', stepped [] [] [] tr0 tr' -> Q tt tr') ->
  twp G (match fdw with
         | Some r => if f r then perform ex ev else mret tt
         | None => mret tt
         end) Q tr.
Proof.
  intros Hst Hs HG HQ. destruct fdw as [r|]; [by apply (perform_if_then tr0)|]. t_step. by apply HQ.
Qed.

Lemma begin_insert_log rel :
  pl_proute ex pl = bool_decide (rel_kind rel = RELKIND_PARTITIONED_TABLE) ->
  twp G (begin_insert ex rel rt)
    (fun r tr => (r.1 = pl_proute ex pl /\ holding ex pl rt rows r.2 tr) /\
       logged ex pl rt [] [] r.2 tr /\ reads tr = 0%nat) [].
Proof.
  intros Hp. unfold begin_insert. rewrite <- Hp. t_step.
  apply call_wp; [repeat split|done|apply result_relation_defined|].
  intros target Hst Ht. cbv zeta. set (tr0 := _ ++ _) in *.
  t_step. apply (perform_then tr0); [apply stepped_refl|done..|]. intros tr1 Hs1.
  t_step. apply (perform_then tr0); [done..|]. clear tr1 Hs1. intros tr2 Hs2.
  t_step. apply (perform_fdw_then tr0); [done..|]. clear tr2 Hs2. intros tr3 Hs3.
  t_step. apply (perform_then tr0); [done..|]. clear tr3 Hs3. intros tr4 Hs4.
  t_step. t_step. t_step. apply (perform_if_then tr0); [done..|]. clear Hs4. intros tr3 Hs3.
  t_step. apply (perform_then tr0); [done..|]. clear tr3 Hs3. intros tr1 Hs1.
  t_step. apply (perform_then tr0); [done..|]. clear tr1 Hs1. intros tr5 Hs5.
  t_step. unfold perform at 1. t_step; [left; etrans; [apply Hs5|apply Hst]|apply do_defined|]. intros [] _.
  destruct (tally_create tr5 (rel_id rel)) as (P6 & W6 & A6 & I6 & S6 & C6 & D6 & N6).
  t_step. apply perform_wp; [done..|]. intros [P7 W7 A7 I7 S7 C7 D7 N7]. t_step. cbn [fst snd].
  destruct Hst as [P0 W0 A0 I0 S0 C0 D0 N0], Hs5 as [P5 W5 A5 I5 S5 C5 D5 N5].
  rewrite app_nil_r in *. rewrite W6, W5, W0 in W7. rewrite A6, A5, A0 in A7. rewrite I6, I5, I0 in I7.
  rewrite S6, S5, S0 in S7. rewrite N6, N5, N0 in N7.
  split; [split; [done|]|split; [|done]].
  - split; cbn [rc_ins ni_target ni_slots ni_created rc_rows]; [|split|..].
    + eapply is_target_mono; [|by eapply called_passed]. by etrans; [exact P5|etrans].
    + by rewrite A7, W7.
    + by rewrite I7, W7.
    + by rewrite A7, S7.
    + done.
    + split; cbn; [done..| |done]. unfold buffers.
      destruct (pl_proute ex pl) eqn:Hpr; cbn; [naive_solver|].
      destruct (ri_FdwRoutine target) eqn:Hf; [rewrite bool_decide_eq_false_2 by done; naive_solver|].
      rewrite bool_decide_eq_true_2 by done.
      destruct (before_row_of target) eqn:Hb, (instead_row_of target) eqn:Hi; cbn; naive_solver.
    + by rewrite C7, C6, C5, C0.
    + by rewrite D7, D6, D5, D0.
    + unfold flags_ok. by destruct (pl_proute ex pl).
    + intros _. left. exact W7.
  - split; cbn; unfold due; cbn; rewrite ?app_nil_r; [apply fated_nil|done..].
Qed.

Lemma begin_insert_wp rel :
  pl_proute ex pl = bool_decide (rel_kind rel = RELKIND_PARTITIONED_TABLE) ->
  twp G (begin_insert ex rel rt)
    (fun r tr => r.1 = pl_proute ex pl /\ holding ex pl rt rows r.2 tr) [].
Proof. intros Hp. eapply twp_mono; [by apply begin_insert_log|]. by intros r tr _ [? _]. Qed.

Lemma drop_slots_wp n tr :
  twp G (drop_slots ex n)
    (fun _ tr' => tr `prefix_of` tr' /\ written tr' = written tr /\ afters tr' = afters tr /\
       indexed tr' = indexed tr /\ insteads tr' = insteads tr /\ created tr' = created tr /\
       dropped tr' = (dropped tr + n)%nat) tr.
Proof.
  revert tr. induction n as [|n IH]; intros tr; cbn [drop_slots].
  { t_step. split_and!; try done. }
  t_step. unfold perform. t_step; [done|apply do_defined|]. intros [] _.
  eapply twp_mono; [apply IH|]. intros [] tr' _ (P & W & A & I & S & C & D).
  destruct (tally_drop tr) as (P' & W' & A' & I' & S' & C' & D' & _).
  split; [by etrans|]. split_and!; [congruence..|lia].
Qed.

(** A COPY that is done: each row of the stream has its fate; what is in the
    tables, what has triggers queued and what INSTEAD OF triggers took is that of
    the rows, in their order; those that count are counted; what was written has
    its index entries; and of the slots only the root's is left to the executor's
    tuple table. *)
Record finished (raws : list rd_row) (fates : list fate) (n : Z) (tr : trace) : Prop := Finished {
  finished_fated : fated ex pl rt tr raws fates;
  finished_written : written tr = fates ≫= fate_written;
  finished_afters : afters tr = fates ≫= fate_afters;
  finished_insteads : insteads tr = fates ≫= fate_insteads;
  finished_count : n = u64 (counted fates);
  finished_balanced : balanced tr;
  finished_slots : created tr = S (dropped tr);
}.

Lemma end_insert_wp rel raws fates st tr :
  holding ex pl rt rows st tr -> logged ex pl rt raws fates st tr ->
  twp G (end_insert ex rel (pl_proute ex pl) (rc_ins st))
    (fun _ => finished raws fates (rc_rows st)) tr.
Proof.
  intros [T B R A [Un Ub Us Ut Uc] C D F W] [LF LW LA LI LR]. unfold end_insert. cbv zeta. t_step.
  eapply twp_mono; [apply flush_wp; try done|].
  - intros Hne. destruct (ni_buffered (rc_ins st)); [done|by destruct Ut].
  - lia.
  - intros ts t Hts. rewrite Hts, sizes_app in Ub. pose proof (sizes_nonneg ex [t]). lia.
  - intros ins tr1 _ (Hnil & Hins & Hland). pose proof Hland as [P1 W1 A1 I1 S1 C1 D1 N1].
    assert (Hcr : ni_created ins = ni_created (rc_ins st)) by (rewrite Hins; by case_decide).
    pose proof (landed_balanced _ _ _ _ Hland B) as [Ba Bi].
    assert (Hin : filter in_table (map (pair (ni_target (rc_ins st))) (ni_slots (rc_ins st)))
      = map (pair (ni_target (rc_ins st))) (ni_slots (rc_ins st))).
    { destruct (ni_buffered (rc_ins st)); [|by destruct Ut as [-> _]].
      apply filter_all, Forall_forall. intros p Hp. apply list_elem_of_fmap in Hp as (t & -> & _). apply Ut. }
    t_step. eapply twp_mono; [apply drop_slots_wp|]. intros [] tr2 _ (P2 & W2 & A2 & I2 & S2 & C2 & D2).
    t_step. apply (perform_then tr2); [apply stepped_refl|done..|]. intros tr3 Hs3.
    assert (Hbuf : ni_buffered ins = true -> exists rri, is_target ex rt tr3 rri /\ buffers ex pl rri).
    { intros Hb. exists (ni_target (rc_ins st)). split.
      - eapply is_target_mono; [|exact T]. etrans; [exact P1|]. etrans; [exact P2|apply Hs3].
      - replace (ni_buffered (rc_ins st)) with true in Ut by (rewrite Hins in Hb; by case_decide). done. }
    t_step. apply (perform_if_then tr2); [done..|]. clear tr3 Hs3 Hbuf. intros tr4 Hs4.
    t_step. apply (perform_then tr2); [done..|]. clear tr4 Hs4. intros tr5 Hs5.
    t_step. apply (perform_then tr2); [done..|]. clear tr5 Hs5. intros tr6 Hs6.
    t_step. apply (perform_then tr2); [done..|]. clear tr6 Hs6. intros tr7 Hs7.
    t_step. apply (perform_fdw_then tr2); [done..|]. clear tr7 Hs7. intros tr8 Hs8.
    t_step. apply (perform_if_then tr2); [done..|]. clear tr8 Hs8. intros tr9 Hs9.
    apply (perform_then tr2); [done..|]. clear tr9 Hs9. intros tr3 [P3 W3 A3 I3 S3 C3 D3 N3].
    rewrite app_nil_r in *. split; [| | | | |split|].
    + eapply fated_mono; [|exact LF]. etrans; [exact P1|]. by etrans.
    + by rewrite W3, W2, W1, Hin.
    + by rewrite A3, A2, A1.
    + by rewrite S3, S2, S1.
    + by rewrite <- LR, R, u64_u64.
    + by rewrite A3, A2, W3, W2.
    + by rewrite I3, I2, W3, W2.
    + rewrite C3, C2, C1, C, D3, D2, D1, D, Hcr. done.
Qed.
End ends.

(** ** The whole function *)

Lemma copy_receive_wp rel attnums rt enc reader states defaults :
  rows_fit (length attnums) (rd_rows reader) ->
  Forall (fun n => (0 < n <= length (rel_desc rel))%nat) attnums ->
  rd_open reader <> UB ->
  convert_states (rel_desc rel) enc 0 attnums = Ok states ->
  defaults_for ex (rel_desc rel) attnums = Ok defaults ->
  let proute := bool_decide (rel_kind rel = RELKIND_PARTITIONED_TABLE) in
  let pl := Plan ex rel proute enc (map pred attnums) states defaults in
  twp (insert_guard ex pl rt (rd_rows reader)) (chdb_copy_receive ex rel attnums rt enc reader)
    (fun n tr => rd_open reader = Ok None /\
       if decide (rd_columns reader = 0) then n = 0 /\ tr = []
       else rd_columns reader = zlen attnums /\ rd_error reader = None /\
            exists raws fates, rd_rows reader = map Ok raws /\ finished pl rt raws fates n tr) [].
Proof.
  intros Hfit Hn Hopen Hstates Hdefaults proute pl. unfold chdb_copy_receive.
  t_step. t_step; [done|]. intros error Hop. t_step. t_step; [by destruct error|]. intros [] Hce.
  assert (error = None) as -> by by destruct error.
  destruct (Z.eqb_spec (rd_columns reader) 0) as [Hz|Hz].
  { t_step. by rewrite decide_True. }
  t_step. t_step; [apply raise_if_not_UB|]. intros [] Hcols%raise_if_Ok. apply negb_false_iff, Z.eqb_eq in Hcols.
  t_step. rewrite Hstates. t_step; [done|]. intros ? [= <-].
  t_step. rewrite Hdefaults. t_step; [done|]. intros ? [= <-].
  t_step. eapply twp_mono; [by apply (begin_insert_log pl)|]. intros [pr st] tr1 _ ([Hpr Hh] & Hlog & Hn0).
  cbn [fst snd] in Hpr, Hh, Hlog. subst pr. t_step. eapply twp_mono.
  { apply (receive_loop_wp ex pl rt (rd_rows reader)); [by eapply plan_ready|done| |exact Hh|exact Hlog|done].
    cbn. by rewrite length_map. }
  intros st' tr2 _ (Hh' & raws & fates & Hraws & Hlog'). cbn [app] in Hlog'.
  t_step. t_step; [by destruct (rd_error reader)|]. intros [] He.
  t_step. eapply twp_mono; [by apply (end_insert_wp pl)|]. intros [] tr3 _ Hfin. t_step.
  split; [done|]. rewrite decide_False by done. split; [done|]. split; [by destruct (rd_error reader)|].
  by exists raws, fates.
Qed.

(** The plan of a COPY into the columns [attnums] of [rel]. *)
Definition planned rel attnums enc (pl : plan ex) : Prop :=
  exists states defaults,
    convert_states (rel_desc rel) enc 0 attnums = Ok states /\
    defaults_for ex (rel_desc rel) attnums = Ok defaults /\
    pl = Plan ex rel (bool_decide (rel_kind rel = RELKIND_PARTITIONED_TABLE)) enc
           (map pred attnums) states defaults.

(** How a COPY ends that succeeds. *)
Definition received rel attnums rt enc reader (n : Z) (tr : trace) : Prop :=
  rd_open reader = Ok None /\
  if decide (rd_columns reader = 0) then n = 0 /\ tr = []
  else rd_columns reader = zlen attnums /\ rd_error reader = None /\
       exists pl raws fates, planned rel attnums enc pl /\ rd_rows reader = map Ok raws /\
         finished pl rt raws fates n tr.

(** What may follow a trace, in such a COPY. *)
Definition copy_guard rel attnums rt enc reader (tr : trace) (ev : insert_event) : Prop :=
  exists states defaults,
    convert_states (rel_desc rel) enc 0 attnums = Ok states /\
    defaults_for ex (rel_desc rel) attnums = Ok defaults /\
    insert_guard ex
      (Plan ex rel (bool_decide (rel_kind rel = RELKIND_PARTITIONED_TABLE)) enc
         (map pred attnums) states defaults) rt (rd_rows reader) tr ev.

(** Until its columns are prepared, a COPY makes no call. *)
Lemma copy_receive_early rel attnums rt enc reader (Q : Z -> trace -> Prop) (R : error -> trace -> Prop) :
  rd_open reader <> UB ->
  (rd_open reader = Ok None -> rd_columns reader = 0 -> Q 0 []) -> (forall e, R e []) ->
  (rd_columns reader <> 0 -> forall states defaults,
     convert_states (rel_desc rel) enc 0 attnums = Ok states ->
     defaults_for ex (rel_desc rel) attnums = Ok defaults ->
     wpS (chdb_copy_receive ex rel attnums rt enc reader) Q R []) ->
  Forall (fun n => (0 < n <= length (rel_desc rel))%nat) attnums ->
  wpS (chdb_copy_receive ex rel attnums rt enc reader) Q R [].
Proof.
  intros Hopen HQ HR Hrun Hn.
  pose proof (convert_states_defined (rel_desc rel) enc 0 attnums Hn) as Hsd.
  pose proof (defaults_from_defined 1 (rel_desc rel) attnums) as Hdd.
  destruct (decide (rd_columns reader = 0)) as [Hz|Hz].
  { unfold wpS, chdb_copy_receive, mbind, stateful_bind, lift. rewrite Hz.
    destruct (rd_open reader) as [[]| |] eqn:Ho; cbn; auto. }
  destruct (convert_states (rel_desc rel) enc 0 attnums) as [states|e|] eqn:Hs;
    [destruct (defaults_for ex (rel_desc rel) attnums) as [defaults|e|] eqn:Hd|..]; [by eapply Hrun|..];
    unfold wpS, chdb_copy_receive, mbind, stateful_bind, lift; rewrite Hs, ?Hd;
    (destruct (rd_open reader) as [[]| |]; cbn; [apply HR| |apply HR|done]);
    (destruct (Z.eqb_spec (rd_columns reader) 0); [done|]);
    destruct (negb (rd_columns reader =? zlen attnums)); cbn; auto.
Qed.

(** No call into the executor, or calls that pass the guard. *)
Lemma copy_receive_wpS rel attnums rt enc reader :
  rows_fit (length attnums) (rd_rows reader) ->
  Forall (fun n => (0 < n <= length (rel_desc rel))%nat) attnums ->
  rd_open reader <> UB ->
  wpS (chdb_copy_receive ex rel attnums rt enc reader)
    (fun n tr => valid (copy_guard rel attnums rt enc reader) tr /\ received rel attnums rt enc reader n tr)
    (fun _ tr => valid (copy_guard rel attnums rt enc reader) tr) [].
Proof.
  intros Hfit Hn Hopen. apply copy_receive_early; [done| | | |done].
  - intros Ho Hz. split; [apply valid_nil|]. split; [done|]. by rewrite decide_True.
  - intros _. apply valid_nil.
  - intros _ states defaults Hs Hd.
    pose proof (copy_receive_wp rel attnums rt enc reader states defaults Hfit Hn Hopen Hs Hd) as Hwp.
    assert (Hv : forall tr, valid (insert_guard ex (Plan ex rel
        (bool_decide (rel_kind rel = RELKIND_PARTITIONED_TABLE)) enc (map pred attnums) states defaults)
        rt (rd_rows reader)) tr -> valid (copy_guard rel attnums rt enc reader) tr).
    { intros tr Hv pre ev post Heq. exists states, defaults. split_and!; [done..|]. by eapply Hv. }
    eapply wpS_mono; [apply Hwp, valid_nil| |by auto]. intros n tr [Hval [Ho Hres]]. split; [auto|].
    split; [done|]. case_decide; [done|]. destruct Hres as (? & ? & raws & fates & ? & ?).
    split; [done|]. split; [done|]. eexists _, raws, fates. split; [|done]. by exists states, defaults.
Qed.

Context (rel : Relation) (attnums : list nat) (rt : RangeTable) (enc : Z) (reader : pgch_reader).

(** The reader gives a value per copied column, and the columns exist. *)
Record receivable : Prop := Receivable {
  receivable_rows : rows_fit (length attnums) (rd_rows reader);
  receivable_columns : Forall (fun n => (0 < n <= length (rel_desc rel))%nat) attnums;
  receivable_open : rd_open reader <> UB;
}.

Abbreviation run := (chdb_copy_receive ex rel attnums rt enc reader []).

Lemma copy_receive_valid : receivable -> valid (copy_guard rel attnums rt enc reader) run.2.
Proof.
  intros [Hr Hc Ho]. pose proof (copy_receive_wpS rel attnums rt enc reader Hr Hc Ho) as Hw.
  unfold wpS in Hw. by destruct run as [[] tr]; [apply Hw|apply Hw|].
Qed.


(** C13. A COPY that succeeds read the stream to its end and met no error there;
    every row of it, in order, has one fate: it is stored in the relation it was
    for, as completed and checked in its own round, taken and given back by that
    relation's foreign-data wrapper, given to INSTEAD OF triggers, suppressed by
    BEFORE ROW triggers or declined by the foreign-data wrapper, which said so
    when they were asked for this row. What was written, what got AFTER ROW
    triggers and what INSTEAD OF triggers took are exactly the rows with these
    fates, each once and in order; the count is that of the rows that were not
    suppressed or declined; every row written has its index entries, none is left
    in the buffer, and every slot but the first, which Postgres frees with the
    executor state, was dropped. A stream without columns is no rows. The loop
    never runs past the array of slots. *)
Theorem copy_receive_complete :
  receivable ->
  wpS (chdb_copy_receive ex rel attnums rt enc reader)
    (fun n tr => rd_open reader = Ok None /\
       if decide (rd_columns reader = 0) then n = 0 /\ tr = []
       else rd_columns reader = zlen attnums /\ rd_error reader = None /\
            exists pl raws fates,
              planned rel attnums enc pl /\ rd_rows reader = map Ok raws /\
              finished pl rt raws fates n tr)
    (fun _ _ => True) [].
Proof.
  intros [Hr Hc Ho]. eapply wpS_mono; [by apply copy_receive_wpS|by intros n tr [_ ?]|done].
Qed.

(** C14. What holds between two rows, from the loop's beginning on: every row
    counted is in its relation with its index entries and triggers, was taken
    by an INSTEAD OF trigger, or waits in the buffer, checked as it is; the
    buffer is below both of its limits, and has a slot for each of its rows;
    and the flags are those of the relation's triggers. No round of the loop is
    undefined. *)
Theorem receive_invariant pl rows :
  plan_ok ex pl -> pl_proute ex pl = bool_decide (rel_kind rel = RELKIND_PARTITIONED_TABLE) ->
  twp (insert_guard ex pl rt rows) (begin_insert ex rel rt)
    (fun r tr => r.1 = pl_proute ex pl /\ holding ex pl rt rows r.2 tr) [] /\
  forall raw st tr,
    Ok raw ∈ rows -> rd_width raw = length (pl_dest ex pl) -> holding ex pl rt rows st tr ->
    twp (insert_guard ex pl rt rows) (st' ← next_slot ex st; receive_row ex pl raw st')
      (holding ex pl rt rows) tr.
Proof.
  intros Hpl Hp. split; [by apply begin_insert_wp|]. intros raw st tr Hraw Hw Hh.
  t_step. eapply twp_mono; [by apply next_slot_wp|]. intros st' tr' _ [[Hh' Hs] _]. by apply receive_row_wp.
Qed.

(** A trace has one target. *)
Lemma target_known tr rri :
  valid (copy_guard rel attnums rt enc reader) tr -> is_target ex rt tr rri ->
  ex_result_relation ex [] rt = Ok rri.
Proof.
  intros Hv (p & q & -> & Hans). apply valid_at in Hv as (? & ? & _ & _ & Hp). cbn in Hp. by subst.
Qed.

Lemma valid_take k tr :
  valid (copy_guard rel attnums rt enc reader) tr ->
  valid (copy_guard rel attnums rt enc reader) (take k tr).
Proof.
  intros Hv pre ev post Heq. apply (Hv pre ev (post ++ drop k tr)).
  rewrite <- (take_drop k tr) at 1. by rewrite Heq, <- app_assoc.
Qed.

Lemma valid_lookup k tr ev :
  valid (copy_guard rel attnums rt enc reader) tr -> tr !! k = Some ev ->
  copy_guard rel attnums rt enc reader (take k tr) ev.
Proof. intros Hv Hk. apply take_drop_middle in Hk. rewrite <- Hk in Hv. by apply valid_at in Hv. Qed.

(** What only a COPY with a buffer does: write a batch, make a slot for it, and
    finish the bulk insert. *)
Definition buffering (tr : trace) (ev : insert_event) : Prop :=
  match ev with
  | EvMultiInsert _ _ | EvFinishBulkInsert _ => True
  | EvCreateSlot _ => created tr <> 0%nat
  | _ => False
  end.

Lemma copy_guard_buffering tr ev :
  copy_guard rel attnums rt enc reader tr ev -> buffering tr ev ->
  rel_kind rel <> RELKIND_PARTITIONED_TABLE /\ exists rri, is_target ex rt tr rri /\ plain rri.
Proof.
  intros (states & defaults & _ & _ & Hg) Hb.
  assert (exists rri, is_target ex rt tr rri /\ buffers ex (Plan ex rel
      (bool_decide (rel_kind rel = RELKIND_PARTITIONED_TABLE)) enc (map pred attnums) states defaults) rri)
    as (rri & Ht & Hp & ? & ? & ?) by (destruct ev; cbn in Hg, Hb; naive_solver).
  apply bool_decide_eq_false in Hp. split; [done|]. by exists rri.
Qed.

(** A row that triggers are asked for in a COPY into an unpartitioned relation is
    one of its target. *)
Lemma copy_guard_triggered tr ev rri t :
  copy_guard rel attnums rt enc reader tr ev -> rel_kind rel <> RELKIND_PARTITIONED_TABLE ->
  ev = EvBRInsertTriggers rri t \/ ev = EvIRInsertTriggers rri t ->
  is_target ex rt tr rri /\ (before_row_of rri = true \/ instead_row_of rri = true).
Proof.
  intros (states & defaults & _ & _ & Hg) Hk Hev.
  assert (exists t0, routed ex (Plan ex rel (bool_decide (rel_kind rel = RELKIND_PARTITIONED_TABLE))
      enc (map pred attnums) states defaults) rt anywhere (rd_rows reader) tr rri t0 /\
    (before_row_of rri = true \/ instead_row_of rri = true)) as (t0 & (root & _ & Hroute) & Hb).
  { destruct Hev as [-> | ->]; destruct Hg as [Hb Hg]; [by exists t; auto|].
    unfold arrived in Hg. destruct (before_row_of rri); [|by exists t; auto].
    destruct Hg as (t0 & ? & _). exists t0. auto. }
  cbn in Hroute. rewrite bool_decide_eq_false_2 in Hroute by done. split; [apply Hroute|done].
Qed.

Lemma created_at tr : (1 < created tr)%nat ->
  exists pre relid post, tr = pre ++ EvCreateSlot relid :: post /\ created pre <> 0%nat.
Proof.
  induction tr as [|ev tr IH] using rev_ind; [cbn; lia|]. intros Hc.
  destruct (decide (1 < created tr)%nat) as [H1|H1].
  { destruct (IH H1) as (pre & relid & post & -> & ?). exists pre, relid, (post ++ [ev]).
    by rewrite <- app_assoc. }
  destruct ev; try (exfalso; revert Hc; tally; lia). exists tr, relid, []. split; [done|].
  revert Hc. tally. lia.
Qed.

(** C20. BEFORE ROW and INSTEAD OF triggers may look at the relation, so a COPY
    that fires one has no buffer: it writes no batch, before or after, makes no
    slot but that of the row itself, and has no bulk insert to finish. The rows
    before a trigger's are in the relation by then. *)
Theorem triggers_never_buffered rri t ev :
  receivable -> ev = EvBRInsertTriggers rri t \/ ev = EvIRInsertTriggers rri t -> ev ∈ run.2 ->
  (forall rri' ts, EvMultiInsert rri' ts ∉ run.2) /\
  (created run.2 <= 1)%nat /\
  (forall relid, EvFinishBulkInsert relid ∉ run.2).
Proof.
  intros Hr Hev Hin. pose proof (copy_receive_valid Hr) as Hv.
  assert (Hno : forall j ev', run.2 !! j = Some ev' -> ~ buffering (take j run.2) ev').
  { intros j ev' Hj Hb. apply list_elem_of_lookup in Hin as [i Hi].
    apply (valid_lookup _ _ _ Hv) in Hi. apply (valid_lookup _ _ _ Hv) in Hj.
    apply copy_guard_buffering in Hj as (Hk & rri' & Ht' & [_ Hpb Hpi]); [|done].
    eapply copy_guard_triggered in Hi as [Ht Hb']; [|done..].
    apply target_known in Ht, Ht'; [|by apply valid_take..].
    rewrite Ht in Ht'. injection Ht' as ->. destruct Hb'; congruence. }
  split_and!.
  - intros rri' ts [j Hj]%list_elem_of_lookup. by apply Hno in Hj.
  - destruct (decide (created run.2 <= 1)%nat) as [|Hc]; [done|].
    destruct (created_at run.2) as (pre & relid & post & Heq & Hc'); [lia|].
    exfalso. apply (Hno (length pre) (EvCreateSlot relid)); rewrite Heq.
    + by apply list_lookup_middle.
    + by rewrite take_app_length.
  - intros relid [j Hj]%list_elem_of_lookup. by apply Hno in Hj.
Qed.

Lemma grows_drop_slots k : Grows (drop_slots ex k).
Proof. induction k; cbn [drop_slots]; apply _. Qed.

Lemma grows_after_inserts ins slots : Grows (after_inserts ex ins slots).
Proof.
  induction slots; cbn [after_inserts]; [apply _|]. unfold after_insert, insert_index_tuples, perform.
  apply grows_bind; [|done]. apply grows_bind; [by destruct (0 <? _); apply _|apply _].
Qed.

Lemma grows_end proute ins : Grows (end_insert ex rel proute ins).
Proof.
  pose proof grows_drop_slots. pose proof grows_after_inserts.
  unfold end_insert, flush_buffer, perform. cbv zeta.
  apply grows_bind; [destruct (ni_slots ins); apply _|]. intros ins'.
  repeat (apply grows_bind; [|intros []]);
    repeat match goal with
           | |- Grows (if ?b then _ else _) => destruct b
           | |- Grows (match ?x with _ => _ end) => destruct x
           end; apply _.
Qed.

(** The same stream, had it not broken off. *)
Definition unbroken : pgch_reader :=
  MkReader _ (rd_open reader) (rd_columns reader) (rd_rows reader) None.

(** A stream that breaks off: the COPY is refused with the error that says so,
    unless it had failed before. *)
Lemma broken_stream e :
  rd_columns reader <> 0 -> rd_error reader = Some e ->
  let clean := chdb_copy_receive ex rel attnums rt enc unbroken [] in
  (exists tr, run = (Raise (report_reader_error e), tr) /\ tr `prefix_of` clean.2) \/
  (run = clean /\ forall n, clean.1 <> Ok n).
Proof.
  intros Hz He clean. subst clean. unfold chdb_copy_receive, mbind, stateful_bind, lift. cbn.
  rewrite He. cbn. destruct (rd_open reader) as [error| |]; cbn; [|by right..].
  destruct (check_reader error) as [[]| |]; cbn; [|by right..].
  rewrite (proj2 (Z.eqb_neq _ _) Hz). destruct (raise_if _ _) as [[]| |]; cbn; [|by right..].
  destruct (convert_states _ _ _ _) as [states| |]; cbn; [|by right..].
  destruct (defaults_for _ _ _) as [defaults| |]; cbn; [|by right..].
  destruct (begin_insert _ _ _ _) as [[[proute st]| |] tr1]; cbn; [|by right..].
  destruct (receive_loop _ _ _ _ _) as [[st'| |] tr2]; cbn; [|by right..].
  left. exists tr2. split; [done|]. destruct (grows_end proute (rc_ins st') tr2) as [evs Hevs].
  destruct (end_insert _ _ _ _ _) as [[]]; cbn in *; subst; by eexists.
Qed.

Lemma broken_never_Ok e n : rd_columns reader <> 0 -> rd_error reader = Some e -> run.1 <> Ok n.
Proof. intros Hz He. by destruct (broken_stream e Hz He) as [(tr & -> & _)|[-> ?]]. Qed.

(** C21. Errors of the stream: one that cannot be opened, or has another number
    of columns than the COPY, is refused before anything of the relation is
    touched; one that has no columns at all is no rows; and one with columns that
    breaks off is refused with the error that says so, unless the COPY had failed
    before its end, exactly as it does on the same rows without the break. It
    never succeeds. *)
Theorem copy_receive_refusals :
  (forall e, rd_open reader = Ok (Some e) -> run = (Raise (report_reader_error e), [])) /\
  (rd_open reader = Ok None -> rd_columns reader = 0 -> run = (Ok 0, [])) /\
  (rd_open reader = Ok None -> rd_columns reader <> 0 -> rd_columns reader <> zlen attnums ->
   run = (Raise (err_received (rd_columns reader) (zlen attnums)), [])) /\
  (forall e, rd_columns reader <> 0 -> rd_error reader = Some e ->
     let clean := chdb_copy_receive ex rel attnums rt enc unbroken [] in
     (exists tr, run = (Raise (report_reader_error e), tr) /\ tr `prefix_of` clean.2) \/
     (run = clean /\ forall n, clean.1 <> Ok n)).
Proof.
  split_and!.
  - intros e Ho. unfold chdb_copy_receive, mbind, stateful_bind, lift. by rewrite Ho.
  - intros Ho Hz. unfold chdb_copy_receive, mbind, stateful_bind, lift. by rewrite Ho, Hz.
  - intros Ho Hz Hne. unfold chdb_copy_receive, mbind, stateful_bind, lift. rewrite Ho. cbn.
    by rewrite (proj2 (Z.eqb_neq _ _) Hz), (proj2 (Z.eqb_neq _ _) Hne).
  - apply broken_stream.
Qed.

(** C23. A default is evaluated for its own row, but while the rows before it may
    still be in the buffer. In a COPY into a plain table that writes fewer than
    1000 rows, of together less than 64 KB, no default sees any of them in the
    table. *)
Theorem defaults_behind_buffer target dest pre post :
  receivable -> rel_kind rel <> RELKIND_PARTITIONED_TABLE -> plain target ->
  ex_result_relation ex [] rt = Ok target ->
  zlen (written run.2) < CHDB_MAX_BUFFERED_TUPLES ->
  sizes ex (map snd (written run.2)) < CHDB_MAX_BUFFERED_BYTES ->
  run.2 = pre ++ EvDefault dest :: post -> written pre = [].
Proof.
  intros Hr Hk [Hf Hb Hi] Ht Hrows Hsize Heq. pose proof (copy_receive_valid Hr) as Hv.
  assert (Hpre : valid (copy_guard rel attnums rt enc reader) pre).
  { replace pre with (take (length pre) run.2); [by apply valid_take|]. by rewrite Heq, take_app_length. }
  rewrite Heq in Hv, Hrows, Hsize. apply valid_at in Hv as (states & defaults & _ & _ & rri & Hrri & Hwhole).
  apply (target_known _ _ Hpre) in Hrri. rewrite Ht in Hrri. injection Hrri as <-.
  destruct Hwhole as [?|Hfull]; [|done|].
  { split; [by apply bool_decide_eq_false_2|done]. }
  exfalso. unfold written in *. rewrite bind_app in Hrows, Hsize.
  destruct (full_app ex _ (map snd ((EvDefault dest :: post) ≫= writes)) Hfull) as [Hl|Hl];
    rewrite <- map_app in Hl; [|lia]. rewrite length_map in Hl. lia.
Qed.
End theorems.

(** ** Examples *)

(** Rows of numbers. *)
#[local] Instance numbers : RowReader := {
  rd_row := list Z;
  rd_state := unit;
  pgch_reader_convert_init := fun _ _ _ _ => Ok tt;
  pgch_reader_fill := fun _ raw => Ok (map (fun z => (z, false)) raw);
  pgch_reader_fill_map := fun _ raw _ dest cells => place dest (map (fun z => (z, false)) raw) cells;
}.

#[local] Instance numbers_laws : RowReaderLaws.
Proof.
  refine {| rd_width := fun raw : @rd_row numbers => length (raw : list Z);
            rd_values := fun _ (raw : @rd_row numbers) _ => Ok (map (fun z => (z, false)) (raw : list Z))
         |}; cbn; try done.
  intros _ raw _ values [= <-]. by rewrite length_map.
Defined.

(** A table with an index and constraints, or with a BEFORE ROW trigger too. *)
Definition sample_table (triggered : bool) : ResultRelInfo :=
  MkResultRelInfo 16384 1 (if triggered then Some (MkTriggerDesc true false) else None) None
    (Some (MkTupleConstr false)) false.

(** Every call succeeds. The second column's default is the number of rows in
    the table. *)
Definition sample_executor (triggered : bool) : Executor := {|
  ex_expr := unit;
  ex_do := fun _ _ => Ok tt;
  ex_result_relation := fun _ _ => Ok (sample_table triggered);
  ex_transition := fun _ => false;
  build_column_default := fun n => Ok (if decide (n = 2%nat) then Some tt else None);
  ex_eval := fun tr _ => Ok (zlen (written tr), false);
  ex_find_partition := fun _ _ => Ok (sample_table triggered);
  ex_root_to_child := fun _ => None;
  ex_br_triggers := fun _ _ t => Ok (Some t);
  ex_generated := fun _ _ t => Ok t;
  ex_foreign_insert := fun _ _ t => Ok (Some t);
  ex_recheck := fun _ _ _ => Ok [];
  heap_compute_data_size := fun t => 8 * zlen (tts_cells t) `mod` 1000;
|}.

#[export] Instance sample_executor_laws triggered : ExecutorLaws (sample_executor triggered).
Proof.
  split; try done. intros t. cbn. pose proof (Z.mod_pos_bound (zlen (tts_cells t)) 1000). lia.
Qed.

Definition sample_events : Relation :=
  RelationData 16384 (b8 "events") RELKIND_RELATION
    [Attribute (b8 "id") 23 (-1) true false false; Attribute (b8 "name") 23 (-1) false false false].
Definition sample_rt : RangeTable := RangeTableEntry 16384 ACL_INSERT ∅ ∅.

(** COPY events (id) with two rows. *)
Definition sample_stream : pgch_reader :=
  @MkReader numbers (Ok None) 1 [Ok ([7] : list Z); Ok ([8] : list Z)] None.
Definition sample_run (triggered : bool) : res error Z * trace :=
  chdb_copy_receive (sample_executor triggered) sample_events [1%nat] sample_rt 0 sample_stream [].

Lemma sample_receivable : receivable sample_events [1%nat] sample_stream.
Proof. split; [by repeat constructor|repeat constructor; cbn; lia|done]. Qed.

(** The default counts the rows of the table: the second row's misses the first,
    which is still in the buffer. With a BEFORE ROW trigger on the table it is
    there. *)
Lemma defaults_behind_buffer_witness :
  let stored id count := Tuple [(id, false); (count, false)] 16384 in
  map snd (written (sample_run false).2) = [stored 7 0; stored 8 0] /\
  map snd (written (sample_run true).2) = [stored 7 0; stored 8 1] /\
  written (take 16 (sample_run false).2) = [].
Proof.
  intros stored. split; [vm_compute; reflexivity|]. split; [vm_compute; reflexivity|].
  assert (Hrun : (sample_run false).2 = take 16 (sample_run false).2 ++
    EvDefault 1 :: drop 17 (sample_run false).2) by (vm_compute; reflexivity).
  assert (H1 : zlen (written (sample_run false).2) < CHDB_MAX_BUFFERED_TUPLES) by (vm_compute; reflexivity).
  assert (H2 : sizes (sample_executor false) (map snd (written (sample_run false).2))
    < CHDB_MAX_BUFFERED_BYTES) by (vm_compute; reflexivity).
  exact (defaults_behind_buffer (sample_executor false) sample_events [1%nat] sample_rt 0 sample_stream
    (sample_table false) 1 _ _ sample_receivable ltac:(discriminate) ltac:(split; reflexivity) eq_refl
    H1 H2 Hrun).
Defined.


Lemma copy_receive_complete_witness :
  receivable sample_events [1%nat] sample_stream /\
  exists tr pl raws fates,
    chdb_copy_receive (sample_executor true) sample_events [1%nat] sample_rt 0 sample_stream []
      = (Ok 2, tr) /\
    rd_rows sample_stream = map Ok raws /\ finished (sample_executor true) pl sample_rt raws fates 2 tr.
Proof.
  split; [exact sample_receivable|].
  pose proof (copy_receive_complete (sample_executor true) sample_events [1%nat] sample_rt 0
    sample_stream sample_receivable) as Hw.
  assert (Hrun : chdb_copy_receive (sample_executor true) sample_events [1%nat] sample_rt 0
    sample_stream [] = (Ok 2, (sample_run true).2)) by (vm_compute; reflexivity).
  apply (wpS_Ok _ _ _ _ _ _ Hrun) in Hw as (_ & _ & _ & pl & raws & fates & _ & Hraws & Hfin).
  exists (sample_run true).2, pl, raws, fates. split; [exact Hrun|]. split; [exact Hraws|exact Hfin].
Defined.

Definition sample_plan : plan (sample_executor false) :=
  Plan (sample_executor false) sample_events false 0 [0%nat] [tt] [(1%nat, tt)].

Lemma receive_invariant_witness :
  let rows := rd_rows sample_stream in
  plan_ok (sample_executor false) sample_plan /\
  exists st tr, begin_insert (sample_executor false) sample_events sample_rt [] = (Ok (false, st), tr) /\
    holding (sample_executor false) sample_plan sample_rt rows st tr /\
    exists st' tr',
      (st0 ← next_slot (sample_executor false) st;
       receive_row (sample_executor false) sample_plan ([7] : list Z) st0) tr = (Ok st', tr') /\
      holding (sample_executor false) sample_plan sample_rt rows st' tr'.
Proof.
  intros rows. assert (Hpl : plan_ok (sample_executor false) sample_plan)
    by (split; repeat constructor).
  split; [exact Hpl|].
  destruct (receive_invariant (sample_executor false) sample_events sample_rt sample_plan rows
    Hpl eq_refl) as [Hbegin Hround].
  specialize (Hbegin (valid_nil _)).
  assert (Hruns : match begin_insert (sample_executor false) sample_events sample_rt [] with
    | (Ok (false, st), tr) =>
        match (st0 ← next_slot (sample_executor false) st;
               receive_row (sample_executor false) sample_plan ([7] : list Z) st0) tr with
        | (Ok _, _) => true
        | _ => false
        end
    | _ => false
    end = true) by (vm_compute; reflexivity).
  destruct (begin_insert (sample_executor false) sample_events sample_rt [])
    as [[[[] st]| |] tr] eqn:Hb; try discriminate Hruns.
  destruct ((st0 ← next_slot (sample_executor false) st;
    receive_row (sample_executor false) sample_plan ([7] : list Z) st0) tr)
    as [[st'| |] tr'] eqn:Hr; try discriminate Hruns.
  exists st, tr. split; [reflexivity|].
  apply (wpS_Ok _ _ _ _ _ _ Hb) in Hbegin as (Hv & _ & Hh). split; [exact Hh|].
  exists st', tr'. split; [exact Hr|].
  assert (Hin : Ok ([7] : list Z) ∈ rows) by constructor.
  pose proof (Hround ([7] : list Z) st tr Hin eq_refl Hh Hv) as Hw.
  apply (wpS_Ok _ _ _ _ _ _ Hr) in Hw. apply Hw.
Defined.

Lemma triggers_never_buffered_witness :
  EvBRInsertTriggers (sample_table true) (Tuple [(7, false); (0, false)] 16384) ∈ (sample_run true).2 /\
  (forall rri ts, EvMultiInsert rri ts ∉ (sample_run true).2) /\
  (created (sample_run true).2 <= 1)%nat /\
  (forall relid, EvFinishBulkInsert relid ∉ (sample_run true).2).
Proof.
  assert (Hin : EvBRInsertTriggers (sample_table true) (Tuple [(7, false); (0, false)] 16384)
    ∈ (sample_run true).2) by (apply (list_elem_of_lookup_2 _ 11); vm_compute; reflexivity).
  split; [exact Hin|].
  exact (triggers_never_buffered (sample_executor true) sample_events [1%nat] sample_rt 0
    sample_stream _ _ _ sample_receivable (or_introl eq_refl) Hin).
Defined.

(** A stream cut off by an error. *)
Definition sample_cut : pgch_reader :=
  @MkReader numbers (Ok None) 1 [Ok ([7] : list Z)] (Some (b8 "Cannot read all data")).

Lemma copy_receive_refusals_witness :
  (chdb_copy_receive (sample_executor false) sample_events [1%nat] sample_rt 0 sample_cut []).1
    = Raise (report_reader_error (b8 "Cannot read all data")).
Proof.
  assert (Hclean : (chdb_copy_receive (sample_executor false) sample_events [1%nat] sample_rt 0
    (unbroken sample_cut) []).1 = Ok 1) by (vm_compute; reflexivity).
  destruct (copy_receive_refusals (sample_executor false) sample_events [1%nat] sample_rt 0 sample_cut)
    as (_ & _ & _ & Hbroken).
  destruct (Hbroken (b8 "Cannot read all data") ltac:(discriminate) eq_refl) as [(tr & Hrun & _)|[_ Hno]].
  - exact (f_equal fst Hrun).
  - destruct (Hno 1 Hclean).
Defined.
