(* ===== verification/ReceivePlain.v ===== *)
(** * ReceivePlain: COPY FROM into a plain table, against a reference

    A table without row triggers that is neither partitioned nor foreign gets
    every row of the stream, in order, whatever its defaults and checks look at.
    When its defaults do not look at what happened before, the whole of
    [chdb_copy_receive] comes to a function on the rows: the buffer does not
    show. *)

From stdpp Require Import prelude.
From S2P Require Import Prelude Stateful Logic Total Words Catalog Structure Insert Receive.
From S2P Require Import ReceiveProps ReceiveLogic ReceiveTheorems.
Local Open Scope Z_scope.

(** ** Every row is stored *)

Section plain.
Context `{RowReaderLaws} (ex : Executor) `{!ExecutorLaws ex}.
Context (rel : Relation) (attnums : list nat) (rt : RangeTable) (enc : Z) (reader : pgch_reader).
Context (target : ResultRelInfo) (Hplain : plain target).
Context (Hkind : rel_kind rel <> RELKIND_PARTITIONED_TABLE) (Htarget : ex_result_relation ex [] rt = Ok target).

Lemma planned_direct pl : planned ex rel attnums enc pl -> pl_proute ex pl = false.
Proof. intros (states & defaults & _ & _ & ->). by apply bool_decide_eq_false_2. Qed.

Section trace.
Context (pl : plan ex) (Hpl : pl_proute ex pl = false).
Context (tr : trace) (Hv : valid (copy_guard ex rel attnums rt enc reader) tr).

Lemma routed_target own rows rri t : routed ex pl rt own rows tr rri t -> rri = target.
Proof.
  intros (root & _ & Hr). rewrite Hpl in Hr. destruct Hr as [Ht _].
  apply (target_known _ _ _ _ _ _ _ _ Hv) in Ht. congruence.
Qed.

Lemma arrived_target own rows rri t : arrived ex pl rt own rows tr rri t -> rri = target.
Proof.
  unfold arrived. destruct (before_row_of rri); [intros (t0 & Hr & _)|intros Hr]; by eapply routed_target.
Qed.

Lemma admitted_target own rows rri t : admitted ex pl rt own rows tr rri t -> rri = target.
Proof.
  intros [Hc _ _]. unfold completed in Hc.
  destruct (generated_of rri); [destruct Hc as (t0 & Hc & _)|]; by eapply arrived_target.
Qed.

Lemma plain_fate n raw f : befell ex pl rt n tr raw f -> exists t, f = Stored target t.
Proof.
  destruct Hplain as [Hf Hb Hi]. destruct f as [rri t|rri t|rri t|rri t|rri t]; cbn.
  - intros (_ & _ & ->%admitted_target). eauto.
  - by intros (Hn & _ & t0 & t1 & ->%admitted_target & _).
  - intros (Hn & ->%arrived_target & _). congruence.
  - intros (Hn & ->%routed_target & _). congruence.
  - by intros (Hn & _ & ->%admitted_target & _).
Qed.

Lemma plain_fates raws fates :
  fated ex pl rt tr raws fates -> exists ts, fates = map (Stored target) ts.
Proof.
  intros [Hl Hf]. assert (Hall : Forall (fun f => exists t, f = Stored target t) fates).
  { apply Forall_lookup_2. intros i f Hi. destruct (lookup_lt_is_Some_2 raws i) as [raw Hraw].
    { rewrite <- Hl. by eapply lookup_lt_Some. }
    eapply plain_fate, Hf; [exact Hraw|exact Hi]. }
  clear Hl Hf. induction Hall as [|f fates [t ->] _ [ts ->]]; [by exists []|by exists (t :: ts)].
Qed.
End trace.

Lemma stored_written ts :
  map (Stored target) ts ≫= fate_written = map (pair target) ts /\
  map (Stored target) ts ≫= fate_afters = map (pair target) ts /\
  counted (map (Stored target) ts) = zlen ts.
Proof.
  unfold counted. induction ts as [|t ts (IH1 & IH2 & IH3)]; [done|]. cbn in *.
  split_and!; [by f_equal..|lia].
Qed.

(** All that a COPY into [target] that succeeds did with the rows. *)
Lemma received_plain n tr :
  valid (copy_guard ex rel attnums rt enc reader) tr ->
  received ex rel attnums rt enc reader n tr -> rd_columns reader <> 0 ->
  rd_open reader = Ok None /\ rd_columns reader = zlen attnums /\ rd_error reader = None /\
  exists pl raws ts,
    planned ex rel attnums enc pl /\ rd_rows reader = map Ok raws /\
    fated ex pl rt tr raws (map (Stored target) ts) /\
    written tr = map (pair target) ts /\ afters tr = map (pair target) ts /\ n = u64 (zlen ts).
Proof.
  intros Hv [Ho Hres] Hc. rewrite decide_False in Hres by done.
  destruct Hres as (Hcols & Herr & pl & raws & fates & Hpl & Hraws & Hfin).
  destruct (plain_fates pl (planned_direct _ Hpl) tr Hv raws fates) as [ts ->]; [apply Hfin|].
  destruct (stored_written ts) as (Hw & Ha & Hn). destruct Hfin as [F W A I N B S].
  split_and!; [done..|]. exists pl, raws, ts. split_and!; congruence.
Qed.
End plain.

(** ** The reference *)

(** Defaults and generated columns that give the same whatever happened before.
    Generated columns always do in Postgres; a default does unless it is
    volatile, or reads a table. *)
Class Immutable (ex : Executor) : Prop := {
  immutable_eval tr e : ex_eval ex tr e = ex_eval ex [] e;
  immutable_generated tr rri t : ex_generated ex tr rri t = ex_generated ex [] rri t;
}.

Section reference.
Context `{RowReaderLaws} (ex : Executor).

Fixpoint default_cells (defaults : nativeDefaults ex) (cells : list cell) : res error (list cell) :=
  match defaults with
  | [] => Ok cells
  | (dest, expr) :: defaults =>
      v ← ex_eval ex [] expr;
      default_cells defaults (<[dest := v]> cells)
  end.

Section row.
Context (pl : plan ex) (target : ResultRelInfo).

Definition reference_row (raw : rd_row) : res error tuple :=
  values ← rd_values (pl_encoding_check ex pl) raw (pl_states ex pl);
  cells ← place (pl_dest ex pl) values (replicate (length (rel_desc (pl_rel ex pl))) (0, true));
  cells ← default_cells (pl_defaults ex pl) cells;
  let t := Tuple cells (rel_id (pl_rel ex pl)) in
  if generated_of target then ex_generated ex [] target t else Ok t.

Fixpoint reference_rows (rows : list (res error rd_row)) : res error (list tuple) :=
  match rows with
  | [] => Ok []
  | next :: rows =>
      raw ← next;
      t ← reference_row raw;
      ts ← reference_rows rows;
      Ok (t :: ts)
  end.
End row.

(** The rows a COPY into [target] stores. *)
Definition reference_copy (rel : Relation) (attnums : list nat) (enc : Z) (target : ResultRelInfo)
    (reader : pgch_reader) : res error (list tuple) :=
  error ← rd_open reader;
  check_reader error ;;
  if rd_columns reader =? 0 then Ok []
  else
    raise_if (negb (rd_columns reader =? zlen attnums))
      (err_received (rd_columns reader) (zlen attnums)) ;;
    states ← convert_states (rel_desc rel) enc 0 attnums;
    defaults ← defaults_for ex (rel_desc rel) attnums;
    ts ← reference_rows (Plan ex rel false enc (map pred attnums) states defaults) target
           (rd_rows reader);
    check_reader (rd_error reader) ;;
    Ok ts.

(** ** A row stored is the reference's *)

Context `{!ExecutorLaws ex, !Immutable ex}.

Lemma default_cells_Ok defaults cells out :
  Forall (fun d => (d.1 < length cells)%nat) defaults ->
  (forall i e, (i, e) ∈ defaults -> exists v, ex_eval ex [] e = Ok v /\ out !! i = Some v) ->
  (forall i, (forall e, (i, e) ∉ defaults) -> out !! i = cells !! i) ->
  default_cells defaults cells = Ok out.
Proof.
  revert cells. induction defaults as [|[d e] defaults IH]; intros cells Hd Hin Hout; cbn.
  { f_equal. symmetry. apply list_eq. intros i. apply Hout. set_solver. }
  apply Forall_cons in Hd as [Hd1 Hd]. cbn in Hd1.
  destruct (Hin d e) as (v & Hv & Ho); [set_solver|]. rewrite Hv. cbn.
  apply IH; [by rewrite length_insert|set_solver|]. intros i Hi. destruct (decide (i = d)) as [->|Hne].
  - by rewrite list_lookup_insert_eq.
  - rewrite list_lookup_insert_ne by done. apply Hout. set_solver.
Qed.

(** The defaults of a plan are those of different columns. *)
Definition defaults_unique (pl : plan ex) : Prop :=
  forall i e e', (i, e) ∈ pl_defaults ex pl -> (i, e') ∈ pl_defaults ex pl -> e = e'.

Lemma planned_unique rel attnums enc pl : planned ex rel attnums enc pl -> defaults_unique pl.
Proof.
  intros (states & defaults & _ & Hd & ->) i e e' Hi Hi'. cbn in *.
  apply (defaults_from_spec ex 0 _ _ _ Hd) in Hi as (_ & _ & _ & _ & He).
  apply (defaults_from_spec ex 0 _ _ _ Hd) in Hi' as (_ & _ & _ & _ & He'). congruence.
Qed.

Lemma called_answer own tr ev (answer : trace -> Prop) : called own tr ev answer -> exists pre, answer pre.
Proof. intros (pre & _ & _ & _ & ?). eauto. Qed.

Lemma filled_reference pl own tr raw t :
  plan_ok ex pl -> defaults_unique pl -> filled ex pl own tr raw t ->
  exists values cells,
    rd_values (pl_encoding_check ex pl) raw (pl_states ex pl) = Ok values /\
    place (pl_dest ex pl) values (replicate (length (rel_desc (pl_rel ex pl))) (0, true)) = Ok cells /\
    default_cells (pl_defaults ex pl) cells = Ok (tts_cells t) /\ tts_tableOid t = rel_id (pl_rel ex pl).
Proof.
  intros [Hdest Hdef] Hu (Hoid & values & cells & Hv & Hc & Hi). exists values, cells.
  split_and!; [done..| |done]. apply default_cells_Ok.
  - eapply Forall_impl; [exact Hdef|]. intros d ?. rewrite (place_length _ _ _ _ Hc).
    by rewrite length_replicate.
  - intros i e Hin. destruct (Hi i) as [(e' & v & Hin' & Hcell & Hcall)|[Hno _]]; [|by destruct (Hno e)].
    rewrite (Hu _ _ _ Hin Hin'). destruct (called_answer _ _ _ _ Hcall) as [pre Hpre].
    rewrite immutable_eval in Hpre. eauto.
  - intros i Hno. destruct (Hi i) as [(e' & v & Hin & _)|[_ ?]]; [by destruct (Hno e')|done].
Qed.

Lemma stored_reference pl rt n tr raw target t :
  plan_ok ex pl -> defaults_unique pl -> pl_proute ex pl = false -> plain target ->
  befell ex pl rt n tr raw (Stored target t) -> reference_row pl target raw = Ok t.
Proof.
  intros Hok Hu Hpl [_ Hb _] (_ & _ & [Hcomp _ _]). unfold completed, arrived, routed in Hcomp.
  rewrite Hb, Hpl in Hcomp.
  assert (Hroot : forall root, root_row ex pl (in_round n) [Ok raw] tr root ->
    reference_row pl target raw
    = if generated_of target then ex_generated ex [] target root else Ok root).
  { intros root (raw' & [= ->]%list_elem_of_singleton & Hf).
    destruct (filled_reference _ _ _ _ _ Hok Hu Hf) as (values & cells & Hv & Hc & Hd & Hoid).
    unfold reference_row. rewrite Hv. cbn. rewrite Hc. cbn. rewrite Hd. cbn. rewrite <- Hoid. by destruct root. }
  destruct (generated_of target).
  - destruct Hcomp as (t0 & (root & Hr & _ & ->) & Hcall). rewrite (Hroot _ Hr).
    destruct (called_answer _ _ _ _ Hcall) as [pre Hpre]. by rewrite immutable_generated in Hpre.
  - destruct Hcomp as (root & Hr & _ & ->). by rewrite (Hroot _ Hr).
Qed.

Lemma stored_references pl rt tr raws target ts :
  plan_ok ex pl -> defaults_unique pl -> pl_proute ex pl = false -> plain target ->
  fated ex pl rt tr raws (map (Stored target) ts) ->
  reference_rows pl target (map Ok raws) = Ok ts.
Proof.
  intros Hok Hu Hpl Hplain [Hl Hf].
  assert (Hrows : forall raws ts, length ts = length raws ->
    (forall i raw t, raws !! i = Some raw -> ts !! i = Some t -> reference_row pl target raw = Ok t) ->
    reference_rows pl target (map Ok raws) = Ok ts).
  { clear. induction raws as [|raw raws IH]; intros [|t ts] Hl Hall; try done. cbn.
    rewrite (Hall 0%nat raw t) by done. cbn. rewrite (IH ts); [done|by injection Hl|].
    intros i raw' t' ? ?. by apply (Hall (S i)). }
  apply Hrows; [by rewrite length_map in Hl|]. intros i raw t Hraw Ht.
  eapply (stored_reference pl rt (S i)); [done..|]. apply Hf; [done|]. by rewrite list_lookup_fmap, Ht.
Qed.

(** C15. When the defaults do not look at what happened before (none is volatile
    or reads a table), a COPY FROM into a plain table that succeeds is the
    reference: it stores the rows of the stream, each with its values where the
    column list says, the defaults of the other columns and its generated
    columns, every one once and in order, and counts them; however many rows
    there are, the buffer and its flushes do not show. *)
Theorem copy_receive_plain rel attnums rt enc reader target :
  receivable rel attnums reader -> rel_kind rel <> RELKIND_PARTITIONED_TABLE -> plain target ->
  ex_result_relation ex [] rt = Ok target ->
  wpS (chdb_copy_receive ex rel attnums rt enc reader)
    (fun n tr => exists ts, reference_copy rel attnums enc target reader = Ok ts /\
       written tr = map (pair target) ts /\ afters tr = map (pair target) ts /\ n = u64 (zlen ts))
    (fun _ _ => True) [].
Proof.
  intros [Hfit Hn Hopen] Hk Hplain Ht.
  eapply wpS_mono; [by apply (copy_receive_wpS ex)| |done]. intros n tr [Hv Hrec].
  unfold reference_copy. destruct (decide (rd_columns reader = 0)) as [Hz|Hz].
  { destruct Hrec as [-> Hrec]. rewrite decide_True in Hrec by done. destruct Hrec as [-> ->].
    cbn. rewrite Hz. by exists []. }
  destruct (received_plain ex rel attnums rt enc reader target Hplain Hk Ht n tr Hv Hrec Hz)
    as (-> & Hc & -> & pl & raws & ts & Hpl & -> & Hf & Hw & Ha & Hcount).
  pose proof (planned_unique _ _ _ _ Hpl) as Hu. pose proof (planned_direct ex _ _ _ Hk _ Hpl) as Hp.
  destruct Hpl as (states & defaults & Hs & Hd & ->).
  assert (Hok := plan_ready ex rel (bool_decide (rel_kind rel = RELKIND_PARTITIONED_TABLE)) enc attnums
    states defaults Hn Hd).
  pose proof (stored_references _ _ _ _ _ _ Hok Hu Hp Hplain Hf) as Hrows.
  rewrite (bool_decide_eq_false_2 _ Hk) in Hrows. exists ts. cbn.
  rewrite (proj2 (Z.eqb_neq _ _) Hz), (proj2 (Z.eqb_eq _ _) Hc). cbn. rewrite Hs. cbn. rewrite Hd. cbn.
  by rewrite Hrows.
Qed.
End reference.

(** ** An example *)

#[local] Existing Instances numbers numbers_laws.

(** The sample executor, with a default that is always 5. *)
Definition constant_executor : Executor := {|
  ex_expr := unit;
  ex_do := fun _ _ => Ok tt;
  ex_result_relation := fun _ _ => Ok (sample_table false);
  ex_transition := fun _ => false;
  build_column_default := fun n => Ok (if decide (n = 2%nat) then Some tt else None);
  ex_eval := fun _ _ => Ok (5, false);
  ex_find_partition := fun _ _ => Ok (sample_table false);
  ex_root_to_child := fun _ => None;
  ex_br_triggers := fun _ _ t => Ok (Some t);
  ex_generated := fun _ _ t => Ok t;
  ex_foreign_insert := fun _ _ t => Ok (Some t);
  ex_recheck := fun _ _ _ => Ok [];
  heap_compute_data_size := fun _ => 40000;
|}.

#[export] Instance constant_executor_laws : ExecutorLaws constant_executor.
Proof. by split. Qed.
#[export] Instance constant_executor_immutable : Immutable constant_executor.
Proof. by split. Qed.

(** Three rows, which cross a flush. *)
Definition sample_three : pgch_reader :=
  @MkReader numbers (Ok None) 1 (map (fun z => Ok [z]) [7; 8; 9]) None.

Lemma copy_receive_plain_witness :
  exists n tr ts, chdb_copy_receive constant_executor sample_events [1%nat] sample_rt 0 sample_three []
      = (Ok n, tr) /\
    reference_copy constant_executor sample_events [1%nat] 0 (sample_table false) sample_three = Ok ts /\
    map snd (written tr) = ts /\ n = 3.
Proof.
  assert (Hr : receivable sample_events [1%nat] sample_three)
    by (split; [by repeat constructor|repeat constructor; cbn; lia|done]).
  pose proof (copy_receive_plain constant_executor sample_events [1%nat] sample_rt 0 sample_three
    (sample_table false) Hr ltac:(done) ltac:(done) ltac:(done)) as Hw.
  assert (Hres : (chdb_copy_receive constant_executor sample_events [1%nat] sample_rt 0 sample_three []).1
    = Ok 3) by (vm_compute; reflexivity).
  apply run_Ok in Hres.
  exists 3, (chdb_copy_receive constant_executor sample_events [1%nat] sample_rt 0 sample_three []).2.
  apply (wpS_Ok _ _ _ _ _ _ Hres) in Hw as (ts & Hts & Hwr & _ & _).
  exists ts. split; [exact Hres|]. split; [exact Hts|]. split; [|reflexivity].
  rewrite Hwr, map_map. apply map_id.
Defined.
