(* ===== verification/Select.v ===== *)
(** * Select: reading a DESCRIBE and the result of chdb_query

    [chdb_native_describe] and [chdb_select_receive] of src/native.c, over the
    reader of Receive. The tuple store is the list of the rows put into it. *)

From stdpp Require Import prelude.
From S2P Require Import Prelude Stateful Words Catalog Query Backend Insert Receive ReceiveProps.
Local Open Scope Z_scope.

(** ** DESCRIBE *)

Definition err_described (columns : Z) : error :=
  ereport ERRCODE_BAD_COPY_FILE_FORMAT
    (b8 "chdb: DESCRIBE returned " ++ fmt_d columns ++ b8 " columns, expected 2").
Definition err_undescribed : error :=
  ereport ERRCODE_BAD_COPY_FILE_FORMAT
    (b8 "chdb: DESCRIBE produced a column with no name or type").

Section describe.
(** The text a value is, and the encoding check a reader starts with. *)
Context `{RowReader} (TextDatumGetCString : Datum -> bytes) (initial_check : Z).

(** One round of the loop: the two values of a row, which the arrays hold. *)
Definition describe_row (raw : rd_row) : res error chdbDescribedColumn :=
  values ← pgch_reader_fill initial_check raw;
  match values with
  | [name; type] =>
      raise_if (name.2 || type.2) err_undescribed ;;
      Ok (DescribedColumn (TextDatumGetCString name.1) (TextDatumGetCString type.1))
  | _ => UB
  end.

Fixpoint describe_loop (rows : list (res error rd_row)) (columns : list chdbDescribedColumn)
    : res error (list chdbDescribedColumn) :=
  match rows with
  | [] => Ok columns
  | next :: rows =>
      raw ← next;
      col ← describe_row raw;
      describe_loop rows (columns ++ [col])
  end.

Definition chdb_native_describe (reader : pgch_reader) : res error (list chdbDescribedColumn) :=
  error ← rd_open reader;
  check_reader error ;;
  raise_if (negb (rd_columns reader =? 2)) (err_described (rd_columns reader)) ;;
  columns ← describe_loop (rd_rows reader) [];
  check_reader (rd_error reader) ;;
  Ok columns.

(** *** Exactly the rows *)

(** [col] is what a row's two values are: its name and its type, neither null. *)
Definition describes (next : res error rd_row) (col : chdbDescribedColumn) : Prop :=
  exists raw name type, next = Ok raw /\
    pgch_reader_fill initial_check raw = Ok [(name, false); (type, false)] /\
    col = DescribedColumn (TextDatumGetCString name) (TextDatumGetCString type).

Lemma describe_row_Ok raw col :
  describe_row raw = Ok col <-> describes (Ok raw) col.
Proof.
  unfold describe_row, describes. split.
  - intros (values & Hv & Hrow)%bind_Ok. destruct values as [|[name n1] [|[type n2] [|]]]; try done.
    cbn in Hrow. destruct n1, n2; try done. injection Hrow as <-. eauto 6.
  - intros (raw' & name & type & [= <-] & -> & ->). done.
Qed.

Lemma describe_loop_Ok rows acc columns :
  describe_loop rows acc = Ok columns <->
  exists new, columns = acc ++ new /\ Forall2 describes rows new.
Proof.
  revert acc. induction rows as [|next rows IH]; intros acc; cbn.
  - split; [intros [= <-]; exists []; by rewrite app_nil_r|].
    intros (new & -> & Hf). apply Forall2_nil_inv_l in Hf as ->. by rewrite app_nil_r.
  - rewrite bind_Ok. setoid_rewrite bind_Ok. setoid_rewrite IH. split.
    + intros (raw & -> & col & Hc & new & -> & Hf). exists (col :: new).
      rewrite <- app_assoc. split; [done|]. constructor; [by apply describe_row_Ok|done].
    + intros (new & -> & Hf). apply Forall2_cons_inv_l in Hf as (col & new' & Hc & Hf & ->).
      pose proof Hc as (raw & _ & _ & -> & _). exists raw. split; [done|]. exists col.
      split; [by apply describe_row_Ok|]. exists new'. by rewrite <- app_assoc.
Qed.

Lemma native_describe_Ok reader columns :
  chdb_native_describe reader = Ok columns <->
  rd_open reader = Ok None /\ rd_columns reader = 2 /\ rd_error reader = None /\
  Forall2 describes (rd_rows reader) columns.
Proof.
  unfold chdb_native_describe. rewrite bind_Ok. setoid_rewrite bind_Ok. split.
  - intros (error & -> & [] & Herr & Hrun). destruct error; [done|].
    apply bind_Ok in Hrun as ([] & Hc%raise_if_Ok & Hrun). apply bind_Ok in Hrun as (cols & Hl & Hrun).
    apply bind_Ok in Hrun as ([] & He & [= <-]). destruct (rd_error reader); [done|].
    apply negb_false_iff, Z.eqb_eq in Hc. apply describe_loop_Ok in Hl as (new & -> & ?). done.
  - intros (-> & Hc & He & Hf). exists None. split; [done|]. exists tt. split; [done|].
    rewrite Hc. cbn. rewrite bind_Ok. exists columns. rewrite He. split; [|done].
    apply describe_loop_Ok. by exists columns.
Qed.

(** C22. A DESCRIBE succeeds exactly when the stream opens, has two columns, ends
    without an error and has a name and a type in every row, neither of them
    null; then it gives one column per row, in order: the text of the row's first
    value is its name, that of the second its type. *)
Theorem chdb_native_describe_spec reader columns :
  chdb_native_describe reader = Ok columns <->
  rd_open reader = Ok None /\ rd_columns reader = 2 /\ rd_error reader = None /\
  Forall2 (fun next col => exists raw name type, next = Ok raw /\
      pgch_reader_fill initial_check raw = Ok [(name, false); (type, false)] /\
      dc_name col = TextDatumGetCString name /\ dc_type col = TextDatumGetCString type)
    (rd_rows reader) columns.
Proof.
  rewrite native_describe_Ok. split; intros (? & ? & ? & Hf); (split_and!; [done..|]);
    (eapply Forall2_impl; [exact Hf|]); intros next col (raw & name & type & ? & ? & Hc);
    exists raw, name, type.
  - by subst col.
  - destruct Hc as [<- <-]. by destruct col.
Qed.
End describe.

(** ** chdb_query's rows *)

Definition SFRM_ValuePerCall : Z := 1.
Definition SFRM_Materialize : Z := 2.
Definition SFRM_Materialize_Random : Z := 4.

Record Tuplestore : Type := MkTuplestore {
  ts_random : bool;
  ts_rows : list (list cell);
}.

(** What the executor reads the result from. *)
Record ReturnSetInfo : Type := MkReturnSetInfo {
  allowedModes : Z;
  returnMode : Z;
  setResult : option Tuplestore;
  setDesc : option (list attribute);
}.

Section select.
Context `{RowReader} (initial_check : Z).
(** tuplestore_putvalues fails when its file cannot be written. *)
Context (putvalues : Tuplestore -> list cell -> res error unit).
Context (check_interrupts : Tuplestore -> res error unit).

Definition store_values (tupstore : Tuplestore) (cells : list cell) : Tuplestore :=
  MkTuplestore (ts_random tupstore) (ts_rows tupstore ++ [cells]).

(** The loop; [cells] is what [values] and [nulls] hold from the row before. *)
Fixpoint select_rows (states : list rd_state) (attr_nums : list nat)
    (rows : list (res error rd_row)) (cells : list cell) (tupstore : Tuplestore)
    : res error Tuplestore :=
  match rows with
  | [] => Ok tupstore
  | next :: rows =>
      raw ← next;
      cells ← pgch_reader_fill_map initial_check raw states attr_nums cells;
      putvalues tupstore cells ;;
      let tupstore := store_values tupstore cells in
      check_interrupts tupstore ;;
      select_rows states attr_nums rows cells tupstore
  end.

(** The attribute in place [i] of a descriptor has the number [i + 1]. *)
Definition chdb_select_receive (rsinfo : ReturnSetInfo) (tupdesc : list attribute)
    (reader : pgch_reader) : res error ReturnSetInfo :=
  let natts := length tupdesc in
  let tupstore := MkTuplestore (negb (Z.land (allowedModes rsinfo) SFRM_Materialize_Random =? 0)) [] in
  let rsinfo tupstore :=
    MkReturnSetInfo (allowedModes rsinfo) SFRM_Materialize (Some tupstore) (Some tupdesc) in
  error ← rd_open reader;
  check_reader error ;;
  if rd_columns reader =? 0 then Ok (rsinfo tupstore)
  else
    raise_if (negb (rd_columns reader =? Z.of_nat natts))
      (err_received (rd_columns reader) (Z.of_nat natts)) ;;
    let attr_nums := map pred (seq 1 natts) in
    states ← convert_states tupdesc initial_check 0 (seq 1 natts);
    tupstore ← select_rows states attr_nums (rd_rows reader) (replicate natts (0, false)) tupstore;
    Ok (rsinfo tupstore).

(** *** Exactly the rows, as far as they go *)

Context `{!RowReaderLaws}.

(** A row's values, in the order of the columns. *)
Definition selects (states : list rd_state) (next : res error rd_row) (cells : list cell) : Prop :=
  exists raw, next = Ok raw /\ rd_values initial_check raw states = Ok cells.

(** Filling all columns in their order leaves nothing of the row before. *)
Lemma place_all k values done rest :
  length rest = length values -> length done = k ->
  place (seq k (length values)) values (done ++ rest) = Ok (done ++ values).
Proof.
  revert k done rest. induction values as [|v values IH]; intros k done rest Hl Hk.
  { destruct rest; [done|discriminate]. }
  destruct rest as [|r rest]; [discriminate|]. cbn. rewrite decide_True by (rewrite length_app; cbn; lia).
  rewrite <- Hk, insert_app_r_alt, Nat.sub_diag by lia. cbn.
  specialize (IH (S k) (done ++ [v]) rest). rewrite <- !app_assoc in IH. cbn in IH.
  rewrite Hk. apply IH; [by injection Hl|]. rewrite length_app. cbn. lia.
Qed.

Lemma place_values natts values cells cells' :
  length cells = natts -> place (seq 0 natts) values cells = Ok cells' -> cells' = values.
Proof.
  intros Hc Hf. assert (Hl : length values = natts).
  { clear Hc. revert Hf. generalize 0%nat as k. revert values cells.
    induction natts as [|n IH]; intros [|v values] cells k; cbn; try done.
    case_decide; [|done]. intros Hf. f_equal. by eapply IH. }
  pose proof (place_all 0 values [] cells) as Hall. rewrite Hl in Hall. cbn in Hall.
  rewrite Hall in Hf by done. by injection Hf.
Qed.

Lemma map_pred_seq n : map pred (seq 1 n) = seq 0 n.
Proof. rewrite <- fmap_S_seq. unfold fmap. rewrite map_map. cbn. apply map_id. Qed.

Lemma select_rows_Ok states natts rows cells tupstore tupstore' :
  length cells = natts ->
  select_rows states (seq 0 natts) rows cells tupstore = Ok tupstore' ->
  exists new, ts_rows tupstore' = ts_rows tupstore ++ new /\
    ts_random tupstore' = ts_random tupstore /\ Forall2 (selects states) rows new.
Proof.
  intros Hl. revert cells tupstore Hl. induction rows as [|next rows IH]; intros cells tupstore Hl; cbn.
  { intros [= <-]. exists []. by rewrite app_nil_r. }
  intros (raw & -> & Hrun)%bind_Ok. apply bind_Ok in Hrun as (cells' & Hc & Hrun).
  rewrite fill_map_spec in Hc. apply bind_Ok in Hc as (values & Hv & Hc). apply bind_Ok in Hrun as ([] & _ & Hrun).
  apply bind_Ok in Hrun as ([] & _ & Hrun). pose proof (place_values _ _ _ _ Hl Hc) as ->.
  apply IH in Hrun as (new & Hr & Hrand & Hf); [|by rewrite (place_length _ _ _ _ Hc)].
  exists (values :: new). cbn in *. rewrite Hr, <- app_assoc. split; [done|]. split; [done|].
  constructor; [by exists raw|done].
Qed.

(** A result that is returned has one tuple per row of the stream, in order,
    each with the row's values converted for the columns of the definition list
    (or no row, when nothing was streamed); the set is materialized, with the
    caller's descriptor, and readable at random when the caller asked for it. *)
Lemma chdb_select_receive_rows rsinfo tupdesc reader rsinfo' :
  chdb_select_receive rsinfo tupdesc reader = Ok rsinfo' ->
  rd_open reader = Ok None /\
  exists states rows,
    setResult rsinfo' = Some (MkTuplestore
      (negb (Z.land (allowedModes rsinfo) SFRM_Materialize_Random =? 0)) rows) /\
    setDesc rsinfo' = Some tupdesc /\ returnMode rsinfo' = SFRM_Materialize /\
    allowedModes rsinfo' = allowedModes rsinfo /\
    if decide (rd_columns reader = 0) then rows = []
    else rd_columns reader = zlen tupdesc /\
      convert_states tupdesc initial_check 0 (seq 1 (length tupdesc)) = Ok states /\
      Forall2 (selects states) (rd_rows reader) rows.
Proof.
  unfold chdb_select_receive. intros (error & Ho & Hrun)%bind_Ok.
  apply bind_Ok in Hrun as ([] & He & Hrun). destruct error; [done|]. split; [done|].
  destruct (Z.eqb_spec (rd_columns reader) 0) as [Hz|Hz].
  { injection Hrun as <-. exists [], []. by rewrite decide_True. }
  apply bind_Ok in Hrun as ([] & Hc%raise_if_Ok & Hrun).
  apply bind_Ok in Hrun as (states & Hs & Hrun). apply bind_Ok in Hrun as (tupstore & Hl & [= <-]).
  rewrite map_pred_seq in Hl. apply select_rows_Ok in Hl as (rows & Hr & Hrand & Hf);
    [|by rewrite length_replicate].
  exists states, rows. rewrite decide_False by done. apply negb_false_iff, Z.eqb_eq in Hc. cbn in *.
  split_and!; try done. f_equal. destruct tupstore. cbn in *. by subst.
Qed.
End select.
