(* ===== verification/Reader.v ===== *)
(** * Reader: from blocks to rows

    pg-clickhouse-c's reader is a parameter ([BlockReader]): what it yields from
    the blocks a source hands it ([pgch_reader_over]). The functions of
    src/native.c rely on it for the rows of the blocks, in order
    ([BlockReaderLaws]). *)

From stdpp Require Import prelude.
From S2P Require Import Prelude Stateful Backend Receive Source.
Local Open Scope Z_scope.

(** A reader over the blocks the source handed out, and what came then:
    [source_error], or an error raised where the next block was asked for. Either
    [pgch_reader_init] asks for the first block, or [pgch_reader_columns] does:
    src/native.c works with both. *)
Class BlockReader (pg : PgClickhouse) `{BlockDecoder pg, RowReader} : Type := {
  block_columns : native_block -> Z;
  block_rows : native_block -> list rd_row;
  reader_init_fetches : bool;
  pgch_reader_over : list native_block -> res error (option bytes) -> pgch_reader;
}.

Section reader.
Context {pg : PgClickhouse} `{BlockReader pg}.

Definition rows_of (blocks : list native_block) : list rd_row := concat (map block_rows blocks).

(** The columns of the first block and the rows of all of them. When there is no
    block, its error is known after [pgch_reader_init] or, if only
    [pgch_reader_columns] asked for the block, with [reader.error] later; an error
    raised leaves either. *)
Definition expected_reader (blocks : list native_block) (ending : res error (option bytes))
    : pgch_reader :=
  match blocks with
  | [] =>
      match ending with
      | Ok e => if reader_init_fetches then MkReader _ (Ok e) 0 [] None else MkReader _ (Ok None) 0 [] e
      | _ => MkReader _ ending 0 [] None
      end
  | block :: _ =>
      MkReader _ (Ok None) (block_columns block)
        (map Ok (rows_of blocks)
         ++ match ending with Ok _ => [] | Raise e => [Raise e] | UB => [UB] end)
        (match ending with Ok e => e | _ => None end)
  end.

Class BlockReaderLaws : Prop := {
  reader_over_spec blocks ending : pgch_reader_over blocks ending = expected_reader blocks ending;
}.

(** [source_for] and [pgch_reader_init] on a channel, and all the reader does on
    it then. *)
Definition channel_reader {W} `{RecvWire W} (w : W) : pgch_reader * W :=
  match source_for pg with
  | Ok ns =>
      let r := take_blocks pg (S (length (wire_rest w))) ns w in
      (pgch_reader_over r.1.1 r.1.2, r.2)
  | Raise e => (MkReader _ (Raise e) 0 [] None, w)
  | UB => (MkReader _ UB 0 [] None, w)
  end.
End reader.
