(* ===== verification/NativeSamples.v ===== *)
(** * NativeSamples: a concrete decoder for the examples

    Nothing here models code. A block is one byte, with one row of one number;
    the byte 255 is a block that cannot be read. *)

From stdpp Require Import prelude.
From Stdlib Require Import Strings.Byte.
From S2P Require Import Prelude Stateful Words Catalog Pipe Backend Surroundings Receive ReceiveProps ReceiveTheorems.
From S2P Require Import Query Select Os Channel ChannelTheorems Source Reader ChannelWire.
Local Open Scope Z_scope.

#[local] Existing Instances numbers numbers_laws.

#[export] Instance sample_decoder : BlockDecoder sample_pgch := {
  chc_in := unit;
  native_block := byte;
  chc_in_init := fun _ => inl tt;
  chc_block_read := fun _ => More 1 (fun b =>
    match b with
    | [] => Done (tt, inl None)
    | x :: _ => Done (tt, if decide (x = xff) then inr tt else inl (Some x))
    end);
  chc_err_msg := fun _ => b8 "bad block";
}.

#[export] Instance sample_decoder_laws : DecoderLaws sample_pgch.
Proof.
  refine {|
    in_pending := fun _ => [];
    next_of := fun input =>
      match input with
      | [] => (inl None, [])
      | x :: rest => (if decide (x = xff) then inr tt else inl (Some x), rest)
      end;
  |}.
  - intros [|x input] block rest; [done|]. case_decide; intros [= _ <-]. cbn. lia.
  - done.
  - intros i. eapply wr_more; [lia|done|by intros b|]. intros [|x b] Hne _; [done|].
    constructor. cbn. by case_decide.
  - intros i input i' r rest Hf. cbn in Hf. inversion Hf as [|? ? ? Hr|? ? b input' ? ? Hne Hl Hb]; subst.
    + by injection Hr as <- <-.
    + destruct b as [|x [|y b]]; [done| |cbn in Hl; lia]. inversion Hb; subst. done.
Defined.

Definition sample_in : @chc_in sample_pgch sample_decoder := tt.

Definition sample_rows_of (b : byte) : list (@rd_row numbers) := [[Z_of_byte b] : list Z].

#[export] Instance sample_reader : BlockReader sample_pgch := {
  block_columns := fun _ => 1;
  block_rows := sample_rows_of;
  reader_init_fetches := true;
  pgch_reader_over := fun blocks ending =>
    match blocks with
    | [] => MkReader _ ending 0 [] None
    | _ :: _ =>
        MkReader _ (Ok None) 1
          (map Ok (concat (map sample_rows_of blocks))
           ++ match ending with Ok _ => [] | Raise e => [Raise e] | UB => [UB] end)
          (match ending with Ok e => e | _ => None end)
    end;
}.

#[export] Instance sample_reader_laws : BlockReaderLaws (pg := sample_pgch).
Proof. split. by intros [|b blocks] [e| |]. Qed.

(** A helper that writes three blocks in two pieces, with an interrupted read
    between them, and exits well. *)
Definition blocks_os : os :=
  set_in (fun s => match s with data => [Data [x01; x02]; Err EINTR; Data [x03]] | _ => [] end) sample_os.
Definition blocks_channel : channel := (sample_channel.1, blocks_os).

(** One whose second block cannot be read. *)
Definition broken_os : os :=
  set_in (fun s => match s with data => [Data [x01; xff; x03]] | _ => [] end) sample_os.

Lemma blocks_running : running blocks_channel.
Proof. split; [unfold ChannelProps.buffer_ok; cbn; lia|left; cbn; lia|done]. Qed.

#[local] Instance sample_recv : RecvWire channel := channel_recv length (fun _ => []).
#[local] Instance sample_recv_laws : RecvLaws channel := channel_recv_laws length (fun _ => []).

Lemma source_refines_witness :
  exists c', take_blocks sample_pgch (S (length (wire_rest blocks_channel)))
      (NativeSource sample_pgch sample_in None) blocks_channel
    = ([x01; x02; x03], Ok None, c') /\
    decoded sample_pgch (wire_rest blocks_channel) = ([x01; x02; x03], None) /\
    wire_ended blocks_channel c'.
Proof.
  assert (Hl : wire_listens blocks_channel) by exact blocks_running.
  destruct (source_refines sample_pgch sample_in blocks_channel eq_refl Hl) as (ns & Hns & Hr).
  assert (ns = NativeSource sample_pgch sample_in None) as -> by (by injection Hns).
  cbv zeta in Hr.
  assert (Hrun : (take_blocks sample_pgch (S (length (wire_rest blocks_channel)))
      (NativeSource sample_pgch sample_in None) blocks_channel).1 = ([x01; x02; x03], Ok None))
    by (vm_compute; reflexivity).
  destruct (take_blocks sample_pgch (S (length (wire_rest blocks_channel)))
      (NativeSource sample_pgch sample_in None) blocks_channel) as [r c'].
  cbn [fst] in Hrun. subst r. cbn [fst snd] in Hr. destruct Hr as (Hd & He & _).
  exists c'. split; [reflexivity|]. split; [symmetry; exact Hd|]. exact (He eq_refl).
Defined.

(** ** A described table *)

(** Rows of texts, some of them null. *)
#[local] Instance nullable : RowReader := {
  rd_row := list cell;
  rd_state := unit;
  pgch_reader_convert_init := fun _ _ _ _ => Ok tt;
  pgch_reader_fill := fun _ raw => Ok raw;
  pgch_reader_fill_map := fun _ raw _ dest cells => place dest raw cells;
}.

Definition described_reader (nulls : bool) : @pgch_reader nullable :=
  @MkReader nullable (Ok None) 2
    [Ok ([(10, false); (11, false)] : list cell); Ok ([(20, false); (21, nulls)] : list cell)] None.

Lemma chdb_native_describe_spec_witness :
  chdb_native_describe (H := nullable) fmt_d 0 (described_reader false)
  = Ok [DescribedColumn (b8 "10") (b8 "11"); DescribedColumn (b8 "20") (b8 "21")] /\
  chdb_native_describe (H := nullable) fmt_d 0 (described_reader true) = Raise err_undescribed /\
  forall columns, chdb_native_describe (H := nullable) fmt_d 0 (described_reader true) <> Ok columns.
Proof.
  split_and!; [|by vm_compute|].
  - apply (chdb_native_describe_spec (H := nullable) fmt_d 0). split_and!; [done..|].
    constructor; [|constructor; [|constructor]]; eexists _, _, _; (split; [reflexivity|]);
      (split; [reflexivity|]); split; vm_compute; reflexivity.
  - intros columns H. apply (chdb_native_describe_spec (H := nullable) fmt_d 0) in H.
    destruct H as (_ & _ & _ & Hrows). unfold described_reader in Hrows. cbn in Hrows.
    inversion Hrows as [|? ? ? ? _ Hr]; subst. inversion Hr as [|? ? ? ? Hd _]; subst.
    destruct Hd as (raw & name & type & Hraw & Hf & _). injection Hraw as <-. discriminate Hf.
Defined.
