(* ===== verification/ChdbQuery.v ===== *)
(** * ChdbQuery: the SQL function chdb_query

    [chdb_query] of src/chdb.c: the checks on its caller, the helper it starts
    and the rows it returns ([chdb_select_receive]). *)

From stdpp Require Import prelude.
From Stdlib Require Import Strings.Byte.
From S2P Require Import Prelude Stateful Words Catalog Pipe Setup Os Channel ChannelTheorems Lifecycle Gucs Backend Receive Select.
From S2P Require Import Source Reader ChannelWire Insert ReceiveProps ReceiveTheorems NativeSamples Surroundings.
Local Open Scope Z_scope.

Definition err_not_set : error :=
  ereport ERRCODE_FEATURE_NOT_SUPPORTED
    (b8 "chdb: set-valued function called in context that cannot accept a set").
Definition err_not_materialized : error :=
  ereport ERRCODE_FEATURE_NOT_SUPPORTED
    (b8 "chdb: materialize mode required, but it is not allowed in this context").
Definition err_no_column_list : error :=
  ereport ERRCODE_FEATURE_NOT_SUPPORTED
    (b8 "chdb: a column definition list is required for chdb_query").

Section query.
Context (utf8_cliplen : bytes -> nat) (strerror : errno -> bytes).
Context (little : bool) (pkglib session_timezone : bytes).
Context (pg : PgClickhouse) `{decoder : BlockDecoder pg, rowreader : RowReader}.
Context `{blocks_reader : !BlockReader pg} (initial_check : Z).
Context (putvalues : Tuplestore -> list cell -> res error unit).
Context (check_interrupts : Tuplestore -> res error unit).

#[local] Instance helper_recv : RecvWire channel := channel_recv utf8_cliplen strerror.
#[local] Instance helper_recv_laws : RecvLaws channel := channel_recv_laws utf8_cliplen strerror.

(** The result, and the channel of the helper when one was started. [resultinfo]
    is none when it is NULL or another node, and [call_result_type] when it is
    not composite. *)
Definition chdb_query (sql : bytes) (resultinfo : option ReturnSetInfo)
    (call_result_type : option (list attribute)) (s : settings) (o : os)
    : res error ReturnSetInfo * option channel :=
  match resultinfo with
  | None => (Raise err_not_set, None)
  | Some rsinfo =>
      if Z.land (allowedModes rsinfo) SFRM_Materialize =? 0 then (Raise err_not_materialized, None)
      else
        match call_result_type with
        | None => (Raise err_no_column_list, None)
        | Some tupdesc =>
            let ctx := guc_context s CHDB_CMD_SELECT in
            match chdb_helper_start utf8_cliplen strerror little pkglib session_timezone ctx sql [] o with
            | (Ok _, helper) =>
                let r := channel_reader (pg := pg) helper in
                (chdb_select_receive initial_check putvalues check_interrupts rsinfo tupdesc r.1, Some r.2)
            | (Raise e, helper) => (Raise e, Some helper)
            | (UB, helper) => (UB, Some helper)
            end
        end
  end.

Context `{!DecoderLaws pg, !RowReaderLaws, !BlockReaderLaws}.

(** The values of a block's row, converted for the columns. *)
Definition row_selected (states : list rd_state) (raw : rd_row) (cells : list cell) : Prop :=
  rd_values initial_check raw states = Ok cells.

Lemma selected_rows states blocks err rows :
  Forall2 (selects initial_check states)
    (rd_rows (expected_reader blocks (Ok err))) rows ->
  Forall2 (row_selected states) (rows_of blocks) rows.
Proof.
  intros Hf. assert (Hall : Forall2 (selects initial_check states) (map Ok (rows_of blocks)) rows).
  { destruct blocks as [|b blocks]; cbn in *; [by destruct reader_init_fetches|]. by rewrite app_nil_r in Hf. }
  clear Hf. revert rows Hall. induction (rows_of blocks) as [|raw raws IH]; intros rows Hf;
    cbn in Hf; [by apply Forall2_nil_inv_l in Hf as ->|].
  apply Forall2_cons_inv_l in Hf as (cells & rows' & (? & [= <-] & Hsel) & Hf & ->).
  constructor; [done|by apply IH].
Qed.

(** What a result says of the output it was made from. *)
Definition result_of (tupdesc : list attribute) (output : bytes) (ended : Prop)
    (rows : list (list cell)) : Prop :=
  let r := decoded pg output in
  match r.1 with
  | [] => rows = [] /\ (reader_init_fetches = true -> r.2 = None) /\ (r.2 = None -> ended)
  | block :: _ =>
      if decide (block_columns block = 0) then rows = []
      else
        block_columns block = zlen tupdesc /\ (r.2 = None -> ended) /\
        exists states,
          convert_states tupdesc initial_check 0 (seq 1 (length tupdesc)) = Ok states /\
          Forall2 (row_selected states) (rows_of r.1) rows
  end.

Lemma result_weaken tupdesc output (ended ended' : Prop) rows :
  (ended -> ended') -> result_of tupdesc output ended rows -> result_of tupdesc output ended' rows.
Proof.
  intros Hend. unfold result_of. destruct (decoded pg output) as [[|b bs] err]; cbn [fst snd]; [naive_solver|].
  case_decide; [done|]. naive_solver.
Qed.

Lemma handed_result rsinfo tupdesc rsinfo' c blocks ending c' :
  handed pg (S (length (wire_rest c))) (wire_rest c) c (blocks, ending, c') ->
  chdb_select_receive initial_check putvalues check_interrupts rsinfo tupdesc
    (expected_reader blocks ending) = Ok rsinfo' ->
  exists rows,
    setResult rsinfo' = Some (MkTuplestore
      (negb (Z.land (allowedModes rsinfo) SFRM_Materialize_Random =? 0)) rows) /\
    setDesc rsinfo' = Some tupdesc /\
    result_of tupdesc (wire_rest c) (wire_ended c c') rows.
Proof.
  intros Hh Hs.
  destruct (chdb_select_receive_rows _ _ _ _ _ _ _ Hs) as (Ho & states & rows & Hr & Hd & _ & _ & Hrows).
  exists rows. split; [done|]. split; [done|]. unfold result_of, decoded. unfold handed in Hh.
  cbn [fst snd] in Hh. destruct ending as [err|e|]; [| |done].
  - destruct Hh as [<- He]. cbn [fst snd]. destruct blocks as [|b blocks].
    + cbn in Ho, Hrows. destruct reader_init_fetches; cbn in Ho, Hrows.
      * injection Ho as ->. split; [done|]. split; [done|]. intros _. by apply He.
      * split; [done|]. split; [done|]. intros Hnone. by apply He.
    + cbn [expected_reader rd_columns] in Hrows. case_decide; [done|].
      destruct Hrows as (Hc & Hst & Hf). split; [done|]. split; [done|]. exists states.
      split; [done|]. by apply (selected_rows states (b :: blocks) err).
  - destruct Hh as [[more Hp] _]. rewrite Hp. destruct blocks as [|b blocks]; [done|].
    cbn [app]. cbn [expected_reader rd_columns] in Hrows. case_decide; [done|].
    destruct Hrows as (_ & _ & Hf). exfalso. cbn in Hf.
    apply Forall2_app_inv_l in Hf as (? & last & _ & Hlast & _).
    apply Forall2_cons_inv_l in Hlast as (? & ? & (? & [=] & _) & _).
Qed.

(** C17. When chdb_query returns, its caller takes a materialized set and gave a
    column list; one helper was started and sent the SELECT as it is, with the
    limits of the settings and without parameters; and the rows are those of
    the blocks the helper wrote, in order and converted for the column list.
    Unless the output ended with an error that the reader kept to itself, the
    helper exited with status 0. *)
Theorem chdb_query_spec sql resultinfo call_result_type s o rsinfo' c' i :
  fds_valid o -> chc_in_init CHDB_NATIVE_SOURCE_BYTES = inl i ->
  chdb_query sql resultinfo call_result_type s o = (Ok rsinfo', c') ->
  exists rsinfo tupdesc helper helper' pid payload rows,
    resultinfo = Some rsinfo /\ call_result_type = Some tupdesc /\ c' = Some helper' /\
    Z.land (allowedModes rsinfo) SFRM_Materialize <> 0 /\
    build_setup little [] (guc_context s CHDB_CMD_SELECT) session_timezone sql [] = Ok payload /\
    started o pid sql payload helper /\
    setResult rsinfo' = Some (MkTuplestore
      (negb (Z.land (allowedModes rsinfo) SFRM_Materialize_Random =? 0)) rows) /\
    setDesc rsinfo' = Some tupdesc /\
    result_of tupdesc (content (o_in o data)) (o_exit helper.2 = 0) rows.
Proof.
  intros Hv Hi Hrun. unfold chdb_query in Hrun. destruct resultinfo as [rsinfo|]; [|done].
  destruct (Z.eqb_spec (Z.land (allowedModes rsinfo) SFRM_Materialize) 0) as [|Hm]; [done|].
  destruct call_result_type as [tupdesc|]; [|done]. cbv zeta in Hrun.
  pose proof (helper_start_wp utf8_cliplen strerror little pkglib session_timezone
    (guc_context s CHDB_CMD_SELECT) sql [] o Hv) as Hstart.
  destruct (chdb_helper_start _ _ _ _ _ _ _ _ o) as [[[]|e|] helper] eqn:Hh; [|done|done].
  destruct Hstart as (pid & payload & _ & Hb & Hst). injection Hrun as Hsel <-.
  unfold channel_reader in Hsel. unfold source_for in Hsel. rewrite Hi in Hsel. cbn [fst] in Hsel.
  rewrite reader_over_spec in Hsel.
  pose proof (take_blocks_handed pg (S (length (wire_rest helper))) (NativeSource pg i None) helper eq_refl
    (started_running _ _ _ _ _ Hst)) as Ht.
  rewrite (init_pending _ _ _ Hi) in Ht. cbn [app] in Ht. specialize (Ht ltac:(lia)).
  destruct (take_blocks pg _ _ helper) as [[blocks ending] c2] eqn:Htake. cbn [fst snd] in Hsel.
  destruct (handed_result _ _ _ _ _ _ _ Ht Hsel) as (rows & Hr & Hd & Hres).
  exists rsinfo, tupdesc, helper, (channel_reader (pg := pg) helper).2, pid, payload, rows.
  split_and!; try done. rewrite <- (proj2 (started_data _ _ _ _ _ Hst)).
  eapply result_weaken; [|exact Hres]. intros Hend. apply Hend.
Qed.

(** A reader whose stream broke off has the blocks before that. *)
Lemma broken_reader o sql payload pid helper i err :
  started o pid sql payload helper -> chc_in_init CHDB_NATIVE_SOURCE_BYTES = inl i ->
  let reader := (channel_reader (pg := pg) helper).1 in
  rd_error reader = Some err ->
  exists blocks, decoded pg (content (o_in o data)) = (blocks, Some err) /\
    rd_rows reader = map Ok (rows_of blocks).
Proof.
  intros Hst Hi reader. subst reader. unfold channel_reader, source_for. rewrite Hi. cbn [fst].
  rewrite reader_over_spec.
  pose proof (take_blocks_handed pg (S (length (wire_rest helper))) (NativeSource pg i None) helper eq_refl
    (started_running _ _ _ _ _ Hst)) as Ht.
  rewrite (init_pending _ _ _ Hi) in Ht. cbn [app] in Ht. specialize (Ht ltac:(lia)).
  rewrite <- (proj2 (started_data _ _ _ _ _ Hst)).
  destruct (take_blocks pg _ _ helper) as [[blocks ending] c2]. unfold handed in Ht. cbn [fst snd] in *.
  intros Herr. exists blocks. unfold decoded. destruct ending as [e|e|].
  - destruct Ht as [Hdec _]. change (wire_rest helper) with (content (o_in helper.2 data)) in Hdec.
    rewrite <- Hdec. destruct blocks as [|b blocks]; cbn in Herr |- *.
    + destruct reader_init_fetches; cbn in *; [done|]. by subst.
    + by subst; rewrite app_nil_r.
  - by destruct blocks.
  - by destruct blocks.
Qed.

(** C24. When the helper's output cannot be read to its end, chdb_query answers as
    if it ended where reading stopped, for [chdb_select_receive] does not look at
    [reader.error] after its loop: its outcome, a result included, is the one the
    rows before that give by themselves. A DESCRIBE never succeeds on such an
    output, nor does a COPY FROM once it has columns. *)
Theorem chdb_query_truncates sql rsinfo tupdesc s o helper i err :
  fds_valid o -> chc_in_init CHDB_NATIVE_SOURCE_BYTES = inl i ->
  Z.land (allowedModes rsinfo) SFRM_Materialize <> 0 ->
  chdb_helper_start utf8_cliplen strerror little pkglib session_timezone
    (guc_context s CHDB_CMD_SELECT) sql [] o = (Ok tt, helper) ->
  let reader := (channel_reader (pg := pg) helper).1 in
  rd_error reader = Some err ->
  exists blocks,
    decoded pg (content (o_in o data)) = (blocks, Some err) /\
    rd_rows reader = map Ok (rows_of blocks) /\
    (chdb_query sql (Some rsinfo) (Some tupdesc) s o).1
    = chdb_select_receive initial_check putvalues check_interrupts rsinfo tupdesc (unbroken reader) /\
    (forall ex rel attnums rt enc n, rd_columns reader <> 0 ->
       (chdb_copy_receive ex rel attnums rt enc reader []).1 <> Ok n) /\
    (forall text check columns, chdb_native_describe text check reader <> Ok columns).
Proof.
  intros Hv Hi Hm Hstart reader Herr.
  pose proof (helper_start_wp utf8_cliplen strerror little pkglib session_timezone
    (guc_context s CHDB_CMD_SELECT) sql [] o Hv) as Hs.
  rewrite Hstart in Hs. destruct Hs as (pid & payload & _ & _ & Hst).
  destruct (broken_reader o sql payload pid helper i err Hst Hi Herr) as (blocks & Hdec & Hrows).
  exists blocks. split; [done|]. split; [done|]. split; [|split].
  - unfold chdb_query. rewrite (proj2 (Z.eqb_neq _ _) Hm). cbv zeta. by rewrite Hstart.
  - intros ex rel attnums rt enc n Hc Hrun.
    by apply (broken_never_Ok ex rel attnums rt enc reader err n Hc Herr) in Hrun.
  - intros text check columns (_ & _ & Hno & _)%native_describe_Ok. congruence.
Qed.

(** What chdb_query refuses, it refuses before it starts a helper. *)
Theorem chdb_query_refusals sql resultinfo call_result_type s o :
  (chdb_query sql resultinfo call_result_type s o).2 = None <->
  resultinfo = None \/
  (exists rsinfo, resultinfo = Some rsinfo /\
     (Z.land (allowedModes rsinfo) SFRM_Materialize = 0 \/ call_result_type = None)).
Proof.
  unfold chdb_query. destruct resultinfo as [rsinfo|]; [|by split; [left|]].
  destruct (Z.eqb_spec (Z.land (allowedModes rsinfo) SFRM_Materialize) 0) as [Hm|Hm].
  { split; [|done]. right. eauto. }
  destruct call_result_type as [tupdesc|]; [|split; [right; eauto|done]].
  destruct (chdb_helper_start _ _ _ _ _ _ _ _ o) as [[[]|e|] helper];
    (split; [done|intros [?|(? & [= <-] & [?|?])]; done]).
Qed.
End query.

(** ** Examples *)

#[local] Existing Instances numbers numbers_laws.

Definition sample_settings : settings := Settings 4096 0 0.
Definition sample_caller : ReturnSetInfo := MkReturnSetInfo 3 0 None None.
Definition sample_list : list attribute := [Attribute (b8 "n") 23 (-1) false false false].

Abbreviation sample_chdb_query o :=
  (chdb_query length (fun _ => []) true (b8 "/usr/lib") (b8 "UTC") sample_pgch
    (decoder := sample_decoder) (rowreader := numbers) (blocks_reader := sample_reader) 0 (fun _ _ => Ok tt) (fun _ => Ok tt)
    (b8 "SELECT n FROM t") (Some sample_caller) (Some sample_list) sample_settings o).

Definition sample_result (rows : list Z) : ReturnSetInfo :=
  MkReturnSetInfo 3 SFRM_Materialize
    (Some (MkTuplestore false (map (fun n => [(n, false)]) rows))) (Some sample_list).

Lemma chdb_query_spec_witness :
  fds_valid blocks_os /\ (sample_chdb_query blocks_os).1 = Ok (sample_result [1; 2; 3]) /\
  exists helper pid payload, started blocks_os pid (b8 "SELECT n FROM t") payload helper.
Proof.
  assert (Hv : fds_valid blocks_os) by (unfold fds_valid; cbn; repeat constructor; lia).
  split; [exact Hv|].
  assert (Hres : (sample_chdb_query blocks_os).1 = Ok (sample_result [1; 2; 3]))
    by (vm_compute; reflexivity).
  destruct (sample_chdb_query blocks_os) as [r c'] eqn:Hrun. cbn [fst] in Hres. subst r.
  split; [reflexivity|].
  destruct (chdb_query_spec _ _ _ _ _ _ _ _ _ _ _ _ _ _ _ _ sample_in Hv eq_refl Hrun)
    as (rsinfo & tupdesc & helper & helper' & pid & payload & rows & _ & _ & _ & _ & _ & Hst & _).
  exists helper, pid, payload. exact Hst.
Defined.

(** The second of three blocks cannot be read. *)
Lemma chdb_query_truncates_witness :
  (sample_chdb_query broken_os).1 = Ok (sample_result [1]) /\
  exists blocks, decoded sample_pgch (content (o_in broken_os data)) = (blocks, Some (b8 "bad block")) /\
    (chdb_copy_receive (sample_executor false) sample_events [1%nat] sample_rt 0
       (channel_reader (H2 := channel_recv length (fun _ => [])) (pg := sample_pgch) (H1 := sample_reader)
          (chdb_helper_start length (fun _ => []) true (b8 "/usr/lib") (b8 "UTC")
             (guc_context sample_settings CHDB_CMD_SELECT) (b8 "SELECT n FROM t") [] broken_os).2).1
       []).1 <> Ok 1.
Proof.
  assert (Hv : fds_valid broken_os) by (unfold fds_valid; cbn; repeat constructor; lia).
  assert (Hres : (sample_chdb_query broken_os).1 = Ok (sample_result [1])) by (vm_compute; reflexivity).
  split; [exact Hres|].
  assert (Hstart : (chdb_helper_start length (fun _ => []) true (b8 "/usr/lib") (b8 "UTC")
    (guc_context sample_settings CHDB_CMD_SELECT) (b8 "SELECT n FROM t") [] broken_os).1 = Ok tt)
    by (vm_compute; reflexivity).
  assert (Hreader : (rd_error (channel_reader (H2 := channel_recv length (fun _ => [])) (pg := sample_pgch)
      (H1 := sample_reader) (chdb_helper_start length (fun _ => []) true (b8 "/usr/lib") (b8 "UTC")
             (guc_context sample_settings CHDB_CMD_SELECT) (b8 "SELECT n FROM t") [] broken_os).2).1,
    rd_columns (channel_reader (H2 := channel_recv length (fun _ => [])) (pg := sample_pgch)
      (H1 := sample_reader) (chdb_helper_start length (fun _ => []) true (b8 "/usr/lib") (b8 "UTC")
             (guc_context sample_settings CHDB_CMD_SELECT) (b8 "SELECT n FROM t") [] broken_os).2).1)
    = (Some (b8 "bad block"), 1)) by (vm_compute; reflexivity).
  apply pair_equal_spec in Hreader as [Herr Hcols].
  pose proof (surjective_pairing (chdb_helper_start length (fun _ => []) true (b8 "/usr/lib") (b8 "UTC")
    (guc_context sample_settings CHDB_CMD_SELECT) (b8 "SELECT n FROM t") [] broken_os)) as Hpair.
  rewrite Hstart in Hpair.
  destruct (chdb_query_truncates length (fun _ => []) true (b8 "/usr/lib") (b8 "UTC") sample_pgch
    (decoder := sample_decoder) (rowreader := numbers) (blocks_reader := sample_reader) 0
    (fun _ _ => Ok tt) (fun _ => Ok tt) (b8 "SELECT n FROM t") sample_caller sample_list sample_settings
    broken_os _ sample_in (b8 "bad block") Hv eq_refl ltac:(discriminate) Hpair Herr)
    as (blocks & Hdec & _ & _ & Hcopy & _).
  exists blocks. split; [exact Hdec|]. apply Hcopy. intros Hz.
  pose proof (eq_trans (eq_sym Hcols) Hz) as Hx. discriminate Hx.
Defined.
