(* ===== verification/EndToEnd.v ===== *)
(** * EndToEnd: a COPY from the backend to libchdb and back

    The two processes of a COPY, joined by what the kernel carries between
    them: the setup channel, the data channel and the exit status. *)

From stdpp Require Import prelude gmap.
From Stdlib Require Import Strings.Byte.
From S2P Require Import Prelude Stateful Logic Total Words Catalog Pipe Setup SetupReader Structure Os Channel.
From S2P Require Import ChannelLogic ChannelProps ChannelTheorems Lifecycle Chdb HelperProc HelperProps.
From S2P Require Import HelperTheorems Query Backend Wire Sink Send SendProps Source ChannelWire.
From S2P Require Import Insert Receive ReceiveProps ReceiveLogic ReceiveTheorems ReceivePlain Reader.
From S2P Require Import Options Surroundings NativeSamples.
Local Open Scope Z_scope.

Section end_to_end.
Context (utf8_cliplen : bytes -> nat) (strerror : errno -> bytes).
Context (little : bool) (pkglib session_timezone : bytes) (alloc : Z -> bool).
Context (ctx : chdbHelperContext) (query : bytes) (ps : params).

#[local] Instance helper_wire : Wire channel := channel_wire utf8_cliplen strerror.
#[local] Instance helper_wire_laws : WireLaws channel := channel_wire_laws utf8_cliplen strerror.
#[local] Instance helper_recv : RecvWire channel := channel_recv utf8_cliplen strerror.
#[local] Instance helper_recv_laws : RecvLaws channel := channel_recv_laws utf8_cliplen strerror.

(** A process status as waitpid gives it: [W_EXITCODE(status, 0)]. *)
Definition wait_status (status : Z) : Z := Z.shiftl status 8.

(** The helper process [s], a child of a backend that had [o] before it started
    it and [c] after that: it finds the payload on its setup channel, its memory
    suffices, and its end is what waitpid tells. *)
Record child (o : os) (c : channel) (s : proc) (status : Z) : Prop := Child {
  child_setup : o_sent c.2 setup = o_sent o setup ++ content (pr_setup s);
  child_clean : clean (pr_setup s);
  child_alloc n : n <= CHDB_SETUP_MAX -> alloc n = true;
  child_connects : pr_connects s = true;
  child_objects : pr_objects s = ∅;
  child_exit : o_exit c.2 = wait_status status;
}.

(** What a backend can put into a payload. *)
Record sendable : Prop := Sendable {
  sendable_context : context_fits ctx;
  sendable_zone : string_fits session_timezone;
  sendable_query : string_fits query;
  sendable_params : params_fit ps;
  sendable_size payload : build_setup little [] ctx session_timezone query ps = Ok payload ->
    zlen payload < CHDB_SETUP_MAX;
}.

(** The settings come first. *)
Definition settings_call : call :=
  CallQuery (session_settings (hc_max_memory ctx) (hc_max_threads ctx) (hc_max_parsers ctx)
    session_timezone).

Lemma wait_status_0 status : wait_status status = 0 -> status = 0.
Proof. unfold wait_status. rewrite Z.shiftl_mul_pow2 by lia. lia. Qed.

(** A child that exits with 0 applied the settings and ran its command. *)
Lemma child_ran o c s s' :
  sendable -> fds_valid o -> hc_cmd ctx ∈ commands ->
  chdb_helper_start utf8_cliplen strerror little pkglib session_timezone ctx query ps o = (Ok tt, c) ->
  child o c s 0 -> main little alloc s = (Ok 0, s') ->
  exists cs out err,
    ran (settings_call :: cs) out err s s' /\
    commanded (hc_cmd ctx) query ps (set_answers (tail (pr_answers s)) s) 0 cs out err.
Proof.
  intros [Hctx Htz Hq Hps Hsz] Hv Hcmd Hstart [Hsetup Hclean Halloc Hconn Hobj _] Hmain.
  pose proof (helper_start_wp utf8_cliplen strerror little pkglib session_timezone ctx query ps o Hv) as Hs.
  rewrite Hstart in Hs. destruct Hs as (pid & payload & _ & Hb & Hst).
  assert (Hin : content (pr_setup s) = payload).
  { rewrite (started_setup _ _ _ _ _ Hst) in Hsetup. by apply app_inv_head in Hsetup. }
  pose proof (main_wp little alloc ctx session_timezone query ps payload s Hb Hctx Htz Hq Hps
    (Hsz _ Hb) Hin Hclean Halloc Hconn Hobj Hcmd) as Hm.
  apply (wpS_Ok _ _ _ _ _ _ Hmain) in Hm as (cs & out & err & Hran & Hcase).
  destruct (next (pr_answers s)).1; [by destruct Hcase as [? _]|].
  by exists cs, out, err.
Qed.

(** ** COPY TO *)

Section copy_to.
Context (pg : PgClickhouse) `{encoder : !Encoder pg, laws : !WriterLaws pg}.

(** What [chdb_copy] does between starting its helper and counting the rows. *)
Definition copy_to (desc : list attribute) (scan : list (res error (list cell)))
    (structure : bytes) (attnums : list nat) : H Z :=
  rows ← chdb_copy_send pg desc scan structure attnums;
  chdb_helper_finish utf8_cliplen strerror ;;
  mret rows.

Lemma copy_to_wp desc scan structure attnums c :
  scan_fits desc attnums scan -> attnums <> [] -> running c ->
  wpS (copy_to desc scan structure attnums)
    (fun n c' => o_exit c.2 = 0 /\ exists cols rows blocks,
       scanned desc attnums scan rows /\ rows = concat blocks /\
       o_sent c'.2 data = o_sent c.2 data ++ concat (map (block_bytes cols) blocks) /\
       n = u64 (zlen scan))
    (fun _ _ => True) c.
Proof.
  intros Hscan Hne Hrun. unfold copy_to. s_step.
  eapply wpS_mono; [by apply copy_send_wp| |done].
  intros n c1 (type & cols & rows & blocks & rest & _ & _ & _ & Hrows & Heq & _ & [R L S] & Hn).
  s_step. eapply wpS_mono; [apply helper_finish_wp, R| |done]. intros [] c2 [He Hfin]. s_step.
  split; [by rewrite <- (heard_exit _ _ L)|]. exists cols, rows, (blocks ++ rest_block rest).
  split; [done|]. split; [by rewrite Heq, concat_app, rest_block_rows|]. split; [|done].
  rewrite (received_sent _ _ _ (finished_received _ _ Hfin)). exact S.
Qed.

(** A load that ended well was given its whole input and accepted it. *)
Lemma loaded_success q input appends stream rs cs err :
  loaded q ps input appends stream rs 0 cs err ->
  appended cs = content input /\ head cs = Some (CallStreamInsert q ps) /\ last cs = Some CallDone.
Proof.
  intros Hl. inversion Hl as [|status cs1 err1 He Hfed|cs1 err1 He Hfed Hn|]; subst.
  - inversion Hfed.
  - inversion Hfed as [bs H1 H2| |]; subst.
    change (appended (CallStreamInsert q ps :: ?l)) with (appended l).
    rewrite appended_map, H1. cbn. rewrite app_nil_r. split_and!; try done.
    by rewrite app_comm_cons, last_snoc.
Qed.

(** A COPY TO that succeeds is a load that succeeded: the helper the backend
    started applied the settings, ran exactly the INSERT it was sent, was given
    every row of the scan, each once and in order, as the Native blocks the
    encoder makes of them, and libchdb accepted the whole; the count is the
    number of rows. In particular no row is lost where the two processes meet,
    and no success is reported while the helper failed. *)
Lemma load_end_to_end desc scan structure attnums o c c' n s s' status :
  sendable -> fds_valid o -> hc_cmd ctx = CHDB_CMD_INSERT ->
  scan_fits desc attnums scan -> attnums <> [] ->
  chdb_helper_start utf8_cliplen strerror little pkglib session_timezone ctx query ps o = (Ok tt, c) ->
  copy_to desc scan structure attnums c = (Ok n, c') ->
  child o c s status -> main little alloc s = (Ok status, s') ->
  o_sent c'.2 data = o_sent o data ++ content (pr_stdin s) ->
  exists cols rows blocks cs,
    scanned desc attnums scan rows /\ rows = concat blocks /\
    pr_calls s' = pr_calls s ++ settings_call :: cs /\
    head cs = Some (CallStreamInsert query ps) /\
    appended cs = concat (map (block_bytes cols) blocks) /\ last cs = Some CallDone /\
    n = u64 (zlen scan).
Proof.
  intros Hsend Hv Hcmd Hscan Hne Hstart Hcopy Hchild Hmain Hpipe.
  pose proof (helper_start_wp utf8_cliplen strerror little pkglib session_timezone ctx query ps o Hv) as Hs.
  rewrite Hstart in Hs. destruct Hs as (pid & payload & _ & _ & Hst).
  pose proof (copy_to_wp desc scan structure attnums c Hscan Hne (started_running _ _ _ _ _ Hst)) as Hw.
  apply (wpS_Ok _ _ _ _ _ _ Hcopy) in Hw as (He & cols & rows & blocks & Hrows & Hb & Hsent & Hn).
  rewrite (child_exit _ _ _ _ Hchild) in He. apply wait_status_0 in He as ->.
  destruct (child_ran o c s s') as (cs & out & err & Hran & Hcom); try done.
  { rewrite Hcmd. unfold commands. set_solver. }
  exists cols, rows, blocks, cs. destruct Hcom as [[Hx _]|[(_ & _ & Hl)|[Hx _]]];
    [rewrite Hcmd in Hx; discriminate| |rewrite Hcmd in Hx; discriminate].
  apply loaded_success in Hl as (Happ & Hhd & Hlast). split_and!; try done.
  - apply (ran_calls _ _ _ _ _ Hran).
  - rewrite Happ. change (pr_stdin (set_answers _ s)) with (pr_stdin s).
    rewrite (proj1 (started_data _ _ _ _ _ Hst)), Hpipe in Hsent. by apply app_inv_head in Hsent.
Qed.
End copy_to.

(** ** COPY FROM *)

Section copy_from.
Context (pg : PgClickhouse) `{decoder : !BlockDecoder pg, !DecoderLaws pg}.
Context `{rowreader : !RowReader, !RowReaderLaws}.
Context `{blocks_reader : !BlockReader pg, !BlockReaderLaws}.
Context (ex : Executor) `{!ExecutorLaws ex}.

(** A SELECT that ended well sent its whole stream. *)
Lemma selected_success q rs w cs out err :
  selected q ps rs w 0 cs out err ->
  cs = [CallStreamQuery q ps] /\ out = (stream_content (tail rs)).1 /\
  (stream_content (tail rs)).2 = None.
Proof.
  intros Hsel. inversion Hsel as [|status out1 err1 Hn Hstr]; subst. inversion Hstr as [Hc| |]; subst.
  by rewrite Hc.
Qed.

(** The reader of a stream whose rows all have a value per copied column. *)
Lemma reader_receivable rel attnums blocks more ending :
  Forall (fun n => (0 < n <= length (rel_desc rel))%nat) attnums -> ending <> UB ->
  Forall (fun raw => rd_width raw = length attnums) (rows_of (blocks ++ more)) ->
  receivable rel attnums (expected_reader blocks ending).
Proof.
  intros Hn Hend Hw. unfold rows_of in Hw. rewrite map_app, concat_app in Hw.
  apply Forall_app in Hw as [Hw _].
  destruct blocks as [|b blocks]; split; try done; cbn.
  - by destruct ending, reader_init_fetches; constructor.
  - by destruct ending, reader_init_fetches.
  - apply Forall_app. split; [|by destruct ending; repeat constructor].
    apply Forall_map. exact Hw.
Qed.

Lemma map_Ok_inj {E A} (l l' : list A) : map (Ok (E := E)) l = map Ok l' -> l = l'.
Proof.
  revert l'. induction l as [|x l IH]; intros [|y l']; try done. cbn. intros [= -> Hl].
  f_equal. by apply IH.
Qed.

(** A COPY FROM that succeeds took what libchdb streamed: the helper the backend
    started applied the settings, ran exactly the SELECT it was sent, streamed the
    result to its end and exited with status 0; its output decodes to its end
    without an error; and each row of it has its fate. *)
Lemma store_end_to_end rel attnums rt enc o c s s' status i n tr :
  sendable -> fds_valid o -> hc_cmd ctx = CHDB_CMD_SELECT ->
  chc_in_init CHDB_NATIVE_SOURCE_BYTES = inl i ->
  chdb_helper_start utf8_cliplen strerror little pkglib session_timezone ctx query ps o = (Ok tt, c) ->
  child o c s status -> main little alloc s = (Ok status, s') ->
  pr_stdout s' = pr_stdout s ++ content (o_in o data) ->
  Forall (fun n => (0 < n <= length (rel_desc rel))%nat) attnums ->
  Forall (fun raw => rd_width raw = length attnums)
    (rows_of (decoded pg (content (o_in o data))).1) ->
  let reader := (channel_reader (pg := pg) c).1 in
  rd_columns reader <> 0 ->
  chdb_copy_receive ex rel attnums rt enc reader [] = (Ok n, tr) ->
  exists blocks pl fates,
    pr_calls s' = pr_calls s ++ [settings_call; CallStreamQuery query ps] /\
    stream_content (tail (tail (pr_answers s))) = (content (o_in o data), None) /\
    decoded pg (content (o_in o data)) = (blocks, None) /\
    planned ex rel attnums enc pl /\ finished ex pl rt (rows_of blocks) fates n tr /\
    valid (copy_guard ex rel attnums rt enc reader) tr.
Proof.
  intros Hsend Hv Hcmd Hi Hstart Hchild Hmain Hpipe Hn Hw reader Hcols Hrun.
  pose proof (helper_start_wp utf8_cliplen strerror little pkglib session_timezone ctx query ps o Hv) as Hs.
  rewrite Hstart in Hs. destruct Hs as (pid & payload & _ & _ & Hst).
  destruct (started_data _ _ _ _ _ Hst) as [_ Hin].
  pose proof (take_blocks_handed pg (S (length (wire_rest c))) (NativeSource pg i None) c eq_refl
    (started_running _ _ _ _ _ Hst)) as Htake.
  rewrite (init_pending _ _ _ Hi) in Htake. cbn [app] in Htake. specialize (Htake ltac:(lia)).
  subst reader. unfold channel_reader, source_for in Hcols, Hrun |- *. rewrite Hi in Hcols, Hrun |- *.
  rewrite reader_over_spec in Hcols, Hrun |- *.
  destruct (take_blocks pg _ _ c) as [[blocks ending] c1]. cbn [fst snd] in Hcols, Hrun |- *.
  unfold handed in Htake. cbn [fst snd] in Htake.
  change (wire_rest c) with (content (o_in c.2 data)) in Htake. rewrite Hin in Htake.
  assert (Hmore : exists more, (decoded pg (content (o_in o data))).1 = blocks ++ more /\ ending <> UB).
  { unfold decoded. destruct ending as [err|e|]; [|destruct Htake as [[more ->] _]|done].
    - destruct Htake as [<- _]. exists []. by rewrite app_nil_r.
    - by exists more. }
  destruct Hmore as (more & Hmore & Hend). rewrite Hmore in Hw.
  pose proof (reader_receivable rel attnums blocks more ending Hn Hend Hw) as [Hr1 Hr2 Hr3].
  pose proof (copy_receive_wpS ex rel attnums rt enc _ Hr1 Hr2 Hr3) as Hwp.
  apply (wpS_Ok _ _ _ _ _ _ Hrun) in Hwp as [Hvalid [Ho Hrec]]. rewrite decide_False in Hrec by done.
  destruct Hrec as (_ & Herr & pl & raws & fates & Hpl & Hraws & Hfin).
  destruct blocks as [|b blocks].
  { exfalso. apply Hcols. cbn. by destruct ending, reader_init_fetches. }
  destruct ending as [err|e|]; [| |done].
  - cbn in Herr. subst err. destruct Htake as [Hdec Hended]. destruct (Hended eq_refl) as (He & _ & _).
    rewrite (child_exit _ _ _ _ Hchild) in He. apply wait_status_0 in He as ->.
    destruct (child_ran o c s s') as (cs & out & err & Hran & Hcom); try done.
    { rewrite Hcmd. unfold commands. set_solver. }
    destruct Hcom as [[_ Hsel]|[(Hx & _)|[Hx _]]];
      [|rewrite Hcmd in Hx; discriminate|rewrite Hcmd in Hx; discriminate].
    apply selected_success in Hsel as (-> & -> & Hnone).
    pose proof (ran_out _ _ _ _ _ Hran) as Hout. rewrite Hpipe in Hout. apply app_inv_head in Hout.
    change (pr_answers (set_answers ?l s)) with l in *.
    cbn [expected_reader rd_rows] in Hraws. rewrite app_nil_r in Hraws. apply map_Ok_inj in Hraws as <-.
    exists (b :: blocks), pl, fates. split_and!; try done.
    + apply (ran_calls _ _ _ _ _ Hran).
    + rewrite Hout, <- Hnone. by destruct (stream_content _).
  - exfalso. cbn in Hraws. assert (Hall : Forall is_Ok (map (Ok (E := error)) raws)).
    { apply Forall_map, Forall_true. intros raw. by exists raw. }
    rewrite <- Hraws in Hall. apply Forall_app in Hall as [_ Hall].
    by apply Forall_cons in Hall as [[? [=]] _].
Qed.
End copy_from.
End end_to_end.
