(* ===== verification/Assembly.v ===== *)
(** * Assembly: chdb_copy and chdb_describe over the components they call

    Copy gives [chdb_copy] and [chdb_describe] over a server that answers their
    calls. Here the answers about helpers are those of the components: starting
    and finishing a helper (Channel), sending (Send), receiving (Receive) and
    describing (Select) over its channel. What such a run does is then known as
    far as libchdb (EndToEnd). *)

From stdpp Require Import prelude gmap.
From Stdlib Require Import Strings.Byte.
From S2P Require Import Prelude Stateful Logic Words Catalog Port Pipe Setup SetupReader Structure.
From S2P Require Import Query Options Backend Surroundings Copy CopyProps Os Channel ChannelLogic.
From S2P Require Import ChannelProps ChannelTheorems Lifecycle Chdb HelperProc HelperProps.
From S2P Require Import HelperTheorems Wire Sink Send SendProps Source ChannelWire Insert Receive.
From S2P Require Import ReceiveProps ReceiveLogic ReceiveTheorems ReceivePlain Select Reader.
From S2P Require Import NativeSamples EndToEnd.
Local Open Scope Z_scope.

Section assembly.
Context (utf8_cliplen : bytes -> nat) (strerror : errno -> bytes).
Context (little : bool) (pkglib session_timezone : bytes) (alloc : Z -> bool).
Context (pg : PgClickhouse) (port : Port) (sv : Server).

#[local] Instance helper_wire : Wire channel := channel_wire utf8_cliplen strerror.
#[local] Instance helper_wire_laws : WireLaws channel := channel_wire_laws utf8_cliplen strerror.
#[local] Instance helper_recv : RecvWire channel := channel_recv utf8_cliplen strerror.
#[local] Instance helper_recv_laws : RecvLaws channel := channel_recv_laws utf8_cliplen strerror.

(** ** Helpers of a trace *)

Definition start_with (o : os) (hcx : chdbHelperContext) (q : ch_query) : res error unit * channel :=
  chdb_helper_start utf8_cliplen strerror little pkglib session_timezone hcx (q_text q) (q_params q) o.

Definition start_of (ev : event) : option (chdbHelperContext * ch_query) :=
  match ev with EvHelperStart hcx q => Some (hcx, q) | _ => None end.

(** The channel of the last helper a trace started. *)
Definition channel_of (o : os) (tr : Backend.trace) : option channel :=
  '(hcx, q) ← last (omap start_of tr); Some (start_with o hcx q).2.

Definition on_channel {A} (o : os) (f : channel -> res error A) (tr : Backend.trace) : res error A :=
  match channel_of o tr with Some c => f c | None => UB end.

(** What moves rows or columns over a channel. *)
Record movers : Type := Movers {
  mv_send : channel -> res error Z * channel;
  mv_receive : channel -> res error Z * channel;
  mv_describe : channel -> res error (list chdbDescribedColumn) * channel;
}.

(** The channel after the last event of a trace. *)
Definition after_move (mv : movers) (tr : Backend.trace) (c : channel) : channel :=
  match last tr with
  | Some (EvCopySend _ _ _ _) => (mv_send mv c).2
  | Some (EvCopyReceive _ _ _ _ _) => (mv_receive mv c).2
  | Some (EvDescribe _) => (mv_describe mv c).2
  | _ => c
  end.

(** [sv], with the answers about helpers from a helper started on [o]. *)
Definition assembled (o : os) (mv : movers) : Server := {|
  sv_prevent_read_only := sv_prevent_read_only sv;
  sv_has_privs := sv_has_privs sv;
  sv_table_open := sv_table_open sv;
  sv_get_attnums := sv_get_attnums sv;
  sv_relkind_detail := sv_relkind_detail sv;
  sv_check_permissions := sv_check_permissions sv;
  sv_rls_enabled := sv_rls_enabled sv;
  sv_relation_exists := sv_relation_exists sv;
  sv_prev := sv_prev sv;
  sv_new_guc_level := sv_new_guc_level sv;
  sv_helper_start := fun _ hcx q => (start_with o hcx q).1 ;; Ok 0%nat;
  sv_copy_receive := fun tr _ => on_channel o (fun c => (mv_receive mv c).1) tr;
  sv_copy_send := fun tr _ => on_channel o (fun c => (mv_send mv c).1) tr;
  sv_describe := fun tr _ => on_channel o (fun c => (mv_describe mv c).1) tr;
  sv_helper_finish := fun tr _ => on_channel o
    (fun c => (chdb_helper_finish utf8_cliplen strerror (after_move mv tr c)).1) tr;
  sv_first_low_attno := sv_first_low_attno sv;
|}.

Lemma channel_started o tr hcx q : channel_of o (tr ++ [EvHelperStart hcx q]) = Some (start_with o hcx q).2.
Proof. unfold channel_of. rewrite omap_app. cbn. by rewrite last_snoc. Qed.

Lemma channel_moved o tr hcx q ev :
  start_of ev = None ->
  channel_of o (tr ++ [EvHelperStart hcx q; ev]) = Some (start_with o hcx q).2.
Proof.
  intros Hev. change [EvHelperStart hcx q; ev] with ([EvHelperStart hcx q] ++ [ev]).
  unfold channel_of. rewrite !omap_app. cbn. rewrite Hev. cbn. by rewrite last_snoc.
Qed.

Lemma started_Ok o hcx q h :
  ((start_with o hcx q).1 ;; Ok 0%nat : res error helper) = Ok h ->
  h = 0%nat /\ start_with o hcx q = (Ok tt, (start_with o hcx q).2).
Proof. destruct (start_with o hcx q) as [[[]| |] c]; [by intros [= <-]|done|done]. Qed.

(** A COPY over its components: the helper was started, the rows moved and the
    helper finished, one after another on one channel. *)
Lemma assembled_copy o mv ctx ctx' tr n tr' :
  structured pg port ctx ctx' ->
  chdb_copy pg port (assembled o mv) ctx tr = (Ok n, tr') ->
  exists q,
    make_query port ctx' = Ok q /\
    start_with o (helper_context ctx) q = (Ok tt, (start_with o (helper_context ctx) q).2) /\
    let c := (start_with o (helper_context ctx) q).2 in
    let r := if decide (cc_cmd_type ctx = CHDB_CMD_SELECT) then mv_receive mv c else mv_send mv c in
    r.1 = Ok n /\ (chdb_helper_finish utf8_cliplen strerror r.2).1 = Ok tt.
Proof.
  intros Hst Hrun. apply copy_run_Ok in Hrun as (ctx1 & q & h & move & answer & Hst1 & Hq & Hmv & H).
  rewrite (structured_inj _ _ _ _ _ Hst1 Hst) in *. clear Hst1. cbv zeta in H.
  destruct H as (Hs & Ha & Hf & _). exists q. split; [done|]. cbn in Hs.
  apply started_Ok in Hs as [-> Hstart]. split; [done|]. cbv zeta.
  assert (Hc : cc_cmd_type ctx' = cc_cmd_type ctx) by by destruct Hst as (s & -> & _).
  destruct Hmv as (rel & rt & _ & _ & Hmv). rewrite Hc in Hmv. case_decide;
    destruct Hmv as [-> ->]; cbn in Ha, Hf; unfold on_channel in Ha, Hf;
    rewrite channel_started in Ha; rewrite channel_moved in Hf by done;
    (split; [exact Ha|]); unfold after_move in Hf;
    change [?a; ?b] with ([a] ++ [b]) in Hf; by rewrite app_assoc, last_snoc in Hf.
Qed.

(** ** COPY TO *)

Section native.
Context `{encoder : !Encoder pg, !WriterLaws pg}.
Context `{decoder : !BlockDecoder pg, !DecoderLaws pg}.
Context `{rowreader : !RowReader, !RowReaderLaws}.
Context `{blocks_reader : !BlockReader pg, !BlockReaderLaws}.
Context (ex : Executor) (text_to_cstring : Datum -> bytes) (initial_check : Z).

(** The components, for the relation of a COPY and what its scan gives. *)
Definition native (rel : Relation) (rt : RangeTable) (scan : list (res error (list cell)))
    (ctx : chdbCopyContext) : movers := {|
  mv_send := chdb_copy_send pg (rel_desc rel) scan (cc_structure ctx) (cc_attnums ctx);
  mv_receive := fun c =>
    let r := channel_reader (pg := pg) c in
    ((chdb_copy_receive ex rel (cc_attnums ctx) rt (cc_encoding_check ctx) r.1 []).1, r.2);
  mv_describe := fun c =>
    let r := channel_reader (pg := pg) c in (chdb_native_describe text_to_cstring initial_check r.1, r.2);
|}.

Lemma copy_to_run desc scan structure attnums c n :
  (chdb_copy_send pg desc scan structure attnums c).1 = Ok n ->
  (chdb_helper_finish utf8_cliplen strerror (chdb_copy_send pg desc scan structure attnums c).2).1 = Ok tt ->
  copy_to utf8_cliplen strerror pg desc scan structure attnums c
  = (Ok n, (chdb_helper_finish utf8_cliplen strerror (chdb_copy_send pg desc scan structure attnums c).2).2).
Proof.
  intros Hs Hf. unfold copy_to, mbind, stateful_bind.
  destruct (chdb_copy_send pg desc scan structure attnums c) as [r c1]. cbn [fst snd] in *. rewrite Hs.
  destruct (chdb_helper_finish utf8_cliplen strerror c1) as [r2 c2]. cbn [fst snd] in *. by rewrite Hf.
Qed.

(** C8. A COPY TO that succeeds is a load that succeeded: the helper the backend
    started for the COPY's query applied the session's settings, ran exactly
    that INSERT with its parameters, was given every row of the scan, each once
    and in order, as the Native blocks the encoder makes of them, and libchdb
    accepted the whole; the count is the number of rows. In particular no row
    is lost where the two processes meet, and no success is reported while the
    helper failed. *)
Theorem copy_to_end_to_end ctx ctx' rel rt scan q o tr tr' n s s' status :
  cc_cmd_type ctx = CHDB_CMD_INSERT -> structured pg port ctx ctx' -> make_query port ctx' = Ok q ->
  sendable little session_timezone (helper_context ctx) (q_text q) (q_params q) ->
  fds_valid o -> scan_fits (rel_desc rel) (cc_attnums ctx) scan -> cc_attnums ctx <> [] ->
  let mv := native rel rt scan ctx' in
  chdb_copy pg port (assembled o mv) ctx tr = (Ok n, tr') ->
  let c := (start_with o (helper_context ctx) q).2 in
  child alloc o c s status -> main little alloc s = (Ok status, s') ->
  o_sent (chdb_helper_finish utf8_cliplen strerror (mv_send mv c).2).2.2 data
    = o_sent o data ++ content (pr_stdin s) ->
  exists cols rows blocks cs,
    scanned (rel_desc rel) (cc_attnums ctx) scan rows /\ rows = concat blocks /\
    pr_calls s' = pr_calls s ++ settings_call session_timezone (helper_context ctx) :: cs /\
    head cs = Some (CallStreamInsert (q_text q) (q_params q)) /\
    appended cs = concat (map (block_bytes cols) blocks) /\ last cs = Some CallDone /\
    n = u64 (zlen scan).
Proof.
  intros Hcmd Hst Hq Hsend Hv Hscan Hne mv Hrun c Hchild Hmain Hpipe.
  destruct (assembled_copy o mv ctx ctx' tr n tr' Hst Hrun) as (q' & Hq' & Hstart & Hmoved).
  rewrite Hq' in Hq. injection Hq as ->. fold c in Hstart, Hmoved. cbv zeta in Hmoved.
  rewrite Hcmd, decide_False in Hmoved by done. destruct Hmoved as [Hs Hf].
  assert (Ha : cc_attnums ctx' = cc_attnums ctx) by by destruct Hst as (st & -> & _).
  unfold mv, native in *. cbn [mv_send] in *. rewrite Ha in *.
  exact (load_end_to_end utf8_cliplen strerror little pkglib session_timezone alloc (helper_context ctx)
    (q_text q) (q_params q) pg (rel_desc rel) scan (cc_structure ctx') (cc_attnums ctx) o c _ n s s' status
    Hsend Hv Hcmd Hscan Hne Hstart (copy_to_run _ _ _ _ _ _ Hs Hf) Hchild Hmain Hpipe).
Qed.

(** ** COPY FROM *)

(** C9. A COPY FROM that succeeds took what libchdb streamed: the helper the
    backend started for the COPY's query applied the session's settings, ran
    exactly that SELECT with its parameters, streamed the result to its end and
    exited with status 0; its output decodes to its end without an error; and
    every row of it, in order, has one fate, which the relation shows: it is
    stored where it was routed, as completed and checked in its own round, or
    its triggers or foreign-data wrapper took it over. A plain table stores each
    of the rows, once and in order. The output's rows have a value for each
    column copied; an output without columns is not covered. *)
Theorem copy_from_end_to_end `{!ExecutorLaws ex}
    ctx ctx' rel rt scan q o tr tr' n s s' status i :
  cc_cmd_type ctx = CHDB_CMD_SELECT -> structured pg port ctx ctx' -> make_query port ctx' = Ok q ->
  sendable little session_timezone (helper_context ctx) (q_text q) (q_params q) ->
  fds_valid o -> chc_in_init CHDB_NATIVE_SOURCE_BYTES = inl i ->
  Forall (fun n => (0 < n <= length (rel_desc rel))%nat) (cc_attnums ctx) ->
  Forall (fun raw => rd_width raw = length (cc_attnums ctx))
    (rows_of (decoded pg (content (o_in o data))).1) ->
  let mv := native rel rt scan ctx' in
  chdb_copy pg port (assembled o mv) ctx tr = (Ok n, tr') ->
  let c := (start_with o (helper_context ctx) q).2 in
  child alloc o c s status -> main little alloc s = (Ok status, s') ->
  pr_stdout s' = pr_stdout s ++ content (o_in o data) ->
  let reader := (channel_reader (pg := pg) c).1 in
  rd_columns reader <> 0 ->
  exists blocks pl fates calls,
    pr_calls s' = pr_calls s ++ [settings_call session_timezone (helper_context ctx);
                                 CallStreamQuery (q_text q) (q_params q)] /\
    stream_content (tail (tail (pr_answers s))) = (content (o_in o data), None) /\
    decoded pg (content (o_in o data)) = (blocks, None) /\
    chdb_copy_receive ex rel (cc_attnums ctx) rt (cc_encoding_check ctx) reader [] = (Ok n, calls) /\
    planned ex rel (cc_attnums ctx) (cc_encoding_check ctx) pl /\
    finished ex pl rt (rows_of blocks) fates n calls /\
    forall target,
      rel_kind rel <> RELKIND_PARTITIONED_TABLE -> plain target -> ex_result_relation ex [] rt = Ok target ->
      exists ts, fates = map (Stored target) ts /\ length ts = length (rows_of blocks) /\
        written calls = map (pair target) ts /\ n = u64 (zlen ts).
Proof.
  intros Hcmd Hst Hq Hsend Hv Hi Hn Hw mv Hrun c Hchild Hmain Hpipe reader Hcols.
  destruct (assembled_copy o mv ctx ctx' tr n tr' Hst Hrun) as (q' & Hq' & Hstart & Hmoved).
  rewrite Hq' in Hq. injection Hq as ->. fold c in Hstart, Hmoved. cbv zeta in Hmoved.
  rewrite decide_True in Hmoved by done. destruct Hmoved as [Hr _].
  assert (Ha : cc_attnums ctx' = cc_attnums ctx /\ cc_encoding_check ctx' = cc_encoding_check ctx)
    by by destruct Hst as (st & -> & _).
  unfold mv, native in Hr. cbn [mv_receive fst] in Hr. rewrite (proj1 Ha), (proj2 Ha) in Hr.
  apply run_Ok in Hr. fold reader in Hr.
  destruct (store_end_to_end utf8_cliplen strerror little pkglib session_timezone alloc (helper_context ctx)
    (q_text q) (q_params q) pg ex rel (cc_attnums ctx) rt (cc_encoding_check ctx) o c s s' status i n _
    Hsend Hv Hcmd Hi Hstart Hchild Hmain Hpipe Hn Hw Hcols Hr)
    as (blocks & pl & fates & Hcalls & Hstream & Hdec & Hpl & Hfin & Hvalid).
  eexists blocks, pl, fates, _. split_and!; try done. intros target Hk Hplain Ht.
  destruct (plain_fates ex rel (cc_attnums ctx) rt (cc_encoding_check ctx) reader target Hplain Ht pl
    (planned_direct ex _ _ _ Hk _ Hpl) _ Hvalid _ _ (finished_fated _ _ _ _ _ _ _ Hfin)) as [ts ->].
  destruct (stored_written target ts) as (Hwr & _ & Hcount). exists ts.
  destruct Hfin as [[Hlen _] W A I N B S]. rewrite length_map in Hlen. split_and!; congruence.
Qed.

(** ** DESCRIBE *)

(** The reader of an output gives all of its rows without an error only when the
    output ends without one and the helper ended well. *)
Lemma reader_complete o hcx q c i :
  fds_valid o -> chc_in_init CHDB_NATIVE_SOURCE_BYTES = inl i -> start_with o hcx q = (Ok tt, c) ->
  let reader := (channel_reader (pg := pg) c).1 in
  rd_open reader = Ok None -> rd_error reader = None -> Forall is_Ok (rd_rows reader) ->
  exists blocks, decoded pg (content (o_in o data)) = (blocks, None) /\ o_exit c.2 = 0 /\
    rd_rows reader = map Ok (rows_of blocks).
Proof.
  intros Hv Hi Hstart reader Hopen Herr Hok.
  pose proof (helper_start_wp utf8_cliplen strerror little pkglib session_timezone hcx (q_text q)
    (q_params q) o Hv) as Hs. unfold start_with in Hstart. rewrite Hstart in Hs.
  destruct Hs as (pid & payload & _ & _ & Hst). destruct (started_data _ _ _ _ _ Hst) as [_ Hin].
  pose proof (take_blocks_handed pg (S (length (wire_rest c))) (NativeSource pg i None) c eq_refl
    (started_running _ _ _ _ _ Hst)) as Ht.
  rewrite (init_pending _ _ _ Hi) in Ht. cbn [app] in Ht. specialize (Ht ltac:(lia)).
  subst reader. unfold channel_reader, source_for in *. rewrite Hi in *. rewrite reader_over_spec in *.
  destruct (take_blocks pg _ _ c) as [[blocks ending] c1]. unfold handed in Ht. cbn [fst snd] in *.
  change (wire_rest c) with (content (o_in c.2 data)) in Ht. rewrite Hin in Ht. unfold decoded.
  destruct ending as [err|e|]; [| |done].
  - assert (err = None) as ->.
    { destruct blocks as [|b blocks]; [|done]. cbn in Hopen, Herr.
      destruct reader_init_fetches; [by injection Hopen|exact Herr]. }
    destruct Ht as [Hdec Hend]. destruct (Hend eq_refl) as (He & _ & _). exists blocks.
    split; [by rewrite Hdec|]. split; [done|].
    destruct blocks as [|b blocks]; cbn; [by destruct reader_init_fetches|]. by rewrite app_nil_r.
  - exfalso. destruct blocks as [|b blocks]; [done|]. cbn in Hok. apply Forall_app in Hok as [_ Hok].
    apply Forall_cons in Hok as [[? [=]] _].
Qed.

Lemma assembled_describe o mv ctx tr columns tr' :
  chdb_describe port (assembled o mv) ctx tr = (Ok columns, tr') ->
  exists q,
    make_query port (describing ctx) = Ok q /\
    let hcx := helper_context (describing ctx) in
    start_with o hcx q = (Ok tt, (start_with o hcx q).2) /\
    (mv_describe mv (start_with o hcx q).2).1 = Ok columns.
Proof.
  intros Hrun. apply describe_run_Ok in Hrun as (q & h & Hq & Hs & Hd & _ & _).
  exists q. split; [done|]. cbn in Hs, Hd. apply started_Ok in Hs as [-> Hstart].
  split; [done|]. unfold on_channel in Hd. by rewrite channel_started in Hd.
Qed.

Lemma describes_ok rows columns :
  Forall2 (describes text_to_cstring initial_check) rows columns -> Forall is_Ok rows.
Proof. induction 1 as [|next col rows cols (raw & name & type & -> & _) _ IH]; constructor; [by exists raw|done]. Qed.

(** A helper that described and exited with 0 sent the whole answer. *)
Lemma described_success q ps rs w cs out err :
  HelperProps.described q ps rs w 0 cs out err ->
  cs = [CallQueryWithParams q ps] /\ HelperProps.next rs = (None, out).
Proof.
  intros Hd. inversion Hd as [|Hn|]; subst. destruct (next rs). cbn in *. by subst.
Qed.

(** C10. The columns CREATE TABLE derives from a URL are those libchdb named: when
    chdb_describe succeeds, the helper it started applied the session's
    settings, ran exactly the DESCRIBE of the URL with its parameters, once,
    and exited with status 0; and the columns are those of the rows of libchdb's
    answer, in order: the text of a row's first value is the name and that of its
    second the type, and neither is null. *)
Theorem describe_end_to_end ctx rel rt scan q o tr tr' columns s s' status i :
  make_query port (describing ctx) = Ok q ->
  sendable little session_timezone (helper_context (describing ctx)) (q_text q) (q_params q) ->
  fds_valid o -> chc_in_init CHDB_NATIVE_SOURCE_BYTES = inl i ->
  chdb_describe port (assembled o (native rel rt scan ctx)) ctx tr = (Ok columns, tr') ->
  let hcx := helper_context (describing ctx) in
  let c := (start_with o hcx q).2 in
  child alloc o c s status -> main little alloc s = (Ok status, s') ->
  pr_stdout s' = pr_stdout s ++ content (o_in o data) ->
  exists blocks,
    pr_calls s' = pr_calls s ++ [settings_call session_timezone hcx;
                                 CallQueryWithParams (q_text q) (q_params q)] /\
    next (tail (pr_answers s)) = (None, content (o_in o data)) /\
    decoded pg (content (o_in o data)) = (blocks, None) /\
    Forall2 (fun raw col => exists name type,
        pgch_reader_fill initial_check raw = Ok [(name, false); (type, false)] /\
        dc_name col = text_to_cstring name /\ dc_type col = text_to_cstring type)
      (rows_of blocks) columns.
Proof.
  intros Hq Hsend Hv Hi Hrun hcx c Hchild Hmain Hpipe.
  destruct (assembled_describe o _ ctx tr columns tr' Hrun) as (q' & Hq' & Hstart & Hd).
  rewrite Hq' in Hq. injection Hq as ->. fold hcx in Hstart, Hd. fold c in Hstart, Hd.
  cbn [native mv_describe fst] in Hd. apply native_describe_Ok in Hd as (Hopen & _ & Herr & Hrows).
  destruct (reader_complete o hcx q c i Hv Hi Hstart Hopen Herr (describes_ok _ _ Hrows))
    as (blocks & Hdec & Hexit & Hmap).
  rewrite (child_exit _ _ _ _ _ Hchild) in Hexit. apply wait_status_0 in Hexit as ->.
  destruct (child_ran utf8_cliplen strerror little pkglib session_timezone alloc hcx (q_text q) (q_params q)
    o c s s' Hsend Hv ltac:(unfold commands, hcx, describing; case_decide; set_solver) Hstart Hchild Hmain)
    as (cs & out & err & Hran & Hcom).
  assert (Hcmd : hc_cmd hcx = CHDB_CMD_DESCRIBE) by (unfold hcx, describing; by case_decide).
  destruct Hcom as [[Hx _]|[(Hx & _)|[_ Hdes]]]; [rewrite Hcmd in Hx; discriminate..|].
  apply described_success in Hdes as [-> Hnext].
  pose proof (ran_out _ _ _ _ _ Hran) as Hout. rewrite Hpipe in Hout. apply app_inv_head in Hout as <-.
  exists blocks. split; [apply (ran_calls _ _ _ _ _ Hran)|]. split; [exact Hnext|]. split; [done|].
  rewrite Hmap, Forall2_fmap_l in Hrows. eapply Forall2_impl; [exact Hrows|].
  intros raw col (raw' & name & type & [= <-] & Hfill & ->). by exists name, type.
Qed.
End native.
End assembly.

(** ** Examples *)

#[local] Existing Instances numbers numbers_laws.

(** A context's query, and the child that runs it: it finds its payload in two
    pieces, and its input. *)
Definition sample_query_of (ctx : chdbCopyContext) : ch_query :=
  match make_query ascii_port ctx with Ok q => q | _ => ChQuery [] [] end.

Definition sample_child (hcx : chdbHelperContext) (q : ch_query) (input : bytes)
    (answers : list answer) : proc :=
  let payload := wire true hcx (b8 "UTC") (q_text q) (q_params q) in
  {| pr_setup := [Data (take 5 payload); Err EINTR; Data (drop 5 payload)];
     pr_stdin := [Data input]; pr_writes := [Takes 1]; pr_stdout := []; pr_stderr := [];
     pr_connects := true; pr_answers := answers; pr_insert := None; pr_appends := [];
     pr_objects := ∅; pr_calls := [] |}.

Abbreviation sample_start hcx q o :=
  (start_with length (fun _ => []) true (b8 "/usr/lib") (b8 "UTC") o hcx q).
Abbreviation sample_main s := (main true (fun _ => true) s).
Abbreviation sample_assembled o mv :=
  (assembled length (fun _ => []) true (b8 "/usr/lib") (b8 "UTC") (sample_server (fun _ => true)) o mv).

Definition sample_to : chdbCopyContext := set_cmd_type CHDB_CMD_INSERT CopyProps.sample_context.
Definition sample_to_structured : chdbCopyContext := set_structure (b8 "id String, name String") sample_to.
Definition sample_rt_to : RangeTable := RangeTableEntry 16384 ACL_INSERT ∅ ∅.

(** Readers of two columns, a block's byte and the next one. *)
#[local] Instance sample_pairs : BlockReader sample_pgch := {
  block_columns := fun _ => 2;
  block_rows := fun b => [[Z_of_byte b; Z_of_byte b + 1] : list Z];
  reader_init_fetches := true;
  pgch_reader_over := fun blocks ending =>
    match blocks with
    | [] => MkReader _ ending 0 [] None
    | _ :: _ =>
        MkReader _ (Ok None) 2
          (map Ok (concat (map (fun b => [[Z_of_byte b; Z_of_byte b + 1] : list Z]) blocks))
           ++ match ending with Ok _ => [] | Raise e => [Raise e] | UB => [UB] end)
          (match ending with Ok e => e | _ => None end)
    end;
}.

#[local] Instance sample_pairs_laws : BlockReaderLaws (pg := sample_pgch) (H1 := sample_pairs).
Proof. split. by intros [|b blocks] [e| |]. Qed.

Abbreviation sample_native reader rel rt scan ctx :=
  (native length (fun _ => []) sample_pgch (encoder := sample_encoder) (decoder := sample_decoder)
    (rowreader := numbers) (blocks_reader := reader) constant_executor fmt_d 0 rel rt scan ctx).

(** The COPY TO: its query, the bytes the sample encoder makes of its rows, and
    the child that takes them. *)
Definition sample_to_query : ch_query := sample_query_of sample_to_structured.
Definition sample_sent : bytes := [x01; x02; x03; x04; x05; x06; x07; x08].
Definition sample_loader : proc := sample_child (helper_context sample_to) sample_to_query sample_sent [].
Abbreviation sample_to_native :=
  (sample_native sample_reader sample_relation sample_rt_to sample_scan sample_to_structured).
Abbreviation sample_to_run :=
  (chdb_copy sample_pgch ascii_port (sample_assembled sample_os sample_to_native) sample_to []).
Abbreviation sample_to_channel := (sample_start (helper_context sample_to) sample_to_query sample_os).2.

Lemma sample_to_is_structured : structured sample_pgch ascii_port sample_to sample_to_structured.
Proof.
  exists (b8 "id String, name String"). split; [reflexivity|]. exists sample_relation.
  split; vm_compute; reflexivity.
Qed.

Lemma sample_to_sendable :
  sendable true (b8 "UTC") (helper_context sample_to) (q_text sample_to_query) (q_params sample_to_query).
Proof.
  split; [concrete..|]. intros payload Hb. vm_compute in Hb. injection Hb as <-. vm_compute. reflexivity.
Qed.

Lemma copy_to_end_to_end_witness :
  sample_to_run.1 = Ok 4 /\
  exists s' cs, sample_main sample_loader = (Ok 0, s') /\
    pr_calls s' = settings_call (b8 "UTC") (helper_context sample_to) :: cs /\
    head cs = Some (CallStreamInsert (q_text sample_to_query) (q_params sample_to_query)) /\
    last cs = Some CallDone.
Proof.
  assert (H1 : sample_to_run.1 = Ok 4) by (vm_compute; reflexivity).
  assert (H2 : (sample_main sample_loader).1 = Ok 0) by (vm_compute; reflexivity).
  assert (H3 : make_query ascii_port sample_to_structured = Ok sample_to_query) by (vm_compute; reflexivity).
  assert (H4 : child (fun _ => true) sample_os sample_to_channel sample_loader 0).
  { split; [vm_compute; reflexivity|concrete|reflexivity|reflexivity|reflexivity|vm_compute; reflexivity]. }
  assert (H5 : o_sent (chdb_helper_finish length (fun _ => []) (mv_send sample_to_native sample_to_channel).2).2.2 data
    = o_sent sample_os data ++ content (pr_stdin sample_loader)) by (vm_compute; reflexivity).
  split; [exact H1|]. apply run_Ok in H1. apply run_Ok in H2.
  destruct (copy_to_end_to_end length (fun _ => []) true (b8 "/usr/lib") (b8 "UTC") (fun _ => true)
    sample_pgch ascii_port (sample_server (fun _ => true)) (encoder := sample_encoder)
    (decoder := sample_decoder) (rowreader := numbers)
    (blocks_reader := sample_reader) constant_executor fmt_d 0
    sample_to sample_to_structured sample_relation sample_rt_to sample_scan sample_to_query sample_os
    [] _ 4 sample_loader _ 0 eq_refl sample_to_is_structured H3 sample_to_sendable sample_fds_valid
    ltac:(repeat constructor) ltac:(discriminate) H1 H4 H2 H5)
    as (cols & rows & blocks & cs & _ & _ & Hcalls & Hhd & _ & Hlast & _).
  exists (sample_main sample_loader).2, cs. split; [exact H2|]. split; [exact Hcalls|]. split; [exact Hhd|exact Hlast].
Defined.

(** The COPY FROM: three blocks of one row each. *)
Definition sample_from : chdbCopyContext :=
  CopyContext (Some sample_events) [1%nat] (Some sample_rt) s3_scheme CHDB_CMD_SELECT 30000 4096 0 0 0
    sample_url [] [] [] (b8 "csv") (b8 "id Int32") [] false.
Definition sample_from_query : ch_query := sample_query_of sample_from.
Definition sample_streamer : proc := sample_child (helper_context sample_from) sample_from_query []
  [(None, []); (None, []); (None, [x01; x02]); (None, [x03])].
Abbreviation sample_from_native := (sample_native sample_reader sample_events sample_rt [] sample_from).
Abbreviation sample_from_run :=
  (chdb_copy sample_pgch ascii_port (sample_assembled blocks_os sample_from_native) sample_from []).
Abbreviation sample_from_channel := (sample_start (helper_context sample_from) sample_from_query blocks_os).2.

Lemma sample_from_sendable :
  sendable true (b8 "UTC") (helper_context sample_from) (q_text sample_from_query) (q_params sample_from_query).
Proof.
  split; [concrete..|]. intros payload Hb. vm_compute in Hb. injection Hb as <-. vm_compute. reflexivity.
Qed.

Lemma blocks_fds_valid : fds_valid blocks_os.
Proof. unfold fds_valid. cbn. repeat constructor; lia. Qed.

Lemma copy_from_end_to_end_witness :
  sample_from_run.1 = Ok 3 /\
  exists s' ts calls, sample_main sample_streamer = (Ok 0, s') /\ length ts = 3%nat /\
    pr_calls s' = [settings_call (b8 "UTC") (helper_context sample_from);
                   CallStreamQuery (q_text sample_from_query) (q_params sample_from_query)] /\
    written calls = map (pair (sample_table false)) ts.
Proof.
  assert (H1 : sample_from_run.1 = Ok 3) by (vm_compute; reflexivity).
  assert (H2 : (sample_main sample_streamer).1 = Ok 0) by (vm_compute; reflexivity).
  assert (H3 : make_query ascii_port sample_from = Ok sample_from_query) by (vm_compute; reflexivity).
  assert (H4 : child (fun _ => true) blocks_os sample_from_channel sample_streamer 0).
  { split; [vm_compute; reflexivity|concrete|reflexivity|reflexivity|reflexivity|vm_compute; reflexivity]. }
  assert (H5 : pr_stdout (sample_main sample_streamer).2 = pr_stdout sample_streamer ++ content (o_in blocks_os data))
    by (vm_compute; reflexivity).
  assert (H6 : structured sample_pgch ascii_port sample_from sample_from)
    by (exists (b8 "id Int32"); split; reflexivity).
  assert (H7 : rd_columns (channel_reader (H2 := channel_recv length (fun _ => [])) (pg := sample_pgch)
    (H1 := sample_reader) sample_from_channel).1 = 1) by (vm_compute; reflexivity).
  split; [exact H1|]. apply run_Ok in H1. apply run_Ok in H2.
  destruct (copy_from_end_to_end length (fun _ => []) true (b8 "/usr/lib") (b8 "UTC") (fun _ => true)
    sample_pgch ascii_port (sample_server (fun _ => true)) (encoder := sample_encoder)
    (decoder := sample_decoder) (rowreader := numbers)
    (blocks_reader := sample_reader) constant_executor fmt_d 0
    sample_from sample_from sample_events sample_rt [] sample_from_query blocks_os
    [] _ 3 sample_streamer _ 0 sample_in eq_refl H6 H3 sample_from_sendable
    blocks_fds_valid eq_refl ltac:(repeat constructor; cbn; lia) ltac:(vm_compute; repeat constructor)
    H1 H4 H2 H5
    ltac:(intros Hz; pose proof (eq_trans (eq_sym H7) Hz) as Hx; discriminate Hx))
    as (blocks & pl & fates & calls & Hcalls & _ & Hdec & _ & _ & _ & Hplain).
  destruct (Hplain (sample_table false) ltac:(discriminate) ltac:(split; reflexivity) eq_refl)
    as (ts & _ & Hlen & Hwr & _).
  exists (sample_main sample_streamer).2, ts, calls. split; [exact H2|]. split; [|split; [exact Hcalls|exact Hwr]].
  rewrite Hlen. vm_compute in Hdec. injection Hdec as <-. reflexivity.
Defined.

(** The DESCRIBE of the same URL. *)
Definition sample_described_query : ch_query := sample_query_of (describing sample_from).
Definition sample_describer : proc :=
  sample_child (helper_context (describing sample_from)) sample_described_query []
    [(None, []); (None, [x01; x02; x03])].
Abbreviation sample_describe_native := (sample_native sample_pairs sample_events sample_rt [] sample_from).
Abbreviation sample_describe_run :=
  (chdb_describe ascii_port (sample_assembled blocks_os sample_describe_native) sample_from []).
Abbreviation sample_describe_channel :=
  (sample_start (helper_context (describing sample_from)) sample_described_query blocks_os).2.

Lemma sample_described_sendable :
  sendable true (b8 "UTC") (helper_context (describing sample_from)) (q_text sample_described_query)
    (q_params sample_described_query).
Proof.
  split; [concrete..|]. intros payload Hb. vm_compute in Hb. injection Hb as <-. vm_compute. reflexivity.
Qed.

Lemma describe_end_to_end_witness :
  sample_describe_run.1 = Ok [DescribedColumn (b8 "1") (b8 "2"); DescribedColumn (b8 "2") (b8 "3");
                              DescribedColumn (b8 "3") (b8 "4")] /\
  exists s', sample_main sample_describer = (Ok 0, s') /\
    pr_calls s' = [settings_call (b8 "UTC") (helper_context (describing sample_from));
                   CallQueryWithParams (q_text sample_described_query) (q_params sample_described_query)].
Proof.
  assert (H1 : sample_describe_run.1 = Ok [DescribedColumn (b8 "1") (b8 "2");
    DescribedColumn (b8 "2") (b8 "3"); DescribedColumn (b8 "3") (b8 "4")]) by (vm_compute; reflexivity).
  assert (H2 : (sample_main sample_describer).1 = Ok 0) by (vm_compute; reflexivity).
  assert (H3 : make_query ascii_port (describing sample_from) = Ok sample_described_query)
    by (vm_compute; reflexivity).
  assert (H4 : child (fun _ => true) blocks_os sample_describe_channel sample_describer 0).
  { split; [vm_compute; reflexivity|concrete|reflexivity|reflexivity|reflexivity|vm_compute; reflexivity]. }
  assert (H5 : pr_stdout (sample_main sample_describer).2 = pr_stdout sample_describer ++ content (o_in blocks_os data))
    by (vm_compute; reflexivity).
  split; [exact H1|]. apply run_Ok in H1. apply run_Ok in H2.
  destruct (describe_end_to_end length (fun _ => []) true (b8 "/usr/lib") (b8 "UTC") (fun _ => true)
    sample_pgch ascii_port (sample_server (fun _ => true)) (encoder := sample_encoder)
    (decoder := sample_decoder) (rowreader := numbers)
    (blocks_reader := sample_pairs) constant_executor fmt_d 0
    sample_from sample_events sample_rt [] sample_described_query blocks_os [] _ _ sample_describer _ 0
    sample_in H3 sample_described_sendable blocks_fds_valid eq_refl H1 H4 H2 H5) as (blocks & Hcalls & _).
  exists (sample_main sample_describer).2. split; [exact H2|exact Hcalls].
Defined.
